(* ===== verification/_CoqProject ===== *)
-Q . S2P
Prelude.v
PerfectHashMap.v
Float64.v
FastDiv.v
VirtualClock.v
ElementQueue.v
QueueWrap.v
CElementQueue.v
CppClock.v
QueueMatrix.v
RenderParser.v
Utf8.v
Wire.v
Codec.v
AggWire.v
Hash.v
IngestCodec.v
LoggingCodec.v
MatchingCodec.v
AgentInternalCodec.v
PulseCodec.v
AggregationCodec.v
Codecs.v
AggEquiv.v
Metrics.v
AggFramework.v
OtlpExport.v
OtlpEncoding.v
RcHashMap.v
Aggregator.v
Sums.v
AggregatorSpec.v
AggregatorRefine.v
MessageHandler.v
QueueHandler.v
CppCore.v
Core.v
Windows.v
System.v
Progress.v
Ffi.v
Pipeline.v
K8sTypes.v
Reflector.v
Tombstone.v
Matcher.v
MatcherSpec.v
Collector.v
IpAddr.v
K8sEncode.v
Writer.v
Connection.v
Startup.v
