(* ===== verification/Prelude.v ===== *)
(** * Verification of opentelemetry-network

    The Rust part of the network collector (src/crates) and the C and C++ code
    it exchanges memory with (src/util, src/reducer).  Collectors on hosts
    report sockets and samples; the matching cores, in C++, write aggregation
    messages into the element queues of a matrix; the aggregation core of the
    reducer reads the queues under a virtual clock, decodes each element, sums
    the samples of a window by the identities of the two ends, and publishes
    labelled points through an OTLP exporter.  The Kubernetes collector follows
    pods and their owners through watch streams, resolves each pod to its
    effective owner, and sends what it knows to the reducer as ingest messages
    over a compressed connection.

    ** Files and the source they model

    - [Prelude]: results with panics ([res], the notation [let?]), build
      profiles, fixed width integers ([wrap], [fits]), native byte order,
      iteration order of hash maps ([HashOrder]), shared lemmas, tactics and
      hint databases.
    - [PerfectHashMap]: perfect_hash_map/src/lib.rs, the slot vector of the
      parser.
    - [Float64]: the operations of [f64] the code uses, over the standard
      library's executable binary64.
    - [FastDiv], [VirtualClock]: timeslot/src/fast_div.rs and
      virtual_clock.rs.  A timestamp becomes a 16 bit slot; the clock decides
      which input may be read and when a slot ends.
    - [ElementQueue]: element-queue/src (layout.rs, raw.rs, lib.rs), the
      shared memory ring; its memory is a record and its handles carry the
      cached indices of the source.  [QueueWrap]: its positions past 4 GiB.
    - [CElementQueue]: util/element_queue.h, element_queue.c and
      element_queue_cpp.h, the same ring in C and C++, and the system of a C
      producer with a consumer in either language.
    - [CppClock]: util/fast_div.h and reducer/util/virtual_clock.cc, the
      originals of the divider and the clock.
    - [QueueMatrix]: util/element_queue_writer.cc, the writer that waits for
      space, and reducer/rpc_queue_matrix.h.
    - [RenderParser]: render_parser/src (lib.rs, message.rs), registration
      and framing.
    - [Utf8], [Wire], [AggWire]: std::str::from_utf8, the layout of
      [repr(C)] structs, and render/ebpf_net/aggregation/src
      (wire_messages.rs, encoder.rs, parsed_message.rs).
    - [Hash]: the perfect hashes and message registries of every generated
      crate of render/ebpf_net and of the test application render/test/app1.
    - [Codec]: the template of the generated encoders and decoders;
      [IngestCodec], [LoggingCodec], [MatchingCodec], [AgentInternalCodec],
      [AggregationCodec], [PulseCodec]: each of their messages by its literals
      (for message X: wire_X with the struct, metadata and asserted layout of
      wire_messages.rs, encode_X of encoder.rs, decode_X of
      parsed_message.rs), and the contents of these three files as lists
      (wires_1, encoders_1, decoders_1, ...) that make up [messages];
      [Codecs]: the theorems over all of them; [AggEquiv]: the template
      against the direct translation of [AggWire].
    - [Metrics], [AggFramework]: reducer/src/metrics.rs, internal_events.rs,
      and aggregation_framework.rs.
    - [OtlpExport], [OtlpEncoding]: otlp_export/src/lib.rs and
      reducer/src/otlp_encoding.rs.
    - [RcHashMap]: the interface of the reference counted map crate, which is
      outside the repository, and an instance over finite maps.
    - [Aggregator]: reducer/src/aggregator.rs.
    - [Sums], [AggregatorSpec], [AggregatorRefine]: the ledger that specifies
      the aggregator, the invariant that relates them and the refinement.
    - [MessageHandler]: reducer/src/aggregation_message_handler.rs and the
      callbacks of aggregation_core.rs.
    - [QueueHandler]: reducer/src/queue_handler.rs, against the interface
      [BatchReader] that [ElementQueue] implements.
    - [CppCore]: reducer/core.cc, the loop over the queues of the C++ cores.
    - [Core]: reducer/src/aggregation_core.rs.
    - [Windows]: the elements of a queue that are handled, and the windows of
      one slot they fall in.
    - [System]: producers and the core's loop over the rings as one system;
      [Progress]: its turns consume what the rings hold.
    - [Ffi]: reducer/src/ffi.rs and the entry points of cloud-collector-sys,
      kernel-collector-sys and k8s-relay-sys; the C entry points are
      parameters.
    - [Pipeline]: reducer/aggregation/agg_core.cc, and the system of C++
      producers on a matrix and the Rust core built from it.
    - [K8sTypes]: k8s-collector/src (types.rs, output.rs, convert_to_meta.rs).
    - [Reflector]: the interface of the kube crate's store, which is outside
      the repository, and an instance over finite maps.
    - [Tombstone], [Matcher]: tombstone_adapter.rs and matcher.rs.
    - [MatcherSpec]: the view a receiver builds from the events, and the
      invariant of the matcher.
    - [Collector]: collector.rs (the pipeline) and config.rs.
    - [IpAddr]: the address parser of the standard library.
    - [K8sEncode], [Writer], [Connection]: encode.rs, writer.rs, and the
      connection loop of collector.rs; the socket and the LZ4 encoder are the
      class [Transport].
    - [Startup]: the configuration, start and printed settings of the reducer
      (reducer/src/lib.rs) and of the collector (k8s-collector-bin/src/main.rs,
      k8s-collector/src/lib.rs).

    ** Correspondence

    A Rust function is a definition of the same name; [&mut self] becomes
    state passing; [Result] and panics become [res]; [Option] is [option].
    Integers are [Z] with their width written out; an addition that may
    overflow takes the build [profile], panicking in [Debug] and wrapping in
    [Release].  Native byte order is the parameter [endian].  Strings are their
    UTF-8 bytes.  A [HashMap] is a [gmap]; its iteration order is the class
    [HashOrder].  What the loads of the stop flag give and the elapsed time of
    the queue loop are inputs of the loop.  In C and C++ code a failed
    [assert], an access outside an array and undefined behaviour are [Panic],
    and an exception is [Err].  What [tokio::select!] completes, and what the
    watch streams yield, are inputs of the collector's steps; an async
    function is the sequence of its effects.

    ** What the theorems show

    - From the producers to the published points ([pipeline_publishes_ledger]
      from C++, [system_publishes_ledger] over the rings, and its parts
      [core_publishes_ledger] and [aggregator_refines_ledger]): whatever the
      producers do between the visits of the core, it does not panic or get
      stuck; it consumes the elements committed to a ring from the first on and
      handles each once and in order, unless its slot is past; each encoded
      message acts as the operation it stands for; and every window, of one
      slot, sends the sums of the ledger, whatever the reference counted stores
      collect and whatever the order of the hash maps.  The loop returns when,
      and only when, it is told to stop ([core_run_returns]); while every ring
      holds elements two turns consume one ([core_never_stalls], when the first
      elements of the producers lie less than 2^15 slots apart, which is what
      the circular comparison of slots can order); and a core can be made from
      C++ exactly of valid ring descriptors ([aggregation_core_new_spec]).
    - The C and C++ side: its queue is matched by the Rust queue run by run
      ([c_queue_fifo]) and stays in its arrays ([c_queue_in_bounds]), for a
      storage whose size fits 32 bits; every pair of cores has a queue of its
      own ([matrix_one_to_one]); a writer that waits is released
      ([blocked_writer_returns]); the Rust clock is the C++ clock
      ([cpp_clock_agrees]); a batch of a C++ core handles the current slot and
      throws at a past one ([cpp_batch_in_slot]).
    - The queue is a FIFO of committed batches for any interleaving of the two
      handles, its errors are characterised, and a drained queue accepts.
    - The 16 bit clock refines one on unbounded slots under the stated drift
      bound; it makes progress; it ends a slot only when every input left it.
      The window end lies in the slot it closes.
    - The divider is within its stated accuracy and keeps the low bits.
    - Codecs round trip; the parser accepts exactly well framed messages; the
      hashes are in range and injective on their registries; the slot map
      refines a finite map.
    - Every point is published exactly once or accounted as failed, and the
      points of a window are the stated rows.
    - For all messages of the generated crates, what an encoder writes is
      framed by the parser and decoded to its arguments
      ([messages_delivered]); what a decoder accepts has the declared types
      ([decoders_typed]); the structs have the layout the crates' own tests
      assert ([layouts_agree]); the bodies that panic a decoder are
      characterised ([decoders_panic]).  For the aggregation messages the
      template agrees with the functions translated one by one
      ([aggregation_codecs_agree]).
    - From the watch streams to the socket ([collector_view],
      [events_delivered], [reducer_follows]): a receiver of the collector's
      bytes knows only stored pods, and all resolvable ones when no update of
      a live pod changes its owner, across any failures of the connection; the
      collector panics only on an event too large for its message
      ([run_crashes_by_size]).
    - The settings of the collector and the start of the reducer
      ([collector_settings], [reducer_starts]); printed settings are read back
      and arguments reach the C entry points unchanged.

    Theorems about behaviour that differs from its description are stated of
    the code as it is: a power of two saturates the divider, inputs added late
    block the clock, an empty ring can refuse an element it has room for and
    its C++ writer then waits for good, a debug build panics after 4 GiB in a
    queue ([debug_queue_panics]), a short header panics a decoder, averages
    are not in the unit of their description, a pod that stays live across an
    epoch may not be announced in it, and a host name for the reducer becomes
    the local host.

    ** Fuel

    [QueueHandler.drain] recurs on fuel; the theorems ask for more fuel than
    unread elements, or than the ring has places, which suffices since each
    round consumes an element or ends the batch; [Core.turn_fuel] is such an
    amount.  [Core.run_loop] counts turns, and [core_run_returns] holds for
    every count that reaches the stop flag.  The batch of [CppCore] counts down
    from the bound of the code, 10000, and the retries of [QueueMatrix] follow
    the list of heads its attempts find.  The iterators of [PerfectHashMap]
    take the number of slots left and the UTF-8 scanners of [Utf8] the number
    of bytes left, which each round decreases.  Printing an integer of 64 bits
    takes at most 20 digits.  The receiver of [K8sEncode] takes the length of
    its input, and every message has at least one byte.  Every other loop is
    structural.

    ** Not modelled

    The C++ collectors and the ingest, matching and logging stages of the
    reducer, whose messages are inputs, the event loop and threads around the
    C++ cores, the eBPF programs, build scripts, logging, failed allocations,
    the texts of [Debug] and of the matcher's debug snapshot, and the crates
    the code calls (kube, tokio, lz4_flex, tonic, clap, the
    reference counted map), which are interfaces or inputs.  Atomics are
    sequentially consistent steps of the two queue handles. *)

From stdpp Require Export base list list_numbers numbers gmap strings.
From Stdlib Require Export ZArith Lia.

#[global] Open Scope Z_scope.

(** ** Results *)

(** A Rust computation returns a value, returns an error value, or panics. *)
Inductive res (E A : Type) : Type :=
| Ok (a : A)
| Err (e : E)
| Panic.
Arguments Ok {E A} a.
Arguments Err {E A} e.
Arguments Panic {E A}.

Definition rbind {E A B : Type} (c : res E A) (k : A -> res E B) : res E B :=
  match c with
  | Ok a => k a
  | Err e => Err e
  | Panic => Panic
  end.

Definition rmap {E A B : Type} (f : A -> B) (c : res E A) : res E B :=
  rbind c (fun a => Ok (f a)).

(** [Option::unwrap], [Option::expect] and the bounds check of an index
    expression: the absent value is a panic. *)
Definition unwrap {E A : Type} (o : option A) : res E A :=
  match o with Some a => Ok a | None => Panic end.

Declare Scope rust_scope.
Delimit Scope rust_scope with rust.

Notation "'let?' x ':=' c 'in' k" := (rbind c (fun x => k))
  (at level 10, x name, c at level 100, k at level 200) : rust_scope.
Notation "'let?' ' p ':=' c 'in' k" := (rbind c (fun x => match x with p => k end))
  (at level 10, p pattern, c at level 100, k at level 200) : rust_scope.

Lemma rbind_Ok {E A B} (c : res E A) (k : A -> res E B) b :
  rbind c k = Ok b -> exists a, c = Ok a /\ k a = Ok b.
Proof. destruct c; naive_solver. Qed.

Lemma rbind_no_panic {E A B} (c : res E A) (k : A -> res E B) :
  c <> Panic -> (forall a, c = Ok a -> k a <> Panic) -> rbind c k <> Panic.
Proof. destruct c; simpl; auto. Qed.

Lemma rmap_Ok {E A B} (f : A -> B) (c : res E A) b :
  rmap f c = Ok b -> exists a, c = Ok a /\ b = f a.
Proof. destruct c; naive_solver. Qed.

Lemma unwrap_Ok {E A} (o : option A) a : @unwrap E A o = Ok a -> o = Some a.
Proof. destruct o; naive_solver. Qed.

(** Invert a chain of [let?] that ended in [Ok]. *)
Ltac inv_res :=
  repeat match goal with
  | H : rbind _ _ = Ok _ |- _ =>
      let a := fresh "a" in let Ha := fresh "Ha" in
      apply rbind_Ok in H; destruct H as (a & Ha & H)
  | H : rmap _ _ = Ok _ |- _ =>
      let a := fresh "a" in let Ha := fresh "Ha" in
      apply rmap_Ok in H; destruct H as (a & Ha & H)
  | H : unwrap _ = Ok _ |- _ => apply unwrap_Ok in H
  | H : Ok _ = Ok _ |- _ => injection H as H
  | H : Ok _ = Err _ |- _ => discriminate H
  | H : Err _ = Ok _ |- _ => discriminate H
  | H : Panic = Ok _ |- _ => discriminate H
  end.

(** ** Machine integers

    A [w]-bit unsigned integer is a [Z] in [0, 2^w). *)

Definition wrap (w z : Z) : Z := z `mod` 2 ^ w.
Definition fits (w z : Z) : Prop := 0 <= z < 2 ^ w.

#[export] Instance fits_dec w z : Decision (fits w z).
Proof. unfold fits. apply _. Defined.

(** Reinterpretation of a [w]-bit pattern as a two's complement integer
    (the cast [as i16], [as i32], ...). *)
Definition as_signed (w z : Z) : Z := if z <? 2 ^ (w - 1) then z else z - 2 ^ w.

(** [!x] on a [w]-bit integer. *)
Definition bnot (w z : Z) : Z := 2 ^ w - 1 - z.

Definition wrapping_add (w a b : Z) : Z := wrap w (a + b).
Definition wrapping_sub (w a b : Z) : Z := wrap w (a - b).
Definition wrapping_mul (w a b : Z) : Z := wrap w (a * b).
Definition saturating_add (w a b : Z) : Z := Z.min (a + b) (2 ^ w - 1).
Definition saturating_sub (a b : Z) : Z := Z.max (a - b) 0.

(** The build profile: [Debug] has overflow checks and debug assertions,
    [Release] wraps and drops the assertions. *)
Inductive profile := Debug | Release.

(** The operator [+] on [w]-bit integers. *)
Definition add_chk {E} (p : profile) (w a b : Z) : res E Z :=
  if a + b <? 2 ^ w then Ok (a + b)
  else match p with Debug => Panic | Release => Ok (wrapping_add w a b) end.

(** The operator [-] on [w]-bit integers. *)
Definition sub_chk {E} (p : profile) (w a b : Z) : res E Z :=
  if b <=? a then Ok (a - b)
  else match p with Debug => Panic | Release => Ok (wrapping_sub w a b) end.

(** [debug_assert!]. *)
Definition debug_assert {E} (p : profile) (b : bool) : res E unit :=
  match p with
  | Debug => if b then Ok tt else Panic
  | Release => Ok tt
  end.

Lemma debug_assert_true {E} p b : b = true -> debug_assert (E := E) p b = Ok tt.
Proof. intros ->. by destruct p. Qed.

Lemma wrap_fits w z : 0 <= w -> fits w (wrap w z).
Proof. intros. unfold fits, wrap. apply Z.mod_pos_bound. lia. Qed.

Lemma wrap_small w z : fits w z -> wrap w z = z.
Proof. apply Z.mod_small. Qed.

Lemma wrap_add_l w a b : wrap w (wrap w a + b) = wrap w (a + b).
Proof. unfold wrap. apply Zplus_mod_idemp_l. Qed.
Lemma wrap_add_r w a b : wrap w (a + wrap w b) = wrap w (a + b).
Proof. unfold wrap. apply Zplus_mod_idemp_r. Qed.
Lemma wrap_sub_l w a b : wrap w (wrap w a - b) = wrap w (a - b).
Proof. unfold wrap. apply Zminus_mod_idemp_l. Qed.
Lemma wrap_sub_r w a b : wrap w (a - wrap w b) = wrap w (a - b).
Proof. unfold wrap. apply Zminus_mod_idemp_r. Qed.
Lemma wrap_wrap w a : wrap w (wrap w a) = wrap w a.
Proof. unfold wrap. apply Zmod_mod. Qed.

Create Rewrite HintDb wrapdb.
#[export] Hint Rewrite wrap_add_l wrap_add_r wrap_sub_l wrap_sub_r wrap_wrap : wrapdb.

Lemma as_signed_mod w z :
  0 < w -> fits w z -> wrap w (as_signed w z) = z.
Proof.
  intros Hw Hz. unfold as_signed. destruct (Z.ltb_spec z (2 ^ (w - 1))).
  - by apply wrap_small.
  - unfold wrap. rewrite <- (Z.mod_small z (2 ^ w)) at 2 by exact Hz.
    replace (z - 2 ^ w) with (z + (-1) * 2 ^ w) by lia.
    apply Z.mod_add. lia.
Qed.

Lemma as_signed_range w z :
  0 < w -> fits w z -> - 2 ^ (w - 1) <= as_signed w z < 2 ^ (w - 1).
Proof.
  intros Hw [? Hz]. unfold as_signed.
  assert (2 ^ w = 2 * 2 ^ (w - 1)) as Hp.
  { rewrite <- Z.pow_succ_r by lia. f_equal. lia. }
  destruct (Z.ltb_spec z (2 ^ (w - 1))); lia.
Qed.

(** The signed reading of a wrapped difference is the difference itself when
    that fits in the signed range. *)
Lemma as_signed_wrap w d :
  0 < w -> - 2 ^ (w - 1) <= d < 2 ^ (w - 1) -> as_signed w (wrap w d) = d.
Proof.
  intros Hw Hd. unfold as_signed, wrap.
  assert (2 ^ w = 2 * 2 ^ (w - 1)) as Hp.
  { rewrite <- Z.pow_succ_r by lia. f_equal. lia. }
  destruct (decide (0 <= d)).
  - rewrite Z.mod_small by lia. destruct (Z.ltb_spec d (2 ^ (w - 1))); lia.
  - replace (d `mod` 2 ^ w) with (d + 2 ^ w).
    + destruct (Z.ltb_spec (d + 2 ^ w) (2 ^ (w - 1))); lia.
    + symmetry. rewrite <- (Z.mod_add d 1) by lia. rewrite Z.mod_small; lia.
Qed.

(** ** Powers of two and masks *)

Definition is_pow2 (n : Z) : Prop := exists k, 0 <= k /\ n = 2 ^ k.

Lemma land_mask z k : 0 <= k -> Z.land z (2 ^ k - 1) = z `mod` 2 ^ k.
Proof. intros. rewrite <- Z.land_ones by done. f_equal. rewrite Z.ones_equiv. lia. Qed.

(** [z & !(2^k - 1)] clears the low [k] bits. *)
Lemma land_bnot w z k :
  0 <= k <= w -> fits w z ->
  Z.land z (bnot w (2 ^ k - 1)) = z - z `mod` 2 ^ k.
Proof.
  intros Hk Hz. unfold bnot.
  assert (0 < 2 ^ k) by lia.
  assert (2 ^ w = 2 ^ k * 2 ^ (w - k)) as Hw.
  { rewrite <- Z.pow_add_r by lia. f_equal. lia. }
  replace (2 ^ w - 1 - (2 ^ k - 1)) with (Z.shiftl (2 ^ (w - k) - 1) k).
  2: { rewrite Z.shiftl_mul_pow2 by lia. lia. }
  rewrite (Z.div_mod z (2 ^ k)) at 2 by lia.
  replace (2 ^ k * (z `div` 2 ^ k) + z `mod` 2 ^ k - z `mod` 2 ^ k)
    with (Z.shiftl (Z.shiftr z k) k)
    by (rewrite Z.shiftl_mul_pow2, Z.shiftr_div_pow2 by lia; lia).
  apply Z.bits_inj'. intros i Hi. rewrite Z.land_spec.
  destruct (decide (i < k)).
  - rewrite !Z.shiftl_spec_low by lia. by rewrite andb_false_r.
  - rewrite !Z.shiftl_spec by lia. rewrite Z.shiftr_spec by lia.
    replace (i - k + k) with i by lia.
    replace (2 ^ (w - k) - 1) with (Z.ones (w - k)) by (rewrite Z.ones_equiv; lia).
    destruct (decide (i - k < w - k)).
    + rewrite Z.ones_spec_low by lia. apply andb_true_r.
    + rewrite Z.ones_spec_high by lia. rewrite andb_false_r.
      symmetry. apply Z.testbit_false; [lia|].
      rewrite Z.div_small; [done|]. destruct Hz. split; [done|].
      apply Z.lt_le_trans with (2 ^ w); [done|]. apply Z.pow_le_mono_r; lia.
Qed.

Lemma mod_pow2_div a j k :
  0 <= j <= k -> (a `mod` 2 ^ k) `mod` 2 ^ j = a `mod` 2 ^ j.
Proof.
  intros. apply Z.mod_mod_divide.
  exists (2 ^ (k - j)). rewrite <- Z.pow_add_r by lia. f_equal. lia.
Qed.

(** Two integers closer than the modulus have different residues. *)
Lemma mod_near_ne x y m : 0 < x - y < m -> x `mod` m <> y `mod` m.
Proof.
  intros H Heq. pose proof (Z.div_mod x m ltac:(lia)). pose proof (Z.div_mod y m ltac:(lia)).
  assert (x - y = m * (x / m - y / m)) as Hd by lia.
  assert (0 < x / m - y / m < 1); [|lia]. rewrite Hd in H. split; nia.
Qed.

(** The bit trick [n & (n - 1) == 0] recognises the powers of two. *)
Lemma land_pred_pow2 n : 0 < n -> (Z.land n (n - 1) = 0 <-> is_pow2 n).
Proof.
  intros Hn. split.
  - intros H. exists (Z.log2 n). split; [apply Z.log2_nonneg|].
    destruct (Z.log2_spec n Hn) as [Hlo Hhi].
    destruct (decide (n = 2 ^ Z.log2 n)) as [|Hne]; [done|exfalso].
    (* the top bit is set in both [n] and [n - 1] *)
    assert (Z.testbit (Z.land n (n - 1)) (Z.log2 n) = true) as Ht.
    { rewrite Z.land_spec, Z.bit_log2 by done. simpl.
      assert (Z.log2 (n - 1) = Z.log2 n) as <-.
      { apply Z.log2_unique; [apply Z.log2_nonneg|lia]. }
      apply Z.bit_log2. pose proof (Z.pow_pos_nonneg 2 (Z.log2 n)).
      pose proof (Z.log2_nonneg n). lia. }
    rewrite H, Z.bits_0 in Ht. done.
  - intros (k & Hk & ->). rewrite land_mask by done. apply Z.mod_same. lia.
Qed.

(** ** Bytes, slices and byte order

    A byte is a [Z] in [0, 256); byte strings are lists of bytes. *)

Abbreviation bytes := (list Z) (only parsing).

(** The bytes of a literal. *)
Definition lit (s : string) : list Z := Z.of_N ∘ Ascii.N_of_ascii <$> String.list_ascii_of_string s.
Definition is_bytes (l : list Z) : Prop := Forall (fits 8) l.

(** [&l[a..b]], which panics unless [a <= b <= l.len()]. *)
Definition index_range {E A} (l : list A) (a b : nat) : res E (list A) :=
  if decide (a <= b)%nat then unwrap (sublist_lookup a (b - a) l) else Panic.

Lemma index_range_Ok {E A} (l : list A) i k :
  (i + k <= length l)%nat -> index_range (E := E) l i (i + k) = Ok (take k (drop i l)).
Proof.
  intros H. unfold index_range. rewrite decide_True by lia.
  replace (i + k - i)%nat with k by lia.
  by rewrite sublist_lookup_Some by done.
Qed.

Lemma index_range_inv {E A} (l : list A) i j r :
  index_range (E := E) l i j = Ok r ->
  (i <= j <= length l)%nat /\ r = take (j - i) (drop i l).
Proof.
  unfold index_range. destruct (decide (i <= j)%nat); [|done]. intros H. inv_res.
  apply sublist_lookup_Some' in H as [<- ?]. split; [lia|done].
Qed.

(** [&l[i]]. *)
Definition index {E A} (l : list A) (i : nat) : res E A := unwrap (l !! i).

(** [l[i..i + bs.len()].copy_from_slice(bs)] when the range is in bounds. *)
Definition write_at {A} (i : nat) (bs l : list A) : list A :=
  take i l ++ bs ++ drop (i + length bs)%nat l.

Lemma length_write_at {A} i (bs l : list A) :
  (i + length bs <= length l)%nat -> length (write_at i bs l) = length l.
Proof. intros. unfold write_at. rewrite !length_app, length_take, length_drop. lia. Qed.

Lemma sublist_write_same {A} i (bs l : list A) :
  (i + length bs <= length l)%nat -> take (length bs) (drop i (write_at i bs l)) = bs.
Proof.
  intros. unfold write_at.
  rewrite drop_app_length' by (rewrite length_take; lia).
  by rewrite take_app_length.
Qed.

Lemma lookup_write_at_ne {A} i (bs l : list A) j :
  (i + length bs <= length l)%nat -> (j < i \/ i + length bs <= j)%nat ->
  write_at i bs l !! j = l !! j.
Proof.
  intros Hl Hj. unfold write_at. destruct Hj as [Hj|Hj].
  - rewrite lookup_app_l by (rewrite length_take; lia). by apply lookup_take_lt.
  - rewrite lookup_app_r by (rewrite length_take; lia).
    rewrite lookup_app_r by (rewrite length_take; lia).
    rewrite lookup_drop. f_equal. rewrite length_take. lia.
Qed.

(** A slice is determined by the lookups inside it. *)
Lemma take_drop_ext {A} i n (l k : list A) :
  (forall j, (i <= j < i + n)%nat -> l !! j = k !! j) ->
  take n (drop i l) = take n (drop i k).
Proof.
  intros H. apply list_eq. intros j. destruct (decide (j < n)%nat).
  - rewrite !lookup_take_lt, !lookup_drop by done. apply H. lia.
  - by rewrite !lookup_take_ge by lia.
Qed.

Lemma sublist_write_disjoint {A} i (bs l : list A) a n :
  (i + length bs <= length l)%nat -> (a + n <= i \/ i + length bs <= a)%nat ->
  take n (drop a (write_at i bs l)) = take n (drop a l).
Proof. intros. apply take_drop_ext. intros j Hj. apply lookup_write_at_ne; lia. Qed.

(** The byte order of the target, for [to_ne_bytes] and [from_ne_bytes]. *)
Inductive endian := LittleEndian | BigEndian.

Definition to_ne_bytes (e : endian) (n : nat) (z : Z) : list Z :=
  let l := Z_to_little_endian (Z.of_nat n) 8 z in
  match e with LittleEndian => l | BigEndian => reverse l end.

Definition from_ne_bytes (e : endian) (bs : list Z) : Z :=
  little_endian_to_Z 8 (match e with LittleEndian => bs | BigEndian => reverse bs end).

Lemma length_to_ne_bytes e n z : length (to_ne_bytes e n z) = n.
Proof.
  pose proof (length_Z_to_little_endian (Z.of_nat n) 8 z ltac:(lia)).
  unfold to_ne_bytes. destruct e; rewrite ?length_reverse; lia.
Qed.

Lemma to_ne_bytes_bytes e n z : is_bytes (to_ne_bytes e n z).
Proof.
  pose proof (Z_to_little_endian_bound (Z.of_nat n) 8 z ltac:(lia) ltac:(lia)) as H.
  unfold to_ne_bytes, is_bytes, fits. destruct e; [done|].
  by rewrite Forall_reverse.
Qed.

Lemma from_to_ne_bytes e n z :
  fits (8 * Z.of_nat n) z -> from_ne_bytes e (to_ne_bytes e n z) = z.
Proof.
  intros H. unfold from_ne_bytes, to_ne_bytes.
  assert (little_endian_to_Z 8 (Z_to_little_endian (Z.of_nat n) 8 z) = z) as Hz.
  { rewrite little_endian_to_Z_to_little_endian by lia.
    apply Z.mod_small. by rewrite Z.mul_comm. }
  destruct e; by rewrite ?reverse_involutive.
Qed.

Lemma to_from_ne_bytes e n bs :
  length bs = n -> is_bytes bs -> to_ne_bytes e n (from_ne_bytes e bs) = bs.
Proof.
  intros <- Hb. unfold to_ne_bytes, from_ne_bytes. destruct e.
  - by apply Z_to_little_endian_to_Z.
  - rewrite <- length_reverse, Z_to_little_endian_to_Z; [apply reverse_involutive|done|done|].
    by rewrite Forall_reverse.
Qed.

Lemma from_ne_bytes_fits e bs :
  is_bytes bs -> fits (8 * Z.of_nat (length bs)) (from_ne_bytes e bs).
Proof.
  intros H. unfold from_ne_bytes, fits. rewrite Z.mul_comm.
  destruct e.
  - apply little_endian_to_Z_bound; [lia|done].
  - rewrite <- length_reverse. apply little_endian_to_Z_bound; [lia|].
    by rewrite Forall_reverse.
Qed.

(** ** Hash maps *)

(** The order in which a [HashMap] is iterated. *)
Class HashOrder := {
  hm_iter : forall {K A} `{Countable K}, gmap K A -> list (K * A);
}.
Class HashOrderLaws `{HashOrder} := {
  hm_iter_perm : forall K A `{Countable K} (m : gmap K A), hm_iter m ≡ₚ map_to_list m;
}.

#[export] Instance listed_order : HashOrder := {| hm_iter _ _ _ _ m := map_to_list m |}.
#[export] Instance listed_order_laws : HashOrderLaws.
Proof. by constructor. Qed.
