(* ===== verification/PerfectHashMap.v ===== *)
(** * The perfect-hash map (crates/perfect_hash_map/src/lib.rs)

    A fixed vector of slots, a caller-supplied hash from keys to slots and an
    element count.  The component's contract is an ordinary finite map, from
    which it differs by rejecting a key whose slot holds another key. *)

From S2P Require Import Prelude.

(** ** Data *)

(** [Entry<V>]: the key is kept beside the value for validation. *)
Record Entry (V : Type) := mkEntry { key : Z; value : V }.
Arguments mkEntry {V} key value.
Arguments key {V} _.
Arguments value {V} _.

Record CollisionError := mkCollision { existing_key : Z }.

(** A Rust [&mut V] into a container of type [S]: the current value, and the
    container after a write through the reference. *)
Record MutRef (V S : Type) := mkMutRef { cur : V; store : V -> S }.
Arguments mkMutRef {V S} cur store.
Arguments cur {V S} _.
Arguments store {V S} _.

(** [OccupiedEntry::replace]: swap the value, returning the old one. *)
Definition occupied_replace {V S} (r : MutRef V S) (new_value : V) : V * S :=
  (cur r, store r new_value).

Inductive TryInsertError (V S : Type) :=
| Occupied (v : V) (entry : MutRef V S)
| Collision (v : V) (existing : Z).
Arguments Occupied {V S} v entry.
Arguments Collision {V S} v existing.

Record PerfectHashMap (V : Type) := mkPHM {
  hash : Z -> Z;
  slots : list (option (Entry V));
  len : Z
}.
Arguments mkPHM {V} hash slots len.
Arguments hash {V} _ _.
Arguments slots {V} _.
Arguments len {V} _.

Section operations.
Context {V : Type}.
Implicit Types m : PerfectHashMap V.
Local Open Scope rust_scope.

Definition new (hash_size : nat) (h : Z -> Z) : PerfectHashMap V :=
  mkPHM h (replicate hash_size None) 0.

Definition is_empty m : bool := len m =? 0.

Definition capacity m : nat := length (slots m).

Definition slot_of m (k : Z) : nat := Z.to_nat (hash m k).

Definition get m (k : Z) : option V :=
  match slots m !! slot_of m k with
  | Some (Some e) => if key e =? k then Some (value e) else None
  | _ => None
  end.

Definition contains_key m (k : Z) : bool :=
  match get m k with Some _ => true | None => false end.

(** Replace the slot vector. *)
Definition with_slots m (s : list (option (Entry V))) : PerfectHashMap V :=
  mkPHM (hash m) s (len m).

Definition get_mut m (k : Z) : option (MutRef V (PerfectHashMap V)) :=
  match slots m !! slot_of m k with
  | Some (Some e) =>
      if key e =? k
      then Some (mkMutRef (value e)
             (fun v => with_slots m (<[slot_of m k := Some (mkEntry (key e) v)]> (slots m))))
      else None
  | _ => None
  end.

Definition remove {E} (p : profile) m (k : Z) : res E (option V * PerfectHashMap V) :=
  let i := slot_of m k in
  if decide (length (slots m) <= i)%nat then Ok (None, m)
  else
    let? slot := index (slots m) i in
    let match_key := match slot with Some e => key e =? k | None => false end in
    if match_key then
      let? entry := unwrap slot in
      let? l := sub_chk p 64 (len m) 1 in
      Ok (Some (value entry), mkPHM (hash m) (<[i := None]> (slots m)) l)
    else Ok (None, m).

Definition clear m : PerfectHashMap V :=
  mkPHM (hash m) ((fun slot => match slot with Some _ => None | None => slot end) <$> slots m) 0.

Definition insert (p : profile) m (k : Z) (v : V)
    : res CollisionError (option V * PerfectHashMap V) :=
  let i := slot_of m k in
  match slots m !! i with
  | Some slot =>
      match slot with
      | None =>
          let? l := add_chk p 64 (len m) 1 in
          Ok (None, mkPHM (hash m) (<[i := Some (mkEntry k v)]> (slots m)) l)
      | Some e =>
          if key e =? k
          then Ok (Some (value e),
                   with_slots m (<[i := Some (mkEntry (key e) v)]> (slots m)))
          else Err (mkCollision (key e))
      end
  | None => Panic
  end.

Definition try_insert (p : profile) m (k : Z) (v : V)
    : res (TryInsertError V (PerfectHashMap V)) (MutRef V (PerfectHashMap V)) :=
  let i := slot_of m k in
  match slots m !! i with
  | Some None =>
      let? l := add_chk p 64 (len m) 1 in
      Ok (mkMutRef v
            (fun v' => mkPHM (hash m) (<[i := Some (mkEntry k v')]> (slots m)) l))
  | Some (Some e) =>
      if key e =? k
      then Err (Occupied v (mkMutRef (value e)
             (fun v' => with_slots m (<[i := Some (mkEntry (key e) v')]> (slots m)))))
      else Err (Collision v (key e))
  | None => Panic
  end.

(** *** Iteration *)

(** [Iter]: the slots and the position of the next slot to look at. *)
Record Iter := mkIter { it_slots : list (option (Entry V)); pos : nat }.

Definition iter m : Iter := mkIter (slots m) 0.

(** The loop of [Iter::next]; [fuel] bounds the slots left to look at. *)
Fixpoint next_loop (fuel : nat) (it : Iter) : option (Entry V) * Iter :=
  match fuel with
  | O => (None, it)
  | S fuel =>
      match it_slots it !! pos it with
      | None => (None, it)
      | Some slot =>
          let it' := mkIter (it_slots it) (S (pos it)) in
          match slot with
          | Some e => (Some e, it')
          | None => next_loop fuel it'
          end
      end
  end.

Definition next (it : Iter) : option (Entry V) * Iter :=
  next_loop (length (it_slots it) - pos it) it.

Definition size_hint (it : Iter) : nat * option nat :=
  (0%nat, Some (length (it_slots it) - pos it)%nat).

(** Draining an iterator, as a [for] loop does. *)
Fixpoint collect_loop (fuel : nat) (it : Iter) : list (Entry V) :=
  match fuel with
  | O => []
  | S fuel =>
      match next it with
      | (Some e, it') => e :: collect_loop fuel it'
      | (None, _) => []
      end
  end.

Definition collect (it : Iter) : list (Entry V) :=
  collect_loop (S (length (it_slots it) - pos it)) it.

Definition keys m : list Z := key <$> collect (iter m).
Definition values m : list V := value <$> collect (iter m).

(** [IterMut] holds a raw pointer to the slots; [next] yields the key and a
    mutable reference into the slot it stopped at. *)
Definition next_mut (it : Iter) : option (Z * MutRef V Iter) * Iter :=
  match next it with
  | (Some e, it') =>
      (Some (key e, mkMutRef (value e)
         (fun v => mkIter (<[pred (pos it') := Some (mkEntry (key e) v)]> (it_slots it'))
                     (pos it'))), it')
  | (None, it') => (None, it')
  end.

(** [for (k, v) in m.iter_mut() { *v = f(k, *v) }]. *)
Fixpoint for_each_mut_loop (fuel : nat) (f : Z -> V -> V) (it : Iter) : Iter :=
  match fuel with
  | O => it
  | S fuel =>
      match next_mut it with
      | (Some (k, r), _) => for_each_mut_loop fuel f (store r (f k (cur r)))
      | (None, it') => it'
      end
  end.

Definition for_each_mut (f : Z -> V -> V) m : PerfectHashMap V :=
  with_slots m (it_slots (for_each_mut_loop (S (length (slots m))) f (iter m))).

End operations.
Arguments Iter V : clear implicits.

(** ** The contract: a finite map driven by operations *)

Section contract.
Context {V : Type}.
Local Open Scope rust_scope.

(** A client call, and what it observes. *)
Inductive op :=
| OpInsert (k : Z) (v : V)
| OpRemove (k : Z)
| OpClear
| OpGet (k : Z)
| OpContainsKey (k : Z)
| OpLen
| OpIsEmpty.

Inductive obs :=
| ObsValue (o : option V)
| ObsBool (b : bool)
| ObsLen (n : Z)
| ObsUnit.

Definition step_impl (p : profile) (m : PerfectHashMap V) (o : op)
    : res CollisionError (obs * PerfectHashMap V) :=
  match o with
  | OpInsert k v => rmap (fun '(old, m') => (ObsValue old, m')) (insert p m k v)
  | OpRemove k => rmap (fun '(old, m') => (ObsValue old, m')) (remove p m k)
  | OpClear => Ok (ObsUnit, clear m)
  | OpGet k => Ok (ObsValue (get m k), m)
  | OpContainsKey k => Ok (ObsBool (contains_key m k), m)
  | OpLen => Ok (ObsLen (len m), m)
  | OpIsEmpty => Ok (ObsBool (is_empty m), m)
  end.

Definition step_spec (g : gmap Z V) (o : op) : obs * gmap Z V :=
  match o with
  | OpInsert k v => (ObsValue (g !! k), <[k := v]> g)
  | OpRemove k => (ObsValue (g !! k), delete k g)
  | OpClear => (ObsUnit, ∅)
  | OpGet k => (ObsValue (g !! k), g)
  | OpContainsKey k => (ObsBool (bool_decide (is_Some (g !! k))), g)
  | OpLen => (ObsLen (Z.of_nat (size g)), g)
  | OpIsEmpty => (ObsBool (bool_decide (g = ∅)), g)
  end.

Fixpoint run_impl (p : profile) (m : PerfectHashMap V) (os : list op)
    : res CollisionError (list obs) :=
  match os with
  | [] => Ok []
  | o :: os =>
      let? '(b, m') := step_impl p m o in
      let? bs := run_impl p m' os in
      Ok (b :: bs)
  end.

Fixpoint run_spec (g : gmap Z V) (os : list op) : list obs :=
  match os with
  | [] => []
  | o :: os => let '(b, g') := step_spec g o in b :: run_spec g' os
  end.

(** The keys an operation mentions. *)
Definition op_keys (o : op) : list Z :=
  match o with
  | OpInsert k _ | OpRemove k | OpGet k | OpContainsKey k => [k]
  | _ => []
  end.

End contract.
Arguments op V : clear implicits.
Arguments obs V : clear implicits.

(** [h] is a perfect hash of the keys [K] into [0, n). *)
Definition perfect (h : Z -> Z) (n : nat) (K : list Z) : Prop :=
  Forall (fun k => (Z.to_nat (h k) < n)%nat) K
  /\ (forall k k', k ∈ K -> k' ∈ K -> Z.to_nat (h k) = Z.to_nat (h k') -> k = k').

(** ** Invariant and abstraction *)

Section correctness.
Context {V : Type}.
Implicit Types m : PerfectHashMap V.

(** The occupied entries, in slot order. *)
Definition entries m : list (Entry V) := omap id (slots m).

(** Every entry sits in the slot its key hashes to, and [len] counts the
    occupied slots (the vector itself fits the address space). *)
Definition wf m : Prop :=
  (forall i e, slots m !! i = Some (Some e) -> slot_of m (key e) = i)
  /\ len m = Z.of_nat (length (entries m))
  /\ Z.of_nat (length (slots m)) < 2 ^ 64.

(** The finite map a table stands for. *)
Definition abs m : gmap Z V :=
  list_to_map ((fun e => (key e, value e)) <$> entries m).

(** The hash sends the key into the table. *)
Definition in_range m (k : Z) : Prop := (slot_of m k < length (slots m))%nat.

#[export] Instance in_range_dec m k : Decision (in_range m k).
Proof. unfold in_range. apply _. Defined.

Lemma entries_elem m e :
  e ∈ entries m <-> exists i, slots m !! i = Some (Some e).
Proof.
  unfold entries. rewrite list_elem_of_omap. split.
  - intros (o & Ho & Hid). simpl in Hid. subst o.
    by apply list_elem_of_lookup in Ho.
  - intros [i Hi]. exists (Some e). split; [|done].
    apply list_elem_of_lookup. eauto.
Qed.

Lemma wf_NoDup_keys m : wf m -> NoDup (key <$> entries m).
Proof.
  intros (Hslot & _ & _). unfold entries.
  assert (forall i j e e', slots m !! i = Some (Some e) -> slots m !! j = Some (Some e') ->
            key e = key e' -> i = j) as Hinj.
  { intros i j e e' Hi Hj He. apply Hslot in Hi, Hj. congruence. }
  clear Hslot. induction (slots m) as [|[e|] l IH]; simpl.
  - constructor.
  - constructor.
    + rewrite list_elem_of_fmap. intros (e' & Hk & He').
      apply list_elem_of_omap in He' as (o & Ho & Hid). simpl in Hid. subst o.
      apply list_elem_of_lookup in Ho as [j Hj].
      specialize (Hinj 0%nat (S j) e e' eq_refl Hj Hk). done.
    + apply IH. intros i j x x' Hi Hj Hx.
      specialize (Hinj (S i) (S j) x x' Hi Hj Hx). lia.
  - apply IH. intros i j x x' Hi Hj Hx.
    specialize (Hinj (S i) (S j) x x' Hi Hj Hx). lia.
Qed.

Lemma abs_lookup_Some m k v :
  wf m -> (abs m !! k = Some v <-> exists e, e ∈ entries m /\ key e = k /\ value e = v).
Proof.
  intros Hwf. unfold abs. rewrite <- elem_of_list_to_map.
  - rewrite list_elem_of_fmap. split.
    + intros (e & Heq & He). simplify_eq. eauto.
    + intros (e & He & <- & <-). eauto.
  - rewrite <- list_fmap_compose. apply (wf_NoDup_keys m Hwf).
Qed.

Lemma get_Some m k v :
  wf m -> (get m k = Some v <-> exists e, e ∈ entries m /\ key e = k /\ value e = v).
Proof.
  intros Hwf. unfold get. split.
  - intros H. destruct (slots m !! slot_of m k) as [[e|]|] eqn:Hs; try done.
    destruct (Z.eqb_spec (key e) k); simplify_eq.
    exists e. split; [|done]. apply entries_elem. eauto.
  - intros (e & [i Hi]%entries_elem & <- & <-).
    destruct Hwf as (Hslot & _). rewrite (Hslot _ _ Hi), Hi.
    by rewrite Z.eqb_refl.
Qed.

(** Lookup in the table is lookup in the map it stands for. *)
Lemma get_abs m k : wf m -> get m k = abs m !! k.
Proof.
  intros Hwf. apply option_eq. intros v.
  by rewrite get_Some, abs_lookup_Some by done.
Qed.

(** *** Updates of one slot *)

Definition occ (o : option (Entry V)) : nat := match o with Some _ => 1 | None => 0 end.

Lemma length_entries_set (l : list (option (Entry V))) i old new_slot :
  l !! i = Some old ->
  (length (omap id (<[i := new_slot]> l)) + occ old = length (omap id l) + occ new_slot)%nat.
Proof.
  revert i. induction l as [|o l IH]; intros i Hi; [done|].
  destruct i as [|i]; csimpl in *.
  - injection Hi as ->. destruct old, new_slot; simpl; lia.
  - specialize (IH i Hi). destruct o; csimpl; lia.
Qed.

(** A table whose slot [i] is replaced by an entry hashing to [i] (or by
    nothing) is well formed when its length is adjusted. *)
Lemma wf_set m i old new_slot l :
  wf m -> slots m !! i = Some old ->
  (forall e, new_slot = Some e -> slot_of m (key e) = i) ->
  l = len m - Z.of_nat (occ old) + Z.of_nat (occ new_slot) ->
  wf (mkPHM (hash m) (<[i := new_slot]> (slots m)) l).
Proof.
  intros (Hslot & Hlen & Hcap) Hi Hnew ->. split_and!; simpl.
  - intros j e Hj. unfold slot_of. simpl. apply list_lookup_insert_Some in Hj.
    destruct Hj as [(<- & -> & _)|(_ & Hj)]; [by apply Hnew|by apply Hslot].
  - pose proof (length_entries_set _ _ _ new_slot Hi).
    unfold entries in *. simpl. lia.
  - by rewrite length_insert.
Qed.

(** Its map differs from the old one at most at the keys of slot [i]. *)
Lemma get_set m i new_slot l k :
  slots m !! i <> None ->
  get (mkPHM (hash m) (<[i := new_slot]> (slots m)) l) k =
  if decide (slot_of m k = i)
  then match new_slot with Some e => if key e =? k then Some (value e) else None | None => None end
  else get m k.
Proof.
  intros Hi. unfold get, slot_of. simpl. case_decide as Hk.
  - rewrite Hk, list_lookup_insert_eq; [done|].
    by apply lookup_lt_is_Some, not_eq_None_Some.
  - by rewrite list_lookup_insert_ne by done.
Qed.

Lemma abs_set_entry m i old k v l :
  wf m -> slots m !! i = Some old -> slot_of m k = i ->
  (forall e, old = Some e -> key e = k) ->
  l = len m - Z.of_nat (occ old) + 1 ->
  abs (mkPHM (hash m) (<[i := Some (mkEntry k v)]> (slots m)) l) = <[k := v]> (abs m).
Proof.
  intros Hwf Hi Hk Hold Hl. apply map_eq. intros k'.
  assert (wf (mkPHM (hash m) (<[i := Some (mkEntry k v)]> (slots m)) l)) as Hwf'.
  { eapply wf_set; eauto. intros e [= <-]. done. }
  rewrite <- get_abs, get_set by naive_solver.
  rewrite lookup_insert. case_decide as Hk'; simpl.
  - destruct (Z.eqb_spec k k'); [by rewrite decide_True|].
    rewrite decide_False by done. rewrite <- get_abs by done.
    unfold get. rewrite Hk', Hi. destruct old as [e|]; [|done].
    rewrite (Hold e eq_refl). by destruct (Z.eqb_spec k k').
  - rewrite decide_False by congruence. by apply get_abs.
Qed.

Lemma abs_set_empty m i e k l :
  wf m -> slots m !! i = Some (Some e) -> key e = k -> l = len m - 1 ->
  abs (mkPHM (hash m) (<[i := None]> (slots m)) l) = delete k (abs m).
Proof.
  intros Hwf Hi Hk Hl. apply map_eq. intros k'.
  assert (wf (mkPHM (hash m) (<[i := None]> (slots m)) l)) as Hwf'.
  { eapply wf_set; eauto; [done|]. simpl. lia. }
  rewrite <- get_abs, get_set by naive_solver.
  rewrite lookup_delete. case_decide as Hk'; simpl.
  - case_decide as Hkk; [done|]. rewrite <- get_abs by done.
    unfold get. rewrite Hk', Hi. destruct (Z.eqb_spec (key e) k'); congruence.
  - rewrite decide_False; [by apply get_abs|].
    intros <-. apply Hk'. destruct Hwf as (Hslot & _). rewrite <- Hk. by apply Hslot.
Qed.

Lemma len_bounds m : wf m -> 0 <= len m <= Z.of_nat (length (slots m)).
Proof.
  intros (_ & -> & _). unfold entries.
  assert (length (omap id (slots m)) <= length (slots m))%nat; [|lia].
  induction (slots m) as [|[]]; csimpl; lia.
Qed.

Lemma len_pos m i e : wf m -> slots m !! i = Some (Some e) -> 0 < len m.
Proof.
  intros (_ & -> & _) Hi.
  assert (e ∈ entries m) as He by (apply entries_elem; eauto).
  destruct (entries m); [by apply not_elem_of_nil in He|simpl; lia].
Qed.

Lemma len_room m i : wf m -> slots m !! i = Some None -> len m + 1 < 2 ^ 64.
Proof.
  intros (_ & -> & Hcap) Hi. unfold entries.
  enough (length (omap id (slots m)) < length (slots m))%nat by lia.
  clear Hcap. revert i Hi. induction (slots m) as [|o l IH]; intros [|i] Hi; [done..| |].
  - injection Hi as ->. csimpl.
    assert (length (omap id l) <= length l)%nat; [|lia].
    clear. induction l as [|[]]; csimpl; lia.
  - specialize (IH i Hi). destruct o; csimpl; lia.
Qed.

(** *** Operations against the map *)

Lemma wf_new n h : Z.of_nat n < 2 ^ 64 -> wf (new n h).
Proof.
  intros Hn. split_and!; simpl.
  - intros i e [Hi _]%lookup_replicate. done.
  - unfold entries, new. simpl. clear Hn. induction n; done.
  - by rewrite length_replicate.
Qed.

Lemma abs_new n h : abs (new n h) = ∅.
Proof. unfold abs, entries, new. simpl. induction n; done. Qed.

Lemma insert_spec p m k v :
  wf m -> in_range m k ->
  match insert p m k v with
  | Ok (old, m') =>
      wf m' /\ hash m' = hash m /\ length (slots m') = length (slots m)
      /\ old = abs m !! k /\ abs m' = <[k := v]> (abs m)
  | Err c =>
      abs m !! k = None /\ is_Some (abs m !! existing_key c)
      /\ slot_of m (existing_key c) = slot_of m k
  | Panic => False
  end.
Proof.
  intros Hwf Hin. apply lookup_lt_is_Some in Hin as [slot Hs].
  unfold insert. rewrite Hs. destruct slot as [e|].
  - destruct (Z.eqb_spec (key e) k) as [He|He].
    + unfold with_slots. split_and!.
      * eapply wf_set; eauto; simpl; [|lia]. intros e' [= <-]. simpl. congruence.
      * done.
      * simpl. by rewrite length_insert.
      * rewrite <- get_abs by done. unfold get. rewrite Hs, He. by rewrite Z.eqb_refl.
      * rewrite He. eapply abs_set_entry; eauto; simpl; [naive_solver|lia].
    + simpl. split_and!.
      * rewrite <- get_abs by done. unfold get. rewrite Hs.
        by destruct (Z.eqb_spec (key e) k).
      * exists (value e). apply abs_lookup_Some; [done|]. exists e.
        split; [apply entries_elem; eauto|done].
      * destruct Hwf as (Hslot & _). by apply Hslot.
  - unfold add_chk. pose proof (len_room _ _ Hwf Hs) as Hroom.
    rewrite (proj2 (Z.ltb_lt _ _) Hroom). simpl. split_and!.
    + eapply wf_set; eauto; simpl; [|lia]. intros e [= <-]. done.
    + done.
    + by rewrite length_insert.
    + rewrite <- get_abs by done. unfold get. by rewrite Hs.
    + eapply abs_set_entry; eauto; simpl; [done|lia].
Qed.

Lemma remove_spec {E} p m k :
  wf m ->
  exists old m', remove (E := E) p m k = Ok (old, m')
    /\ wf m' /\ hash m' = hash m /\ length (slots m') = length (slots m)
    /\ old = abs m !! k /\ abs m' = delete k (abs m).
Proof.
  intros Hwf. unfold remove. case_decide as Hi.
  { exists None, m. split_and!; [done..| |].
    - rewrite <- get_abs by done. unfold get. by rewrite (proj2 (lookup_ge_None _ _) Hi).
    - symmetry. apply delete_id. rewrite <- get_abs by done. unfold get.
      by rewrite (proj2 (lookup_ge_None _ _) Hi). }
  assert (slot_of m k < length (slots m))%nat as [slot Hs]%lookup_lt_is_Some by lia.
  unfold index. rewrite Hs. simpl.
  assert (get m k = match slot with Some e => if key e =? k then Some (value e) else None
                    | None => None end) as Hget by (unfold get; rewrite Hs; by destruct slot).
  destruct slot as [e|]; [destruct (Z.eqb_spec (key e) k) as [He|He]|].
  - simpl. unfold sub_chk. pose proof (len_pos _ _ _ Hwf Hs).
    rewrite (proj2 (Z.leb_le 1 (len m))) by lia. simpl.
    eexists _, _. split_and!; [reflexivity|..].
    + eapply wf_set; eauto; [done|simpl; lia].
    + done.
    + simpl. by rewrite length_insert.
    + by rewrite <- get_abs, Hget.
    + eapply abs_set_empty; eauto.
  - exists None, m. rewrite <- get_abs, Hget by done. split_and!; [done..|].
    symmetry. apply delete_id. by rewrite <- get_abs, Hget.
  - exists None, m. rewrite <- get_abs, Hget by done. split_and!; [done..|].
    symmetry. apply delete_id. by rewrite <- get_abs, Hget.
Qed.

Lemma clear_spec m : wf m -> wf (clear m) /\ abs (clear m) = ∅.
Proof.
  intros (_ & _ & Hcap).
  assert (entries (clear m) = []) as He.
  { unfold entries, clear. simpl. clear Hcap. induction (slots m) as [|[] l IH]; csimpl; auto. }
  split; [split_and!|].
  - simpl. intros i e. rewrite list_lookup_fmap.
    destruct (slots m !! i) as [[]|]; naive_solver.
  - by rewrite He.
  - simpl. by rewrite length_fmap.
  - unfold abs. by rewrite He.
Qed.

Lemma size_abs m : wf m -> Z.of_nat (size (abs m)) = len m.
Proof.
  intros Hwf. unfold abs. destruct Hwf as (Hs & Hlen & Hc) eqn:Heq. rewrite Hlen.
  rewrite map_size_list_to_map.
  - by rewrite length_fmap.
  - rewrite <- list_fmap_compose. by apply wf_NoDup_keys.
Qed.

(** The simulation relation between a table and a map, for a perfect hash of
    the keys [K]. *)
Definition simulates (K : list Z) m (g : gmap Z V) : Prop :=
  wf m /\ abs m = g /\ perfect (hash m) (length (slots m)) K
  /\ forall k, is_Some (g !! k) -> k ∈ K.

Lemma step_simulates p K m g o :
  simulates K m g -> Forall (fun k => k ∈ K) (op_keys o) ->
  exists m', step_impl p m o = Ok (fst (step_spec g o), m')
    /\ simulates K m' (snd (step_spec g o)).
Proof.
  intros (Hwf & <- & (Hrng & Hinj) & HK) Ho. destruct o as [k v|k| |k|k| |]; simpl.
  - simpl in Ho. rewrite Forall_singleton in Ho.
    pose proof (proj1 (Forall_forall _ _) Hrng k Ho : in_range m k) as Hin.
    pose proof (insert_spec p m k v Hwf Hin) as Hspec.
    destruct (insert p m k v) as [[old m']|c|]; simpl; [|exfalso|done].
    + destruct Hspec as (Hwf' & Hh & Hl & -> & Habs). exists m'. split; [done|].
      split_and!; [done|done|by rewrite Hh, Hl|].
      intros k' [<-|Hk']%lookup_insert_is_Some'; [done|by apply HK].
    + destruct Hspec as (Hn & Hs & Hsl).
      pose proof (Hinj _ _ (HK _ Hs) Ho Hsl) as Heq. rewrite Heq, Hn in Hs.
      by destruct Hs.
  - destruct (remove_spec (E := CollisionError) p m k Hwf)
      as (old & m' & -> & Hwf' & Hh & Hl & -> & Habs).
    exists m'. split; [done|]. split_and!; [done|done|by rewrite Hh, Hl|].
    intros k' [_ Hk']%lookup_delete_is_Some. by apply HK.
  - exists (clear m). split; [done|]. destruct (clear_spec m Hwf) as [Hwf' Habs].
    split_and!; [done|done| |].
    + simpl. by rewrite length_fmap.
    + intros k. rewrite lookup_empty. by intros [].
  - exists m. by rewrite <- get_abs.
  - exists m. split; [|done]. unfold contains_key. rewrite get_abs by done.
    by destruct (abs m !! k).
  - exists m. by rewrite size_abs.
  - exists m. split; [|done]. unfold is_empty. do 3 f_equal.
    rewrite <- size_abs by done. symmetry.
    destruct (Z.eqb_spec (Z.of_nat (size (abs m))) 0) as [Hz|Hz].
    + apply bool_decide_eq_true, map_size_empty_inv. lia.
    + apply bool_decide_eq_false. intros He. rewrite He, map_size_empty in Hz. done.
Qed.

Lemma run_simulates p K m g os :
  simulates K m g -> Forall (fun o => Forall (fun k => k ∈ K) (op_keys o)) os ->
  run_impl p m os = Ok (run_spec g os).
Proof.
  intros Hsim Hos. revert m g Hsim. induction Hos as [|o os Ho _ IH]; intros m g Hsim; [done|].
  simpl. destruct (step_simulates p K m g o Hsim Ho) as (m' & Hstep & Hsim').
  rewrite Hstep. simpl. rewrite (IH m' _ Hsim'). simpl. by destruct (step_spec g o).
Qed.

(** *** Iteration *)

Lemma next_loop_spec fuel (it : Iter V) :
  (length (it_slots it) - pos it <= fuel)%nat ->
  match omap id (drop (pos it) (it_slots it)) with
  | e :: es => exists it', next_loop fuel it = (Some e, it')
      /\ it_slots it' = it_slots it /\ (pos it < pos it')%nat
      /\ omap id (drop (pos it') (it_slots it)) = es
      /\ it_slots it !! pred (pos it') = Some (Some e)
      /\ forall j, (pos it <= j < pred (pos it'))%nat -> it_slots it !! j = Some None
  | [] => exists it', next_loop fuel it = (None, it') /\ it_slots it' = it_slots it
      /\ forall j, (pos it <= j)%nat -> it_slots it !! j = Some None \/ it_slots it !! j = None
  end.
Proof.
  revert it. induction fuel as [|fuel IH]; intros [l i] Hf; simpl in *.
  { rewrite drop_ge by lia. simpl. eexists. split_and!; [done|done|].
    intros j Hj. right. apply lookup_ge_None. lia. }
  destruct (l !! i) as [o|] eqn:Hi.
  - rewrite (drop_S _ _ _ Hi). destruct o as [e|]; csimpl.
    + eexists. split_and!; [done|done|simpl; lia|done|done|simpl; lia].
    + assert (i < length l)%nat by (by eapply lookup_lt_Some).
      specialize (IH (mkIter l (S i)) ltac:(simpl; lia)). simpl in IH.
      destruct (omap id (drop (S i) l)) as [|e es].
      { destruct IH as (it' & Hn & Hsl & Hnone). exists it'. split_and!; [done|done|].
        intros j Hj. destruct (decide (j = i)) as [->|]; [by left|]. apply Hnone. lia. }
      destruct IH as (it' & Hn & Hsl & Hpos & Hes & He & Hnone). simpl in *.
      exists it'. split_and!; [done|done|lia|done|done|].
      intros j Hj. destruct (decide (j = i)) as [->|]; [done|]. apply Hnone. lia.
  - apply lookup_ge_None in Hi. rewrite drop_ge by lia. simpl.
    eexists. split_and!; [done|done|]. intros j Hj. right. apply lookup_ge_None. lia.
Qed.

Lemma collect_loop_spec fuel (it : Iter V) :
  (length (it_slots it) - pos it < fuel)%nat ->
  collect_loop fuel it = omap id (drop (pos it) (it_slots it)).
Proof.
  revert it. induction fuel as [|fuel IH]; intros it Hf; [lia|]. simpl.
  pose proof (next_loop_spec _ it (le_n _)) as Hn. fold (next it) in Hn.
  destruct (omap id (drop (pos it) (it_slots it))) as [|e es] eqn:Hd.
  - by destruct Hn as (it' & -> & _).
  - destruct Hn as (it' & -> & Hsl & Hpos & <- & He & _). rewrite <- Hsl.
    f_equal. apply IH. rewrite Hsl.
    apply lookup_lt_Some in He. lia.
Qed.

Lemma collect_iter m : collect (iter m) = entries m.
Proof. unfold collect. rewrite collect_loop_spec by lia. by rewrite drop_0. Qed.

(** The write [f] makes to one slot. *)
Definition write_slot (f : Z -> V -> V) (slot : option (Entry V)) : option (Entry V) :=
  (fun e => mkEntry (key e) (f (key e) (value e))) <$> slot.

Lemma for_each_mut_loop_spec fuel f (it : Iter V) j :
  (length (it_slots it) - pos it < fuel)%nat ->
  it_slots (for_each_mut_loop fuel f it) !! j
  = if decide (j < pos it)%nat then it_slots it !! j else write_slot f <$> it_slots it !! j.
Proof.
  revert it. induction fuel as [|fuel IH]; intros it Hf; [lia|].
  cbn [for_each_mut_loop]. unfold next_mut.
  pose proof (next_loop_spec _ it (le_n _)) as Hn. fold (next it) in Hn.
  destruct (omap id (drop (pos it) (it_slots it))) as [|e es].
  - destruct Hn as (it' & -> & -> & Hnone). case_decide; [done|].
    destruct (Hnone j ltac:(lia)) as [-> | ->]; done.
  - destruct Hn as (it' & -> & Hsl & Hpos & _ & He & Hnone).
    pose proof (lookup_lt_Some _ _ _ He) as Hlt. cbn [store cur].
    rewrite IH by (cbn [it_slots pos]; rewrite length_insert, Hsl; lia).
    cbn [it_slots pos]. rewrite Hsl.
    destruct (decide (j = pred (pos it'))) as [->|Hj].
    + rewrite decide_True, list_lookup_insert_eq by lia.
      rewrite decide_False, He by lia. done.
    + rewrite list_lookup_insert_ne by done.
      do 2 case_decide; [done|rewrite Hnone by lia; done|lia|done].
Qed.

Lemma slots_for_each_mut f m : slots (for_each_mut f m) = write_slot f <$> slots m.
Proof.
  apply list_eq. intros j. unfold for_each_mut, with_slots. cbn [slots].
  rewrite for_each_mut_loop_spec by (simpl; lia). simpl. by rewrite list_lookup_fmap.
Qed.

Lemma wf_for_each_mut f m : wf m -> wf (for_each_mut f m).
Proof.
  intros (Hslot & Hlen & Hcap). unfold wf, entries. rewrite slots_for_each_mut.
  split_and!.
  - intros i e. rewrite list_lookup_fmap. destruct (slots m !! i) as [[e'|]|] eqn:Hi; try done.
    intros [= <-]. simpl. by apply Hslot.
  - simpl. rewrite Hlen. unfold entries. f_equal.
    clear. induction (slots m) as [|[] l IH]; csimpl; congruence.
  - by rewrite length_fmap.
Qed.

(** *** The reachable tables *)

(** Everything a client can do to a table it created, writes through the
    references handed out by [get_mut], [try_insert] and [iter_mut] included. *)
Inductive reachable (p : profile) (n : nat) (h : Z -> Z) : PerfectHashMap V -> Prop :=
| reach_new : reachable p n h (new n h)
| reach_insert m k v old m' :
    reachable p n h m -> insert p m k v = Ok (old, m') -> reachable p n h m'
| reach_try_insert m k v r v' :
    reachable p n h m -> try_insert p m k v = Ok r -> reachable p n h (store r v')
| reach_try_occupied m k v r v' :
    reachable p n h m -> try_insert p m k v = Err (Occupied v r) ->
    reachable p n h (snd (occupied_replace r v'))
| reach_get_mut m k r v' :
    reachable p n h m -> get_mut m k = Some r -> reachable p n h (store r v')
| reach_remove m k old m' :
    reachable p n h m -> remove (E := Empty_set) p m k = Ok (old, m') -> reachable p n h m'
| reach_clear m : reachable p n h m -> reachable p n h (clear m)
| reach_iter_mut m f : reachable p n h m -> reachable p n h (for_each_mut f m).

(** Writing through a reference is an [insert] of the written value. *)
Lemma try_insert_store p m k v r v' :
  try_insert p m k v = Ok r -> insert p m k v' = Ok (None, store r v').
Proof.
  unfold try_insert, insert. intros H. destruct (slots m !! slot_of m k) as [[e|]|]; try done.
  - by destruct (key e =? k).
  - unfold add_chk in *. by destruct (len m + 1 <? 2 ^ 64), p; simplify_eq/=.
Qed.

Lemma try_insert_occupied_store p m k v r v' :
  try_insert p m k v = Err (Occupied v r) -> insert p m k v' = Ok (Some (cur r), store r v').
Proof.
  unfold try_insert, insert. intros H. destruct (slots m !! slot_of m k) as [[e|]|]; try done.
  - destruct (key e =? k); by simplify_eq.
  - unfold add_chk in H. destruct (len m + 1 <? 2 ^ 64), p; done.
Qed.

Lemma get_mut_store p m k r v' :
  get_mut m k = Some r -> insert p m k v' = Ok (Some (cur r), store r v').
Proof.
  unfold get_mut, insert. intros H. destruct (slots m !! slot_of m k) as [[e|]|]; try done.
  destruct (key e =? k); by simplify_eq.
Qed.

Lemma insert_wf p m k v old m' : wf m -> insert p m k v = Ok (old, m') -> wf m'.
Proof.
  intros Hwf Hi. assert (in_range m k) as Hin.
  { unfold in_range. apply lookup_lt_is_Some. unfold insert in Hi. by destruct (slots m !! _). }
  pose proof (insert_spec p m k v Hwf Hin) as H. rewrite Hi in H. by destruct H.
Qed.

Lemma reachable_wf p n h m : Z.of_nat n < 2 ^ 64 -> reachable p n h m -> wf m.
Proof.
  intros Hn. induction 1.
  - by apply wf_new.
  - by eapply insert_wf.
  - eapply insert_wf; [done|]. by eapply try_insert_store.
  - eapply insert_wf; [done|]. by eapply try_insert_occupied_store.
  - eapply (insert_wf p); [done|]. by eapply get_mut_store.
  - destruct (remove_spec (E := Empty_set) p m k) as (? & ? & ? & ? & _); [done|]. congruence.
  - by apply clear_spec.
  - by apply wf_for_each_mut.
Qed.

End correctness.

(** ** Properties *)

Section properties.
Context {V : Type}.


(** In every table a client can reach, whatever the hash and however many
    keys collided, each entry sits in its own slot, lookups, the count and the
    iterator agree on one finite map, and iteration visits each key once. *)
Theorem phm_reachable_consistent p n h (m : PerfectHashMap V) :
  Z.of_nat n < 2 ^ 64 -> reachable p n h m ->
  wf m /\ (forall k, get m k = abs m !! k) /\ len m = Z.of_nat (size (abs m))
  /\ (fun e => (key e, value e)) <$> collect (iter m) ≡ₚ map_to_list (abs m).
Proof.
  intros Hn Hr. pose proof (reachable_wf _ _ _ _ Hn Hr) as Hwf. split_and!; [done|..].
  - intros k. by apply get_abs.
  - symmetry. by apply size_abs.
  - rewrite collect_iter. unfold abs. symmetry. apply map_to_list_to_map.
    rewrite <- list_fmap_compose. by apply wf_NoDup_keys.
Qed.

(** An [insert] panics exactly when the hash leaves the table, reports a
    collision exactly when another key holds the slot (naming that key), and
    otherwise stores the pair and returns the previous value. *)
Theorem phm_insert_outcome p n h (m : PerfectHashMap V) k v :
  Z.of_nat n < 2 ^ 64 -> reachable p n h m ->
  match insert p m k v with
  | Panic => (length (slots m) <= slot_of m k)%nat
  | Err c => abs m !! k = None /\ existing_key c <> k /\ is_Some (abs m !! existing_key c)
             /\ slot_of m (existing_key c) = slot_of m k
  | Ok (old, m') => old = abs m !! k /\ abs m' = <[k := v]> (abs m)
  end.
Proof.
  intros Hn Hr. pose proof (reachable_wf _ _ _ _ Hn Hr) as Hwf.
  destruct (decide (in_range m k)) as [Hin|Hout].
  - pose proof (insert_spec p m k v Hwf Hin) as H. destruct (insert p m k v) as [[old m']|c|].
    + by destruct H as (_ & _ & _ & ? & ?).
    + destruct H as (Hk & Hc & Hs). split_and!; [done| |done..].
      intros Hck. rewrite Hck, Hk in Hc. by destruct Hc.
    + done.
  - unfold in_range in Hout. unfold insert.
    rewrite (proj2 (lookup_ge_None (slots m) _)) by lia. lia.
Qed.

End properties.


(** The table of the crate's documentation: 1 and 9 share a slot modulo 8. *)
Definition doc_table : PerfectHashMap Z :=
  mkPHM (fun k => k `mod` 8)
    [None; Some (mkEntry 1 100); None; None; None; None; None; None] 1.

Lemma doc_table_reachable : reachable Debug 8 (fun k => k `mod` 8) doc_table.
Proof. by apply (reach_insert _ _ _ (new 8 (fun k => k `mod` 8)) 1 100 None); [constructor|]. Qed.

Lemma phm_reachable_consistent_witness :
  get doc_table 1 = Some 100 /\ get doc_table 9 = None
  /\ (fun e => (key e, value e)) <$> collect (iter doc_table) ≡ₚ map_to_list (abs doc_table).
Proof.
  destruct (phm_reachable_consistent Debug 8 (fun k => k `mod` 8) doc_table
              ltac:(lia) doc_table_reachable) as (_ & Hget & _ & Hperm).
  split_and!; [vm_compute; reflexivity..|exact Hperm].
Defined.

Lemma phm_insert_outcome_witness :
  insert Debug doc_table 9 200 = Err (mkCollision 1) /\ is_Some (abs doc_table !! 1).
Proof.
  pose proof (phm_insert_outcome Debug 8 (fun k => k `mod` 8) doc_table 9 200
                ltac:(lia) doc_table_reachable) as H.
  split; [vm_compute; reflexivity|]. by destruct H as (_ & _ & ? & _).
Defined.
