(* ===== verification/Float64.v ===== *)
(** * IEEE 754 binary64 as the Rust code uses it

    Rust's [f64] is binary64 with rounding to nearest even.  The operations
    come from the standard library's executable specification of floating
    point ([SpecFloat]); this file adds the integer conversions and the
    roundings of [f64::floor] and [f64::round]. *)

From S2P Require Import Prelude.
From Stdlib Require Import SpecFloat.

Abbreviation f64 := spec_float.

(** [z as f64]. *)
Definition f64_of_Z (z : Z) : f64 := binary_normalize 53 1024 z 0 false.

Definition f64_div (x y : f64) : f64 := SFdiv 53 1024 x y.
Definition f64_mul (x y : f64) : f64 := SFmul 53 1024 x y.
Definition f64_gtb (x y : f64) : bool := SFltb y x.

Definition f64_zero : f64 := S754_zero false.

(** The integer part, towards minus infinity, of [m * 2^e]. *)
Definition floor_scaled (m e : Z) : Z :=
  if 0 <=? e then m * 2 ^ e else m `div` 2 ^ (- e).

(** [x as uN]: truncation towards zero, saturating at both ends, 0 for NaN. *)
Definition f64_to_uint (w : Z) (x : f64) : Z :=
  match x with
  | S754_zero _ | S754_nan | S754_infinity true => 0
  | S754_infinity false => 2 ^ w - 1
  | S754_finite true _ _ => 0
  | S754_finite false m e => Z.min (floor_scaled (Zpos m) e) (2 ^ w - 1)
  end.

(** [f64::floor]. *)
Definition f64_floor (x : f64) : f64 :=
  match x with
  | S754_finite s m e =>
      if 0 <=? e then x
      else binary_normalize 53 1024 (floor_scaled (cond_Zopp s (Zpos m)) e) 0 s
  | _ => x
  end.

(** [f64::round]: to the nearest integer, halves away from zero. *)
Definition f64_round (x : f64) : f64 :=
  match x with
  | S754_finite s m e =>
      if 0 <=? e then x
      else binary_normalize 53 1024
             (cond_Zopp s (floor_scaled (2 * Zpos m + 2 ^ (- e)) (e - 1))) 0 s
  | _ => x
  end.

(** ** Integers below 2^53 are represented exactly *)

Lemma digits2_pos_log2 m : Zpos (digits2_pos m) = Z.log2 (Zpos m) + 1.
Proof.
  induction m as [m IH|m IH|]; [| |done].
  - cbn [digits2_pos]. rewrite Pos2Z.inj_succ, IH, Pos2Z.inj_xI, Z.log2_succ_double by lia. lia.
  - cbn [digits2_pos]. rewrite Pos2Z.inj_succ, IH, Pos2Z.inj_xO, Z.log2_double by lia. lia.
Qed.

Lemma iter_xO m d : Zpos (Pos.iter xO m d) = Zpos m * 2 ^ Zpos d.
Proof.
  induction d as [|d IH] using Pos.peano_ind.
  - simpl. lia.
  - rewrite Pos.iter_succ, Pos2Z.inj_xO, IH, Pos2Z.inj_succ, Z.pow_succ_r by lia. lia.
Qed.

Lemma shl_align_exact m ex ex' :
  let '(mz, ez) := shl_align m ex ex' in
  ez <= ex /\ ez <= Z.max ex' ex /\ Zpos mz = Zpos m * 2 ^ (ex - ez)
  /\ (ex' <= ex -> ez = ex').
Proof.
  unfold shl_align. destruct (ex' - ex) as [|d|d] eqn:Hd.
  - rewrite Z.sub_diag. split_and!; lia.
  - rewrite Z.sub_diag. split_and!; lia.
  - rewrite iter_xO. replace (ex - ex') with (Zpos d) by lia. split_and!; lia.
Qed.

(** A mantissa of exactly 53 digits in range is left alone by rounding. *)
Lemma binary_round_aux_canonical mz ez :
  Z.log2 (Zpos mz) = 52 -> -1074 <= ez <= 971 ->
  binary_round_aux 53 1024 false (Zpos mz) ez loc_Exact = S754_finite false mz ez.
Proof.
  intros Hm Hez. unfold binary_round_aux, shr_fexp. cbn [Zdigits2 shr_record_of_loc].
  rewrite digits2_pos_log2, Hm.
  assert (fexp 53 1024 (52 + 1 + ez) - ez = 0) as Hf by (unfold fexp, emin; lia).
  rewrite Hf. cbn [shr loc_of_shr_record round_nearest_even shr_m Zdigits2 shr_record_of_loc].
  rewrite digits2_pos_log2, Hm, Hf. cbn [shr shr_m].
  by rewrite (proj2 (Z.leb_le _ _)) by lia.
Qed.

Lemma f64_of_Z_exact D :
  0 < D < 2 ^ 53 ->
  exists mz ez, f64_of_Z D = S754_finite false mz ez /\ ez <= 0 /\ Zpos mz = D * 2 ^ (- ez).
Proof.
  intros HD. unfold f64_of_Z. destruct D as [|m|m]; [lia| |lia].
  cbn [binary_normalize]. unfold binary_round.
  assert (Z.log2 (Zpos m) <= 52) as Hl by (apply Z.lt_succ_r, Z.log2_lt_pow2; lia).
  pose proof (Z.log2_nonneg (Zpos m)).
  assert (fexp 53 1024 (Zpos (digits2_pos m) + 0) = Z.log2 (Zpos m) - 52) as ->.
  { rewrite digits2_pos_log2. unfold fexp, emin. lia. }
  pose proof (shl_align_exact m 0 (Z.log2 (Zpos m) - 52)) as Hs.
  destruct (shl_align m 0 (Z.log2 (Zpos m) - 52)) as [mz ez].
  destruct Hs as (_ & _ & Hmz & Hez). specialize (Hez ltac:(lia)). subst ez.
  exists mz, (Z.log2 (Zpos m) - 52). split; [|split; [lia|]].
  - apply binary_round_aux_canonical; [|lia].
    rewrite Hmz, Z.log2_mul_pow2 by lia. lia.
  - by rewrite Hmz.
Qed.

Lemma f64_to_uint_of_Z w D :
  0 <= w -> fits w D -> D < 2 ^ 53 -> f64_to_uint w (f64_of_Z D) = D.
Proof.
  intros Hw [H0 H1] H53. destruct (decide (D = 0)) as [->|]; [done|].
  destruct (f64_of_Z_exact D) as (mz & ez & -> & Hez & Hmz); [lia|]. simpl.
  unfold floor_scaled. destruct (Z.leb_spec 0 ez).
  - assert (ez = 0) as -> by lia. rewrite Hmz, Z.mul_1_r, Z.mul_1_r. lia.
  - rewrite Hmz, Z.div_mul by (apply Z.pow_nonzero; lia). lia.
Qed.
