(* ===== verification/FastDiv.v ===== *)
(** * The fast approximate divider (crates/timeslot/src/fast_div.rs)

    Division by an amount [D] is replaced by a multiplication by [M] and a
    right shift by [S], with [M] close to [2^S / D]. *)

From S2P Require Import Prelude Float64.
From Stdlib Require Import SpecFloat.

(** The shift operators of a [w]-bit integer: a shift amount out of range is
    an overflow. *)
Definition shl_chk {E} (p : profile) (w a s : Z) : res E Z :=
  if s <? w then Ok (wrap w (Z.shiftl a s))
  else match p with Debug => Panic | Release => Ok (wrap w (Z.shiftl a (s `mod` w))) end.

Definition shr_chk {E} (p : profile) (w a s : Z) : res E Z :=
  if s <? w then Ok (Z.shiftr a s)
  else match p with Debug => Panic | Release => Ok (Z.shiftr a (s `mod` w)) end.

Record FastDiv := mkFastDiv { mul : Z; shift : Z }.

Definition from_mul_shift (m s : Z) : FastDiv := mkFastDiv m s.

Section operations.
Context {E : Type} (p : profile).
Local Open Scope rust_scope.

(** [FastDiv::new]; [log2] is the platform's [f64::log2]. *)
Definition new (log2 : f64 -> f64) (amt : f64) (required_bits : Z) : res E FastDiv :=
  let? _ := debug_assert p (f64_gtb amt f64_zero) in
  let? _ := debug_assert p (0 <? required_bits) in
  let bits_removed := f64_to_uint 32 (f64_floor (log2 amt)) in
  let s := saturating_sub 64 required_bits in
  let? most := add_chk p 32 32 bits_removed in
  let s := Z.min s most in
  let? _ := debug_assert p (s <? 64) in
  let? pow := shl_chk p 64 1 s in
  let m := f64_to_uint 32 (f64_div (f64_of_Z pow) amt) in
  Ok (mkFastDiv m s).

(** [(1u128 << shift) as f64 / mul as f64]. *)
Definition estimated_reciprocal (fd : FastDiv) : res E f64 :=
  let? _ := debug_assert p (shift fd <? 64) in
  let? pow := shl_chk p 128 1 (shift fd) in
  Ok (f64_div (f64_of_Z pow) (f64_of_Z (mul fd))).

Definition divide_u64 (fd : FastDiv) (x : Z) : res E Z :=
  let? q := shr_chk p 64 (wrapping_mul 64 x (mul fd)) (shift fd) in
  Ok (wrap 32 q).

Definition remainder (fd : FastDiv) (x d : Z) : res E Z :=
  let? _ := debug_assert p (shift fd <? 64) in
  let s := shift fd in
  let xm := wrapping_mul 64 x (mul fd) in
  let? mask := if s =? 0 then Ok 0
               else let? one := shl_chk p 64 1 s in sub_chk p 64 one 1 in
  let frac := Z.land xm mask in
  let prod := d * frac in
  let? q := shr_chk p 128 prod s in
  Ok (wrap 64 q).

End operations.

(** ** Arithmetic of the shifted product *)

(** Dropping the high bits of the product does not disturb the low bits of
    the quotient. *)
Lemma div_low_bits a s b w :
  0 <= s -> 0 <= b -> s + b <= w ->
  ((a `mod` 2 ^ w) / 2 ^ s) `mod` 2 ^ b = (a / 2 ^ s) `mod` 2 ^ b.
Proof.
  intros Hs Hb Hw. rewrite <- !Z.shiftr_div_pow2 by done.
  apply Z.bits_inj'. intros i Hi. destruct (decide (i < b)).
  - rewrite !Z.mod_pow2_bits_low, !Z.shiftr_spec by done.
    apply Z.mod_pow2_bits_low. lia.
  - by rewrite !Z.mod_pow2_bits_high by lia.
Qed.

Lemma divide_u64_eq {E} p fd x :
  0 <= shift fd < 64 ->
  divide_u64 (E := E) p fd x = Ok (wrap 32 (wrap 64 (x * mul fd) / 2 ^ shift fd)).
Proof.
  intros Hs. unfold divide_u64, shr_chk. rewrite (proj2 (Z.ltb_lt _ _)) by lia. simpl.
  by rewrite Z.shiftr_div_pow2 by lia.
Qed.

Lemma remainder_eq {E} p fd x d :
  0 <= shift fd < 64 ->
  remainder (E := E) p fd x d
  = Ok (wrap 64 (d * ((x * mul fd) `mod` 2 ^ shift fd) / 2 ^ shift fd)).
Proof.
  intros Hs. unfold remainder, shl_chk, shr_chk.
  rewrite debug_assert_true by (apply Z.ltb_lt; lia).
  rewrite (proj2 (Z.ltb_lt (shift fd) 64)) by lia.
  rewrite (proj2 (Z.ltb_lt (shift fd) 128)) by lia. simpl.
  destruct (Z.eqb_spec (shift fd) 0) as [Hz|Hnz]; simpl.
  - rewrite Hz, Z.land_0_r, Z.mul_0_r, Z.mod_1_r, Z.mul_0_r. done.
  - assert (1 < 2 ^ shift fd < 2 ^ 64) as [? ?].
    { split; [apply Z.pow_gt_1; lia|apply Z.pow_lt_mono_r; lia]. }
    rewrite Z.shiftl_mul_pow2, Z.mul_1_l, wrap_small by (unfold fits; lia).
    unfold sub_chk. rewrite (proj2 (Z.leb_le 1 _)) by lia. simpl.
    rewrite land_mask by lia. unfold wrapping_mul, wrap at 2.
    rewrite mod_pow2_div by lia. by rewrite Z.shiftr_div_pow2 by lia.
Qed.

(** The floor of a product by a rounded-down reciprocal. *)
Lemma reciprocal_error x D S :
  0 <= x -> 0 < D -> 0 <= S ->
  x / D - x / 2 ^ S - 1 <= x * (2 ^ S / D) / 2 ^ S <= x / D.
Proof.
  intros Hx HD HS. set (P := 2 ^ S). assert (0 < P) by (subst P; lia).
  set (M := P / D). set (q := x * M / P).
  assert (M * D <= P < (M + 1) * D) as [HM1 HM2].
  { pose proof (Z.mul_div_le P D HD). pose proof (Z.mul_succ_div_gt P D HD). subst M. lia. }
  assert (q * P <= x * M < (q + 1) * P) as [Hq1 Hq2].
  { pose proof (Z.mul_div_le (x * M) P). pose proof (Z.mul_succ_div_gt (x * M) P). subst q. lia. }
  assert (0 <= M) by (subst M; apply Z.div_pos; lia).
  split.
  - pose proof (Z.mul_div_le x D HD). pose proof (Z.mul_succ_div_gt x P). set (k := x / D) in *.
    assert (x < (x / P + 1) * P) by lia.
    assert (k * D * P < (q + x / P + 2) * D * P) by nia.
    assert (k < q + x / P + 2); [|lia]. nia.
  - apply Z.div_le_lower_bound; [done|].
    assert (q * D * P <= x * P) by nia. nia.
Qed.

(** ** Properties *)

(** C40: the wrapping 64-bit multiplication leaves the [b] low bits of the
    quotient exact, for any multiplier, as long as the shift keeps [b] bits:
    they are those of the unbounded [x * mul / 2^shift]. *)
Theorem fastdiv_low_bits_exact {E} p fd x b :
  0 <= shift fd < 64 -> 0 <= b <= 32 -> shift fd + b <= 64 ->
  exists q, divide_u64 (E := E) p fd x = Ok q /\ fits 32 q
    /\ q `mod` 2 ^ b = (x * mul fd / 2 ^ shift fd) `mod` 2 ^ b.
Proof.
  intros Hs Hb Hsb. eexists. split_and!; [by apply divide_u64_eq|apply wrap_fits; lia|].
  unfold wrap at 1. rewrite mod_pow2_div by lia. unfold wrap. apply div_low_bits; lia.
Qed.

(** With the multiplier [2^shift / D] rounded down and no overflow, the
    quotient never exceeds the true quotient by [D], and falls short of it by
    at most [1 + x / 2^shift]. *)
Theorem fastdiv_accuracy {E} p D s x :
  0 < D -> 0 <= s < 64 -> 0 <= x -> fits 64 (x * (2 ^ s / D)) ->
  x * (2 ^ s / D) / 2 ^ s < 2 ^ 32 ->
  exists q, divide_u64 (E := E) p (from_mul_shift (2 ^ s / D) s) x = Ok q
    /\ x / D - x / 2 ^ s - 1 <= q <= x / D.
Proof.
  intros HD Hs Hx Hfit Hq. eexists. split; [by apply divide_u64_eq|]. simpl.
  rewrite (wrap_small 64) by done. rewrite wrap_small.
  - apply reciprocal_error; lia.
  - split; [|done]. apply Z.div_pos; [apply Hfit|lia].
Qed.

(** The fixed-point remainder is always below the divisor it is given,
    and it is the exact remainder when [mul * d = 2^shift]. *)
Theorem fastdiv_remainder_spec {E} p fd x d :
  0 <= shift fd < 64 -> 0 < d < 2 ^ 64 ->
  exists r, remainder (E := E) p fd x d = Ok r /\ 0 <= r < d
    /\ (0 < mul fd -> mul fd * d = 2 ^ shift fd -> r = x `mod` d).
Proof.
  intros Hs Hd. assert (0 < 2 ^ shift fd) by lia.
  set (f := (x * mul fd) `mod` 2 ^ shift fd).
  assert (0 <= f < 2 ^ shift fd) by (apply Z.mod_pos_bound; lia).
  assert (0 <= d * f / 2 ^ shift fd < d).
  { split; [apply Z.div_pos; nia|apply Z.div_lt_upper_bound; nia]. }
  exists (d * f / 2 ^ shift fd). split_and!; try lia.
  - rewrite remainder_eq by done. fold f. f_equal. apply wrap_small. unfold fits. lia.
  - intros Hm Heq. subst f. rewrite <- Heq, (Z.mul_comm (mul fd) d).
    rewrite Z.mul_mod_distr_r by lia. rewrite Z.mul_assoc, (Z.mul_comm d).
    rewrite <- Z.mul_assoc, Z.div_mul by lia. done.
Qed.

(** What the constructor relies on from the platform's [log2]: on integers
    of moderate size its integer part is exact. *)
Definition log2_law (log2 : f64 -> f64) : Prop :=
  forall D, 0 < D < 2 ^ 40 -> f64_to_uint 32 (f64_floor (log2 (f64_of_Z D))) = Z.log2 D.

Lemma new_values {E} p log2 :
  log2_law log2 ->
  new (E := E) p log2 (f64_of_Z 30000000000) 16 = Ok (mkFastDiv 9382 48)
  /\ new (E := E) p log2 (f64_of_Z 1000000000) 16 = Ok (mkFastDiv 281474 48)
  /\ new (E := E) p log2 (f64_of_Z 5000000000) 16 = Ok (mkFastDiv 56294 48)
  /\ new (E := E) p log2 (f64_of_Z 5000000000) 8 = Ok (mkFastDiv 14411518 56).
Proof.
  intros Hlog. unfold new.
  rewrite (Hlog 30000000000), (Hlog 1000000000), (Hlog 5000000000) by lia.
  destruct p; vm_compute; done.
Qed.

(** The constructor's multiplier and shift for the divisors the reducer
    and the crate's documentation use: 30 s, 1 s and 5 s of nanoseconds. *)
Theorem fastdiv_new_values {E} p log2 :
  log2_law log2 ->
  new (E := E) p log2 (f64_of_Z 30000000000) 16 = Ok (mkFastDiv 9382 48)
  /\ new (E := E) p log2 (f64_of_Z 1000000000) 16 = Ok (mkFastDiv 281474 48)
  /\ new (E := E) p log2 (f64_of_Z 5000000000) 16 = Ok (mkFastDiv 56294 48)
  /\ new (E := E) p log2 (f64_of_Z 5000000000) 8 = Ok (mkFastDiv 14411518 56).
Proof. apply new_values. Qed.

(** Dividing by a power of two small enough that the shift is not capped
    needs the multiplier [2^32], which does not fit; it saturates to
    [2^32 - 1], and the divider then maps its own divisor to 0. *)
Theorem fastdiv_new_pow2_saturates {E} p log2 k :
  log2_law log2 -> 0 <= k <= 16 ->
  exists fd, new (E := E) p log2 (f64_of_Z (2 ^ k)) 16 = Ok fd
    /\ mul fd = 2 ^ 32 - 1 /\ shift fd = 32 + k
    /\ divide_u64 (E := E) p fd (2 ^ k) = Ok 0.
Proof.
  intros Hlog Hk.
  assert (Z.log2 (2 ^ k) = k) as Hk2 by (apply Z.log2_pow2; lia).
  assert (f64_to_uint 32 (f64_floor (log2 (f64_of_Z (2 ^ k)))) = k) as Hfl.
  { rewrite Hlog; [done|]. split; [lia|]. apply Z.pow_lt_mono_r; lia. }
  exists (mkFastDiv (2 ^ 32 - 1) (32 + k)). unfold new. rewrite Hfl. clear Hfl Hlog Hk2.
  assert (k ∈ seqZ 0 17) as Hin by (apply elem_of_seqZ; lia). clear Hk.
  revert k Hin. apply Forall_forall.
  destruct p; repeat constructor.
Qed.

(** A concrete [log2] with the law, for the witnesses: the integer part. *)
Definition log2_int (x : f64) : f64 := f64_of_Z (Z.log2 (f64_to_uint 64 x)).

Lemma log2_int_law : log2_law log2_int.
Proof.
  intros D HD. unfold log2_int.
  assert (2 ^ 40 < 2 ^ 53 /\ 2 ^ 53 < 2 ^ 64) as [? ?] by done.
  rewrite f64_to_uint_of_Z by (unfold fits; lia).
  assert (0 <= Z.log2 D < 40) as Hl.
  { split; [apply Z.log2_nonneg|]. apply Z.log2_lt_pow2; lia. }
  assert (Z.log2 D ∈ seqZ 0 40) as Hin by (apply elem_of_seqZ; lia).
  revert Hin. generalize (Z.log2 D). clear. apply Forall_forall. repeat constructor.
Qed.

Lemma fastdiv_low_bits_exact_witness :
  exists q, divide_u64 (E := unit) Debug (mkFastDiv 9382 48) 1700000000000000000 = Ok q
    /\ q `mod` 2 ^ 16 = (1700000000000000000 * 9382 / 2 ^ 48) `mod` 2 ^ 16.
Proof.
  destruct (fastdiv_low_bits_exact (E := unit) Debug (mkFastDiv 9382 48)
              1700000000000000000 16 ltac:(simpl; lia) ltac:(lia) ltac:(simpl; lia))
    as (q & H1 & _ & H3). exists q. by split.
Defined.

Lemma fastdiv_accuracy_witness :
  exists q, divide_u64 (E := unit) Debug (from_mul_shift (2 ^ 48 / 5000000000) 48) 10000000000 = Ok q
    /\ 10000000000 / 5000000000 - 10000000000 / 2 ^ 48 - 1 <= q <= 10000000000 / 5000000000.
Proof.
  apply (fastdiv_accuracy (E := unit) Debug 5000000000 48 10000000000);
    [lia|lia|lia|by vm_compute|by vm_compute].
Defined.

Lemma fastdiv_remainder_spec_witness :
  exists r, remainder (E := unit) Debug (mkFastDiv (2 ^ 31) 44) (2 ^ 40 + 12345) (2 ^ 13) = Ok r
    /\ 0 <= r < 2 ^ 13 /\ r = (2 ^ 40 + 12345) `mod` 2 ^ 13.
Proof.
  destruct (fastdiv_remainder_spec (E := unit) Debug (mkFastDiv (2 ^ 31) 44)
              (2 ^ 40 + 12345) (2 ^ 13) ltac:(simpl; lia) ltac:(lia)) as (r & H1 & H2 & H3).
  exists r. split_and!; [done|lia|lia|]. apply H3; by vm_compute.
Defined.

Lemma fastdiv_new_values_witness :
  new (E := unit) Debug log2_int (f64_of_Z 30000000000) 16 = Ok (mkFastDiv 9382 48).
Proof. apply (fastdiv_new_values (E := unit) Debug log2_int log2_int_law). Defined.

Lemma fastdiv_new_pow2_saturates_witness :
  exists fd, new (E := unit) Debug log2_int (f64_of_Z (2 ^ 0)) 16 = Ok fd
    /\ divide_u64 (E := unit) Debug fd (2 ^ 0) = Ok 0.
Proof.
  destruct (fastdiv_new_pow2_saturates (E := unit) Debug log2_int 0 log2_int_law ltac:(lia))
    as (fd & H1 & _ & _ & H4). by exists fd.
Defined.
