(* ===== verification/VirtualClock.v ===== *)
(** * The virtual clock (crates/timeslot, virtual_clock.rs)

    A clock driven by several inputs.  Timestamps are divided into timeslots,
    kept as 16-bit integers on a ring; the clock moves on once every input has
    left the current timeslot.  The state is the source's struct, one
    definition per method.  The contract is a clock on unbounded timeslots:
    the ring clock answers exactly as it does as long as no timestamp is 2^15
    slots or more away from the clock. *)

From S2P Require Import Prelude Float64 FastDiv.

Local Open Scope rust_scope.

Inductive UpdateError := NotPermitted | PastTimeslot.

Record Input := mkInput { timeslot : option Z }.

Record VirtualClock := mkClock {
  inputs : list Input;
  divider : FastDiv;
  timeslot_duration : f64;
  current_timeslot : option Z;
}.

Definition signed_delta_u16 (new old : Z) : Z := as_signed 16 (wrapping_sub 16 new old).

(** [x as u16] of a signed 16-bit integer. *)
Definition as_u16 (x : Z) : Z := wrap 16 x.

Section operations.
Context {E : Type} (p : profile).
Implicit Types c : VirtualClock.

Definition new (d : FastDiv) : res E VirtualClock :=
  let? dur := estimated_reciprocal p d in
  Ok (mkClock [] d dur None).

Definition default (log2 : f64 -> f64) : res E VirtualClock :=
  let? d := FastDiv.new p log2 (f64_of_Z 1000000000) 16 in
  new d.

Definition set_inputs c (l : list Input) : VirtualClock :=
  mkClock l (divider c) (timeslot_duration c) (current_timeslot c).

Definition set_current c (t : option Z) : VirtualClock :=
  mkClock (inputs c) (divider c) (timeslot_duration c) t.

Definition add_inputs c (n : nat) : VirtualClock :=
  set_inputs c (inputs c ++ replicate n (mkInput None)).

Definition n_inputs c : nat := length (inputs c).

Definition is_current c (input_index : nat) : res E bool :=
  if bool_decide (is_Some (current_timeslot c)) then
    let? i := index (inputs c) input_index in
    Ok (bool_decide (timeslot i = current_timeslot c))
  else Ok false.

Definition can_update c (input_index : nat) : res E bool :=
  let? i := index (inputs c) input_index in
  Ok (bool_decide (timeslot i = current_timeslot c)).

Definition map_timestamp c (ts : Z) : res E Z :=
  let? q := divide_u64 p (divider c) ts in
  Ok (wrap 16 q).

(** The loop of [earliest_input_timeslot] over the inputs, with its running
    minimum of [f ts]. *)
Fixpoint min_loop (f : Z -> Z) (acc : option Z) (l : list Input) : res E (option Z) :=
  match l with
  | [] => Ok acc
  | i :: l =>
      let? ts := unwrap (timeslot i) in
      min_loop f (Some (match acc with Some m => Z.min m (f ts) | None => f ts end)) l
  end.

Definition earliest_input_timeslot c : res E (option Z) :=
  if existsb (fun i => bool_decide (timeslot i = None)) (inputs c) then Ok None
  else
    let? min_timeslot := min_loop (fun ts => ts) None (inputs c) in
    let? min_timeslot := unwrap min_timeslot in
    let? min_diff := min_loop (fun ts => signed_delta_u16 ts min_timeslot) None (inputs c) in
    let? min_diff := unwrap min_diff in
    Ok (Some (wrapping_add 16 min_timeslot (as_u16 min_diff))).

(** The loop of [min_input_advance]; the [?] on an unset input leaves it. *)
Fixpoint min_advance_loop (cur : Z) (acc : option Z) (l : list Input) : option Z :=
  match l with
  | [] => acc
  | i :: l =>
      match timeslot i with
      | None => None
      | Some ts =>
          let adv := signed_delta_u16 ts cur in
          min_advance_loop cur (Some (match acc with Some a => Z.min a adv | None => adv end)) l
      end
  end.

Definition min_input_advance c : option Z :=
  match current_timeslot c with
  | None => None
  | Some cur => min_advance_loop cur None (inputs c)
  end.

Definition advance c : res E (bool * VirtualClock) :=
  match current_timeslot c with
  | Some cur =>
      match min_input_advance c with
      | Some advance_slots =>
          if 0 <? advance_slots
          then Ok (true, set_current c (Some (wrapping_add 16 cur (as_u16 advance_slots))))
          else Ok (false, c)
      | None => Ok (false, c)
      end
  | None =>
      let? e := earliest_input_timeslot c in
      Ok (false, set_current c e)
  end.

End operations.

(** [update]: every error is returned before the input is assigned. *)
Definition update (p : profile) (c : VirtualClock) (input_index : nat) (timestamp : Z)
  : res UpdateError VirtualClock :=
  let? new_timeslot := map_timestamp p c timestamp in
  let? input := index (inputs c) input_index in
  if bool_decide (timeslot input = current_timeslot c) then
    match timeslot input with
    | Some old =>
        let diff := signed_delta_u16 new_timeslot old in
        if 0 <=? diff
        then Ok (set_inputs c (<[input_index := mkInput (Some (wrapping_add 16 old (as_u16 diff)))]> (inputs c)))
        else Err PastTimeslot
    | None => Ok (set_inputs c (<[input_index := mkInput (Some new_timeslot)]> (inputs c)))
    end
  else Err NotPermitted.

(** ** Sequences of operations *)

Inductive op :=
| AddInputs (n : nat)
| Update (i : nat) (timestamp : Z)
| Advance.

(** What the caller sees of one operation. *)
Inductive obs :=
| Added
| Updated (r : option UpdateError)
| Advanced (moved : bool).

Definition step_impl {E} (p : profile) (c : VirtualClock) (o : op) : res E (obs * VirtualClock) :=
  match o with
  | AddInputs n => Ok (Added, add_inputs c n)
  | Update i ts =>
      match update p c i ts with
      | Ok c' => Ok (Updated None, c')
      | Err e => Ok (Updated (Some e), c)
      | Panic => Panic
      end
  | Advance => let? '(b, c') := advance c in Ok (Advanced b, c')
  end.

(** The observations of a run: the result of each operation and the current
    timeslot after it. *)
Fixpoint run_impl {E} (p : profile) (c : VirtualClock) (os : list op)
  : res E (list (obs * option Z)) :=
  match os with
  | [] => Ok []
  | o :: os =>
      let? '(r, c') := step_impl p c o in
      rmap (cons (r, current_timeslot c')) (run_impl p c' os)
  end.

(** The clock a run ends in. *)
Fixpoint exec {E} (p : profile) (c : VirtualClock) (os : list op) : res E VirtualClock :=
  match os with
  | [] => Ok c
  | o :: os => let? '(_, c') := step_impl p c o in exec p c' os
  end.

(** ** The contract: a clock on unbounded timeslots *)

(** The exact timeslot of a timestamp. *)
Definition slot (d : FastDiv) (ts : Z) : Z := ts * mul d / 2 ^ shift d.

Record sclock := mkSClock { s_slots : list (option Z); s_cur : option Z }.

Definition list_min (x : Z) (l : list Z) : Z := fold_left Z.min l x.

Definition step_spec {E} (d : FastDiv) (s : sclock) (o : op) : res E (obs * sclock) :=
  match o with
  | AddInputs n => Ok (Added, mkSClock (s_slots s ++ replicate n None) (s_cur s))
  | Update i ts =>
      match s_slots s !! i with
      | None => Panic
      | Some t =>
          if bool_decide (t = s_cur s) then
            if match s_cur s with Some c => slot d ts <? c | None => false end
            then Ok (Updated (Some PastTimeslot), s)
            else Ok (Updated None, mkSClock (<[i := Some (slot d ts)]> (s_slots s)) (s_cur s))
          else Ok (Updated (Some NotPermitted), s)
      end
  | Advance =>
      match s_cur s, mapM id (s_slots s) with
      | Some c, Some (x :: l) =>
          if c <? list_min x l
          then Ok (Advanced true, mkSClock (s_slots s) (Some (list_min x l)))
          else Ok (Advanced false, s)
      | None, Some (x :: l) =>
          Ok (Advanced false, mkSClock (s_slots s) (Some (list_min x l)))
      | None, Some [] => Panic
      | _, _ => Ok (Advanced false, s)
      end
  end.

Fixpoint run_spec {E} (d : FastDiv) (s : sclock) (os : list op)
  : res E (list (obs * option Z)) :=
  match os with
  | [] => Ok []
  | o :: os =>
      let? '(r, s') := step_spec d s o in
      rmap (cons (r, wrap 16 <$> s_cur s')) (run_spec d s' os)
  end.

(** The timestamps are close enough to the clock for 16 bits: an accepted
    update is less than 2^15 slots away from the clock, or, before the clock
    is set, from the slots of the other inputs. *)
Definition near (d : FastDiv) (s : sclock) (o : op) : Prop :=
  match o with
  | Update i ts =>
      s_slots s !! i = Some (s_cur s) ->
      match s_cur s with
      | Some c => - 2 ^ 15 <= slot d ts - c < 2 ^ 15
      | None => Forall (fun t => match t with
                                 | Some t => Z.abs (slot d ts - t) < 2 ^ 15
                                 | None => True
                                 end) (s_slots s)
      end
  | _ => True
  end.

Fixpoint near_run (d : FastDiv) (s : sclock) (os : list op) : Prop :=
  match os with
  | [] => True
  | o :: os =>
      near d s o /\
      match step_spec (E := unit) d s o with
      | Ok (_, s') => near_run d s' os
      | _ => True
      end
  end.

Definition s_init : sclock := mkSClock [] None.

(** ** Minima *)

Definition is_min (m : Z) (l : list Z) : Prop := m ∈ l /\ Forall (Z.le m) l.

Lemma is_min_unique m m' l : is_min m l -> is_min m' l -> m = m'.
Proof.
  intros [H1 H2] [H3 H4].
  pose proof (proj1 (Forall_forall _ _) H2 _ H3). pose proof (proj1 (Forall_forall _ _) H4 _ H1). lia.
Qed.

Lemma list_min_spec x l : is_min (list_min x l) (x :: l).
Proof.
  unfold list_min. revert x. induction l as [|y l IH]; intros x; simpl.
  - split; [set_solver|repeat constructor; lia].
  - destruct (IH (Z.min x y)) as [H1 H2]. inversion H2; subst. split.
    + apply elem_of_cons in H1 as [->|H1]; [|set_solver].
      destruct (Z.min_spec x y) as [[_ ->]|[_ ->]]; set_solver.
    + repeat constructor; [lia|lia|]. done.
Qed.

(** Translating every element translates the minimum. *)
Lemma is_min_shift m b l : is_min m l -> is_min (m - b) ((fun t => t - b) <$> l).
Proof.
  intros [H1 H2]. split.
  - apply list_elem_of_fmap. by exists m.
  - apply Forall_fmap. eapply Forall_impl; [done|]. simpl. lia.
Qed.

Lemma list_min_shift x b l : list_min (x - b) ((fun t => t - b) <$> l) = list_min x l - b.
Proof.
  eapply is_min_unique; [apply list_min_spec|].
  apply (is_min_shift (list_min x l) b (x :: l)), list_min_spec.
Qed.

(** ** The ring *)

Lemma signed_delta_wrap a b :
  - 2 ^ 15 <= a - b < 2 ^ 15 -> signed_delta_u16 (wrap 16 a) (wrap 16 b) = a - b.
Proof.
  intros H. unfold signed_delta_u16, wrapping_sub. autorewrite with wrapdb.
  by apply as_signed_wrap.
Qed.

Lemma wrap16_inj a b : Z.abs (a - b) < 2 ^ 16 -> wrap 16 a = wrap 16 b -> a = b.
Proof.
  unfold wrap. intros ? Heq.
  pose proof (Z.div_mod a (2 ^ 16) ltac:(lia)). pose proof (Z.div_mod b (2 ^ 16) ltac:(lia)). lia.
Qed.

Lemma map_timestamp_slot {E} p c ts :
  0 <= shift (divider c) <= 48 ->
  map_timestamp (E := E) p c ts = Ok (wrap 16 (slot (divider c) ts)).
Proof.
  intros Hs. unfold map_timestamp. rewrite divide_u64_eq by lia. simpl. f_equal.
  unfold slot, wrap. rewrite mod_pow2_div by lia. apply div_low_bits; lia.
Qed.

(** The inputs of the ring clock for unbounded slots. *)
Definition ring (l : list (option Z)) : list Input := (fun t => mkInput (wrap 16 <$> t)) <$> l.

Lemma min_loop_ring {E} f acc (l : list Z) :
  min_loop (E := E) f acc (ring (Some <$> l))
  = Ok (match acc, l with
        | Some m, _ => Some (list_min m ((fun t => f (wrap 16 t)) <$> l))
        | None, [] => None
        | None, x :: l => Some (list_min (f (wrap 16 x)) ((fun t => f (wrap 16 t)) <$> l))
        end).
Proof.
  revert acc. induction l as [|x l IH]; intros acc; [by destruct acc|].
  cbn. fold (ring (Some <$> l)). rewrite IH. by destruct acc.
Qed.

Lemma min_advance_loop_ring cur acc (l : list Z) :
  min_advance_loop cur acc (ring (Some <$> l))
  = match acc, l with
    | Some m, _ => Some (list_min m ((fun t => signed_delta_u16 (wrap 16 t) cur) <$> l))
    | None, [] => None
    | None, x :: l => Some (list_min (signed_delta_u16 (wrap 16 x) cur)
                              ((fun t => signed_delta_u16 (wrap 16 t) cur) <$> l))
    end.
Proof.
  revert acc. induction l as [|x l IH]; intros acc; [by destruct acc|].
  cbn. fold (ring (Some <$> l)). rewrite IH. by destruct acc.
Qed.

Lemma min_advance_loop_unset cur acc (l : list Input) :
  mkInput None ∈ l -> min_advance_loop cur acc l = None.
Proof.
  revert acc. induction l as [|i l IH]; intros acc Hin; [by apply elem_of_nil in Hin|].
  simpl. apply elem_of_cons in Hin as [<-|Hin]; [done|].
  destruct (timeslot i); [by apply IH|done].
Qed.

Lemma signed_delta_list b (l : list Z) :
  Forall (fun t => - 2 ^ 15 <= t - b < 2 ^ 15) l ->
  (fun t => signed_delta_u16 (wrap 16 t) (wrap 16 b)) <$> l = (fun t => t - b) <$> l.
Proof.
  intros H. apply list_fmap_ext. intros i x Hx. apply signed_delta_wrap.
  by apply (proj1 (Forall_lookup _ _) H i).
Qed.

Lemma wrapping_add_shift b t : wrapping_add 16 (wrap 16 b) (as_u16 (t - b)) = wrap 16 t.
Proof.
  unfold wrapping_add, as_u16. autorewrite with wrapdb. f_equal. lia.
Qed.

(** ** Simulation *)

Definition within (t : option Z) (P : Z -> Prop) : Prop :=
  match t with Some t => P t | None => True end.

(** Every set input is less than 2^15 slots ahead of the clock, or, before
    the clock is set, of every other input. *)
Definition window (s : sclock) : Prop :=
  match s_cur s with
  | Some c => Forall (fun t => within t (fun t => c <= t < c + 2 ^ 15)) (s_slots s)
  | None =>
      forall i j t u, s_slots s !! i = Some (Some t) -> s_slots s !! j = Some (Some u) ->
        Z.abs (t - u) < 2 ^ 15
  end.

Record sim (d : FastDiv) (c : VirtualClock) (s : sclock) : Prop := mkSim {
  sim_divider : divider c = d;
  sim_inputs : inputs c = ring (s_slots s);
  sim_cur : current_timeslot c = (wrap 16 <$> s_cur s);
  sim_window : window s;
}.

Lemma window_add s n : window s -> window (mkSClock (s_slots s ++ replicate n None) (s_cur s)).
Proof.
  unfold window. simpl. destruct (s_cur s) as [c|].
  - intros H. apply Forall_app. split; [done|]. by apply Forall_replicate.
  - intros H i j t u Hi Hj.
    assert (forall k v, (s_slots s ++ replicate n None) !! k = Some (Some v) ->
              s_slots s !! k = Some (Some v)) as Hold.
    { intros k v Hk. apply lookup_app_Some in Hk as [Hk|[_ Hk]]; [done|].
      by apply lookup_replicate in Hk as [? _]. }
    eauto.
Qed.

Lemma ring_add l n : ring (l ++ replicate n None) = ring l ++ replicate n (mkInput None).
Proof. unfold ring. by rewrite fmap_app, fmap_replicate. Qed.

Lemma ring_lookup l i : ring l !! i = (fun t => mkInput (wrap 16 <$> t)) <$> (l !! i).
Proof. apply list_lookup_fmap. Qed.

(** A slot equals the clock on the ring exactly when it does without bounds. *)
Lemma window_current s t i :
  window s -> s_slots s !! i = Some t -> wrap 16 <$> t = wrap 16 <$> s_cur s <-> t = s_cur s.
Proof.
  intros Hw Hi. split; [|by intros ->]. unfold window in Hw.
  destruct (s_cur s) as [c|], t as [t|]; simpl; try done.
  intros Heq. injection Heq as Heq. apply wrap16_inj in Heq; [by f_equal|].
  pose proof (proj1 (Forall_lookup _ _) Hw i _ Hi) as Ht. simpl in Ht. lia.
Qed.

Lemma window_update d s i ts :
  window s -> near d s (Update i ts) -> s_slots s !! i = Some (s_cur s) ->
  match s_cur s with Some c => c <= slot d ts | None => True end ->
  window (mkSClock (<[i := Some (slot d ts)]> (s_slots s)) (s_cur s)).
Proof.
  intros Hw Hn Hi Hc. specialize (Hn Hi). unfold window in *. simpl.
  destruct (s_cur s) as [c|].
  - apply Forall_insert; [done|]. simpl. lia.
  - intros j k t u Hj Hk.
    assert (forall m v, <[i:=Some (slot d ts)]> (s_slots s) !! m = Some (Some v) ->
              v = slot d ts \/ s_slots s !! m = Some (Some v)) as Hold.
    { intros m v Hm. apply list_lookup_insert_Some in Hm as [(<- & Heq & _)|[_ ?]]; [|by right].
      injection Heq as ->. by left. }
    assert (forall m v, s_slots s !! m = Some (Some v) -> Z.abs (slot d ts - v) < 2 ^ 15) as Hfar.
    { intros m v Hm. apply (proj1 (Forall_lookup _ _) Hn m _ Hm). }
    destruct (Hold _ _ Hj) as [->|Hj'], (Hold _ _ Hk) as [->|Hk'].
    + lia.
    + eauto.
    + specialize (Hfar _ _ Hj'). lia.
    + eauto.
Qed.

Lemma mapM_id_Some {A} (l : list (option A)) k : mapM id l = Some k <-> l = Some <$> k.
Proof.
  rewrite mapM_Some. split.
  - induction 1 as [|x y l k Hx _ IH]; [done|]. simpl in *. by subst.
  - intros ->. induction k; by constructor.
Qed.

Lemma mapM_id_None {A} (l : list (option A)) : mapM id l = None <-> None ∈ l.
Proof.
  rewrite mapM_None, Exists_exists. split.
  - intros (x & Hx & Heq). simpl in Heq. by subst.
  - intros H. by exists None.
Qed.

(** The two clocks give the same answer and stay related. *)
Definition step_agrees {E} (d : FastDiv) (spec : res E (obs * sclock))
    (impl : res E (obs * VirtualClock)) : Prop :=
  match spec with
  | Ok (r, s') => exists c', impl = Ok (r, c') /\ sim d c' s'
  | Err _ => False
  | Panic => impl = Panic
  end.

Lemma sim_update {E} p d c s i ts :
  0 <= shift d <= 48 -> sim d c s -> near d s (Update i ts) ->
  step_agrees (E := E) d (step_spec d s (Update i ts)) (step_impl p c (Update i ts)).
Proof.
  intros Hs Hsim Hn. destruct (Hsim) as [<- Hin Hcur Hw]. unfold step_agrees. simpl. unfold update.
  rewrite map_timestamp_slot by done. simpl. unfold index. rewrite Hin, ring_lookup, Hcur.
  destruct (s_slots s !! i) as [t|] eqn:Hi; simpl; [|done].
  rewrite (bool_decide_ext _ _ (window_current s t i Hw Hi)).
  case_bool_decide as Ht; [subst t|by exists c].
  destruct (s_cur s) as [cc|] eqn:Hcc; simpl.
  - assert (- 2 ^ 15 <= slot (divider c) ts - cc < 2 ^ 15) as Hnear.
    { unfold near in Hn. rewrite Hcc in Hn. by apply Hn. }
    rewrite signed_delta_wrap by done.
    destruct (Z.ltb_spec (slot (divider c) ts) cc).
    + rewrite (proj2 (Z.leb_gt 0 _)) by lia. by exists c.
    + rewrite (proj2 (Z.leb_le 0 _)) by lia. eexists; split; [done|].
      rewrite wrapping_add_shift.
      split; [done| |simpl; by rewrite Hcur|].
      * simpl. unfold ring. by rewrite list_fmap_insert.
      * rewrite <- Hcc. apply window_update; rewrite ?Hcc; auto.
  - eexists; split; [done|]. split; [done| |simpl; by rewrite Hcur|].
    + simpl. unfold ring. by rewrite list_fmap_insert.
    + rewrite <- Hcc. apply window_update; rewrite ?Hcc; auto.
Qed.

Lemma existsb_unset l :
  existsb (fun i => bool_decide (timeslot i = None)) (ring l) = bool_decide (None ∈ l).
Proof.
  induction l as [|t l IH]; [done|]. cbn. fold (ring l). rewrite IH. clear IH.
  destruct t as [t|]; simpl.
  - apply bool_decide_ext. split; [by right|by intros [?|?]%elem_of_cons].
  - done.
Qed.

Lemma earliest_ring {E} c s x l :
  inputs c = ring (s_slots s) -> s_cur s = None -> window s -> s_slots s = Some <$> (x :: l) ->
  earliest_input_timeslot (E := E) c = Ok (Some (wrap 16 (list_min x l))).
Proof.
  intros Hin Hcur Hw Hl. unfold earliest_input_timeslot.
  rewrite Hin, existsb_unset, bool_decide_eq_false_2.
  2:{ rewrite Hl. intros H. apply list_elem_of_fmap in H as (? & ? & ?). done. }
  rewrite Hl, min_loop_ring. cbn [rbind unwrap].
  (* the numeric minimum is the slot of some input, and every input is near it *)
  destruct (list_min_spec (wrap 16 x) ((fun t => wrap 16 t) <$> l)) as [Hmin _].
  change (wrap 16 x :: ((fun t => wrap 16 t) <$> l)) with (wrap 16 <$> (x :: l)) in Hmin.
  apply list_elem_of_fmap in Hmin as (b & -> & Hb).
  assert (Forall (fun t => - 2 ^ 15 <= t - b < 2 ^ 15) (x :: l)) as Hnear.
  { apply list_elem_of_lookup in Hb as [i Hi]. apply Forall_lookup. intros j t Ht.
    unfold window in Hw. rewrite Hcur, Hl in Hw.
    assert (Z.abs (t - b) < 2 ^ 15); [|lia].
    apply (Hw j i); by rewrite list_lookup_fmap, ?Hi, ?Ht. }
  rewrite min_loop_ring. cbn [rbind unwrap].
  inversion Hnear as [|? ? Hx Hl']; subst.
  rewrite signed_delta_wrap by done. rewrite signed_delta_list by done.
  by rewrite list_min_shift, wrapping_add_shift.
Qed.

Lemma window_init s x l :
  s_cur s = None -> window s -> s_slots s = Some <$> (x :: l) ->
  window (mkSClock (s_slots s) (Some (list_min x l))).
Proof.
  intros Hcur Hw Hl. unfold window in *. rewrite Hcur in Hw. simpl. rewrite Hl in *.
  destruct (list_min_spec x l) as [Hin Hle]. apply list_elem_of_lookup in Hin as [i Hi].
  apply Forall_lookup. intros j t Ht. rewrite list_lookup_fmap in Ht.
  destruct ((x :: l) !! j) as [u|] eqn:Hu; [|done]. injection Ht as <-. simpl.
  pose proof (proj1 (Forall_lookup _ _) Hle j _ Hu).
  assert (Z.abs (u - list_min x l) < 2 ^ 15); [|lia].
  apply (Hw j i); by rewrite list_lookup_fmap, ?Hi, ?Hu.
Qed.

Lemma window_advance s c x l :
  s_cur s = Some c -> window s -> s_slots s = Some <$> (x :: l) -> c < list_min x l ->
  window (mkSClock (s_slots s) (Some (list_min x l))).
Proof.
  intros Hcur Hw Hl Hc. unfold window in *. rewrite Hcur in Hw. simpl. rewrite Hl in *.
  destruct (list_min_spec x l) as [_ Hle].
  rewrite Forall_fmap in *. eapply Forall_impl; [apply (proj2 (Forall_and _ _) (conj Hw Hle))|].
  intros t [Ht ?]. simpl in *. lia.
Qed.

Lemma sim_advance {E} p d c s :
  sim d c s -> step_agrees (E := E) d (step_spec d s Advance) (step_impl p c Advance).
Proof.
  intros Hsim. destruct (Hsim) as [<- Hin Hcur Hw]. unfold step_agrees. simpl. unfold advance.
  rewrite Hcur. destruct (mapM id (s_slots s)) as [[|x l]|] eqn:Hm.
  - apply mapM_id_Some in Hm.
    destruct (s_cur s) as [cc|] eqn:Hcc; simpl.
    + unfold min_input_advance. rewrite Hcur, Hin, Hm. simpl. by exists c.
    + unfold earliest_input_timeslot. by rewrite Hin, Hm.
  - apply mapM_id_Some in Hm.
    destruct (s_cur s) as [cc|] eqn:Hcc; simpl.
    + assert (inputs c = ring (Some <$> (x :: l))) as Hin' by congruence.
      unfold min_input_advance. rewrite Hcur, Hin'. cbn [fmap option_fmap option_map].
      pose proof Hw as Hw'. unfold window in Hw'. rewrite Hcc, Hm, Forall_fmap in Hw'.
      assert (Forall (fun t => - 2 ^ 15 <= t - cc < 2 ^ 15) (x :: l)) as Hnear.
      { eapply Forall_impl; [exact Hw'|]. intros t Ht. simpl in Ht. lia. }
      rewrite min_advance_loop_ring. inversion Hnear; subst.
      rewrite signed_delta_wrap by done. rewrite signed_delta_list by done.
      rewrite list_min_shift. destruct (Z.ltb_spec cc (list_min x l)).
      * rewrite (proj2 (Z.ltb_lt 0 _)) by lia. eexists. split; [done|].
        rewrite wrapping_add_shift. split; [done|done|done|]. by apply (window_advance s cc).
      * rewrite (proj2 (Z.ltb_ge 0 _)) by lia. by exists c.
    + rewrite (earliest_ring c s x l) by done. simpl. eexists. split; [done|].
      split; [done|done|done|]. by apply window_init.
  - apply mapM_id_None in Hm.
    destruct (s_cur s) as [cc|] eqn:Hcc; simpl.
    + unfold min_input_advance. rewrite Hcur, Hin. cbn [fmap option_fmap option_map].
      rewrite min_advance_loop_unset; [by exists c|].
      apply list_elem_of_fmap. by exists None.
    + unfold earliest_input_timeslot. rewrite Hin, existsb_unset, bool_decide_eq_true_2 by done.
      simpl. exists c. split; [|done]. destruct c. simpl in *. by subst.
Qed.

Lemma sim_step {E} p d c s o :
  0 <= shift d <= 48 -> sim d c s -> near d s o ->
  step_agrees (E := E) d (step_spec d s o) (step_impl p c o).
Proof.
  intros Hs Hsim Hn. destruct o as [n|i ts|].
  - destruct Hsim as [<- Hin Hcur Hw]. eexists. split; [done|]. split; [done| |done|].
    + simpl. by rewrite ring_add, Hin.
    + by apply window_add.
  - by apply sim_update.
  - by apply sim_advance.
Qed.

(** [step_spec] does not depend on the error type. *)
Lemma step_spec_error_type {E E'} d s o r s' :
  step_spec (E := E) d s o = Ok (r, s') -> step_spec (E := E') d s o = Ok (r, s').
Proof.
  destruct o; simpl; intros H; repeat case_match; congruence.
Qed.

Lemma sim_run {E} p d c s os :
  0 <= shift d <= 48 -> sim d c s -> near_run d s os ->
  run_impl (E := E) p c os = run_spec d s os.
Proof.
  intros Hs. revert c s. induction os as [|o os IH]; intros c s Hsim Hnear; [done|].
  destruct Hnear as [Hn Hrun]. simpl.
  pose proof (sim_step (E := E) p d c s o Hs Hsim Hn) as Hstep. unfold step_agrees in Hstep.
  destruct (step_spec (E := E) d s o) as [[r s']|e|] eqn:Hspec; [|done|by rewrite Hstep].
  rewrite (step_spec_error_type _ _ _ _ _ Hspec) in Hrun.
  destruct Hstep as (c' & -> & Hsim'). simpl. rewrite (IH c' s') by done.
  by rewrite (sim_cur _ _ _ Hsim').
Qed.

Lemma sim_exec {E} p d c s os c' :
  0 <= shift d <= 48 -> sim d c s -> near_run d s os ->
  exec (E := E) p c os = Ok c' -> exists s', sim d c' s'.
Proof.
  intros Hs. revert c s. induction os as [|o os IH]; intros c s Hsim Hnear Hex.
  - simpl in Hex. injection Hex as <-. by exists s.
  - destruct Hnear as [Hn Hrun]. simpl in Hex. pose proof (sim_step (E := E) p d c s o Hs Hsim Hn) as Hstep.
    unfold step_agrees in Hstep.
    destruct (step_spec (E := E) d s o) as [[r s']|e|] eqn:Hspec; [|done|by rewrite Hstep in Hex].
    rewrite (step_spec_error_type _ _ _ _ _ Hspec) in Hrun.
    destruct Hstep as (c1 & Heq & Hsim'). rewrite Heq in Hex. simpl in Hex. eauto.
Qed.

Lemma new_sim {E} p d :
  0 <= shift d < 64 -> exists c, new (E := E) p d = Ok c /\ sim d c s_init.
Proof.
  intros Hs. unfold new, estimated_reciprocal.
  rewrite debug_assert_true by (apply Z.ltb_lt; lia). unfold shl_chk.
  rewrite (proj2 (Z.ltb_lt (shift d) 128)) by lia. simpl.
  eexists. split; [done|]. by split.
Qed.

(** The minimum over the inputs, with what was seen before. *)
Lemma min_advance_acc cur acc l n :
  min_advance_loop cur acc l = Some n ->
  (acc = Some n \/ exists i, i ∈ l /\ exists t, timeslot i = Some t /\ signed_delta_u16 t cur = n)
  /\ (forall a, acc = Some a -> n <= a)
  /\ Forall (fun i => exists t, timeslot i = Some t /\ n <= signed_delta_u16 t cur) l.
Proof.
  revert acc. induction l as [|i l IH]; intros acc Hn; simpl in Hn.
  { split_and!; [by left|intros a Ha; simplify_eq; lia|by constructor]. }
  destruct (timeslot i) as [t|] eqn:Ht; [|done].
  destruct (IH _ Hn) as (Hin & Hle & Hall).
  assert (n <= signed_delta_u16 t cur /\ forall a, acc = Some a -> n <= a) as [Hit Hacc].
  { destruct acc as [a|]; [|split; [by apply Hle|done]].
    pose proof (Hle _ eq_refl). split; [lia|]. intros a' [= <-]. lia. }
  split_and!; [|done|constructor; eauto].
  destruct Hin as [Hm|(j & Hj & Hjt)]; [|right; exists j; split; [by constructor|done]].
  destruct acc as [a|]; injection Hm as Hm.
  - destruct (Z.min_spec a (signed_delta_u16 t cur)) as [[_ He]|[_ He]]; rewrite He in Hm.
    + left. congruence.
    + right. exists i. split; [constructor|eauto].
  - right. exists i. split; [constructor|eauto].
Qed.

Lemma min_advance_spec cur l n :
  min_advance_loop cur None l = Some n ->
  (exists i, i ∈ l /\ exists t, timeslot i = Some t /\ signed_delta_u16 t cur = n)
  /\ Forall (fun i => exists t, timeslot i = Some t /\ n <= signed_delta_u16 t cur) l.
Proof. intros Hn. destruct (min_advance_acc cur None l n Hn) as ([|] & _ & ?); done. Qed.

(** ** Properties *)

(** C15: with a divider that keeps 16 bits, every sequence of operations on a
    fresh clock returns what it returns on a clock with unbounded timeslots
    (results, panics and the current timeslot after each step), as long as
    accepted timestamps stay less than 2^15 slots away from the clock. *)
Theorem clock_refines_unbounded {E} p d os :
  0 <= shift d <= 48 -> near_run d s_init os ->
  exists c, new (E := E) p d = Ok c /\ run_impl (E := E) p c os = run_spec d s_init os.
Proof.
  intros Hs Hn. destruct (new_sim (E := E) p d) as (c & Hc & Hsim); [lia|].
  exists c. split; [done|]. by apply sim_run.
Qed.

Lemma current_can_update {E} d c s i :
  sim d c s -> s_slots s !! i = Some (s_cur s) -> can_update (E := E) c i = Ok true.
Proof.
  intros [_ Hin Hcur _] Hi. unfold can_update, index. rewrite Hin, ring_lookup, Hi, Hcur. simpl.
  by rewrite bool_decide_eq_true_2.
Qed.

Lemma window_min s cc x l :
  window s -> s_cur s = Some cc -> s_slots s = Some <$> (x :: l) ->
  cc <= list_min x l < cc + 2 ^ 15.
Proof.
  intros Hw Hcc Hm. unfold window in Hw. rewrite Hcc, Hm, Forall_fmap in Hw.
  destruct (list_min_spec x l) as [Hin _].
  apply (proj1 (Forall_forall _ _) Hw _ Hin).
Qed.

Lemma min_is_current {E} d c s x l :
  sim d c s -> s_slots s = Some <$> (x :: l) -> s_cur s = Some (list_min x l) ->
  exists i, can_update (E := E) c i = Ok true.
Proof.
  intros Hsim Hl Hcur. destruct (list_min_spec x l) as [Hin _].
  apply list_elem_of_lookup in Hin as [i Hi]. exists i.
  apply (current_can_update d c s); [done|]. by rewrite Hl, list_lookup_fmap, Hi, Hcur.
Qed.


Lemma late_input_step {E} p c o k cur r c' :
  current_timeslot c = Some cur -> inputs c !! k = Some (mkInput None) ->
  step_impl (E := E) p c o = Ok (r, c') ->
  current_timeslot c' = Some cur /\ inputs c' !! k = Some (mkInput None)
  /\ (o = Advance -> r = Advanced false).
Proof.
  intros Hcur Hk Hstep. destruct o as [n|i ts|]; simpl in Hstep.
  - injection Hstep as <- <-. split_and!; [done| |done]. simpl.
    apply lookup_app_l_Some. done.
  - destruct (update p c i ts) as [c1|e|] eqn:Hu; [|by simplify_eq|done].
    injection Hstep as <- <-. unfold update in Hu. inv_res.
    case_bool_decide as Hperm; [|done]. rewrite Hcur in Hperm. rewrite Hperm in Hu.
    destruct (0 <=? _); [|done]. injection Hu as <-. split_and!; [done| |done]. simpl.
    rewrite list_lookup_insert_ne; [done|]. intros ->.
    unfold index in *. rewrite Hk in Ha0. by simplify_eq/=.
  - inv_res. destruct a as [b c1]. injection Hstep as <- <-.
    unfold advance, min_input_advance in Ha. rewrite Hcur in Ha.
    rewrite min_advance_loop_unset in Ha by (by eapply list_elem_of_lookup_2).
    by injection Ha as <- <-.
Qed.

(** An input added after the clock has been set blocks it for good:
    whatever happens next, that input can never be updated and the clock never
    leaves its timeslot. *)
Theorem clock_late_inputs_block {E} p c cur n os c' :
  current_timeslot c = Some cur -> (0 < n)%nat ->
  exec (E := E) p (add_inputs c n) os = Ok c' ->
  current_timeslot c' = Some cur
  /\ can_update (E := E) c' (n_inputs c) = Ok false
  /\ advance (E := E) c' = Ok (false, c').
Proof.
  intros Hcur Hn Hex.
  assert (current_timeslot c' = Some cur /\ inputs c' !! n_inputs c = Some (mkInput None))
    as [Hc Hi].
  { assert (inputs (add_inputs c n) !! n_inputs c = Some (mkInput None)) as Hk.
    { simpl. rewrite lookup_app_r by done. unfold n_inputs. rewrite Nat.sub_diag.
      by destruct n; [lia|]. }
    assert (current_timeslot (add_inputs c n) = Some cur) as Hcur' by done.
    revert Hex Hk Hcur'. generalize (add_inputs c n). generalize (n_inputs c).
    induction os as [|o os IH]; intros k c1 Hex Hk Hcur'.
    - simpl in Hex. by injection Hex as <-.
    - simpl in Hex. inv_res. destruct a as [r c2].
      destruct (late_input_step p c1 o k cur r c2 Hcur' Hk Ha) as (H1 & H2 & _).
      by apply (IH k c2). }
  split_and!; [done| |].
  - unfold can_update, index. rewrite Hi, Hc. done.
  - unfold advance, min_input_advance. rewrite Hc.
    by rewrite min_advance_loop_unset by (by eapply list_elem_of_lookup_2).
Qed.

(** A slot ends only when every queue has left it.  When a turn reports
    the end of a slot, each input has reported a slot ahead of the clock's,
    the clock moves to one of them, and none is behind the new slot. *)
Theorem slot_ends_when_all_left {E} c c' :
  advance (E := E) c = Ok (true, c') ->
  exists cur n, current_timeslot c = Some cur /\ 0 < n
    /\ current_timeslot c' = Some (wrapping_add 16 cur (as_u16 n))
    /\ inputs c' = inputs c
    /\ (exists i, i ∈ inputs c /\ exists t, timeslot i = Some t /\ signed_delta_u16 t cur = n)
    /\ Forall (fun i => exists t, timeslot i = Some t /\ n <= signed_delta_u16 t cur) (inputs c).
Proof.
  unfold advance, min_input_advance. destruct (current_timeslot c) as [cur|] eqn:Hc.
  2:{ destruct (earliest_input_timeslot c); simpl; congruence. }
  destruct (min_advance_loop cur None (inputs c)) as [n|] eqn:Hn; [|congruence].
  destruct (Z.ltb_spec 0 n) as [Hpos|]; [|congruence]. intros [= <-].
  exists cur, n. split_and!; try done; apply (min_advance_spec cur (inputs c) n Hn).
Qed.

(** ** Witnesses *)

(** The divider of one second, two inputs, one of them faster. *)
Definition second : FastDiv := mkFastDiv 281474 48.

Definition sample_run : list op :=
  [AddInputs 2; Update 0 1000000000; Update 1 3000000000; Advance;
   Update 0 2500000000; Update 1 1000000000; Advance; Update 0 1000000000].

Lemma sample_run_near : near_run second s_init sample_run.
Proof. cbn. repeat first [split|intros ?|constructor|done]. Qed.

Lemma clock_refines_unbounded_witness :
  exists c, new (E := unit) Debug second = Ok c
    /\ run_impl (E := unit) Debug c sample_run = run_spec second s_init sample_run.
Proof.
  apply (clock_refines_unbounded (E := unit) Debug second sample_run);
    [simpl; lia|exact sample_run_near].
Defined.


Lemma clock_late_inputs_block_witness :
  let c := mkClock [mkInput (Some 7)] second f64_zero (Some 7) in
  current_timeslot c = Some 7 /\
  exists c', exec (E := unit) Debug (add_inputs c 1) [Update 0 20000000000; Advance] = Ok c'
    /\ advance (E := unit) c' = Ok (false, c').
Proof.
  split; [done|]. eexists. split; [vm_compute; reflexivity|].
  eapply (clock_late_inputs_block (E := unit) Debug
            (mkClock [mkInput (Some 7)] second f64_zero (Some 7)) 7 1
            [Update 0 20000000000; Advance]);
    [done|lia|vm_compute; reflexivity].
Defined.

Lemma slot_ends_when_all_left_witness :
  let c := mkClock [mkInput (Some 7); mkInput (Some 6)] (mkFastDiv 9382 48) f64_zero (Some 5) in
  exists cur n, current_timeslot c = Some cur /\ 0 < n
    /\ current_timeslot (set_current c (Some 6)) = Some (wrapping_add 16 cur (as_u16 n))
    /\ inputs (set_current c (Some 6)) = inputs c
    /\ (exists i, i ∈ inputs c /\ exists t, timeslot i = Some t /\ signed_delta_u16 t cur = n)
    /\ Forall (fun i => exists t, timeslot i = Some t /\ n <= signed_delta_u16 t cur) (inputs c).
Proof.
  intros c. apply (slot_ends_when_all_left (E := unit) c (set_current c (Some 6))). reflexivity.
Defined.
