(* ===== verification/ElementQueue.v ===== *)
(** * The element queue (crates/element-queue)

    A single-producer single-consumer queue of byte strings over shared
    memory: a header of four indices, a ring of element lengths and a ring of
    bytes.  The writer and the reader each own a handle with cached indices
    and work in batches, published by [finish] and discarded on drop.

    The shared memory is the record [mem]; a handle is the source's struct
    without its pointers, so every operation takes the memory it reads or
    writes.  A slice returned by [write] is its offset and length in the data
    buffer. *)

From S2P Require Import Prelude.

Local Open Scope rust_scope.

Inductive EqError := InvalidArg | NoSpace | NoEntry | TryAgain | Unexpected.

Definition EINVAL : Z := -22.
Definition ENOSPC : Z := -28.
Definition ENOENT : Z := -2.
Definition EAGAIN : Z := -11.
Definition ENOSYS : Z := -38.

Definition code (e : EqError) : Z :=
  match e with
  | InvalidArg => EINVAL
  | NoSpace => ENOSPC
  | NoEntry => ENOENT
  | TryAgain => EAGAIN
  | Unexpected => ENOSYS
  end.

(** ** Memory *)

Record ElementQueueShared := mkShared {
  sh_elem_head : Z;
  sh_buf_head : Z;
  sh_elem_tail : Z;
  sh_buf_tail : Z;
}.

Record mem := mkMem { shared : ElementQueueShared; elems : list Z; data : list Z }.

Definition set_shared (m : mem) (s : ElementQueueShared) : mem := mkMem s (elems m) (data m).

Definition init_zero (m : mem) : mem := set_shared m (mkShared 0 0 0 0).

Definition set_elem_head (m : mem) (v : Z) : mem :=
  set_shared m (mkShared v (sh_buf_head (shared m)) (sh_elem_tail (shared m)) (sh_buf_tail (shared m))).
Definition set_buf_head (m : mem) (v : Z) : mem :=
  set_shared m (mkShared (sh_elem_head (shared m)) v (sh_elem_tail (shared m)) (sh_buf_tail (shared m))).
Definition set_elem_tail (m : mem) (v : Z) : mem :=
  set_shared m (mkShared (sh_elem_head (shared m)) (sh_buf_head (shared m)) v (sh_buf_tail (shared m))).
Definition set_buf_tail (m : mem) (v : Z) : mem :=
  set_shared m (mkShared (sh_elem_head (shared m)) (sh_buf_head (shared m)) (sh_elem_tail (shared m)) v).

(** The size of the contiguous layout: header, lengths, data. *)
Definition contig_size (n_elems buf_len : Z) : Z := 16 + n_elems * 4 + buf_len.

(** Owned storage: the words allocated and the zeroed layout in them. *)
Record MemElementQueueStorage := mkStorage {
  words : Z;
  st_mem : mem;
  st_n_elems : Z;
  st_buf_len : Z;
}.

Definition storage_new (n_elems buf_len : Z) : MemElementQueueStorage :=
  let size := contig_size n_elems buf_len in
  let words := (size + 7) / 8 in
  let zeros := mkMem (mkShared 0 0 0 0) (replicate (Z.to_nat n_elems) 0)
                 (replicate (Z.to_nat buf_len) 0) in
  mkStorage words (init_zero zeros) n_elems buf_len.

(** ** Handles *)

Record ElementQueue := mkQueue {
  elem_mask : Z;
  buf_mask : Z;
  elem_head : Z;
  buf_head : Z;
  elem_tail : Z;
  buf_tail : Z;
}.

Definition not_pow2 (n : Z) : bool := (n =? 0) || negb (Z.land n (n - 1) =? 0).

Definition new_from_contiguous (n_elems buf_len : Z) (is_null : bool) (m : mem)
  : res EqError ElementQueue :=
  if is_null then Err InvalidArg
  else if not_pow2 n_elems then Err InvalidArg
  else if not_pow2 buf_len then Err InvalidArg
  else Ok (mkQueue (n_elems - 1) (buf_len - 1)
             (sh_elem_head (shared m)) (sh_buf_head (shared m))
             (sh_elem_tail (shared m)) (sh_buf_tail (shared m))).

Definition make_queue (s : MemElementQueueStorage) : res EqError ElementQueue :=
  new_from_contiguous (st_n_elems s) (st_buf_len s) false (st_mem s).

Definition elem_count (q : ElementQueue) : Z := wrapping_sub 32 (elem_tail q) (elem_head q).
Definition elem_capacity (q : ElementQueue) : Z := elem_mask q + 1.
Definition buf_used (q : ElementQueue) : Z := wrapping_sub 32 (buf_tail q) (buf_head q).
Definition buf_capacity (q : ElementQueue) : Z := buf_mask q + 1.

(** [__next_offset_by_len]: an element that would cross the end of the data
    buffer is placed at its start instead. *)
Definition next_offset_by_len (buf_offset mask len : Z) : Z :=
  let end_ := wrapping_sub 32 (wrapping_add 32 buf_offset len) 1 in
  let page_end := Z.land end_ (bnot 32 mask) in
  let page_start := Z.land buf_offset (bnot 32 mask) in
  if 0 <? as_signed 32 (wrapping_sub 32 page_end page_start) then page_end else buf_offset.

(** [(len + 7) & !7]. *)
Definition aligned {E} (p : profile) (len : Z) : res E Z :=
  let? l := add_chk p 32 len 7 in
  Ok (Z.land l (bnot 32 7)).

(** ** Writer *)

Record WriteBatch := mkWB { w_q : ElementQueue; w_elem_tail : Z; w_buf_tail : Z }.

(** The two volatile reads of [start_write], in the order of the source. *)
Definition load_elem_head (q : ElementQueue) (m : mem) : ElementQueue :=
  mkQueue (elem_mask q) (buf_mask q) (sh_elem_head (shared m)) (buf_head q)
    (elem_tail q) (buf_tail q).
Definition load_buf_head (q : ElementQueue) (m : mem) : ElementQueue :=
  mkQueue (elem_mask q) (buf_mask q) (elem_head q) (sh_buf_head (shared m))
    (elem_tail q) (buf_tail q).

(** The rest of [start_write]. *)
Definition start_write_checks {E} (p : profile) (q : ElementQueue) : res E WriteBatch :=
  let? _ := debug_assert p (0 <=? buf_tail q - buf_head q) in
  let? _ := debug_assert p (0 <=? elem_tail q - elem_head q) in
  Ok (mkWB q (elem_tail q) (buf_tail q)).

Definition start_write {E} (p : profile) (q : ElementQueue) (m : mem) : res E WriteBatch :=
  start_write_checks p (load_buf_head (load_elem_head q m) m).

(** [write]: the offset of the reserved slice of [len] bytes. *)
Definition write (p : profile) (m : mem) (b : WriteBatch) (len : Z)
  : res EqError (nat * mem * WriteBatch) :=
  let q := w_q b in
  let? alen := aligned p len in
  if buf_mask q <? alen then Err InvalidArg
  else if elem_mask q + 1 <=? wrapping_sub 32 (w_elem_tail b) (elem_head q) then Err NoSpace
  else
    let bt := next_offset_by_len (w_buf_tail b) (buf_mask q) alen in
    let used := wrapping_sub 32 (wrapping_add 32 bt alen) (buf_head q) in
    if buf_mask q + 1 <? used then Err NoSpace
    else
      let idx := Z.to_nat (Z.land (w_elem_tail b) (elem_mask q)) in
      let? _ := index (elems m) idx in
      let m' := mkMem (shared m) (<[idx := len]> (elems m)) (data m) in
      let b' := mkWB q (wrapping_add 32 (w_elem_tail b) 1) (wrapping_add 32 bt alen) in
      let start := Z.to_nat (Z.land bt (buf_mask q)) in
      let? _ := index_range (data m) start (start + Z.to_nat len) in
      Ok (start, m', b').

(** Storing [bs] in a slice that starts at [start]. *)
Definition fill (m : mem) (start : nat) (bs : list Z) : mem :=
  mkMem (shared m) (elems m) (write_at start bs (data m)).

(** A producer's use of [write]: reserve, then copy the element in. *)
Definition write_elem (p : profile) (m : mem) (b : WriteBatch) (bs : list Z)
  : res EqError (mem * WriteBatch) :=
  let? '(start, m', b') := write p m b (Z.of_nat (length bs)) in
  Ok (fill m' start bs, b').

(** [WriteBatch::finish]: commit to the handle, then publish the buffer tail
    and the element tail, in that order. *)
Definition commit_write (b : WriteBatch) : ElementQueue :=
  mkQueue (elem_mask (w_q b)) (buf_mask (w_q b)) (elem_head (w_q b)) (buf_head (w_q b))
    (w_elem_tail b) (w_buf_tail b).

Definition finish_write (m : mem) (b : WriteBatch) : mem * ElementQueue :=
  let q := commit_write b in
  (set_elem_tail (set_buf_tail m (buf_tail q)) (elem_tail q), q).

(** ** Reader *)

Record ReadBatch := mkRB { r_q : ElementQueue; r_elem_head : Z; r_buf_head : Z }.

Definition start_read (q : ElementQueue) (m : mem) : ReadBatch :=
  let q' := mkQueue (elem_mask q) (buf_mask q) (elem_head q) (buf_head q)
              (sh_elem_tail (shared m)) (buf_tail q) in
  mkRB q' (elem_head q') (buf_head q').

Definition peek_len (m : mem) (r : ReadBatch) : res EqError Z :=
  if elem_tail (r_q r) =? r_elem_head r then Err NoEntry
  else
    let idx := Z.to_nat (Z.land (r_elem_head r) (elem_mask (r_q r))) in
    index (elems m) idx.

Definition peek (p : profile) (m : mem) (r : ReadBatch) : res EqError (list Z) :=
  let? len := peek_len m r in
  let? alen := aligned p len in
  let offset := Z.land (next_offset_by_len (r_buf_head r) (buf_mask (r_q r)) alen)
                  (buf_mask (r_q r)) in
  let start := Z.to_nat offset in
  index_range (data m) start (start + Z.to_nat len).

(** [peek_value::<T>]: the bytes of the value, [need] being the size of [T]. *)
Definition peek_value (p : profile) (m : mem) (r : ReadBatch) (need : nat)
  : res EqError (list Z) :=
  let? bs := peek p m r in
  if (length bs <? need)%nat then Err InvalidArg else Ok (take need bs).

Definition read (p : profile) (m : mem) (r : ReadBatch) : res EqError (list Z * ReadBatch) :=
  let? len := peek_len m r in
  let? alen := aligned p len in
  let offset := next_offset_by_len (r_buf_head r) (buf_mask (r_q r)) alen in
  let start := Z.to_nat (Z.land offset (buf_mask (r_q r))) in
  let r' := mkRB (r_q r) (wrapping_add 32 (r_elem_head r) 1) (wrapping_add 32 offset alen) in
  let? bs := index_range (data m) start (start + Z.to_nat len) in
  Ok (bs, r').

(** [ReadBatch::finish]: commit, then publish the buffer head and the element
    head, in that order. *)
Definition commit_read (r : ReadBatch) : ElementQueue :=
  mkQueue (elem_mask (r_q r)) (buf_mask (r_q r)) (r_elem_head r) (r_buf_head r)
    (elem_tail (r_q r)) (buf_tail (r_q r)).

Definition finish_read (m : mem) (r : ReadBatch) : mem * ElementQueue :=
  let q := commit_read r in
  (set_elem_head (set_buf_head m (buf_head q)) (elem_head q), q).

(** [WriteBatch::move_from]: one element from the queue in [sm] to the one in
    [dm]. *)
Definition move_from (p : profile) (dm : mem) (b : WriteBatch) (sm : mem) (r : ReadBatch)
  : res EqError (nat * mem * WriteBatch * ReadBatch) :=
  let? src_len := peek_len sm r in
  let? '(start, dm', b') := write p dm b (wrap 32 src_len) in
  let? '(src, r') := read p sm r in
  let? _ := debug_assert p (Z.of_nat (length src) =? src_len) in
  if (length src =? Z.to_nat (wrap 32 src_len))%nat
  then Ok (Z.to_nat src_len, fill dm' start src, b', r')
  else Panic.

(** ** The two processes

    The writer and the reader run concurrently on one memory.  Each volatile
    access to the shared header is a step of its own; the accesses to the
    element ring and the data buffer made by one [write] or one [read] are
    one step. *)

Inductive wphase :=
| WIdle
| WLoaded                (* [start_write] has read the element head *)
| WBatch (b : WriteBatch)
| WCommitted             (* [finish] has committed to the handle *)
| WPublishing.           (* [finish] has published the buffer tail *)

Inductive rphase :=
| RIdle
| RBatch (r : ReadBatch)
| RCommitted
| RPublishing.

Record sys := mkSys { smem : mem; wq : ElementQueue; ws : wphase; rq : ElementQueue; rs : rphase }.

Inductive event :=
| Tau
| Wrote (bs : list Z)
| WriteFailed (e : EqError)
| WriteCommit
| WriteDrop
| ReadStart
| ReadOk (bs : list Z)
| ReadFailed (e : EqError)
| ReadCommit
| ReadDrop.

Inductive step (p : profile) : sys -> event -> sys -> Prop :=
| step_load_elem_head m q rq rs :
    step p (mkSys m q WIdle rq rs) Tau (mkSys m (load_elem_head q m) WLoaded rq rs)
| step_start_write m q b rq rs :
    start_write_checks (E := EqError) p (load_buf_head q m) = Ok b ->
    step p (mkSys m q WLoaded rq rs) Tau (mkSys m (w_q b) (WBatch b) rq rs)
| step_write m q b bs m' b' rq rs :
    write_elem p m b bs = Ok (m', b') ->
    step p (mkSys m q (WBatch b) rq rs) (Wrote bs) (mkSys m' q (WBatch b') rq rs)
| step_write_failed m q b len e rq rs :
    write p m b len = Err e ->
    step p (mkSys m q (WBatch b) rq rs) (WriteFailed e) (mkSys m q (WBatch b) rq rs)
| step_drop_write m q b rq rs :
    step p (mkSys m q (WBatch b) rq rs) WriteDrop (mkSys m (w_q b) WIdle rq rs)
| step_commit_write m q b rq rs :
    step p (mkSys m q (WBatch b) rq rs) Tau (mkSys m (commit_write b) WCommitted rq rs)
| step_publish_buf_tail m q rq rs :
    step p (mkSys m q WCommitted rq rs) Tau (mkSys (set_buf_tail m (buf_tail q)) q WPublishing rq rs)
| step_publish_elem_tail m q rq rs :
    step p (mkSys m q WPublishing rq rs) WriteCommit
      (mkSys (set_elem_tail m (elem_tail q)) q WIdle rq rs)
| step_start_read m wq ws q :
    step p (mkSys m wq ws q RIdle) ReadStart
      (mkSys m wq ws (r_q (start_read q m)) (RBatch (start_read q m)))
| step_read m wq ws q r bs r' :
    read p m r = Ok (bs, r') ->
    step p (mkSys m wq ws q (RBatch r)) (ReadOk bs) (mkSys m wq ws q (RBatch r'))
| step_read_failed m wq ws q r e :
    read p m r = Err e ->
    step p (mkSys m wq ws q (RBatch r)) (ReadFailed e) (mkSys m wq ws q (RBatch r))
| step_drop_read m wq ws q r :
    step p (mkSys m wq ws q (RBatch r)) ReadDrop (mkSys m wq ws (r_q r) RIdle)
| step_commit_read m wq ws q r :
    step p (mkSys m wq ws q (RBatch r)) Tau (mkSys m wq ws (commit_read r) RCommitted)
| step_publish_buf_head m wq ws q :
    step p (mkSys m wq ws q RCommitted) Tau (mkSys (set_buf_head m (buf_head q)) wq ws q RPublishing)
| step_publish_elem_head m wq ws q :
    step p (mkSys m wq ws q RPublishing) ReadCommit
      (mkSys (set_elem_head m (elem_head q)) wq ws q RIdle).

(** A fresh queue of [2^a] elements and [2^b] bytes with its two handles. *)
Definition boots (a b : Z) (s : sys) : Prop :=
  let st := storage_new (2 ^ a) (2 ^ b) in
  exists q, make_queue st = Ok q /\ s = mkSys (st_mem st) q WIdle q RIdle.

Inductive steps (p : profile) : sys -> list event -> sys -> Prop :=
| steps_nil s : steps p s [] s
| steps_snoc s t s1 e s2 : steps p s t s1 -> step p s1 e s2 -> steps p s (t ++ [e]) s2.

(** ** The contract: a FIFO log

    [com] is every element of every finished write batch, in order; [pend]
    the elements of the writer's current batch; [don] the elements of every
    finished read batch; [bat] those read in the current one; [snap] how many
    elements were committed when the reader's batch started. *)

Record log := mkLog {
  com : list (list Z);
  pend : list (list Z);
  don : list (list Z);
  bat : list (list Z);
  snap : nat;
}.

Definition log_init : log := mkLog [] [] [] [] 0.

Definition log_step (g : log) (e : event) : log :=
  match e with
  | Tau | WriteFailed _ | ReadFailed _ => g
  | Wrote bs => mkLog (com g) (pend g ++ [bs]) (don g) (bat g) (snap g)
  | WriteCommit => mkLog (com g ++ pend g) [] (don g) (bat g) (snap g)
  | WriteDrop => mkLog (com g) [] (don g) (bat g) (snap g)
  | ReadStart => mkLog (com g) (pend g) (don g) [] (length (com g))
  | ReadOk bs => mkLog (com g) (pend g) (don g) (bat g ++ [bs]) (snap g)
  | ReadCommit => mkLog (com g) (pend g) (don g ++ bat g) [] (snap g)
  | ReadDrop => mkLog (com g) (pend g) (don g) [] (snap g)
  end.

Definition log_of (t : list event) : log := fold_left log_step t log_init.

(** ** Offsets without bounds *)

Definition align8 (len : Z) : Z := (len + 7) - (len + 7) `mod` 8.

Section offsets.
Context (N : Z).

(** Where an element of [L] aligned bytes goes when the tail is at [off]. *)
Definition nxt (off L : Z) : Z :=
  if off / N <? (off + L - 1) / N then (off + L - 1) / N * N else off.

Definition place (off : Z) (m : list Z) : Z := nxt off (align8 (Z.of_nat (length m))).
Definition after (off : Z) (m : list Z) : Z := place off m + align8 (Z.of_nat (length m)).
Definition pos (l : list (list Z)) : Z := fold_left after l 0.

Lemma pos_app l k : pos (l ++ k) = fold_left after k (pos l).
Proof. unfold pos. apply fold_left_app. Qed.

Lemma pos_snoc l m : pos (l ++ [m]) = after (pos l) m.
Proof. by rewrite pos_app. Qed.

Lemma align8_bounds len : len <= align8 len <= len + 7.
Proof. unfold align8. pose proof (Z.mod_pos_bound (len + 7) 8). lia. Qed.

Lemma nxt_ge off L : 0 < N -> off <= nxt off L.
Proof.
  intros HN. unfold nxt. destruct (Z.ltb_spec (off / N) ((off + L - 1) / N)); [|lia].
  pose proof (Z.mul_succ_div_gt off N HN). nia.
Qed.

(** The slice stays on one page of the buffer. *)
Lemma nxt_page off L :
  0 < N -> 0 <= L < N -> nxt off L `mod` N + L <= N.
Proof.
  intros HN HL. unfold nxt. destruct (Z.ltb_spec (off / N) ((off + L - 1) / N)) as [Hlt|Hge].
  - rewrite Z.mod_mul by lia. lia.
  - destruct (decide (L = 0)) as [->|]; [pose proof (Z.mod_pos_bound off N HN); lia|].
    assert (off / N <= (off + L - 1) / N) by (apply Z.div_le_mono; lia).
    assert ((off + L - 1) / N = off / N) as Heq by lia.
    pose proof (Z.div_mod off N). pose proof (Z.mul_succ_div_gt (off + L - 1) N HN). nia.
Qed.

(** The padding is shorter than the element. *)
Lemma nxt_pad off L : 0 < N -> 0 <= L -> nxt off L <= off + Z.max 0 (L - 1).
Proof.
  intros HN HL. unfold nxt. destruct (Z.ltb_spec (off / N) ((off + L - 1) / N)); [|lia].
  pose proof (Z.mul_div_le (off + L - 1) N HN). lia.
Qed.

Lemma place_ge off m : 0 < N -> off <= place off m.
Proof. apply nxt_ge. Qed.

Lemma after_ge off m : 0 < N -> off <= place off m <= after off m.
Proof.
  intros HN. pose proof (place_ge off m HN). unfold after.
  pose proof (align8_bounds (Z.of_nat (length m))). lia.
Qed.

Lemma pos_mono l k : 0 < N -> pos l <= pos (l ++ k).
Proof.
  intros HN. induction k as [|m k IH] using rev_ind; [by rewrite app_nil_r|].
  rewrite app_assoc, pos_snoc. pose proof (after_ge (pos (l ++ k)) m HN). lia.
Qed.

Lemma pos_nonneg l : 0 < N -> 0 <= pos l.
Proof. intros HN. apply (pos_mono [] l HN). Qed.

Lemma pos_take_mono l i j : 0 < N -> (i <= j)%nat -> pos (take i l) <= pos (take j l).
Proof.
  intros HN Hij. replace (take j l) with (take i l ++ take (j - i) (drop i l)).
  - by apply pos_mono.
  - rewrite take_take_drop. f_equal. lia.
Qed.

(** The end of element [k]. *)
Lemma pos_take_S l k m :
  l !! k = Some m -> pos (take (S k) l) = after (pos (take k l)) m.
Proof. intros Hk. by rewrite (take_S_r _ _ _ Hk), pos_snoc. Qed.

(** Two slices inside one window of the size of the buffer, each on one page,
    do not overlap in the buffer. *)
Lemma ring_disjoint x y lx ly :
  0 < N -> x + lx <= y -> y + ly <= x + N -> 0 <= lx -> 0 <= ly ->
  x `mod` N + lx <= N -> y `mod` N + ly <= N ->
  x `mod` N + lx <= y `mod` N \/ y `mod` N + ly <= x `mod` N.
Proof.
  intros HN Hxy Hw Hlx Hly Hx Hy.
  pose proof (Z.div_mod x N). pose proof (Z.div_mod y N).
  pose proof (Z.mod_pos_bound x N HN). pose proof (Z.mod_pos_bound y N HN).
  assert (x / N <= y / N) by (apply Z.div_le_mono; lia).
  destruct (decide (x / N = y / N)); [left; nia|right; nia].
Qed.

End offsets.

(** ** Machine offsets are the unbounded ones modulo 2^32 *)

Lemma wrap_page b z :
  0 <= b <= 32 -> Z.land (wrap 32 z) (bnot 32 (2 ^ b - 1)) = wrap 32 (z / 2 ^ b * 2 ^ b).
Proof.
  intros Hb. rewrite land_bnot by (try apply wrap_fits; lia).
  unfold wrap. rewrite mod_pow2_div by lia.
  assert (0 < 2 ^ b) by lia.
  replace (z / 2 ^ b * 2 ^ b) with (z - z `mod` 2 ^ b) by (pose proof (Z.div_mod z (2 ^ b)); lia).
  rewrite <- Zminus_mod_idemp_l. symmetry. apply Z.mod_small.
  pose proof (Z.mod_pos_bound z (2 ^ 32)). pose proof (Z.mod_pos_bound z (2 ^ b)).
  assert (z `mod` 2 ^ b <= z `mod` 2 ^ 32); [|lia].
  rewrite <- (mod_pow2_div z b 32) by lia. apply Z.mod_le; lia.
Qed.

Lemma next_offset_eq b off L :
  0 <= b <= 30 -> 0 <= L < 2 ^ b ->
  next_offset_by_len (wrap 32 off) (2 ^ b - 1) L = wrap 32 (nxt (2 ^ b) off L).
Proof.
  intros Hb HL. unfold next_offset_by_len, wrapping_add, wrapping_sub.
  assert (2 ^ b <= 2 ^ 30) by (apply Z.pow_le_mono_r; lia).
  rewrite wrap_add_l, wrap_sub_l, !wrap_page by lia. autorewrite with wrapdb.
  set (N := 2 ^ b) in *. assert (0 < N) by (subst N; lia).
  assert (- 1 <= (off + L - 1) / N - off / N <= 1) as Hd.
  { assert ((off + L - 1) / N <= off / N + 1).
    { rewrite <- Z.div_add by lia. apply Z.div_le_mono; lia. }
    assert (off / N + -1 <= (off + L - 1) / N).
    { rewrite <- Z.div_add by lia. apply Z.div_le_mono; lia. }
    lia. }
  assert (- N <= (off + L - 1) / N * N - off / N * N <= N) by nia.
  rewrite as_signed_wrap by lia. unfold nxt.
  destruct (Z.ltb_spec (off / N) ((off + L - 1) / N)), (Z.ltb_spec 0 ((off + L - 1) / N * N - off / N * N));
    (done || nia).
Qed.

Lemma aligned_eq {E} p len : 0 <= len <= 2 ^ 32 - 8 -> aligned (E := E) p len = Ok (align8 len).
Proof.
  intros Hl. unfold aligned, add_chk. rewrite (proj2 (Z.ltb_lt _ _)) by lia. simpl.
  f_equal. change (bnot 32 7) with (bnot 32 (2 ^ 3 - 1)).
  by rewrite land_bnot by (unfold fits; lia).
Qed.

Lemma wrap_index k z : 0 <= k <= 32 -> Z.land (wrap 32 z) (2 ^ k - 1) = z `mod` 2 ^ k.
Proof. intros. rewrite land_mask by lia. unfold wrap. apply mod_pow2_div. lia. Qed.

Lemma wrapping_sub_small x y : 0 <= x - y < 2 ^ 32 -> wrapping_sub 32 (wrap 32 x) (wrap 32 y) = x - y.
Proof. intros. unfold wrapping_sub. autorewrite with wrapdb. by apply wrap_small. Qed.

Lemma wrap32_eqb x y : Z.abs (x - y) < 2 ^ 32 -> (wrap 32 x =? wrap 32 y) = (x =? y).
Proof.
  intros H. destruct (Z.eqb_spec x y) as [->|Hne]; [apply Z.eqb_refl|].
  apply Z.eqb_neq. unfold wrap. intros Heq.
  pose proof (Z.div_mod x (2 ^ 32) ltac:(lia)). pose proof (Z.div_mod y (2 ^ 32) ltac:(lia)). lia.
Qed.

(** ** The invariant *)

Definition W (k : nat) : Z := wrap 32 (Z.of_nat k).
Definition all (g : log) : list (list Z) := com g ++ pend g.
Definition len (x : list Z) : Z := Z.of_nat (length x).

(** The number of elements the reader has given up. *)
Definition consumed (g : log) (r : rphase) : nat :=
  match r with
  | RIdle | RBatch _ => length (don g)
  | RCommitted | RPublishing => length (don g ++ bat g)
  end.

(** How far each side's view of the heads is: the writer's cached element and
    buffer heads, and the published ones. *)
Record heads := mkHeads { je : nat; jb : nat; ce : nat; cb : nat }.

Section invariant.
Context (a b : Z).
Abbreviation n := (2 ^ a).
Abbreviation N := (2 ^ b).

Definition tail_at (et bt : Z) (l : list (list Z)) : Prop :=
  et = W (length l) /\ bt = wrap 32 (pos N l).

(** Element [k] is where the protocol put it. *)
Definition stored (m : mem) (l : list (list Z)) (k : nat) (x : list Z) : Prop :=
  elems m !! Z.to_nat (Z.of_nat k `mod` n) = Some (len x)
  /\ take (length x) (drop (Z.to_nat (place N (pos N (take k l)) x `mod` N)) (data m)) = x.

Record mem_inv (m : mem) (l : list (list Z)) (c : nat) : Prop := mkMemInv {
  mi_elems : length (elems m) = Z.to_nat n;
  mi_data : length (data m) = Z.to_nat N;
  mi_fit : Forall (fun x => align8 (len x) < N) l;
  mi_stored : forall k x, l !! k = Some x -> (c <= k)%nat -> stored m l k x;
}.

Record writer_inv (g : log) (h : heads) (q : ElementQueue) (w : wphase) : Prop := mkWInv {
  wi_emask : elem_mask q = n - 1;
  wi_bmask : buf_mask q = N - 1;
  wi_ehead : elem_head q = W (je h);
  wi_bhead : buf_head q = wrap 32 (pos N (take (jb h) (all g)));
  wi_eroom : Z.of_nat (length (all g)) <= Z.of_nat (je h) + n;
  wi_broom : pos N (all g) <= pos N (take (jb h) (all g)) + N;
  wi_phase :
    match w with
    | WIdle | WLoaded => pend g = [] /\ tail_at (elem_tail q) (buf_tail q) (com g)
    | WBatch wb => w_q wb = q /\ tail_at (elem_tail q) (buf_tail q) (com g)
        /\ tail_at (w_elem_tail wb) (w_buf_tail wb) (all g)
    | WCommitted | WPublishing => tail_at (elem_tail q) (buf_tail q) (all g)
    end;
}.

Record reader_inv (g : log) (q : ElementQueue) (r : rphase) : Prop := mkRInv {
  ri_emask : elem_mask q = n - 1;
  ri_bmask : buf_mask q = N - 1;
  ri_prefix : don g ++ bat g `prefix_of` com g;
  ri_phase :
    match r with
    | RIdle => bat g = [] /\ tail_at (elem_head q) (buf_head q) (don g)
    | RBatch rb => r_q rb = q /\ tail_at (elem_head q) (buf_head q) (don g)
        /\ tail_at (r_elem_head rb) (r_buf_head rb) (don g ++ bat g)
        /\ elem_tail q = W (snap g) /\ (length (don g ++ bat g) <= snap g <= length (com g))%nat
    | RCommitted | RPublishing => tail_at (elem_head q) (buf_head q) (don g ++ bat g)
    end;
}.

Record shared_inv (g : log) (h : heads) (m : mem) (r : rphase) : Prop := mkSInv {
  si_etail : sh_elem_tail (shared m) = W (length (com g));
  si_ehead : sh_elem_head (shared m) = W (ce h);
  si_bhead : sh_buf_head (shared m) = wrap 32 (pos N (take (cb h) (all g)));
  si_eorder : (je h <= ce h <= consumed g r)%nat;
  si_border : (jb h <= cb h <= consumed g r)%nat;
  si_phase :
    match r with
    | RIdle | RBatch _ => ce h = length (don g) /\ cb h = length (don g)
    | RCommitted => True
    | RPublishing => cb h = consumed g r
    end;
}.

Record inv_at (g : log) (h : heads) (s : sys) : Prop := mkInv {
  inv_mem : mem_inv (smem s) (all g) (consumed g (rs s));
  inv_writer : writer_inv g h (wq s) (ws s);
  inv_reader : reader_inv g (rq s) (rs s);
  inv_shared : shared_inv g h (smem s) (rs s);
}.

Context (Ha : 0 <= a <= 31) (Hb : 0 <= b <= 30).

Lemma N_bounds : 0 < N <= 2 ^ 30.
Proof. split; [lia|]. apply Z.pow_le_mono_r; lia. Qed.

Lemma n_bounds : 0 < n <= 2 ^ 31.
Proof. split; [lia|]. apply Z.pow_le_mono_r; lia. Qed.

Lemma consumed_le g q r : reader_inv g q r -> (consumed g r <= length (com g))%nat.
Proof.
  intros [_ _ Hpre _]. apply prefix_length in Hpre. rewrite length_app in Hpre.
  unfold consumed. destruct r; rewrite ?length_app; lia.
Qed.

Lemma len_all g : length (all g) = (length (com g) + length (pend g))%nat.
Proof. apply length_app. Qed.

Lemma place_in_buffer off x :
  align8 (len x) < N ->
  (Z.to_nat (place N off x `mod` N) + length x <= Z.to_nat N)%nat.
Proof.
  intros Hx. pose proof N_bounds. unfold place. fold (len x).
  pose proof (align8_bounds (len x)) as Hal.
  pose proof (nxt_page N off (align8 (len x)) ltac:(lia)) as Hp. unfold len in *.
  pose proof (Z.mod_pos_bound (nxt N off (align8 (Z.of_nat (length x)))) N). lia.
Qed.

(** What [write] does in a batch, in terms of the unbounded offsets. *)
Lemma write_eq p g h s wb L :
  inv_at g h s -> ws s = WBatch wb -> 0 <= L <= 2 ^ 32 - 8 ->
  write p (smem s) wb L =
    let st := nxt N (pos N (all g)) (align8 L) in
    if N - 1 <? align8 L then Err InvalidArg
    else if n <=? Z.of_nat (length (all g)) - Z.of_nat (je h) then Err NoSpace
    else if N <? st + align8 L - pos N (take (jb h) (all g)) then Err NoSpace
    else Ok (Z.to_nat (st `mod` N),
             mkMem (shared (smem s))
               (<[Z.to_nat (Z.of_nat (length (all g)) `mod` n) := L]> (elems (smem s)))
               (data (smem s)),
             mkWB (wq s) (W (S (length (all g)))) (wrap 32 (st + align8 L))).
Proof.
  intros [Hm Hw Hr Hs] Hws HL. destruct Hw as [He Hbm Heh Hbh Her Hbr Hph].
  rewrite Hws in Hph. destruct Hph as (Hq & _ & [Het Hbt]).
  pose proof N_bounds as HN. pose proof n_bounds as Hn.
  pose proof (align8_bounds L) as Hal. unfold write. rewrite aligned_eq by done.
  rewrite Hq, Hbm, He, Heh, Hbh, Het, Hbt. cbn [rbind].
  destruct (Z.ltb_spec (N - 1) (align8 L)) as [|HLN]; [done|].
  assert (Z.of_nat (je h) <= Z.of_nat (length (all g))) as Hje.
  { pose proof (consumed_le _ _ _ Hr). pose proof (si_eorder _ _ _ _ Hs).
    rewrite len_all. lia. }
  replace (n - 1 + 1) with n by lia. replace (N - 1 + 1) with N by lia. unfold W.
  rewrite wrapping_sub_small by lia.
  destruct (Z.leb_spec n (Z.of_nat (length (all g)) - Z.of_nat (je h))); [done|].
  rewrite next_offset_eq by lia. unfold wrapping_add. rewrite wrap_add_l.
  set (st := nxt N (pos N (all g)) (align8 L)).
  assert (pos N (take (jb h) (all g)) <= pos N (all g)) as Hjb.
  { rewrite <- (firstn_all (all g)) at 2. apply pos_take_mono; [lia|].
    pose proof (consumed_le _ _ _ Hr). pose proof (si_border _ _ _ _ Hs). rewrite len_all. lia. }
  pose proof (nxt_ge N (pos N (all g)) (align8 L) ltac:(lia)) as Hge.
  pose proof (nxt_pad N (pos N (all g)) (align8 L) ltac:(lia)) as Hpad. fold st in Hge, Hpad.
  rewrite wrapping_sub_small by lia.
  destruct (Z.ltb_spec N (st + align8 L - pos N (take (jb h) (all g)))); [done|].
  rewrite !wrap_index by lia.
  pose proof (Z.mod_pos_bound (Z.of_nat (length (all g))) n) as Hmod.
  destruct (lookup_lt_is_Some_2 (elems (smem s)) (Z.to_nat (Z.of_nat (length (all g)) `mod` n)))
    as [old Hold]; [rewrite (mi_elems _ _ _ Hm); lia|].
  unfold index. rewrite Hold. cbn [unwrap rbind].
  pose proof (nxt_page N (pos N (all g)) (align8 L) ltac:(lia)) as Hpg. fold st in Hpg.
  pose proof (Z.mod_pos_bound st N).
  rewrite index_range_Ok by (rewrite (mi_data _ _ _ Hm); lia). cbn [rbind].
  do 2 f_equal. f_equal. rewrite wrap_add_l. f_equal. lia.
Qed.

(** A length that overflows the alignment never reserves a slice. *)
Lemma write_overflow p g h s wb L out :
  inv_at g h s -> write p (smem s) wb L = Ok out -> L <= 2 ^ 32 - 8.
Proof.
  intros [Hm _ _ _] Hwr. unfold write in Hwr. inv_res.
  destruct (_ <? a0); [done|]. destruct (_ <=? _); [done|]. destruct (_ <? _); [done|]. inv_res.
  apply index_range_inv in Ha2 as [[_ Hlen] _].
  rewrite (mi_data _ _ _ Hm) in Hlen. pose proof N_bounds. lia.
Qed.

Lemma all_take g q r :
  reader_inv g q r -> take (length (don g ++ bat g)) (all g) = don g ++ bat g.
Proof.
  intros [_ _ [k Hk] _]. unfold all. rewrite Hk, <- app_assoc. apply take_app_length.
Qed.

Lemma peek_len_empty g h s rb :
  inv_at g h s -> rs s = RBatch rb -> length (don g ++ bat g) = snap g ->
  peek_len (smem s) rb = Err NoEntry.
Proof.
  intros [_ _ Hr _] Hrs Hk. destruct Hr as [_ _ _ Hph]. rewrite Hrs in Hph.
  destruct Hph as (Hq & _ & [Heh _] & Het & _). unfold peek_len.
  by rewrite Hq, Het, Heh, Hk, Z.eqb_refl.
Qed.

(** In a batch with unread elements the head is the next one in the log. *)
Lemma head_stored g h s rb :
  inv_at g h s -> rs s = RBatch rb -> (length (don g ++ bat g) < snap g)%nat ->
  exists x, com g !! length (don g ++ bat g) = Some x
    /\ align8 (len x) < N
    /\ stored (smem s) (all g) (length (don g ++ bat g)) x
    /\ peek_len (smem s) rb = Ok (len x).
Proof.
  intros [Hm Hw Hr Hs] Hrs Hlt. pose proof n_bounds as Hn.
  pose proof (wi_eroom _ _ _ _ Hw) as Her. pose proof (si_eorder _ _ _ _ Hs) as Heo.
  destruct (Hr) as [He _ _ Hph]. rewrite Hrs in Hph, Heo, Hm. simpl in Heo, Hm.
  destruct Hph as (Hq & _ & [Heh _] & Het & Hsn).
  destruct (lookup_lt_is_Some_2 (com g) (length (don g ++ bat g))) as [x Hx]; [lia|].
  assert (all g !! length (don g ++ bat g) = Some x) as Hax by (by apply lookup_app_l_Some).
  exists x. split; [done|].
  pose proof (proj1 (Forall_lookup _ _) (mi_fit _ _ _ Hm) _ _ Hax) as Hfit.
  assert (stored (smem s) (all g) (length (don g ++ bat g)) x) as Hst.
  { apply (mi_stored _ _ _ Hm); [done|]. rewrite length_app. lia. }
  split; [done|]. split; [done|]. unfold peek_len. rewrite Hq, Het, Heh, He. unfold W.
  rewrite len_all, length_app in *.
  rewrite wrap32_eqb by lia. rewrite (proj2 (Z.eqb_neq _ _)) by lia.
  rewrite wrap_index by lia. unfold index.
  destruct Hst as [Hel _]. by rewrite Hel.
Qed.

Lemma read_eq p g h s rb :
  inv_at g h s -> rs s = RBatch rb -> (length (don g ++ bat g) < snap g)%nat ->
  exists x, com g !! length (don g ++ bat g) = Some x
    /\ peek p (smem s) rb = Ok x
    /\ read p (smem s) rb
       = Ok (x, mkRB (rq s) (W (S (length (don g ++ bat g))))
                  (wrap 32 (pos N ((don g ++ bat g) ++ [x])))).
Proof.
  intros Hi Hrs Hlt. destruct (head_stored g h s rb Hi Hrs Hlt) as (x & Hx & Hfit & [_ Hst] & Hpl).
  exists x. split; [done|]. destruct Hi as [Hm _ Hr _]. pose proof N_bounds as HN.
  rewrite (all_take _ _ _ Hr) in Hst.
  pose proof (place_in_buffer (pos N (don g ++ bat g)) x Hfit) as Hin.
  destruct Hr as [He Hbm _ Hph]. rewrite Hrs in Hph.
  destruct Hph as (Hq & _ & [Heh Hbh] & _ & _).
  pose proof (align8_bounds (len x)) as Hal. unfold len in Hal.
  unfold peek, read. rewrite Hpl. cbn [rbind]. unfold len in *. rewrite aligned_eq by lia.
  cbn [rbind]. rewrite Hq, Hbm, Hbh, Heh, next_offset_eq, wrap_index by lia.
  change (nxt N (pos N (don g ++ bat g)) (align8 (Z.of_nat (length x))))
    with (place N (pos N (don g ++ bat g)) x).
  rewrite Nat2Z.id, index_range_Ok by (rewrite (mi_data _ _ _ Hm); lia).
  rewrite Hst. cbn [rbind]. split; [done|]. unfold wrapping_add, W.
  rewrite !wrap_add_l, pos_snoc, Nat2Z.inj_succ. done.
Qed.

(** ** Preservation *)

(** Writing one more element keeps every element the reader may still read. *)
Lemma mem_inv_write m l c je jb x :
  mem_inv m l c -> (je <= c)%nat -> (jb <= c)%nat -> (c <= length l)%nat ->
  Z.of_nat (length l) - Z.of_nat je < n ->
  align8 (len x) < N ->
  after N (pos N l) x - pos N (take jb l) <= N ->
  mem_inv
    (fill (mkMem (shared m) (<[Z.to_nat (Z.of_nat (length l) `mod` n) := len x]> (elems m)) (data m))
       (Z.to_nat (place N (pos N l) x `mod` N)) x)
    (l ++ [x]) c.
Proof.
  intros [Hel Hda Hfit Hst] Hje Hjb Hc Hn Hx Hroom.
  pose proof N_bounds as HN. pose proof n_bounds as Hnb.
  pose proof (place_in_buffer (pos N l) x Hx) as Hin.
  pose proof (Z.mod_pos_bound (Z.of_nat (length l)) n) as Hmod.
  split; simpl.
  - by rewrite length_insert.
  - rewrite length_write_at; lia.
  - apply Forall_app. split; [done|]. by constructor.
  - intros k y Hk Hck. unfold stored. simpl. apply lookup_app_Some in Hk as [Hk|[Hge Hk]].
    + destruct (Hst k y Hk Hck) as [Hly Hdy].
      pose proof (lookup_lt_Some _ _ _ Hk) as Hkl.
      rewrite take_app_le by lia. split.
      * rewrite list_lookup_insert_ne; [done|]. intros Heq.
        pose proof (Z.mod_pos_bound (Z.of_nat k) n).
        apply (mod_near_ne (Z.of_nat (length l)) (Z.of_nat k) n); lia.
      * pose proof (proj1 (Forall_lookup _ _) Hfit _ _ Hk) as Hy.
        pose proof (place_in_buffer (pos N (take k l)) y Hy) as Hiny.
        rewrite sublist_write_disjoint; [done|lia|].
        assert (pos N (take jb l) <= pos N (take k l)) by (apply pos_take_mono; lia).
        assert (after N (pos N (take k l)) y <= pos N l) as Haft.
        { rewrite <- (pos_take_S N l k y Hk). rewrite <- (firstn_all l) at 2.
          apply pos_take_mono; lia. }
        pose proof (after_ge N (pos N (take k l)) y ltac:(lia)).
        pose proof (after_ge N (pos N l) x ltac:(lia)).
        pose proof (align8_bounds (len x)). pose proof (align8_bounds (len y)).
        unfold after in Hroom, Haft. fold (len x) in Hroom. fold (len y) in Haft.
        set (py := place N (pos N (take k l)) y) in *. set (px := place N (pos N l) x) in *.
        pose proof (Z.mod_pos_bound px N). pose proof (Z.mod_pos_bound py N).
        destruct (ring_disjoint N py px (len y) (len x)); unfold len in *; lia.
    + destruct (k - length l)%nat as [|] eqn:Hkl; [|done]. simplify_eq/=.
      assert (k = length l) as -> by lia. rewrite take_app_length. split.
      * rewrite list_lookup_insert_eq; [done|]. lia.
      * by rewrite sublist_write_same by lia.
Qed.

Lemma mem_inv_prefix m l k c : mem_inv m (l ++ k) c -> mem_inv m l c.
Proof.
  intros [Hel Hda Hfit Hst]. split; [done|done|by apply Forall_app in Hfit as [? _]|].
  intros i x Hi Hc. pose proof (lookup_lt_Some _ _ _ Hi).
  destruct (Hst i x) as [H1 H2]; [by apply lookup_app_l_Some|done|].
  rewrite take_app_le in H2 by lia. done.
Qed.

Lemma mem_inv_weaken m l c c' : mem_inv m l c -> (c <= c')%nat -> mem_inv m l c'.
Proof. intros [Hel Hda Hfit Hst] Hc. split; try done. intros k x Hk Hck. apply Hst; [done|lia]. Qed.

Lemma mem_inv_shared m l c s : mem_inv m l c -> mem_inv (set_shared m s) l c.
Proof. intros [Hel Hda Hfit Hst]. by split. Qed.

(** The cached positions are positions in the committed part of the log. *)
Lemma heads_committed g h s :
  inv_at g h s ->
  (je h <= consumed g (rs s) /\ jb h <= consumed g (rs s)
   /\ cb h <= consumed g (rs s) /\ consumed g (rs s) <= length (com g))%nat.
Proof.
  intros [_ _ Hr Hs]. pose proof (consumed_le _ _ _ Hr). destruct Hs. lia.
Qed.

Lemma take_all_com g k : (k <= length (com g))%nat -> take k (all g) = take k (com g).
Proof. intros. unfold all. by rewrite take_app_le. Qed.

Lemma inv_load_elem_head g h m q rq rs :
  inv_at g h (mkSys m q WIdle rq rs) ->
  inv_at g (mkHeads (ce h) (jb h) (ce h) (cb h)) (mkSys m (load_elem_head q m) WLoaded rq rs).
Proof.
  intros [Hm Hw Hr Hs]. simpl in *. split; simpl; [done| |done|].
  - destruct Hw, Hs. split; simpl; try done. lia.
  - destruct Hs. split; simpl; try done. lia.
Qed.

Lemma inv_start_write p g h m q wb rq rs :
  inv_at g h (mkSys m q WLoaded rq rs) ->
  start_write_checks (E := EqError) p (load_buf_head q m) = Ok wb ->
  inv_at g (mkHeads (je h) (cb h) (ce h) (cb h)) (mkSys m (w_q wb) (WBatch wb) rq rs).
Proof.
  intros Hi Hst. pose proof (heads_committed _ _ _ Hi) as Hh. destruct Hi as [Hm Hw Hr Hs].
  unfold start_write_checks in Hst. inv_res. subst wb. simpl in *.
  pose proof N_bounds. split; simpl; [done| |done|].
  - destruct Hw as [He Hbm Heh Hbh Her Hbr [Hp [Het Hbt]]], Hs. split; simpl; try done.
    + assert (pos N (take (jb h) (all g)) <= pos N (take (cb h) (all g))); [|lia].
      apply pos_take_mono; lia.
    + unfold all. rewrite Hp, app_nil_r. done.
  - destruct Hs. split; simpl; try done. lia.
Qed.

Lemma inv_write p g h m q wb bs m' wb' rq rs :
  inv_at g h (mkSys m q (WBatch wb) rq rs) -> write_elem p m wb bs = Ok (m', wb') ->
  inv_at (log_step g (Wrote bs)) h (mkSys m' q (WBatch wb') rq rs).
Proof.
  intros Hi Hwr. pose proof (heads_committed _ _ _ Hi) as Hh.
  unfold write_elem in Hwr. inv_res. destruct a0 as [[start m1] b1]. injection Hwr as <- <-.
  pose proof (write_overflow p g h _ wb _ _ Hi Ha0) as Hlen.
  rewrite (write_eq p g h (mkSys m q (WBatch wb) rq rs) wb) in Ha0 by (done || lia).
  fold (len bs) in *. simpl in Ha0.
  destruct (Z.ltb_spec (N - 1) (align8 (len bs))); [done|].
  destruct (Z.leb_spec n (Z.of_nat (length (all g)) - Z.of_nat (je h))); [done|].
  change (nxt N (pos N (all g)) (align8 (len bs))) with (place N (pos N (all g)) bs) in Ha0.
  change (place N (pos N (all g)) bs + align8 (len bs)) with (after N (pos N (all g)) bs) in Ha0.
  destruct (Z.ltb_spec N (after N (pos N (all g)) bs - pos N (take (jb h) (all g)))); [done|].
  injection Ha0 as <- <- <-. destruct Hi as [Hm Hw Hr Hs]. simpl in *.
  assert (all (log_step g (Wrote bs)) = all g ++ [bs]) as Hall by (unfold all; simpl; apply app_assoc).
  simpl in Hall.
  assert (forall k, (k <= length (com g))%nat -> take k (all g ++ [bs]) = take k (all g)) as Htk.
  { intros k Hk. apply take_app_le. rewrite len_all. lia. }
  split; simpl; rewrite ?Hall.
  - change (consumed _ rs) with (consumed g rs).
    apply mem_inv_write with (je := je h) (jb := jb h); try (done || lia). rewrite len_all. lia.
  - destruct Hw as [He Hbm Heh Hbh Her Hbr (Hq & Htl & _)].
    split; simpl; rewrite ?Hall, ?Htk by lia; try done.
    + rewrite length_app. simpl. lia.
    + rewrite pos_snoc. lia.
    + split_and!; [done|done|]. split; [rewrite length_app, Nat.add_1_r; done|].
      by rewrite pos_snoc.
  - destruct Hr. by split.
  - destruct Hs. split; simpl; rewrite ?Hall, ?Htk by lia; done.
Qed.

Lemma inv_drop_write g h m q wb rq rs :
  inv_at g h (mkSys m q (WBatch wb) rq rs) ->
  inv_at (log_step g WriteDrop) h (mkSys m (w_q wb) WIdle rq rs).
Proof.
  intros Hi. pose proof (heads_committed _ _ _ Hi) as Hh. destruct Hi as [Hm Hw Hr Hs]. simpl in *.
  assert (all (log_step g WriteDrop) = com g) as Hall by (unfold all; apply app_nil_r).
  simpl in Hall. pose proof N_bounds.
  split; simpl; rewrite ?Hall.
  - change (consumed _ rs) with (consumed g rs). by apply mem_inv_prefix in Hm.
  - destruct Hw as [He Hbm Heh Hbh Her Hbr (Hq & Htl & _)]. rewrite Hq.
    rewrite take_all_com in Hbh, Hbr by lia.
    split; simpl; rewrite ?Hall; try done.
    + rewrite len_all in Her. lia.
    + pose proof (pos_mono N (com g) (pend g) ltac:(lia)). unfold all in Hbr. lia.
  - destruct Hr. by split.
  - destruct Hs as [? ? Hsb]. rewrite take_all_com in Hsb by lia.
    split; simpl; rewrite ?Hall; done.
Qed.

Lemma inv_commit_write g h m q wb rq rs :
  inv_at g h (mkSys m q (WBatch wb) rq rs) ->
  inv_at g h (mkSys m (commit_write wb) WCommitted rq rs).
Proof.
  intros [Hm Hw Hr Hs]. split; simpl in *; try done.
  destruct Hw as [He Hbm Heh Hbh Her Hbr (Hq & _ & Htl)].
  split; unfold commit_write; simpl; by rewrite ?Hq.
Qed.

Lemma inv_publish_buf_tail g h m q rq rs :
  inv_at g h (mkSys m q WCommitted rq rs) ->
  inv_at g h (mkSys (set_buf_tail m (buf_tail q)) q WPublishing rq rs).
Proof.
  intros [Hm Hw Hr Hs]. split; simpl in *; [by apply mem_inv_shared| |done|].
  - destruct Hw. by split.
  - destruct Hs. by split.
Qed.

Lemma inv_publish_elem_tail g h m q rq rs :
  inv_at g h (mkSys m q WPublishing rq rs) ->
  inv_at (log_step g WriteCommit) h (mkSys (set_elem_tail m (elem_tail q)) q WIdle rq rs).
Proof.
  intros [Hm Hw Hr Hs]. simpl in *.
  assert (all (log_step g WriteCommit) = all g) as Hall by (unfold all; simpl; apply app_nil_r).
  simpl in Hall. split; simpl; rewrite ?Hall.
  - change (consumed _ rs) with (consumed g rs). by apply mem_inv_shared.
  - destruct Hw. split; simpl; rewrite ?Hall; done.
  - destruct Hr as [He Hbm Hpre Hph]. split; simpl; [done|done| |].
    + by apply prefix_app_r.
    + destruct rs; try done. destruct Hph as (? & ? & ? & ? & ? & ?).
      split_and!; try done. rewrite length_app. lia.
  - destruct Hs as [Het ? ? ? ? ?], Hw as [? ? ? ? ? ? [Het' _]].
    split; simpl; rewrite ?Hall; done.
Qed.

Lemma inv_start_read g h m q wq ws :
  inv_at g h (mkSys m wq ws q RIdle) ->
  inv_at (log_step g ReadStart) h
    (mkSys m wq ws (r_q (start_read q m)) (RBatch (start_read q m))).
Proof.
  intros [Hm Hw Hr Hs]. simpl in *. destruct Hr as [He Hbm Hpre [Hbat Htl]].
  rewrite Hbat, app_nil_r in Hpre.
  split; simpl; [done| | |].
  - destruct Hw. by split.
  - split; simpl; rewrite ?app_nil_r; [done|done|done|].
    split_and!; try done; [apply Hs|by apply prefix_length].
  - destruct Hs. by split.
Qed.

Lemma inv_read p g h m q wq ws r bs r' :
  inv_at g h (mkSys m wq ws q (RBatch r)) -> read p m r = Ok (bs, r') ->
  inv_at (log_step g (ReadOk bs)) h (mkSys m wq ws q (RBatch r')).
Proof.
  intros Hi Hrd. destruct (Hi) as [Hm Hw Hr Hs]. simpl in *.
  destruct (Hr) as [He Hbm Hpre (Hq & Htl & _ & Het & Hk)].
  destruct (decide (length (don g ++ bat g) = snap g)) as [Heq|Hne].
  { pose proof (peek_len_empty g h _ r Hi eq_refl Heq) as Hno. simpl in Hno.
    unfold read in Hrd. by rewrite Hno in Hrd. }
  destruct (read_eq p g h (mkSys m wq ws q (RBatch r)) r Hi eq_refl) as (x & Hx & _ & Hok); [lia|].
  simpl in Hok. rewrite Hok in Hrd. injection Hrd as <- <-.
  split; simpl; [done| | |].
  - destruct Hw. by split.
  - split; simpl; rewrite ?app_assoc; [done|done| |].
    + destruct Hpre as [k Hpre]. rewrite Hpre in Hx.
      rewrite lookup_app_r, Nat.sub_diag in Hx by lia.
      destruct k as [|y k]; simplify_eq/=. exists k. by rewrite Hpre, <- !app_assoc.
    + assert (length ((don g ++ bat g) ++ [x]) = S (length (don g ++ bat g))) as Hlen.
      { rewrite (length_app _ [_]). simpl. lia. }
      split; [done|]. split; [done|]. split; [by split; rewrite ?Hlen|].
      split; [done|]. rewrite Hlen. lia.
  - destruct Hs. by split.
Qed.

Lemma inv_drop_read g h m q wq ws r :
  inv_at g h (mkSys m wq ws q (RBatch r)) ->
  inv_at (log_step g ReadDrop) h (mkSys m wq ws (r_q r) RIdle).
Proof.
  intros [Hm Hw Hr Hs]. simpl in *. destruct Hr as [He Hbm Hpre (Hq & Htl & _)]. rewrite Hq.
  split; simpl; [done| | |].
  - destruct Hw. by split.
  - split; simpl; try done. rewrite app_nil_r. by eapply prefix_app_l.
  - destruct Hs. by split.
Qed.

Lemma inv_commit_read g h m q wq ws r :
  inv_at g h (mkSys m wq ws q (RBatch r)) ->
  inv_at g h (mkSys m wq ws (commit_read r) RCommitted).
Proof.
  intros [Hm Hw Hr Hs]. simpl in *. destruct Hr as [He Hbm Hpre (Hq & Htl & Htl' & _)].
  split; simpl; [|done| |].
  - eapply mem_inv_weaken; [done|]. simpl. rewrite length_app. lia.
  - split; unfold commit_read; simpl; by rewrite ?Hq.
  - destruct Hs as [? ? ? Ho1 Ho2 ?]. simpl in *.
    split; simpl; try done; rewrite length_app; lia.
Qed.

Lemma inv_publish_buf_head g h m q wq ws :
  inv_at g h (mkSys m wq ws q RCommitted) ->
  inv_at g (mkHeads (je h) (jb h) (ce h) (length (don g ++ bat g)))
    (mkSys (set_buf_head m (buf_head q)) wq ws q RPublishing).
Proof.
  intros [Hm Hw Hr Hs]. simpl in *. split; simpl; [by apply mem_inv_shared| | |].
  - destruct Hw. by split.
  - destruct Hr. by split.
  - pose proof (all_take _ _ _ Hr) as Hat. destruct Hr as [_ _ _ [_ Htl]].
    destruct Hs as [? ? ? ? Hbo ?]. simpl in *. split; simpl; try done; [by rewrite Hat|lia].
Qed.

Lemma inv_publish_elem_head g h m q wq ws :
  inv_at g h (mkSys m wq ws q RPublishing) ->
  inv_at (log_step g ReadCommit)
    (mkHeads (je h) (jb h) (length (don g ++ bat g)) (cb h))
    (mkSys (set_elem_head m (elem_head q)) wq ws q RIdle).
Proof.
  intros [Hm Hw Hr Hs]. simpl in *. split; simpl; [by apply mem_inv_shared| | |].
  - destruct Hw. by split.
  - destruct Hr. split; simpl; rewrite ?app_nil_r; done.
  - destruct Hr as [_ _ _ [Htl _]]. destruct Hs as [? ? ? Heo Hbo Hph]. simpl in *.
    split; simpl; try done. lia.
Qed.

(** ** Every reachable state satisfies the invariant *)

Lemma inv_step p g h s e s' :
  inv_at g h s -> step p s e s' -> exists h', inv_at (log_step g e) h' s'.
Proof.
  intros Hi Hstep. destruct Hstep; eexists;
    eauto using inv_load_elem_head, inv_start_write, inv_write, inv_drop_write, inv_commit_write,
      inv_publish_buf_tail, inv_publish_elem_tail, inv_start_read, inv_read, inv_drop_read,
      inv_commit_read, inv_publish_buf_head, inv_publish_elem_head.
Qed.

Lemma inv_boots s : boots a b s -> inv_at log_init (mkHeads 0 0 0 0) s.
Proof.
  intros (q & Hq & ->). pose proof N_bounds. pose proof n_bounds.
  unfold make_queue, new_from_contiguous in Hq. simpl in Hq.
  destruct (not_pow2 n); [done|]. destruct (not_pow2 N); [done|]. injection Hq as <-.
  assert (Hw0 : W 0 = 0) by done.
  split; simpl.
  - split; simpl; [apply length_replicate|apply length_replicate|done|done].
  - split; simpl; try done; [lia|]. unfold pos. simpl. lia.
  - split; simpl; try done.
  - split; simpl; try done; lia.
Qed.

Lemma log_of_snoc t e : log_of (t ++ [e]) = log_step (log_of t) e.
Proof. unfold log_of. by rewrite fold_left_app. Qed.

Lemma inv_reachable p s0 t s :
  boots a b s0 -> steps p s0 t s -> exists h, inv_at (log_of t) h s.
Proof.
  intros Hboot Hsteps. induction Hsteps as [s|s t s1 e s2 _ IH Hstep].
  - eexists. by apply inv_boots.
  - destruct (IH Hboot) as [h Hi]. rewrite log_of_snoc. by eapply inv_step.
Qed.

(** ** Properties *)

(** C13: the queue is FIFO under every interleaving of the two processes.  The
    elements the reader has received, in finished batches and in the current
    one, are a prefix of the elements of the finished write batches, in order
    and byte for byte; dropped batches leave no trace. *)
Theorem queue_fifo p s0 t s :
  boots a b s0 -> steps p s0 t s ->
  don (log_of t) ++ bat (log_of t) `prefix_of` com (log_of t).
Proof.
  intros Hboot Hst. destruct (inv_reachable p s0 t s Hboot Hst) as [h [_ _ Hr _]]. apply Hr.
Qed.

(** Reading never panics and never stops early.  In a read batch that has
    not yet received everything committed before it started, [peek_len],
    [peek] and [read] give the next element of the log; otherwise they report
    [NoEntry]. *)
Theorem queue_read_outcome p s0 t s r :
  boots a b s0 -> steps p s0 t s -> rs s = RBatch r ->
  let g := log_of t in
  if decide (length (don g ++ bat g) < snap g)%nat then
    exists x r', com g !! length (don g ++ bat g) = Some x
      /\ peek_len (smem s) r = Ok (len x) /\ peek p (smem s) r = Ok x
      /\ read p (smem s) r = Ok (x, r')
  else
    peek_len (smem s) r = Err NoEntry /\ peek p (smem s) r = Err NoEntry
    /\ read p (smem s) r = Err NoEntry.
Proof.
  intros Hboot Hst Hrs g. destruct (inv_reachable p s0 t s Hboot Hst) as [h Hi]. fold g in Hi.
  destruct (decide _) as [Hlt|Hge].
  - destruct (read_eq p g h s r Hi Hrs Hlt) as (x & Hx & Hpk & Hrd).
    destruct (head_stored g h s r Hi Hrs Hlt) as (y & Hy & _ & _ & Hpl).
    simplify_eq. eauto 6.
  - assert (length (don g ++ bat g) = snap g) as Heq.
    { destruct Hi as [_ _ [_ _ _ Hph] _]. rewrite Hrs in Hph.
      destruct Hph as (_ & _ & _ & _ & ?). lia. }
    pose proof (peek_len_empty g h s r Hi Hrs Heq) as Hpl.
    unfold peek, read. by rewrite Hpl.
Qed.


(** C33: the queue does not block for good.  Once the reader has consumed
    everything, the next write batch accepts any element of at most half the
    buffer. *)
Theorem queue_drained_accepts s0 t s L :
  boots a b s0 -> steps Release s0 t s -> ws s = WIdle -> rs s = RIdle ->
  com (log_of t) = don (log_of t) -> 0 <= L -> 2 * align8 L <= N ->
  exists wb out, start_write (E := EqError) Release (wq s) (smem s) = Ok wb
    /\ write Release (smem s) wb L = Ok out.
Proof.
  intros Hboot Hst Hws Hrs Hdrain HL Hhalf.
  destruct (inv_reachable Release s0 t s Hboot Hst) as [h Hi]. set (g := log_of t) in *.
  destruct s as [m q w q' r]. simpl in *. subst w r. pose proof N_bounds. pose proof n_bounds.
  pose proof (align8_bounds L).
  assert (all g = don g) as Hall.
  { destruct Hi as [_ [_ _ _ _ _ _ [Hp _]] _ _]. unfold all. by rewrite Hp, app_nil_r. }
  apply inv_load_elem_head in Hi.
  pose proof (inv_start_write Release g _ _ _ _ _ _ Hi eq_refl) as Hi'.
  eexists _, _. split; [done|].
  etransitivity; [apply (write_eq Release g _ _ _ L Hi' eq_refl); lia|]. simpl.
  destruct Hi' as [_ _ _ [_ _ _ _ _ [Hce Hcb]]]. simpl in Hce, Hcb.
  rewrite Hce, Hcb, Hall, firstn_all.
  pose proof (nxt_pad N (pos N (don g)) (align8 L) ltac:(lia) ltac:(lia)).
  rewrite (proj2 (Z.ltb_ge _ _)) by lia. rewrite (proj2 (Z.leb_gt _ _)) by lia.
  by rewrite (proj2 (Z.ltb_ge _ _)) by lia.
Qed.

(** Moving an element between two queues is reading it from the source
    and writing it to the destination: on a reachable source, [move_from]
    succeeds exactly when both do, and passes on their errors. *)
Theorem move_from_reads_then_writes p s0 t s r dm wb :
  boots a b s0 -> steps p s0 t s -> rs s = RBatch r ->
  move_from p dm wb (smem s) r =
    match read p (smem s) r with
    | Ok (x, r') =>
        match write_elem p dm wb x with
        | Ok (dm', wb') => Ok (length x, dm', wb', r')
        | Err e => Err e
        | Panic => Panic
        end
    | Err e => Err e
    | Panic => Panic
    end.
Proof.
  intros Hboot Hst Hrs. destruct (inv_reachable p s0 t s Hboot Hst) as [h Hi].
  set (g := log_of t) in *. unfold move_from.
  assert (length (don g ++ bat g) < snap g \/ length (don g ++ bat g) = snap g)%nat as [Hlt|Heq].
  { destruct Hi as [_ _ [_ _ _ Hph] _]. rewrite Hrs in Hph. destruct Hph as (_ & _ & _ & _ & ?). lia. }
  - destruct (head_stored g h s r Hi Hrs Hlt) as (y & Hy & Hfit & _ & Hpl).
    destruct (read_eq p g h s r Hi Hrs Hlt) as (x & Hx & _ & Hrd). simplify_eq.
    rewrite Hpl, Hrd. cbn [rbind]. unfold write_elem. fold (len y).
    pose proof (align8_bounds (len y)). pose proof N_bounds.
    rewrite wrap_small by (unfold fits, len in *; lia).
    destruct (write p dm wb (len y)) as [[[st m'] b']| |]; cbn [rbind]; [|done|done].
    rewrite debug_assert_true by apply Z.eqb_refl. cbn [rbind].
    unfold len. rewrite Nat2Z.id, Nat.eqb_refl. done.
  - pose proof (peek_len_empty g h s r Hi Hrs Heq) as Hpl. unfold read. by rewrite Hpl.
Qed.

End invariant.

Lemma not_pow2_iff z : fits 32 z -> not_pow2 z = false <-> is_pow2 z.
Proof.
  intros [Hz0 _]. unfold not_pow2. rewrite orb_false_iff, negb_false_iff, Z.eqb_eq, Z.eqb_neq. split.
  - intros [Hnz Hl]. by apply land_pred_pow2 in Hl; [|lia].
  - intros Hz. assert (0 < z) by (destruct Hz as (k & ? & ->); lia). split; [lia|]. by apply land_pred_pow2.
Qed.

(** A queue can be made over fresh storage exactly when both sizes are
    powers of two; it is empty, has the requested capacities, and the storage
    holds the whole layout with less than a word to spare. *)
Theorem queue_construction n_elems buf_len :
  fits 32 n_elems -> fits 32 buf_len ->
  let st := storage_new n_elems buf_len in
  contig_size n_elems buf_len <= 8 * words st < contig_size n_elems buf_len + 8
  /\ (is_pow2 n_elems /\ is_pow2 buf_len ->
      exists q, make_queue st = Ok q /\ elem_capacity q = n_elems /\ buf_capacity q = buf_len
        /\ elem_count q = 0 /\ buf_used q = 0)
  /\ (~ (is_pow2 n_elems /\ is_pow2 buf_len) -> make_queue st = Err InvalidArg).
Proof.
  intros Hn Hb st.
  pose proof not_pow2_iff as Hp.
  split_and!.
  - simpl. pose proof (Z.mul_div_le (contig_size n_elems buf_len + 7) 8 ltac:(lia)).
    pose proof (Z.mul_succ_div_gt (contig_size n_elems buf_len + 7) 8 ltac:(lia)). lia.
  - simpl. pose proof (Z.mul_succ_div_gt (contig_size n_elems buf_len + 7) 8 ltac:(lia)).
    pose proof (Z.mul_div_le (contig_size n_elems buf_len + 7) 8 ltac:(lia)). lia.
  - intros [H1 H2]. unfold make_queue, new_from_contiguous. simpl.
    rewrite (proj2 (Hp _ Hn) H1), (proj2 (Hp _ Hb) H2). eexists. split; [done|].
    unfold elem_capacity, buf_capacity. simpl. split_and!; (lia || done).
  - intros Hno. unfold make_queue, new_from_contiguous. simpl.
    destruct (not_pow2 n_elems) eqn:E1; [done|]. destruct (not_pow2 buf_len) eqn:E2; [done|].
    exfalso. apply Hno. split; by apply Hp.
Qed.

(** ** Running the two processes *)

Inductive action :=
| AWriter                  (* the writer's next access to the header *)
| AWrite (bs : list Z)
| AFinishWrite
| ADropWrite
| AReader                  (* the reader's next access to the header *)
| ARead
| AFinishRead
| ADropRead.

Definition act (p : profile) (s : sys) (x : action) : option (event * sys) :=
  let '(mkSys m q w q' r) := s in
  match x, w, r with
  | AWriter, WIdle, _ => Some (Tau, mkSys m (load_elem_head q m) WLoaded q' r)
  | AWriter, WLoaded, _ =>
      match start_write_checks (E := EqError) p (load_buf_head q m) with
      | Ok b => Some (Tau, mkSys m (w_q b) (WBatch b) q' r)
      | _ => None
      end
  | AWriter, WCommitted, _ => Some (Tau, mkSys (set_buf_tail m (buf_tail q)) q WPublishing q' r)
  | AWriter, WPublishing, _ => Some (WriteCommit, mkSys (set_elem_tail m (elem_tail q)) q WIdle q' r)
  | AWrite bs, WBatch b, _ =>
      match write_elem p m b bs with
      | Ok (m', b') => Some (Wrote bs, mkSys m' q (WBatch b') q' r)
      | _ => None
      end
  | AFinishWrite, WBatch b, _ => Some (Tau, mkSys m (commit_write b) WCommitted q' r)
  | ADropWrite, WBatch b, _ => Some (WriteDrop, mkSys m (w_q b) WIdle q' r)
  | AReader, _, RIdle =>
      Some (ReadStart, mkSys m q w (r_q (start_read q' m)) (RBatch (start_read q' m)))
  | AReader, _, RCommitted => Some (Tau, mkSys (set_buf_head m (buf_head q')) q w q' RPublishing)
  | AReader, _, RPublishing => Some (ReadCommit, mkSys (set_elem_head m (elem_head q')) q w q' RIdle)
  | ARead, _, RBatch b =>
      match read p m b with
      | Ok (bs, b') => Some (ReadOk bs, mkSys m q w q' (RBatch b'))
      | _ => None
      end
  | AFinishRead, _, RBatch b => Some (Tau, mkSys m q w (commit_read b) RCommitted)
  | ADropRead, _, RBatch b => Some (ReadDrop, mkSys m q w (r_q b) RIdle)
  | _, _, _ => None
  end.

Fixpoint play (p : profile) (s : sys) (t : list event) (xs : list action) : option (list event * sys) :=
  match xs with
  | [] => Some (t, s)
  | x :: xs =>
      match act p s x with
      | Some (e, s') => play p s' (t ++ [e]) xs
      | None => None
      end
  end.

Lemma act_step p s x e s' : act p s x = Some (e, s') -> step p s e s'.
Proof.
  destruct s as [m q w q' r]. simpl. intros H.
  destruct x, w, r; try done; repeat case_match; simplify_eq; by constructor.
Qed.

Lemma play_steps p s0 s t xs t' s' :
  steps p s0 t s -> play p s t xs = Some (t', s') -> steps p s0 t' s'.
Proof.
  revert s t. induction xs as [|x xs IH]; intros s t Hst Hp; simpl in Hp; [by simplify_eq|].
  destruct (act p s x) as [[e s1]|] eqn:Hact; [|done].
  apply (IH s1 (t ++ [e])); [|done]. econstructor; [done|]. by eapply act_step.
Qed.

(** The initial state of a queue of 4 elements and 64 bytes. *)
Definition boot64 : sys :=
  let st := storage_new 4 64 in
  let q := mkQueue 3 63 0 0 0 0 in
  mkSys (st_mem st) q WIdle q RIdle.

Lemma boot64_boots : boots 2 6 boot64.
Proof. by exists (mkQueue 3 63 0 0 0 0). Qed.

(** One element of 32 bytes is written, published, read and released; a
    dropped write batch comes first. *)
Definition one_element : list action :=
  [AWriter; AWriter; AWrite [1; 2; 3]; ADropWrite;
   AWriter; AWriter; AWrite (replicate 32 7); AFinishWrite; AWriter; AReader; AFinishRead;
   AWriter; AReader; AReader; AReader; ARead; AFinishRead; AReader; AReader].

(** An element that fits the buffer can be refused by an empty queue for
    good.  With 64 bytes and the tail in the middle, 40 bytes cross the end of
    the buffer, and the padding plus the element exceed its size; nothing
    changes until a smaller element is written. *)
Theorem queue_large_refused :
  exists t s wb,
    steps Release boot64 t s /\ ws s = WIdle /\ rs s = RIdle
    /\ com (log_of t) = don (log_of t)
    /\ start_write (E := EqError) Release (wq s) (smem s) = Ok wb
    /\ align8 40 < 2 ^ 6
    /\ write Release (smem s) wb 40 = Err NoSpace.
Proof.
  destruct (play Release boot64 [] one_element) as [[t s]|] eqn:Hp; [|by vm_compute in Hp].
  pose proof (play_steps Release boot64 boot64 [] one_element t s (steps_nil _ _) Hp) as Hst.
  vm_compute in Hp. injection Hp as <- <-. eexists _, _, _.
  split; [exact Hst|]. split_and!; reflexivity.
Qed.

(** ** Witnesses *)

(** Two elements are published; the reader has read one of them and the
    writer is in its next batch. *)
Definition two_elements : list action :=
  [AWriter; AWriter; AWrite [1; 2; 3]; AWrite [4; 5]; AFinishWrite; AWriter; AWriter;
   AReader; AWriter; ARead; AWriter; AWrite [6]].

Lemma played {p xs t s} :
  play p boot64 [] xs = Some (t, s) -> steps p boot64 t s.
Proof. apply play_steps. constructor. Qed.

Lemma queue_fifo_witness :
  exists t s, play Debug boot64 [] two_elements = Some (t, s)
    /\ com (log_of t) = [[1; 2; 3]; [4; 5]]
    /\ don (log_of t) ++ bat (log_of t) `prefix_of` com (log_of t).
Proof.
  eexists _, _. split; [vm_compute; reflexivity|]. split; [reflexivity|].
  eapply (queue_fifo 2 6 ltac:(lia) ltac:(lia) Debug); [apply boot64_boots|].
  apply (played (xs := two_elements)). vm_compute. reflexivity.
Defined.

Lemma queue_read_outcome_witness :
  exists t s r x r', play Debug boot64 [] two_elements = Some (t, s) /\ rs s = RBatch r
    /\ com (log_of t) !! length (don (log_of t) ++ bat (log_of t)) = Some x
    /\ peek_len (smem s) r = Ok (len x) /\ peek Debug (smem s) r = Ok x
    /\ read Debug (smem s) r = Ok (x, r').
Proof.
  destruct (play Debug boot64 [] two_elements) as [[t s]|] eqn:Hp; [|by vm_compute in Hp].
  pose proof (played Hp) as Hst. vm_compute in Hp. injection Hp as <- <-.
  pose proof (queue_read_outcome 2 6 ltac:(lia) ltac:(lia) Debug boot64 _ _ _
                boot64_boots Hst eq_refl) as H.
  destruct H as (x & r' & H). eexists _, _, _, x, r'. split; [reflexivity|]. split; [reflexivity|exact H].
Defined.


Lemma queue_drained_accepts_witness :
  exists t s wb out, play Release boot64 [] one_element = Some (t, s)
    /\ start_write (E := EqError) Release (wq s) (smem s) = Ok wb
    /\ write Release (smem s) wb 32 = Ok out.
Proof.
  destruct (play Release boot64 [] one_element) as [[t s]|] eqn:Hp; [|by vm_compute in Hp].
  pose proof (played Hp) as Hst. vm_compute in Hp. injection Hp as <- <-.
  destruct (queue_drained_accepts 2 6 ltac:(lia) ltac:(lia) boot64 _ _ 32 boot64_boots Hst
              eq_refl eq_refl eq_refl ltac:(lia) ltac:(vm_compute; discriminate))
    as (wb & out & H1 & H2).
  eexists _, _, wb, out. split; [reflexivity|]. by split.
Defined.

Lemma move_from_witness :
  exists t s r out, play Debug boot64 [] two_elements = Some (t, s) /\ rs s = RBatch r
    /\ move_from Debug (smem boot64) (mkWB (wq boot64) 0 0) (smem s) r = Ok out.
Proof.
  destruct (play Debug boot64 [] two_elements) as [[t s]|] eqn:Hp; [|by vm_compute in Hp].
  pose proof (played Hp) as Hst. vm_compute in Hp. injection Hp as <- <-.
  pose proof (move_from_reads_then_writes 2 6 ltac:(lia) ltac:(lia) Debug boot64 _ _ _
                (smem boot64) (mkWB (wq boot64) 0 0) boot64_boots Hst eq_refl) as H.
  eexists _, _, _, _. split; [reflexivity|]. split; [reflexivity|].
  etransitivity; [exact H|]. vm_compute. reflexivity.
Defined.

Lemma queue_construction_witness :
  exists q, make_queue (storage_new 4 64) = Ok q /\ elem_capacity q = 4 /\ buf_capacity q = 64
    /\ elem_count q = 0 /\ buf_used q = 0.
Proof.
  apply (queue_construction 4 64); [by vm_compute|by vm_compute|].
  split; [by exists 2|by exists 6].
Defined.
