(* ===== verification/QueueWrap.v ===== *)
(** * The debug assertions of the queue (crates/element-queue/src/raw.rs)

    The indices of the queue are 32 bits wide and wrap.  [start_write] asserts
    in debug builds that the tails are not below the heads, computed in 64
    bits, where the difference of a wrapped tail and a head that has not
    wrapped is negative.  So every debug build runs into the assertion, after
    4 GiB have passed through the buffer.  The C function has the same assert
    with unsigned operands, where it always holds. *)

From S2P Require Import Prelude ElementQueue.

Local Open Scope rust_scope.

(** An element that takes eight bytes of the buffer. *)
Definition eight : list Z := replicate 8 0.

Lemma pos_eights N k : 0 < N -> N `mod` 8 = 0 -> pos N (replicate k eight) = 8 * Z.of_nat k.
Proof.
  intros HN Hmod. induction k as [|k IH]; [done|].
  rewrite replicate_S_end, pos_snoc, IH. unfold after, place. change (align8 _) with 8.
  assert (nxt N (8 * Z.of_nat k) 8 = 8 * Z.of_nat k) as ->; [|lia].
  unfold nxt. assert (N = 8 * (N / 8)) as HN8 by (apply Z_div_exact_2; lia).
  assert (forall r, 0 <= r < 8 -> (8 * Z.of_nat k + r) / N = Z.of_nat k / (N / 8)) as Hdiv.
  { intros r Hr. rewrite HN8 at 1. rewrite <- Z.div_div by lia. f_equal.
    rewrite Z.mul_comm, Z.div_add_l, (Z.div_small r) by lia. lia. }
  replace (8 * Z.of_nat k + 8 - 1) with (8 * Z.of_nat k + 7) by lia. rewrite (Hdiv 7) by lia.
  replace (8 * Z.of_nat k / N) with ((8 * Z.of_nat k + 0) / N) by (f_equal; lia). rewrite (Hdiv 0) by lia.
  by rewrite Z.ltb_irrefl.
Qed.

Section cycles.
Context (a b : Z) (Ha : 0 <= a <= 31) (Hb : 4 <= b <= 30) (s0 : sys) (Hboot : boots a b s0).

(** Both sides are idle, [put] elements were committed and [got] consumed. *)
Definition passed (put got : nat) (s : sys) : Prop :=
  exists t, steps Debug s0 t s /\ ws s = WIdle /\ rs s = RIdle
    /\ com (log_of t) = replicate put eight /\ don (log_of t) = replicate got eight.

(** The indices in such a state. *)
Lemma passed_indices put got s :
  passed put got s ->
  elem_tail (wq s) = wrap 32 (Z.of_nat put) /\ buf_tail (wq s) = wrap 32 (8 * Z.of_nat put)
  /\ sh_elem_head (shared (smem s)) = wrap 32 (Z.of_nat got)
  /\ sh_buf_head (shared (smem s)) = wrap 32 (8 * Z.of_nat got) /\ (got <= put)%nat.
Proof.
  intros (t & Hst & Hws & Hrs & Hcom & Hdon).
  destruct (inv_reachable a b Ha ltac:(lia) Debug s0 t s Hboot Hst) as [h [_ Hw Hr Hs]].
  destruct Hw as [_ _ _ _ _ _ Hph]. rewrite Hws in Hph. destruct Hph as [Hpend [Het Hbt]].
  destruct Hs as [_ Heh Hbh _ _ Hsp]. rewrite Hrs in Hsp. destruct Hsp as [Hce Hcb].
  destruct Hr as [_ _ Hpre Hrp]. rewrite Hrs in Hrp. destruct Hrp as [Hbat _].
  rewrite Hbat, app_nil_r, Hcom, Hdon in Hpre. apply prefix_length in Hpre. rewrite !length_replicate in Hpre.
  assert (0 < 2 ^ b) by lia. assert ((2 ^ b) `mod` 8 = 0) as Hm.
  { replace b with (3 + (b - 3)) by lia. rewrite Z.pow_add_r by lia. change (2 ^ 3) with 8. rewrite Z.mul_comm. apply Z.mod_mul. lia. }
  assert (all (log_of t) = replicate put eight) as Hall by (unfold all; by rewrite Hpend, app_nil_r).
  rewrite Hcom, length_replicate in Het. rewrite Hcom, (pos_eights _ _ ltac:(done) Hm) in Hbt.
  rewrite Hdon, length_replicate in Hce, Hcb. rewrite Hce in Heh. rewrite Hcb, Hall, take_replicate, Nat.min_l in Hbh by done.
  rewrite (pos_eights _ _ ltac:(done) Hm) in Hbh. done.
Qed.

(** The producer commits one element. *)
Lemma put_one k s : passed k k s -> exists s', passed (S k) k s'.
Proof.
  intros Hp. destruct (passed_indices k k s Hp) as (Het & Hbt & Heh & Hbh & _).
  destruct Hp as (t & Hst & Hws & Hrs & Hcom & Hdon).
  destruct (inv_reachable a b Ha ltac:(lia) Debug s0 t s Hboot Hst) as [h Hi].
  pose proof (n_bounds a Ha). assert (2 ^ 4 <= 2 ^ b) by (apply Z.pow_le_mono_r; lia).
  destruct s as [m q w rq r]. simpl in *. subst w r.
  assert (all (log_of t) = replicate k eight) as Hall.
  { destruct Hi as [_ [_ _ _ _ _ _ [Hpend _]] _ _]. unfold all. by rewrite Hpend, app_nil_r. }
  pose proof (inv_load_elem_head a b Ha ltac:(lia) _ _ _ _ _ _ Hi) as Hi1.
  assert (start_write_checks (E := EqError) Debug (load_buf_head (load_elem_head q m) m)
    = Ok (mkWB (load_buf_head (load_elem_head q m) m) (elem_tail q) (buf_tail q))) as Hsw.
  { unfold start_write_checks. simpl. rewrite Het, Hbt, Heh, Hbh, !Z.sub_diag. done. }
  pose proof (inv_start_write a b Ha ltac:(lia) Debug _ _ _ _ _ _ _ Hi1 Hsw) as Hi2.
  pose proof (write_eq a b Ha ltac:(lia) Debug _ _ _ _ 8 Hi2 eq_refl ltac:(lia)) as Hwr. cbv zeta in Hwr.
  destruct Hi2 as [_ _ _ [_ _ _ _ _ [Hce Hcb]]]. simpl in Hce, Hcb.
  simpl in Hwr. rewrite Hce, Hcb, Hdon, Hall, !length_replicate, take_replicate, Nat.min_id in Hwr.
  change (align8 8) with 8 in Hwr. pose proof (nxt_pad (2 ^ b) (pos (2 ^ b) (replicate k eight)) 8 ltac:(lia) ltac:(lia)).
  rewrite (proj2 (Z.ltb_ge _ _)) in Hwr by lia. rewrite (proj2 (Z.leb_gt _ _)) in Hwr by lia.
  rewrite (proj2 (Z.ltb_ge _ _)) in Hwr by lia.
  eexists. eexists ((((((t ++ [Tau]) ++ [Tau]) ++ [Wrote eight]) ++ [Tau]) ++ [Tau]) ++ [WriteCommit]). split_and!.
  - eapply steps_snoc; [|apply step_publish_elem_tail]. eapply steps_snoc; [|apply step_publish_buf_tail].
    eapply steps_snoc; [|apply step_commit_write]. eapply steps_snoc; [|apply step_write].
    + eapply steps_snoc; [|by apply step_start_write]. eapply steps_snoc; [exact Hst|apply step_load_elem_head].
    + unfold write_elem. change (Z.of_nat (length eight)) with 8. rewrite Hwr. reflexivity.
  - done.
  - done.
  - rewrite !log_of_snoc, replicate_S_end. cbn [log_step com pend]. unfold all in Hall. by rewrite app_assoc, Hall.
  - rewrite !log_of_snoc. simpl. done.
Qed.

(** The consumer takes it. *)
Lemma take_one k s : passed (S k) k s -> exists s', passed (S k) (S k) s'.
Proof.
  intros (t & Hst & Hws & Hrs & Hcom & Hdon).
  destruct (inv_reachable a b Ha ltac:(lia) Debug s0 t s Hboot Hst) as [h Hi].
  destruct s as [m q w rq r]. simpl in Hws, Hrs. subst w r.
  pose proof (inv_start_read a b _ _ _ _ _ _ Hi) as Hi1.
  destruct (read_eq a b Ha ltac:(lia) Debug _ _ _ _ Hi1 eq_refl) as (x & Hx & _ & Hrd).
  { cbn [log_step don bat snap]. rewrite app_nil_r, Hdon, Hcom, !length_replicate. lia. }
  assert (x = eight) as ->.
  { cbn [log_step com] in Hx. rewrite Hcom in Hx. by apply lookup_replicate in Hx as [-> _]. }
  eexists. eexists (((((t ++ [ReadStart]) ++ [ReadOk eight]) ++ [Tau]) ++ [Tau]) ++ [ReadCommit]). split_and!.
  - eapply steps_snoc; [|apply step_publish_elem_head]. eapply steps_snoc; [|apply step_publish_buf_head].
    eapply steps_snoc; [|apply step_commit_read]. eapply steps_snoc; [|apply step_read; exact Hrd].
    eapply steps_snoc; [exact Hst|apply step_start_read].
  - done.
  - done.
  - rewrite !log_of_snoc. simpl. done.
  - rewrite !log_of_snoc, replicate_S_end. cbn [log_step don bat]. by rewrite Hdon.
Qed.

Lemma passed_any k : exists s, passed k k s.
Proof.
  induction k as [|k [s IH]].
  - exists s0. exists []. destruct Hboot as (q & _ & ->). split_and!; [constructor|done..].
  - destruct (put_one k s IH) as [s1 H1]. by apply (take_one k s1).
Qed.

End cycles.


