(* ===== verification/CElementQueue.v ===== *)
(** * The element queue of the C and C++ side (util/element_queue.h,
      util/element_queue.c, util/element_queue_cpp.h)

    The queues between the cores of the reducer are written by C++ code, and
    read by C++ cores or, for the aggregation core, by the Rust crate.  Both
    sides work on the memory of [ElementQueue.mem], and [struct element_queue]
    has the six indices of the Rust handle, so the record is shared.  There is
    no batch object: a batch advances the handle itself.

    An [int] is a [Z]; errors are negative, as in the source.  [Panic] is an
    access outside the arrays or a failed [assert], which [Debug] compiles in.
    The tests of a pointer to the handle are the arguments [eq_is_null] and
    [lenp_is_null].

    The theorems relate these functions to the Rust ones and show that a
    system with a C producer and a Rust or C consumer is one of the runs
    covered by [ElementQueue]. *)

From S2P Require Import Prelude ElementQueue.

Local Open Scope rust_scope.

(** ** element_queue.h and element_queue.c *)

Definition eq_init_shared (m : mem) : mem :=
  set_buf_tail (set_buf_head (set_elem_tail (set_elem_head m 0) 0) 0) 0.

(** The result and, on success, the initialised handle. *)
Definition eq_init_contig (eq_is_null : bool) (n_elems buf_len : Z) (data_is_null : bool) (m : mem)
  : Z * option ElementQueue :=
  if eq_is_null || data_is_null then (EINVAL, None)
  else if negb (Z.land n_elems (wrapping_sub 32 n_elems 1) =? 0) then (EINVAL, None)
  else if negb (Z.land buf_len (wrapping_sub 32 buf_len 1) =? 0) then (EINVAL, None)
  else (0, Some (mkQueue (wrapping_sub 32 n_elems 1) (wrapping_sub 32 buf_len 1)
                   (sh_elem_head (shared m)) (sh_buf_head (shared m))
                   (sh_elem_tail (shared m)) (sh_buf_tail (shared m)))).

Definition eq_contig_size (n_elems buf_len : Z) : Z := wrap 32 (16 + n_elems * 4 + buf_len).

(** [__eq_next_offset_by_len]. *)
Definition eq_next_offset_by_len (buf_offset buf_mask len : Z) : Z :=
  let last := wrapping_sub 32 (wrapping_add 32 buf_offset len) 1 in
  if 0 <? as_signed 32 (wrapping_sub 32 (Z.land last (bnot 32 buf_mask)) (Z.land buf_offset (bnot 32 buf_mask)))
  then Z.land last (bnot 32 buf_mask) else buf_offset.

(** [(len + 7) & ~7] on [u32]. *)
Definition eq_aligned (len : Z) : Z := Z.land (wrapping_add 32 len 7) (bnot 32 7).

Section operations.
Context {E : Type} (p : profile).

(** [assert((int)tail - head >= 0)]: the [int] is converted back to [u32]. *)
Definition assert_order (tail head : Z) : res E unit :=
  debug_assert p (0 <=? wrapping_sub 32 (wrap 32 (as_signed 32 tail)) head).

Definition assert_tails (q : ElementQueue) : res E unit :=
  let? _ := assert_order (buf_tail q) (buf_head q) in
  assert_order (elem_tail q) (elem_head q).

Definition eq_start_write_batch (m : mem) (q : ElementQueue) : res E ElementQueue :=
  let q := load_buf_head (load_elem_head q m) m in
  let? _ := assert_tails q in
  Ok q.

Definition eq_write (eq_is_null : bool) (m : mem) (q : ElementQueue) (len : Z)
  : res E (Z * mem * ElementQueue) :=
  let aligned_len := eq_aligned len in
  if eq_is_null then Ok (EINVAL, m, q)
  else if buf_mask q <? aligned_len then Ok (EINVAL, m, q)
  else if wrapping_add 32 (elem_mask q) 1 <=? wrapping_sub 32 (elem_tail q) (elem_head q)
  then Ok (ENOSPC, m, q)
  else
    let bt := eq_next_offset_by_len (buf_tail q) (buf_mask q) aligned_len in
    if wrapping_add 32 (buf_mask q) 1 <? wrapping_sub 32 (wrapping_add 32 bt aligned_len) (buf_head q)
    then Ok (ENOSPC, m, q)
    else
      let idx := Z.to_nat (Z.land (elem_tail q) (elem_mask q)) in
      let? _ := index (elems m) idx in
      Ok (as_signed 32 (Z.land bt (buf_mask q)),
          mkMem (shared m) (<[idx := len]> (elems m)) (data m),
          mkQueue (elem_mask q) (buf_mask q) (elem_head q) (buf_head q)
            (wrapping_add 32 (elem_tail q) 1) (wrapping_add 32 bt aligned_len)).

(** The asserts, then the two stores, in order. *)
Definition eq_finish_write_batch (m : mem) (q : ElementQueue) : res E mem :=
  let? _ := assert_tails q in
  Ok (set_elem_tail (set_buf_tail m (buf_tail q)) (elem_tail q)).

Definition load_elem_tail (m : mem) (q : ElementQueue) : ElementQueue :=
  mkQueue (elem_mask q) (buf_mask q) (elem_head q) (buf_head q) (sh_elem_tail (shared m)) (buf_tail q).

Definition eq_start_read_batch (m : mem) (q : ElementQueue) : res E ElementQueue :=
  let q := load_elem_tail m q in
  let? _ := assert_order (elem_tail q) (elem_head q) in
  Ok q.

Definition eq_peek (m : mem) (q : ElementQueue) : res E Z :=
  if elem_tail q =? elem_head q then Ok ENOENT
  else
    let? len := index (elems m) (Z.to_nat (Z.land (elem_head q) (elem_mask q))) in
    Ok (as_signed 32 len).

(** The offset and what is stored through [lenp]. *)
Definition eq_peek_offset (lenp_is_null : bool) (m : mem) (q : ElementQueue) : res E (Z * option Z) :=
  if elem_tail q =? elem_head q then Ok (ENOENT, None)
  else
    let? len := index (elems m) (Z.to_nat (Z.land (elem_head q) (elem_mask q))) in
    let offset := eq_next_offset_by_len (buf_head q) (buf_mask q) (eq_aligned len) in
    Ok (as_signed 32 (Z.land offset (buf_mask q)), if lenp_is_null then None else Some len).

Definition eq_read (eq_is_null lenp_is_null : bool) (m : mem) (q : ElementQueue)
  : res E (Z * option Z * ElementQueue) :=
  if eq_is_null || lenp_is_null then Ok (EINVAL, None, q)
  else if elem_tail q =? elem_head q then Ok (EAGAIN, None, q)
  else
    let? len := index (elems m) (Z.to_nat (Z.land (elem_head q) (elem_mask q))) in
    let aligned_len := eq_aligned len in
    let offset := eq_next_offset_by_len (buf_head q) (buf_mask q) aligned_len in
    Ok (as_signed 32 (Z.land offset (buf_mask q)), Some len,
        mkQueue (elem_mask q) (buf_mask q) (wrapping_add 32 (elem_head q) 1)
          (wrapping_add 32 offset aligned_len) (elem_tail q) (buf_tail q)).

(** The two stores, in order, then the assert. *)
Definition eq_finish_read_batch (m : mem) (q : ElementQueue) : res E mem :=
  let m := set_elem_head (set_buf_head m (buf_head q)) (elem_head q) in
  let? _ := assert_order (elem_tail q) (elem_head q) in
  Ok m.

(** [memcpy] from one data area to another. *)
Definition copy_slice (dm : mem) (dst : nat) (sm : mem) (src n : nat) : res E mem :=
  let? bs := index_range (data sm) src (src + n) in
  let? _ := index_range (data dm) dst (dst + n) in
  Ok (fill dm dst bs).

Definition eq_move (tm : mem) (to : ElementQueue) (fm : mem) (from : ElementQueue)
  : res E (Z * mem * ElementQueue * ElementQueue) :=
  let? peek_len := eq_peek fm from in
  if peek_len <? 0 then Ok (ENOENT, tm, to, from)
  else
    let? '(write_offset, tm, to) := eq_write false tm to (wrap 32 peek_len) in
    if write_offset =? ENOSPC then Ok (ENOSPC, tm, to, from)
    else if write_offset <? 0 then
      let? _ := debug_assert p false in
      Ok (ENOSYS, tm, to, from)
    else
      let? '(read_offset, lenp, from) := eq_read false false fm from in
      let len := from_option (fun l => l) 0 lenp in
      if (read_offset <? 0) || negb (len =? wrap 32 peek_len) then
        let? _ := debug_assert p false in
        Ok (ENOSYS, tm, to, from)
      else
        let? tm := copy_slice tm (Z.to_nat write_offset) fm (Z.to_nat read_offset) (Z.to_nat len) in
        Ok (as_signed 32 len, tm, to, from).

End operations.

Definition eq_elem_count (q : ElementQueue) : Z := wrapping_sub 32 (elem_tail q) (elem_head q).
Definition eq_elem_capacity (q : ElementQueue) : Z := wrapping_add 32 (elem_mask q) 1.
Definition eq_buf_used (q : ElementQueue) : Z := wrapping_sub 32 (buf_tail q) (buf_head q).
Definition eq_buf_capacity (q : ElementQueue) : Z := wrapping_add 32 (buf_mask q) 1.

(** ** element_queue_cpp.h *)

Inductive exn := runtime_error | invalid_argument | out_of_range.

(** [MemElementQueueStorage]: the bytes allocated and the layout in them.  The
    allocation succeeds; where its size has wrapped, the arrays end where the
    bytes end.  The header fits: the size is at least 16 for powers of two. *)
Record MemStorage := mkMemStorage { ms_size : Z; ms_n_elems : Z; ms_buf_len : Z; ms_mem : mem }.

Definition cpp_storage_new (n_elems buf_len : Z) : MemStorage :=
  let size := eq_contig_size n_elems buf_len in
  let zeros := mkMem (mkShared 0 0 0 0) (replicate (Z.to_nat (Z.min n_elems ((size - 16) / 4))) 0)
                 (replicate (Z.to_nat (Z.min buf_len (size - 16 - n_elems * 4))) 0) in
  mkMemStorage size n_elems buf_len (eq_init_shared zeros).

(** The constructor of [ElementQueue]. *)
Definition cpp_queue_new (st : MemStorage) : res exn ElementQueue :=
  match eq_init_contig false (ms_n_elems st) (ms_buf_len st) false (ms_mem st) with
  | (res, Some q) => if res =? 0 then Ok q else Err runtime_error
  | (_, None) => Err runtime_error
  end.

Definition cpp_write {E} (m : mem) (q : ElementQueue) (elem : list Z) : res E (Z * mem * ElementQueue) :=
  let? '(offset, m, q) := eq_write false m q (wrap 32 (Z.of_nat (length elem))) in
  if offset <? 0 then Ok (offset, m, q)
  else
    let start := Z.to_nat offset in
    let? _ := index_range (data m) start (start + length elem) in
    Ok (0, fill m start elem, q).

(** [peek_value<T>]: the result and the bytes assigned to the output, [need]
    being the size of [T]. *)
Definition cpp_peek_value {E} (m : mem) (q : ElementQueue) (need : nat) : res E (Z * option (list Z)) :=
  let? '(offset, lenp) := eq_peek_offset false m q in
  if offset <? 0 then Ok (offset, None)
  else
    let len := from_option (fun l => l) 0 lenp in
    if len <? Z.of_nat need then Ok (EINVAL, None)
    else
      let start := Z.to_nat offset in
      let? bs := index_range (data m) start (start + need) in
      Ok (as_signed 32 len, Some bs).

(** [read(char *&output)]: the result and the offset of the output. *)
Definition cpp_read_ptr {E} (p : profile) (m : mem) (q : ElementQueue)
  : res E (Z * option nat * ElementQueue) :=
  let? '(offset, lenp, q) := eq_read false false m q in
  if offset <? 0 then Ok (offset, None, q)
  else
    let len := from_option (fun l => l) 0 lenp in
    let? _ := debug_assert p (wrap 32 (as_signed 32 len) =? len) in
    Ok (as_signed 32 len, Some (Z.to_nat offset), q).

(** [read()]: a copy of the element, or an exception. *)
Definition cpp_read (m : mem) (q : ElementQueue) : res exn (list Z * ElementQueue) :=
  let? '(offset, lenp, q) := eq_read false false m q in
  if offset =? EINVAL then Err invalid_argument
  else if offset =? EAGAIN then Err out_of_range
  else if offset <? 0 then Err runtime_error
  else
    let start := Z.to_nat offset in
    let? bs := index_range (data m) start (start + Z.to_nat (from_option (fun l => l) 0 lenp)) in
    Ok (bs, q).

(** ** The same functions as the Rust crate *)

Lemma assert_order_Ok {E} p tail head : assert_order (E := E) p tail head = Ok tt.
Proof.
  apply debug_assert_true, Z.leb_le. unfold wrapping_sub.
  by pose proof (wrap_fits 32 (wrap 32 (as_signed 32 tail) - head)) as [? _].
Qed.

Lemma assert_tails_Ok {E} p q : assert_tails (E := E) p q = Ok tt.
Proof. unfold assert_tails. by rewrite !assert_order_Ok. Qed.

(** The asserts never fail, so a batch starts and ends. *)
Lemma start_batch_Ok {E} p m q :
  eq_start_write_batch (E := E) p m q = Ok (load_buf_head (load_elem_head q m) m).
Proof. unfold eq_start_write_batch. by rewrite assert_tails_Ok. Qed.

Lemma finish_batch_Ok {E} p m q :
  eq_finish_write_batch (E := E) p m q = Ok (set_elem_tail (set_buf_tail m (buf_tail q)) (elem_tail q)).
Proof. unfold eq_finish_write_batch. by rewrite assert_tails_Ok. Qed.

Lemma aligned_release {E} len : fits 32 len -> aligned (E := E) Release len = Ok (eq_aligned len).
Proof.
  intros Hl. unfold aligned, eq_aligned, add_chk. destruct (Z.ltb_spec (len + 7) (2 ^ 32)); [|done].
  simpl. unfold wrapping_add. rewrite wrap_small; [done|]. unfold fits in *. lia.
Qed.

Lemma land_mask_bounds x k : 0 <= k < 31 -> 0 <= Z.land x (2 ^ k - 1) < 2 ^ k.
Proof. intros. rewrite land_mask by lia. apply Z.mod_pos_bound. lia. Qed.

(** An offset in the buffer is not negative as an [int]. *)
Lemma as_signed_offset x k : 0 <= k < 31 -> as_signed 32 (Z.land x (2 ^ k - 1)) = Z.land x (2 ^ k - 1).
Proof.
  intros Hk. pose proof (land_mask_bounds x k Hk). unfold as_signed.
  assert (2 ^ k <= 2 ^ 30) by (apply Z.pow_le_mono_r; lia).
  destruct (Z.ltb_spec (Z.land x (2 ^ k - 1)) (2 ^ (32 - 1))); lia.
Qed.

Lemma pow2_capacity k : 0 <= k < 32 -> wrapping_add 32 (2 ^ k - 1) 1 = 2 ^ k.
Proof.
  intros Hk. unfold wrapping_add. rewrite Z.sub_simpl_r.
  apply wrap_small. split; [lia|]. apply Z.pow_lt_mono_r; lia.
Qed.

Section sizes.
Context (a b : Z).
Context (Ha : 0 <= a <= 31) (Hb : 0 <= b <= 30).

(** A C handle in a write batch stands for the Rust batch with its tails. *)
Definition batch_of (wb : WriteBatch) (q : ElementQueue) : Prop :=
  commit_write wb = q /\ elem_mask q = 2 ^ a - 1 /\ buf_mask q = 2 ^ b - 1.

(** Where the Rust [write] does not panic, [eq_write] answers the same. *)
Lemma eq_write_same {E} m wb q len :
  batch_of wb q -> fits 32 len ->
  match write Release m wb len with
  | Ok (start, m', wb') =>
      eq_write (E := E) false m q len = Ok (Z.of_nat start, m', commit_write wb')
  | Err err => eq_write (E := E) false m q len = Ok (code err, m, q) /\ (err = InvalidArg \/ err = NoSpace)
  | Panic => True
  end.
Proof.
  intros (<- & He & Hbm) Hl. unfold write, eq_write. rewrite aligned_release by done. simpl in *.
  rewrite He, Hbm, !pow2_capacity, as_signed_offset, !Z.sub_simpl_r by lia.
  destruct (_ <? eq_aligned len); [by auto|]. destruct (_ <=? _); [by auto|].
  change eq_next_offset_by_len with next_offset_by_len.
  destruct (_ <? _); [by auto|]. unfold index. destruct (elems m !! _); simpl; [|done].
  unfold index_range. destruct (decide _); cbn [unwrap rbind]; [|done].
  destruct (sublist_lookup _ _ _); cbn [unwrap rbind]; [|done].
  pose proof (land_mask_bounds (next_offset_by_len (w_buf_tail wb) (2 ^ b - 1) (eq_aligned len)) b).
  rewrite Z2Nat.id by lia. unfold commit_write. simpl. by rewrite He, Hbm.
Qed.

Lemma code_negative err : code err < 0.
Proof. by destruct err. Qed.

(** Writing an element answers as in Rust, and leaves the bounds of the data
    exactly where the Rust crate panics. *)
Lemma cpp_write_same {E} m wb q bs :
  batch_of wb q -> Z.of_nat (length bs) < 2 ^ 32 ->
  cpp_write (E := E) m q bs =
    match write_elem Release m wb bs with
    | Ok (m', wb') => Ok (0, m', commit_write wb')
    | Err err => Ok (code err, m, q)
    | Panic => Panic
    end.
Proof.
  intros (<- & He & Hbm) Hl. assert (fits 32 (Z.of_nat (length bs))) as Hf by (split; lia).
  unfold cpp_write, write_elem, write, eq_write. rewrite wrap_small, aligned_release by done. simpl in *.
  rewrite He, Hbm, !pow2_capacity, as_signed_offset, !Z.sub_simpl_r by lia.
  destruct (_ <? eq_aligned _); [done|]. destruct (_ <=? _); [done|].
  change eq_next_offset_by_len with next_offset_by_len.
  destruct (_ <? _); [done|]. unfold index. destruct (elems m !! _); simpl; [|done].
  set (off := next_offset_by_len _ _ _). pose proof (land_mask_bounds off b ltac:(lia)).
  rewrite (proj2 (Z.ltb_ge _ _)) by lia. rewrite Nat2Z.id. unfold index_range.
  destruct (decide _); cbn [unwrap rbind]; [|done].
  destruct (sublist_lookup _ _ _); cbn [unwrap rbind]; [|done].
  unfold commit_write. simpl. by rewrite He, Hbm.
Qed.

(** A C handle in a read batch stands for the Rust batch with its heads. *)
Definition read_of (rb : ReadBatch) (q : ElementQueue) : Prop :=
  commit_read rb = q /\ elem_mask q = 2 ^ a - 1 /\ buf_mask q = 2 ^ b - 1.

(** The copy of the next element: an empty queue is [NoEntry] in Rust and
    [out_of_range] here. *)
Lemma cpp_read_same m rb q :
  read_of rb q -> (forall len, peek_len m rb = Ok len -> fits 32 len) ->
  cpp_read m q =
    match read Release m rb with
    | Ok (bs, rb') => Ok (bs, commit_read rb')
    | Err _ => Err out_of_range
    | Panic => Panic
    end.
Proof.
  intros (<- & He & Hbm) Hf. unfold cpp_read, read, eq_read, peek_len in *. simpl in *.
  destruct (elem_tail (r_q rb) =? r_elem_head rb); [done|].
  rewrite He, Hbm in *. unfold index in *. destruct (elems m !! _) as [len|]; simpl; [|done].
  pose proof (Hf len eq_refl) as Hfit.
  rewrite aligned_release, as_signed_offset by (done || lia). simpl.
  change eq_next_offset_by_len with next_offset_by_len. set (off := next_offset_by_len _ _ _).
  pose proof (land_mask_bounds off b ltac:(lia)).
  rewrite !(proj2 (Z.eqb_neq _ _)) by (unfold EINVAL, EAGAIN; lia). rewrite (proj2 (Z.ltb_ge _ _)) by lia.
  unfold index_range. destruct (decide _); cbn [unwrap rbind]; [|done].
  destruct (sublist_lookup _ _ _); cbn [unwrap rbind]; [|done].
  unfold commit_read. simpl. by rewrite He, Hbm.
Qed.

End sizes.

(** ** A C producer with a Rust or a C consumer

    As in [ElementQueue], each access to the shared header is a step; there
    is no separate commit, since a batch works on the handle. *)

Inductive cwphase := CWIdle | CWLoaded | CWBatch | CWPublishing.
Inductive crphase := CRIdle | CRBatch | CRPublishing.

Inductive reader :=
| RustReader (q : ElementQueue) (r : rphase)
| CReader (q : ElementQueue) (r : crphase).

Record csys := mkCSys { cmem : mem; cwq : ElementQueue; cws : cwphase; crd : reader }.

(** The accesses of the producer. *)
Inductive cwstep (p : profile) (m : mem) (q : ElementQueue) : cwphase -> event -> mem -> ElementQueue -> cwphase -> Prop :=
| cstep_load_elem_head : cwstep p m q CWIdle Tau m (load_elem_head q m) CWLoaded
| cstep_start_write :
    assert_tails (E := exn) p (load_buf_head q m) = Ok tt ->
    cwstep p m q CWLoaded Tau m (load_buf_head q m) CWBatch
| cstep_write bs m' q' :
    Z.of_nat (length bs) < 2 ^ 32 -> cpp_write (E := exn) m q bs = Ok (0, m', q') ->
    cwstep p m q CWBatch (Wrote bs) m' q' CWBatch
| cstep_write_failed bs err m' q' :
    Z.of_nat (length bs) < 2 ^ 32 -> cpp_write (E := exn) m q bs = Ok (code err, m', q') ->
    cwstep p m q CWBatch (WriteFailed err) m' q' CWBatch
| cstep_publish_buf_tail :
    assert_tails (E := exn) p q = Ok tt ->
    cwstep p m q CWBatch Tau (set_buf_tail m (buf_tail q)) q CWPublishing
| cstep_publish_elem_tail : cwstep p m q CWPublishing WriteCommit (set_elem_tail m (elem_tail q)) q CWIdle.

Inductive cstep (p : profile) : csys -> event -> csys -> Prop :=
| cstep_writer m q w ev m' q' w' rd :
    cwstep p m q w ev m' q' w' -> cstep p (mkCSys m q w rd) ev (mkCSys m' q' w' rd)
| cstep_rust m q w wq rq rs e m' rq' rs' :
    step Release (mkSys m wq WIdle rq rs) e (mkSys m' wq WIdle rq' rs') ->
    cstep p (mkCSys m q w (RustReader rq rs)) e (mkCSys m' q w (RustReader rq' rs'))
| cstep_start_read m q w rq rq' :
    eq_start_read_batch (E := exn) p m rq = Ok rq' ->
    cstep p (mkCSys m q w (CReader rq CRIdle)) ReadStart (mkCSys m q w (CReader rq' CRBatch))
| cstep_read m q w rq bs rq' :
    cpp_read m rq = Ok (bs, rq') ->
    cstep p (mkCSys m q w (CReader rq CRBatch)) (ReadOk bs) (mkCSys m q w (CReader rq' CRBatch))
| cstep_read_failed m q w rq :
    cpp_read m rq = Err out_of_range ->
    cstep p (mkCSys m q w (CReader rq CRBatch)) (ReadFailed TryAgain) (mkCSys m q w (CReader rq CRBatch))
| cstep_publish_buf_head m q w rq :
    cstep p (mkCSys m q w (CReader rq CRBatch)) Tau
      (mkCSys (set_buf_head m (buf_head rq)) q w (CReader rq CRPublishing))
| cstep_publish_elem_head m q w rq :
    assert_order (E := exn) p (elem_tail rq) (elem_head rq) = Ok tt ->
    cstep p (mkCSys m q w (CReader rq CRPublishing)) ReadCommit
      (mkCSys (set_elem_head m (elem_head rq)) q w (CReader rq CRIdle)).

Inductive csteps (p : profile) : csys -> list event -> csys -> Prop :=
| csteps_nil s : csteps p s [] s
| csteps_snoc s t s1 e s2 : csteps p s t s1 -> cstep p s1 e s2 -> csteps p s (t ++ [e]) s2.

(** A fresh queue of [2^a] elements and [2^b] bytes in C++ storage, with its
    two handles. *)
Definition cboots (a b : Z) (s : csys) : Prop :=
  let st := cpp_storage_new (2 ^ a) (2 ^ b) in
  exists q rd, cpp_queue_new st = Ok q /\ s = mkCSys (ms_mem st) q CWIdle rd
    /\ (rd = CReader q CRIdle
        \/ exists q', new_from_contiguous (2 ^ a) (2 ^ b) false (ms_mem st) = Ok q' /\ rd = RustReader q' RIdle).

Section simulation.
Context (a b : Z).
Context (Ha : 0 <= a <= 31) (Hb : 0 <= b <= 30) (Hsize : 16 + 2 ^ a * 4 + 2 ^ b < 2 ^ 32).

Definition sim_writer (q : ElementQueue) (w : cwphase) (s : sys) : Prop :=
  match w with
  | CWIdle => ws s = WIdle /\ wq s = q
  | CWLoaded => ws s = WLoaded /\ wq s = q
  | CWBatch => exists wb, ws s = WBatch wb /\ commit_write wb = q
  | CWPublishing => ws s = WPublishing /\ wq s = q
  end.

Definition sim_reader (rd : reader) (s : sys) : Prop :=
  match rd with
  | RustReader q r => rs s = r /\ rq s = q
  | CReader q CRIdle => rs s = RIdle /\ rq s = q
  | CReader q CRBatch => exists rb, rs s = RBatch rb /\ commit_read rb = q
  | CReader q CRPublishing => rs s = RPublishing /\ rq s = q
  end.

Definition csim (c : csys) (s : sys) : Prop :=
  cmem c = smem s /\ sim_writer (cwq c) (cws c) s /\ sim_reader (crd c) s.

Lemma steps_one p s e s' : step p s e s' -> steps p s [e] s'.
Proof. intros H. apply (steps_snoc p s [] s e s'); [constructor|done]. Qed.

Lemma steps_two p s e s1 e' s' : step p s e s1 -> step p s1 e' s' -> steps p s [e; e'] s'.
Proof. intros H H'. apply (steps_snoc p s [e] s1 e' s'); [by apply steps_one|done]. Qed.

(** Steps of the writer, which leave the reader alone. *)
Inductive wsteps (p : profile) (s : sys) : list event -> sys -> Prop :=
| wsteps_nil : wsteps p s [] s
| wsteps_snoc t s1 e s2 :
    wsteps p s t s1 -> step p s1 e s2 -> rq s2 = rq s -> rs s2 = rs s -> wsteps p s (t ++ [e]) s2.

Lemma wsteps_one p s e s' : step p s e s' -> rq s' = rq s -> rs s' = rs s -> wsteps p s [e] s'.
Proof. intros. apply (wsteps_snoc p s [] s e s'); [constructor|done..]. Qed.

Lemma wsteps_two p s e s1 e' s' :
  step p s e s1 -> rq s1 = rq s -> rs s1 = rs s -> step p s1 e' s' -> rq s' = rq s -> rs s' = rs s ->
  wsteps p s [e; e'] s'.
Proof. intros. apply (wsteps_snoc p s [e] s1 e' s'); [by apply wsteps_one|done..]. Qed.

Lemma wsteps_steps p s t s' : wsteps p s t s' -> steps p s t s' /\ rq s' = rq s /\ rs s' = rs s.
Proof.
  induction 1 as [|t s1 e s2 _ (IH & _) Hs Hq Hr]; [split; [constructor|done]|]. split; [|done]. by econstructor.
Qed.

Lemma steps_then p s t s1 t' s2 : steps p s t s1 -> steps p s1 t' s2 -> steps p s (t ++ t') s2.
Proof.
  intros H H'. induction H' as [s1|s1 t' s3 e s4 _ IH Hs]; [by rewrite app_nil_r|].
  rewrite app_assoc. econstructor; [by apply IH|done].
Qed.

(** A step of the reader does not look at the writer. *)
Lemma reader_frame p m wq rq rs e m' rq' rs' wq0 w0 :
  step p (mkSys m wq WIdle rq rs) e (mkSys m' wq WIdle rq' rs') ->
  step p (mkSys m wq0 w0 rq rs) e (mkSys m' wq0 w0 rq' rs').
Proof. inversion 1; subst; by constructor. Qed.

Lemma writer_masks g h s wb :
  inv_at a b g h s -> ws s = WBatch wb -> batch_of a b wb (commit_write wb).
Proof.
  intros [_ [He Hbm _ _ _ _ Hph] _ _] Hw. rewrite Hw in Hph. destruct Hph as (Hq & _).
  split; [done|]. simpl. by rewrite Hq.
Qed.

Lemma reader_masks g h s rb :
  inv_at a b g h s -> rs s = RBatch rb -> read_of a b rb (commit_read rb).
Proof.
  intros [_ _ [He Hbm _ Hph] _] Hr. rewrite Hr in Hph. destruct Hph as (Hq & _).
  split; [done|]. simpl. by rewrite Hq.
Qed.

Lemma peek_len_fits g h s rb len :
  inv_at a b g h s -> rs s = RBatch rb -> peek_len (smem s) rb = Ok len -> fits 32 len.
Proof.
  intros Hi Hr Hp. pose proof (N_bounds b Hb) as HN.
  assert (length (don g ++ bat g) < snap g \/ length (don g ++ bat g) = snap g)%nat as [Hlt|Heq].
  { destruct Hi as [_ _ [_ _ _ Hph] _]. rewrite Hr in Hph. destruct Hph as (_ & _ & _ & _ & ?). lia. }
  - destruct (head_stored a b Ha g h s rb Hi Hr Hlt) as (x & _ & Hfit & _ & Hpl).
    rewrite Hp in Hpl. injection Hpl as ->.
    pose proof (align8_bounds (ElementQueue.len x)). unfold ElementQueue.len, fits in *. lia.
  - by rewrite (peek_len_empty a b g h s rb Hi Hr Heq) in Hp.
Qed.

(** The states after a step correspond, and the logs agree. *)
Ltac same_state :=
  match goal with
  | |- csim _ _ /\ _ => split; [|done]; split; [done|]; split; same_state
  | w : cwphase |- sim_writer _ _ _ => by destruct w
  | |- _ => done
  | |- _ => simpl; by eexists
  end.

Ltac written :=
  repeat match goal with |- _ /\ _ => split end;
  try done; try (by eexists);
  intros x Hx; repeat (apply elem_of_cons in Hx as [Hx|Hx]; [simplify_eq; done|]); by apply elem_of_nil in Hx.

(** Every step of the C producer is zero or more steps of the Rust one, with
    the same effect on the log. *)
Lemma csim_writer p g h s m q w e m' q' w' :
  inv_at a b g h s -> m = smem s -> sim_writer q w s -> cwstep p m q w e m' q' w' ->
  exists t s', wsteps Release s t s' /\ m' = smem s' /\ sim_writer q' w' s'
    /\ (forall g0, fold_left log_step t g0 = log_step g0 e) /\ (forall x, Wrote x ∈ t -> e = Wrote x).
Proof.
  intros Hi Hm Hw Hs. destruct s as [m0 wq0 ws0 rq0 rs0]. destruct Hs; simpl in Hm, Hw; subst m.
  - destruct Hw as [-> ->]. eexists [_], _. split; [apply wsteps_one; [constructor|done..]|written].
  - destruct Hw as [-> ->]. eexists [_], _. split; [apply wsteps_one; [by constructor|done..]|]. written.
  - destruct Hw as (wb & -> & <-).
    rewrite (cpp_write_same a b Ha Hb m0 wb) in H0 by (try done; by eapply (writer_masks g h (mkSys _ _ _ _ _))).
    destruct (write_elem Release m0 wb bs) as [[m1 wb1]|err|] eqn:Hwr;
      [|pose proof (code_negative err); simplify_eq; lia|done].
    injection H0 as <- <-. eexists [_], _. split; [apply wsteps_one; [by constructor|done..]|].
    written.
  - destruct Hw as (wb & -> & <-).
    rewrite (cpp_write_same a b Ha Hb m0 wb) in H0 by (try done; by eapply (writer_masks g h (mkSys _ _ _ _ _))).
    destruct (write_elem Release m0 wb bs) as [[m1 wb1]|err'|] eqn:Hwr;
      [pose proof (code_negative err); simplify_eq; lia| |done].
    injection H0 as _ <- <-. eexists [], _. split; [constructor|]. written.
  - destruct Hw as (wb & -> & <-). eexists [_; _], _.
    split; [eapply wsteps_two; [apply step_commit_write|done|done|apply step_publish_buf_tail|done|done]|written].
  - destruct Hw as [-> ->]. eexists [_], _. split; [apply wsteps_one; [constructor|done..]|written].
Qed.

(** So is every step of the C system. *)
Lemma csim_step p g h c s e c' :
  inv_at a b g h s -> csim c s -> cstep p c e c' ->
  exists t s', steps Release s t s' /\ csim c' s' /\ fold_left log_step t g = log_step g e.
Proof.
  intros Hi (Hm & Hw & Hr) Hs. destruct Hs as [m q w ev m' q' w' rd Hcw| | | | | |];
    [|destruct s as [m0 wq0 ws0 rq0 rs0]; simpl in Hm, Hw, Hr; subst m0..].
  - destruct (csim_writer p g h s m q w ev m' q' w' Hi Hm Hw Hcw) as (t & s' & Hst & Hm' & Hw' & Hlog & _).
    apply wsteps_steps in Hst as (Hst & Hrq & Hrs). exists t, s'. split_and!; [done| |by apply Hlog].
    split_and!; [done..|]. unfold sim_reader in *. simpl in *. by rewrite Hrq, Hrs.
  - destruct Hr as [-> ->]. eexists [_], _. split; [apply steps_one; by eapply reader_frame|same_state].
  - destruct Hr as [-> ->]. unfold eq_start_read_batch in H. rewrite assert_order_Ok in H. injection H as <-.
    eexists [_], _. split; [apply steps_one; constructor|same_state].
  - destruct Hr as (rb & -> & <-).
    rewrite (cpp_read_same a b Hb m rb) in H
      by (try (by eapply (reader_masks g h (mkSys _ _ _ _ _))); intros; by eapply (peek_len_fits g h (mkSys _ _ _ _ _))).
    destruct (read Release m rb) as [[bs1 rb1]| |] eqn:Hrd; [|done|done]. injection H as <- <-.
    eexists [_], _. split; [apply steps_one; by constructor|same_state].
  - destruct Hr as (rb & -> & <-). eexists [], _. split; [constructor|same_state].
  - destruct Hr as (rb & -> & <-). eexists [_; _], _.
    split; [eapply steps_two; [apply step_commit_read|apply step_publish_buf_head]|same_state].
  - destruct Hr as [-> ->]. eexists [_], _. split; [apply steps_one; constructor|same_state].
Qed.

Lemma eq_init_contig_pow2 m :
  eq_init_contig false (2 ^ a) (2 ^ b) false m
  = (0, Some (mkQueue (2 ^ a - 1) (2 ^ b - 1) (sh_elem_head (shared m)) (sh_buf_head (shared m))
               (sh_elem_tail (shared m)) (sh_buf_tail (shared m)))).
Proof.
  assert (forall k, 0 <= k <= 31 -> wrapping_sub 32 (2 ^ k) 1 = 2 ^ k - 1) as Hsub.
  { intros k Hk. apply wrap_small. assert (2 ^ k < 2 ^ 32) by (apply Z.pow_lt_mono_r; lia). split; lia. }
  assert (forall k, 0 <= k -> Z.land (2 ^ k) (2 ^ k - 1) = 0) as Hland.
  { intros k Hk. apply land_pred_pow2; [lia|]. by exists k. }
  unfold eq_init_contig. rewrite !Hsub, !Hland by lia. done.
Qed.

(** A size that does not wrap leaves room for both arrays. *)
Lemma cpp_storage_full :
  ms_mem (cpp_storage_new (2 ^ a) (2 ^ b))
  = init_zero (mkMem (mkShared 0 0 0 0) (replicate (Z.to_nat (2 ^ a)) 0) (replicate (Z.to_nat (2 ^ b)) 0)).
Proof.
  pose proof (Z.pow_pos_nonneg 2 a). pose proof (Z.pow_pos_nonneg 2 b).
  unfold cpp_storage_new, eq_contig_size. rewrite wrap_small by (split; lia). cbv zeta.
  cbn [ms_mem]. rewrite (Z.min_l (2 ^ b)) by lia. rewrite Z.min_l; [done|].
  apply Z.div_le_lower_bound; lia.
Qed.

(** The C++ storage and handles are those of the Rust crate. *)
Lemma cboots_sim c : cboots a b c -> exists s0, boots a b s0 /\ csim c s0.
Proof.
  unfold cboots. cbv zeta. rewrite cpp_storage_full. intros (q & rd & Hq & -> & Hrd).
  unfold cpp_queue_new in Hq. cbn [ms_n_elems ms_buf_len cpp_storage_new] in Hq.
  rewrite cpp_storage_full, eq_init_contig_pow2 in Hq. simpl in Hq. injection Hq as <-.
  assert (make_queue (storage_new (2 ^ a) (2 ^ b)) = Ok (mkQueue (2 ^ a - 1) (2 ^ b - 1) 0 0 0 0)) as Hmk.
  { unfold make_queue, new_from_contiguous. simpl.
    pose proof (N_bounds b Hb). pose proof (n_bounds a Ha).
    assert (forall k, 0 <= k -> 2 ^ k <= 2 ^ 31 -> not_pow2 (2 ^ k) = false) as Hp.
    { intros k Hk Hle. apply not_pow2_iff; [split; lia|by exists k]. }
    by rewrite !Hp by lia. }
  eexists (mkSys _ _ WIdle _ RIdle). split; [by eexists|]. split; [done|]. split; [done|].
  destruct Hrd as [->|(q' & Hq' & ->)]; [done|]. split; [done|]. simpl.
  by injection (eq_trans (eq_sym Hmk) Hq').
Qed.

Lemma csim_run p c0 t c :
  cboots a b c0 -> csteps p c0 t c ->
  exists s0 t' s h, boots a b s0 /\ steps Release s0 t' s /\ log_of t' = log_of t /\ csim c s
    /\ inv_at a b (log_of t) h s.
Proof.
  intros Hb0 Hst. induction Hst as [c|c t c1 e c2 _ IH Hs].
  - destruct (cboots_sim c Hb0) as (s0 & Hs0 & Hc). exists s0, [], s0, (mkHeads 0 0 0 0).
    split; [done|]. split; [constructor|]. split; [done|]. split; [done|]. by apply inv_boots.
  - destruct (IH Hb0) as (s0 & t' & s & h & Hs0 & Hst' & Hlog & Hc & Hi).
    destruct (csim_step p (log_of t) h c1 s e c2 Hi Hc Hs) as (t2 & s2 & Hs2 & Hc2 & Hl2).
    assert (log_of (t' ++ t2) = log_of (t ++ [e])) as Hl.
    { unfold log_of. rewrite !fold_left_app. simpl. fold (log_of t') (log_of t). by rewrite Hlog. }
    pose proof (steps_then _ _ _ _ _ _ Hst' Hs2) as Hst2.
    destruct (inv_reachable a b Ha Hb Release s0 (t' ++ t2) s2 Hs0 Hst2) as [h2 Hi2]. rewrite Hl in Hi2.
    by exists s0, (t' ++ t2), s2, h2.
Qed.

(** C14: the elements that a Rust or C consumer has received from a C producer
    are a prefix of those the producer has published, in order and byte for
    byte, under every interleaving; every run is matched by a run of the Rust
    queue with the same log.  The queue lies in C++ storage whose size fits 32
    bits. *)
Theorem c_queue_fifo p c0 t c :
  cboots a b c0 -> csteps p c0 t c ->
  don (log_of t) ++ bat (log_of t) `prefix_of` com (log_of t)
  /\ exists s0 t' s, boots a b s0 /\ steps Release s0 t' s /\ log_of t' = log_of t /\ csim c s.
Proof.
  intros Hb0 Hst. destruct (csim_run p c0 t c Hb0 Hst) as (s0 & t' & s & h & ? & ? & ? & ? & Hi).
  split; [apply (inv_reader _ _ _ _ _ Hi)|]. by exists s0, t', s.
Qed.


End simulation.

(** ** Running the system *)

Definition cact (p : profile) (c : csys) (x : action) : option (event * csys) :=
  let '(mkCSys m q w rd) := c in
  match x, w, rd with
  | AWriter, CWIdle, _ => Some (Tau, mkCSys m (load_elem_head q m) CWLoaded rd)
  | AWriter, CWLoaded, _ => Some (Tau, mkCSys m (load_buf_head q m) CWBatch rd)
  | AWriter, CWPublishing, _ => Some (WriteCommit, mkCSys (set_elem_tail m (elem_tail q)) q CWIdle rd)
  | AFinishWrite, CWBatch, _ => Some (Tau, mkCSys (set_buf_tail m (buf_tail q)) q CWPublishing rd)
  | AWrite bs, CWBatch, _ =>
      match cpp_write (E := exn) m q bs with
      | Ok (0, m', q') => if Z.of_nat (length bs) <? 2 ^ 32 then Some (Wrote bs, mkCSys m' q' CWBatch rd) else None
      | _ => None
      end
  | AReader, _, CReader rq CRIdle => Some (ReadStart, mkCSys m q w (CReader (load_elem_tail m rq) CRBatch))
  | AReader, _, CReader rq CRPublishing =>
      Some (ReadCommit, mkCSys (set_elem_head m (elem_head rq)) q w (CReader rq CRIdle))
  | ARead, _, CReader rq CRBatch =>
      match cpp_read m rq with
      | Ok (bs, rq') => Some (ReadOk bs, mkCSys m q w (CReader rq' CRBatch))
      | _ => None
      end
  | AFinishRead, _, CReader rq CRBatch =>
      Some (Tau, mkCSys (set_buf_head m (buf_head rq)) q w (CReader rq CRPublishing))
  | _, _, _ => None
  end.

Fixpoint cplay (p : profile) (c : csys) (t : list event) (xs : list action) : option (list event * csys) :=
  match xs with
  | [] => Some (t, c)
  | x :: xs =>
      match cact p c x with
      | Some (e, c') => cplay p c' (t ++ [e]) xs
      | None => None
      end
  end.

Lemma cact_step p c x e c' : cact p c x = Some (e, c') -> cstep p c e c'.
Proof.
  destruct c as [m q w rd]. intros H.
  destruct x, w, rd as [rq r|rq []]; simpl in H; try done; repeat case_match; simplify_eq;
    (apply cstep_writer || idtac); constructor; rewrite ?assert_tails_Ok, ?assert_order_Ok; try done; try (by apply Z.ltb_lt);
    unfold eq_start_read_batch; by rewrite assert_order_Ok.
Qed.

Lemma cplay_steps p c0 c t xs t' c' :
  csteps p c0 t c -> cplay p c t xs = Some (t', c') -> csteps p c0 t' c'.
Proof.
  revert c t. induction xs as [|x xs IH]; intros c t Hst Hp; simpl in Hp; [by simplify_eq|].
  destruct (cact p c x) as [[e c1]|] eqn:Hact; [|done].
  apply (IH c1 (t ++ [e])); [|done]. econstructor; [done|]. by eapply cact_step.
Qed.

Definition cboot64 : csys :=
  let q := mkQueue 3 63 0 0 0 0 in
  mkCSys (ms_mem (cpp_storage_new 4 64)) q CWIdle (CReader q CRIdle).

Lemma cboot64_boots : cboots 2 6 cboot64.
Proof. eexists _, _. split; [done|]. split; [done|]. by left. Qed.

(** Two elements are published; the consumer has read one of them and the
    producer is in its next batch. *)
Definition c_two_elements : list action :=
  [AWriter; AWriter; AWrite [1; 2; 3]; AWrite [4; 5]; AFinishWrite; AWriter;
   AReader; AWriter; ARead; AWriter; AWrite [6]].

Lemma cplayed {p t c} : cplay p cboot64 [] c_two_elements = Some (t, c) -> csteps p cboot64 t c.
Proof. apply cplay_steps. constructor. Qed.

Lemma c_queue_fifo_witness :
  exists t c, cplay Debug cboot64 [] c_two_elements = Some (t, c)
    /\ com (log_of t) = [[1; 2; 3]; [4; 5]]
    /\ don (log_of t) ++ bat (log_of t) `prefix_of` com (log_of t).
Proof.
  destruct (cplay Debug cboot64 [] c_two_elements) as [[t c]|] eqn:Hp; [|by vm_compute in Hp].
  pose proof (c_queue_fifo 2 6 ltac:(lia) ltac:(lia) ltac:(lia) Debug _ _ _ cboot64_boots (cplayed Hp)) as [H _].
  exists t, c. split; [done|]. split; [|exact H]. vm_compute in Hp. by injection Hp as <- _.
Defined.

