(* ===== verification/CppClock.v ===== *)
(** * The divider and the clock of the C++ cores (util/fast_div.h,
      reducer/util/virtual_clock.cc)

    The crate [timeslot] is a port of these classes, and its comments claim
    that it computes what they compute.  Both languages have the same fields,
    so the records are shared.  Operands narrower than [int] are promoted and
    the result of an assignment is narrowed again, which the definitions write
    out.  [Err] is an exception; [Panic] is behaviour the language leaves
    undefined: a conversion out of range, a shift by 64 or more, a value taken
    from an empty optional. *)

From S2P Require Import Prelude Float64 FastDiv VirtualClock ElementQueue CElementQueue.
From Stdlib Require Import SpecFloat.

Local Open Scope rust_scope.

(** ** fast_div *)

(** [(uint32_t)x] of a double. *)
Definition to_uint32 (x : f64) : res exn Z :=
  match x with
  | S754_zero _ => Ok 0
  | S754_finite s m e =>
      let z := floor_scaled (Zpos m) e in
      if s then if z =? 0 then Ok 0 else Panic
      else if z <? 2 ^ 32 then Ok z else Panic
  | S754_infinity _ | S754_nan => Panic
  end.

(** [1ull << s]. *)
Definition shl_one (s : Z) : res exn Z := if s <? 64 then Ok (2 ^ s) else Panic.

Definition fast_div_new (log2 : f64 -> f64) (amt : f64) (required_bits : Z) : res exn FastDiv :=
  let? bits_removed := to_uint32 (log2 amt) in
  let shift_ := wrapping_sub 32 64 required_bits in
  let shift_ := Z.min shift_ (wrapping_add 32 32 bits_removed) in
  let? pow := shl_one shift_ in
  let? mul_ := to_uint32 (f64_div (f64_of_Z pow) amt) in
  Ok (mkFastDiv mul_ shift_).

Definition cpp_estimated_reciprocal (d : FastDiv) : res exn f64 :=
  let? pow := shl_one (shift d) in
  Ok (f64_div (f64_of_Z pow) (f64_of_Z (mul d))).

(** [operator/]. *)
Definition cpp_divide (x : Z) (d : FastDiv) : res exn Z :=
  if shift d <? 64 then Ok (wrap 32 (Z.shiftr (wrapping_mul 64 x (mul d)) (shift d))) else Panic.

(** ** VirtualClock *)

Definition EPERM : Z := -1.

Definition clock_new (d : FastDiv) : res exn VirtualClock :=
  let? dur := cpp_estimated_reciprocal d in
  Ok (mkClock [] d dur None).

Definition clock_add_inputs (c : VirtualClock) (n : nat) : VirtualClock :=
  set_inputs c (inputs c ++ replicate n (mkInput None)).

(** [inputs_.at(i)]. *)
Definition at_input (c : VirtualClock) (i : nat) : res exn Input :=
  match inputs c !! i with Some x => Ok x | None => Err out_of_range end.

Definition clock_is_current (c : VirtualClock) (i : nat) : res exn bool :=
  if bool_decide (is_Some (current_timeslot c)) then
    let? x := at_input c i in Ok (bool_decide (timeslot x = current_timeslot c))
  else Ok false.

Definition clock_can_update (c : VirtualClock) (i : nat) : res exn bool :=
  let? x := at_input c i in Ok (bool_decide (timeslot x = current_timeslot c)).

(** [(s16)a - b], stored as [s16]. *)
Definition slot_diff (a b : Z) : Z := as_signed 16 (wrap 16 (as_signed 16 a - b)).

(** [a += d] of a [u16] and an [s16]. *)
Definition slot_add (a d : Z) : Z := wrap 16 (a + d).

Definition clock_update (c : VirtualClock) (input_index : nat) (timestamp : Z) : res exn (Z * VirtualClock) :=
  let? input := at_input c input_index in
  if negb (bool_decide (timeslot input = current_timeslot c)) then Ok (EPERM, c)
  else
    let? q := cpp_divide timestamp (divider c) in
    let t := wrap 16 q in
    let store x := set_inputs c (<[input_index := mkInput (Some x)]> (inputs c)) in
    match timeslot input with
    | Some old =>
        let d := slot_diff t old in
        if 0 <=? d then Ok (0, store (slot_add old d)) else Ok (EINVAL, c)
    | None => Ok (0, store t)
    end.

(** [min ? std::min( *min, x) : x]. *)
Definition min_opt (acc : option Z) (x : Z) : Z := match acc with Some m => Z.min m x | None => x end.

(** A loop that returns [nullopt] at an input without a slot; the inner option
    is the running minimum. *)
Fixpoint min_slot_loop (f : Z -> Z) (acc : option Z) (l : list Input) : option (option Z) :=
  match l with
  | [] => Some acc
  | i :: l =>
      match timeslot i with
      | None => None
      | Some t => min_slot_loop f (Some (min_opt acc (f t))) l
      end
  end.

(** The second loop dereferences every slot. *)
Fixpoint min_diff_loop (m : option Z) (acc : option Z) (l : list Input) : res exn (option Z) :=
  match l with
  | [] => Ok acc
  | i :: l =>
      let? t := unwrap (timeslot i) in
      let? m' := unwrap m in
      min_diff_loop m (Some (min_opt acc (slot_diff t m'))) l
  end.

Definition clock_earliest (c : VirtualClock) : res exn (option Z) :=
  match min_slot_loop (fun t => t) None (inputs c) with
  | None => Ok None
  | Some min_timeslot =>
      let? min_diff := min_diff_loop min_timeslot None (inputs c) in
      let? m := unwrap min_timeslot in
      let? d := unwrap min_diff in
      Ok (Some (slot_add m d))
  end.

Definition clock_min_advance (c : VirtualClock) (cur : Z) : option Z :=
  match min_slot_loop (fun t => slot_diff t cur) None (inputs c) with Some m => m | None => None end.

Definition clock_advance (c : VirtualClock) : res exn (bool * VirtualClock) :=
  match current_timeslot c with
  | Some cur =>
      let advance_slots := match clock_min_advance c cur with Some a => a | None => 0 end in
      if 0 <? advance_slots then Ok (true, set_current c (Some (slot_add cur advance_slots)))
      else Ok (false, c)
  | None => let? t := clock_earliest c in Ok (false, set_current c t)
  end.

(** ** Agreement of the dividers *)

Lemma floor_scaled_nonneg m ex : 0 <= floor_scaled (Zpos m) ex.
Proof.
  unfold floor_scaled. destruct (Z.leb_spec 0 ex); [|apply Z.div_pos; [lia|apply Z.pow_pos_nonneg; lia]].
  apply Z.mul_nonneg_nonneg; [lia|]. apply Z.pow_nonneg. lia.
Qed.

Lemma to_uint32_floor x z : to_uint32 x = Ok z -> f64_to_uint 32 x = z /\ f64_to_uint 32 (f64_floor x) = z.
Proof.
  destruct x as [s|s| |[] m ex]; simpl; intros H; try done; [by injection H as <-| |].
  - destruct (Z.eqb_spec (floor_scaled (Zpos m) ex) 0) as [Hz|]; [|done]. injection H as <-. split; [done|].
    unfold floor_scaled in Hz. destruct (Z.leb_spec 0 ex) as [He|He]; [done|].
    assert (Zpos m < 2 ^ (- ex)) by (apply Z.div_small_iff in Hz; lia).
    assert (floor_scaled (- Zpos m) ex = -1) as ->; [|done]. unfold floor_scaled.
    rewrite (proj2 (Z.leb_gt _ _)) by lia. symmetry. apply (Z.div_unique _ _ _ (2 ^ (- ex) - Zpos m)); lia.
  - destruct (Z.ltb_spec (floor_scaled (Zpos m) ex) (2 ^ 32)) as [Hlt|]; [|done]. injection H as <-.
    split; [lia|]. destruct (Z.leb_spec 0 ex) as [He|He]; [simpl; lia|].
    pose proof (floor_scaled_nonneg m ex).
    apply (f64_to_uint_of_Z 32 (floor_scaled (Zpos m) ex)); [lia|split; lia|]. lia.
Qed.

(** Where the C++ constructor is defined, the crate builds the same divider. *)
Lemma fast_div_new_same {E} log2 amt bits d :
  0 <= bits <= 64 -> fast_div_new log2 amt bits = Ok d ->
  FastDiv.new (E := E) Release log2 amt bits = Ok d /\ 0 <= shift d < 64.
Proof.
  intros Hb H. unfold fast_div_new in H. apply rbind_Ok in H as (br & Hbr & H).
  destruct (to_uint32_floor _ _ Hbr) as [Hto Hfl].
  assert (fits 32 br) as [Hbr0 Hbr1].
  { rewrite <- Hto. destruct (log2 amt) as [s|s| |[] m ex]; simpl in *; try done; try (split; lia).
    destruct (Z.ltb_spec (floor_scaled (Zpos m) ex) (2 ^ 32)); [|done]. split; [|lia].
    apply Z.min_glb; [apply floor_scaled_nonneg|lia]. }
  unfold FastDiv.new. cbn [debug_assert rbind]. rewrite Hfl. cbv zeta.
  assert (saturating_sub 64 bits = wrapping_sub 32 64 bits) as ->.
  { unfold saturating_sub, wrapping_sub. rewrite wrap_small by (split; lia). lia. }
  assert (add_chk (E := E) Release 32 32 br = Ok (wrapping_add 32 32 br)) as ->.
  { unfold add_chk. destruct (Z.ltb_spec (32 + br) (2 ^ 32)); [|done]. unfold wrapping_add. by rewrite wrap_small by (split; lia). }
  cbn [rbind]. set (s := Z.min _ _) in *. apply rbind_Ok in H as (pow & Hpow & H). apply rbind_Ok in H as (mu & Hmu & H).
  injection H as <-. unfold shl_one in Hpow. destruct (Z.ltb_spec s 64) as [Hs|]; [|done]. injection Hpow as <-.
  assert (0 <= s).
  { apply Z.min_glb; [|apply wrap_fits; lia]. unfold wrapping_sub. rewrite wrap_small by (split; lia). lia. }
  unfold shl_chk. rewrite (proj2 (Z.ltb_lt _ _)) by done. cbn [rbind].
  rewrite Z.shiftl_mul_pow2, Z.mul_1_l by done. rewrite wrap_small by (split; [lia|apply Z.pow_lt_mono_r; lia]).
  destruct (to_uint32_floor _ _ Hmu) as [-> _]. simpl. split; [done|lia].
Qed.

Lemma cpp_divide_same {E} p x d :
  0 <= shift d < 64 -> exists q, cpp_divide x d = Ok q /\ divide_u64 (E := E) p d x = Ok q.
Proof.
  intros Hs. unfold cpp_divide, divide_u64, shr_chk. rewrite (proj2 (Z.ltb_lt _ _)) by lia. by eexists.
Qed.

(** ** Agreement of the clocks *)

Lemma slot_diff_delta a b : fits 16 a -> slot_diff a b = signed_delta_u16 a b.
Proof.
  intros Ha. unfold slot_diff, signed_delta_u16, wrapping_sub. f_equal.
  rewrite <- (as_signed_mod 16 a) at 2 by (done || lia). unfold wrap. by rewrite Zminus_mod_idemp_l.
Qed.

Lemma slot_add_delta a d : slot_add a d = wrapping_add 16 a (as_u16 d).
Proof. unfold slot_add, wrapping_add, as_u16. by rewrite wrap_add_r. Qed.

(** Slots are 16 bits wide. *)
Definition slots16 (l : list Input) : Prop := Forall (fun i => forall t, timeslot i = Some t -> fits 16 t) l.

Lemma min_slot_same {E} (f g : Z -> Z) acc l :
  slots16 l -> (forall t, fits 16 t -> f t = g t) ->
  min_slot_loop f acc l
  = if existsb (fun i => bool_decide (timeslot i = None)) l then None
    else match min_loop (E := E) g acc l with Ok m => Some m | _ => None end.
Proof.
  intros Hl Hfg. revert acc. induction Hl as [|[[t|]] l Ht _ IH]; intros acc; simpl; [done| |done].
  by rewrite IH, Hfg by (by apply Ht).
Qed.

Lemma min_advance_same f cur acc l :
  slots16 l -> (forall t, fits 16 t -> f t = signed_delta_u16 t cur) ->
  match min_slot_loop f acc l with Some m => m | None => None end = min_advance_loop cur acc l.
Proof.
  intros Hl Hf. revert acc. induction Hl as [|[[t|]] l Ht _ IH]; intros acc; simpl; [done| |done].
  by rewrite IH, Hf by (by apply Ht).
Qed.

Lemma min_diff_same {E} m acc l :
  slots16 l -> Forall (fun i => is_Some (timeslot i)) l ->
  min_diff_loop (Some m) acc l
  = match min_loop (E := E) (fun t => signed_delta_u16 t m) acc l with Ok d => Ok d | _ => Panic end.
Proof.
  intros Hl Hs. revert acc. induction Hl as [|[[t|]] l Ht _ IH]; intros acc; [done| |by apply Forall_cons in Hs as [[? ?] _]].
  apply Forall_cons in Hs as [_ Hs]. simpl. cbn [unwrap rbind]. rewrite slot_diff_delta by (by apply Ht). by rewrite IH.
Qed.


Lemma set_inputs_of l :
  existsb (fun i => bool_decide (timeslot i = None)) l = false -> Forall (fun i => is_Some (timeslot i)) l.
Proof.
  intros He. apply Forall_forall. intros i Hi. destruct (timeslot i) eqn:Ht; [by eauto|]. exfalso.
  assert (existsb (fun i => bool_decide (timeslot i = None)) l = true) as Hx; [|congruence].
  apply existsb_exists. exists i. split; [by apply list_elem_of_In|]. by apply bool_decide_eq_true.
Qed.

Lemma min_loop_Ok {E} f acc l :
  Forall (fun i => is_Some (timeslot i)) l ->
  exists m, min_loop (E := E) f acc l = Ok m /\ (acc <> None \/ l <> [] -> m <> None) /\ (acc = None -> l = [] -> m = None).
Proof.
  intros Hl. revert acc. induction Hl as [|[ts] l [t Ht] _ IH]; intros acc; simpl in *.
  { exists acc. split_and!; [done| |done]. by intros [|]. }
  subst ts. cbn [unwrap rbind]. destruct (IH (Some match acc with Some m => Z.min m (f t) | None => f t end)) as (m & -> & Hm & _).
  exists m. split_and!; [done| |done]. intros _. apply Hm. by left.
Qed.

Lemma clock_earliest_same {E} c :
  slots16 (inputs c) ->
  clock_earliest c = match earliest_input_timeslot (E := E) c with Ok t => Ok t | _ => Panic end.
Proof.
  intros Hl. unfold clock_earliest, earliest_input_timeslot.
  rewrite (min_slot_same (E := E) (fun t => t) (fun t => t)) by done.
  destruct (existsb _ _) eqn:He; [done|]. apply set_inputs_of in He.
  destruct (min_loop_Ok (E := E) (fun t => t) None (inputs c) He) as (m & Hm & Hset & Hnone). rewrite Hm. cbn [rbind].
  destruct m as [m|].
  - rewrite (min_diff_same (E := E)) by done. cbn [unwrap rbind].
    destruct (min_loop_Ok (E := E) (fun t => signed_delta_u16 t m) None (inputs c) He) as (d & -> & Hd & _). cbn [unwrap rbind].
    destruct d as [d|]; [|done]. cbn [unwrap rbind]. by rewrite slot_add_delta.
  - destruct (inputs c) as [|i l]; [done|]. exfalso. apply Hset; [by right|done].
Qed.

(** ** Runs *)

Definition clock_step (c : VirtualClock) (o : op) : res exn (obs * VirtualClock) :=
  match o with
  | AddInputs n => Ok (Added, clock_add_inputs c n)
  | Update i ts =>
      let? '(r, c') := clock_update c i ts in
      Ok (Updated (if r =? EPERM then Some NotPermitted else if r =? EINVAL then Some PastTimeslot else None), c')
  | Advance => let? '(b, c') := clock_advance c in Ok (Advanced b, c')
  end.

Fixpoint clock_run (c : VirtualClock) (os : list op) : res exn (list (obs * option Z)) :=
  match os with
  | [] => Ok []
  | o :: os => let? '(r, c') := clock_step c o in rmap (cons (r, current_timeslot c')) (clock_run c' os)
  end.

(** The C++ code does what the crate does: the same result, and where the
    crate panics it throws or is undefined. *)
Definition as_cpp {E A} (rust : res E A) (cpp : res exn A) : Prop :=
  match rust with
  | Ok x => cpp = Ok x
  | Err _ => False
  | Panic => cpp = Panic \/ cpp = Err out_of_range
  end.

(** The clock after an operation is again one of 16 bit slots. *)
Definition clock16 (c : VirtualClock) : Prop :=
  slots16 (inputs c) /\ (forall t, current_timeslot c = Some t -> fits 16 t) /\ 0 <= shift (divider c) < 64.

Lemma update_as_cpp {E} p c i ts :
  clock16 c -> as_cpp (step_impl (E := E) p c (Update i ts)) (clock_step c (Update i ts)).
Proof.
  intros (Hl & Hc & Hs). simpl. unfold update, clock_update, map_timestamp, at_input.
  destruct (cpp_divide_same (E := UpdateError) p ts (divider c) Hs) as (q & Hq1 & Hq2). rewrite Hq2. cbn [rbind].
  unfold index. destruct (inputs c !! i) as [x|] eqn:Hx; cbn [unwrap rbind]; [|by right].
  destruct (decide (timeslot x = current_timeslot c)) as [Hcur|Hcur].
  2:{ by rewrite !bool_decide_false by done. }
  rewrite !bool_decide_true by done. cbn [negb]. rewrite Hq1. cbn [rbind].
  destruct (timeslot x) as [old|] eqn:Hold; [|done].
  rewrite slot_diff_delta by (apply wrap_fits; lia). destruct (0 <=? _); [|done]. simpl. by rewrite slot_add_delta.
Qed.

Lemma advance_as_cpp {E} p c : clock16 c -> as_cpp (step_impl (E := E) p c Advance) (clock_step c Advance).
Proof.
  intros (Hl & Hc & Hs). simpl. unfold advance, clock_advance. destruct (current_timeslot c) as [cur|] eqn:Hcur.
  - unfold clock_min_advance, min_input_advance. rewrite Hcur.
    rewrite (min_advance_same _ cur) by (done || intros; by apply slot_diff_delta).
    destruct (min_advance_loop cur None (inputs c)) as [n|]; [|done]. destruct (0 <? n); [|done]. simpl.
    by rewrite slot_add_delta.
  - rewrite (clock_earliest_same (E := E)) by done.
    destruct (earliest_input_timeslot (E := E) c) as [t|x|] eqn:He; [done| |by left]. exfalso.
    unfold earliest_input_timeslot in He. destruct (existsb _ _) eqn:Hex; [done|]. apply set_inputs_of in Hex.
    destruct (min_loop_Ok (E := E) (fun t => t) None (inputs c) Hex) as (m & Hm & _). rewrite Hm in He.
    destruct m as [m|]; [|done]. cbn [unwrap rbind] in He.
    destruct (min_loop_Ok (E := E) (fun t => signed_delta_u16 t m) None (inputs c) Hex) as ([d|] & Hd & _);
      by rewrite Hd in He.
Qed.

Lemma step16 {E} p c o r c' : clock16 c -> step_impl (E := E) p c o = Ok (r, c') -> clock16 c'.
Proof.
  intros (Hl & Hc & Hs) H. destruct o as [n|i ts|]; simpl in H.
  - injection H as _ <-. split; [|by split]. apply Forall_app. split; [done|]. by apply Forall_replicate.
  - destruct (update p c i ts) as [c1|e|] eqn:Hu; [|by injection H as _ <-|done]. injection H as _ <-.
    unfold update in Hu. apply rbind_Ok in Hu as (t & Ht & Hu). apply rbind_Ok in Hu as (x & _ & Hu).
    assert (exists v, fits 16 v /\ c1 = set_inputs c (<[i := mkInput (Some v)]> (inputs c))) as (v & Hv & ->).
    { destruct (bool_decide _); [|done]. destruct (timeslot x).
      - destruct (0 <=? _); [|done]. injection Hu as <-. eexists. split; [|done]. apply wrap_fits. lia.
      - injection Hu as <-. eexists. split; [|done]. unfold map_timestamp in Ht.
        apply rbind_Ok in Ht as (q & _ & Ht). injection Ht as <-. apply wrap_fits. lia. }
    split; [|by split]. apply Forall_insert; [done|]. by intros ? [= <-].
  - destruct (advance (E := E) c) as [[b c1]| |] eqn:Ha; [|done..]. injection H as _ <-. unfold advance in Ha.
    assert (exists t, (forall v, t = Some v -> fits 16 v) /\ c1 = set_current c t) as (t & Ht & ->); [|by split].
    destruct (current_timeslot c) as [cur|] eqn:Hcur.
    + assert (c = set_current c (Some cur)) as Hsame by (destruct c; simpl in *; by subst).
      destruct (min_input_advance c) as [n|]; [|exists (Some cur); split; [done|by injection Ha as _ <-]].
      destruct (0 <? n); [|exists (Some cur); split; [done|by injection Ha as _ <-]].
      injection Ha as _ <-. eexists. split; [|done]. intros v [= <-]. apply wrap_fits. lia.
    + apply rbind_Ok in Ha as (t & Ht & Ha). injection Ha as _ <-. exists t. split; [|done]. intros v ->.
      unfold earliest_input_timeslot in Ht. destruct (existsb _ _); [done|].
      apply rbind_Ok in Ht as (m & _ & Ht). apply rbind_Ok in Ht as (m' & _ & Ht).
      apply rbind_Ok in Ht as (d & _ & Ht). apply rbind_Ok in Ht as (d' & _ & Ht). injection Ht as <-. apply wrap_fits. lia.
Qed.

Lemma run_as_cpp {E} p c os : clock16 c -> as_cpp (run_impl (E := E) p c os) (clock_run c os).
Proof.
  revert c. induction os as [|o os IH]; intros c Hc; [done|].
  assert (as_cpp (step_impl (E := E) p c o) (clock_step c o)) as Ho.
  { destruct o; [done|by apply update_as_cpp|by apply advance_as_cpp]. }
  cbn [run_impl clock_run]. destruct (step_impl p c o) as [[r c']| |] eqn:Hst; [|done|].
  - simpl in Ho. rewrite Ho. cbn [rbind]. specialize (IH c' (step16 p c o r c' Hc Hst)).
    destruct (run_impl (E := E) p c' os) as [l| |]; [simpl in *; by rewrite IH|done|].
    destruct IH as [->| ->]; [by left|by right].
  - destruct Ho as [->| ->]; [by left|by right].
Qed.

Lemma clock_new_same {E} p d :
  0 <= shift d < 64 ->
  exists c, clock_new d = Ok c /\ VirtualClock.new (E := E) p d = Ok c /\ clock16 c.
Proof.
  intros Hs. unfold clock_new, VirtualClock.new, cpp_estimated_reciprocal, estimated_reciprocal, shl_one, shl_chk.
  rewrite (proj2 (Z.ltb_lt (shift d) 64)) by lia. rewrite debug_assert_true by done.
  rewrite (proj2 (Z.ltb_lt (shift d) 128)) by lia. cbn [rbind].
  rewrite Z.shiftl_mul_pow2, Z.mul_1_l by lia. rewrite wrap_small by (split; [lia|apply Z.pow_lt_mono_r; lia]).
  eexists. split_and!; [done|done|]. split; [constructor|]. split; [done|done].
Qed.

(** C16: the port of the clock is faithful.  Where the C++ divider is defined,
    the crate builds the same multiplier and shift; over it both clocks start
    in the same state; and every sequence of operations gives the same results
    and the same current slots in both, except that where the crate panics the
    C++ code throws [out_of_range] or is undefined. *)
Theorem cpp_clock_agrees {E} p log2 amt bits d os :
  0 <= bits <= 64 -> fast_div_new log2 amt bits = Ok d ->
  FastDiv.new (E := E) Release log2 amt bits = Ok d
  /\ exists c, clock_new d = Ok c /\ VirtualClock.new (E := E) p d = Ok c
    /\ as_cpp (run_impl (E := E) p c os) (clock_run c os).
Proof.
  intros Hb Hd. destruct (fast_div_new_same (E := E) log2 amt bits d Hb Hd) as [Hnew Hs].
  split; [exact Hnew|]. destruct (clock_new_same (E := E) p d Hs) as (c & Hc1 & Hc2 & H16).
  exists c. split; [done|]. split; [done|]. by apply run_as_cpp.
Qed.

(** The divider of the C++ cores: one second, 16 bits. *)
Lemma cpp_clock_agrees_witness :
  fast_div_new log2_int (f64_of_Z 1000000000) 16 = Ok second
  /\ exists c, clock_new second = Ok c
    /\ as_cpp (run_impl (E := unit) Debug c sample_run) (clock_run c sample_run).
Proof.
  split; [vm_compute; reflexivity|].
  destruct (cpp_clock_agrees (E := unit) Debug log2_int (f64_of_Z 1000000000) 16 second sample_run)
    as [_ (c & Hc & _ & H)]; [lia|vm_compute; reflexivity|]. by exists c.
Defined.
