(* ===== verification/QueueMatrix.v ===== *)
(** * The queues between the cores (util/element_queue_writer.cc,
      reducer/rpc_queue_matrix.h)

    [ElementQueueWriter] reserves room in a queue and waits while there is
    none; [RpcQueueMatrix] holds one queue for every pair of a sender and a
    receiver.  The heads that the reader has published when a write batch
    starts are inputs of the waiting loop; storage is named by its place in
    the list of allocations. *)

From S2P Require Import Prelude ElementQueue CElementQueue.

Local Open Scope rust_scope.

(** ** ElementQueueWriter *)

Definition RETRY_BACKOFF_RATIO : Z := 2.
Definition RETRY_BACKOFF_LIMIT : Z := 512.
Definition RETRY_INTERVAL : Z := 1000.

Record ElementQueueWriter := mkEqWriter { queue_ : ElementQueue; num_write_stalls_ : Z }.

(** What [start_write] returns; [Blocked] when no further heads are given. *)
Inductive attempt := Reserved (offset : Z) | Refused (errno : Z) | Blocked.

(** The memory once the reader has published these heads. *)
Definition seen (m : mem) (heads : Z * Z) : mem := set_buf_head (set_elem_head m heads.1) heads.2.

(** The loop, inside a batch; the pauses are in microseconds. *)
Fixpoint write_loop {E} (p : profile) (m : mem) (w : ElementQueueWriter) (backoff length : Z)
    (heads : list (Z * Z)) : res E (attempt * mem * ElementQueueWriter * list Z) :=
  let? '(offset, m, q) := eq_write false m (queue_ w) length in
  if offset =? ENOSPC then
    let? m := eq_finish_write_batch p m q in
    match heads with
    | [] => Ok (Blocked, m, mkEqWriter q (num_write_stalls_ w), [])
    | h :: heads =>
        let m := seen m h in
        let? q := eq_start_write_batch p m q in
        let next := wrapping_mul 64 backoff RETRY_BACKOFF_RATIO in
        let next := if RETRY_BACKOFF_LIMIT <? next then RETRY_BACKOFF_LIMIT else next in
        let w := mkEqWriter q (wrapping_add 64 (num_write_stalls_ w) 1) in
        let? '(r, m, w, pauses) := write_loop p m w next length heads in
        Ok (r, m, w, backoff * RETRY_INTERVAL :: pauses)
    end
  else if offset <? 0 then Ok (Refused (- offset), m, mkEqWriter q (num_write_stalls_ w), [])
  else Ok (Reserved offset, m, mkEqWriter q (num_write_stalls_ w), []).

(** [heads] is not empty: the first pair is what the first batch finds. *)
Definition eqw_start_write {E} (p : profile) (m : mem) (w : ElementQueueWriter) (length : Z)
    (heads : list (Z * Z)) : res E (attempt * mem * ElementQueueWriter * list Z) :=
  match heads with
  | [] => Ok (Blocked, m, w, [])
  | h :: heads =>
      let m := seen m h in
      let? q := eq_start_write_batch p m (queue_ w) in
      write_loop p m (mkEqWriter q (num_write_stalls_ w)) 1 length heads
  end.

Definition eqw_finish_write {E} (p : profile) (m : mem) (w : ElementQueueWriter) : res E mem :=
  eq_finish_write_batch p m (queue_ w).

(** A handle of a queue of [2^a] elements and [2^b] bytes. *)
Definition sized (a b : Z) (q : ElementQueue) : Prop :=
  elem_mask q = 2 ^ a - 1 /\ buf_mask q = 2 ^ b - 1 /\ fits 32 (elem_tail q) /\ fits 32 (buf_tail q).

Section waiting.
Context (a b : Z) (Ha : 0 <= a <= 31) (Hb : 0 <= b <= 30).

Lemma eq_aligned_eq L : 0 <= L <= 2 ^ 32 - 8 -> eq_aligned L = align8 L.
Proof.
  intros HL. pose proof (aligned_eq (E := unit) Release L HL) as H.
  rewrite aligned_release in H by (unfold fits; lia). by injection H.
Qed.

(** A length that fits the buffer is refused only for want of room. *)
Lemma eq_write_attempt {E} m q L :
  sized a b q -> length (elems m) = Z.to_nat (2 ^ a) -> 0 <= L -> align8 L < 2 ^ b ->
  eq_write (E := E) false m q L = Ok (ENOSPC, m, q)
  \/ exists off m' q', eq_write (E := E) false m q L = Ok (off, m', q') /\ 0 <= off < 2 ^ b.
Proof.
  intros (He & Hbm & _) Hlen HL Hfit. pose proof (N_bounds b Hb). pose proof (align8_bounds L).
  unfold eq_write. rewrite eq_aligned_eq, Hbm, (proj2 (Z.ltb_ge _ _)) by lia.
  destruct (_ <=? _); [by left|]. destruct (_ <? _); [by left|]. right.
  pose proof (n_bounds a Ha).
  destruct (lookup_lt_is_Some_2 (elems m) (Z.to_nat (Z.land (elem_tail q) (elem_mask q)))) as [x Hx].
  { rewrite He, Hlen, land_mask by lia. pose proof (Z.mod_pos_bound (elem_tail q) (2 ^ a)). lia. }
  unfold index. rewrite Hx. cbn [unwrap rbind]. eexists _, _, _. split; [reflexivity|].
  set (off := eq_next_offset_by_len _ _ _). rewrite land_mask by lia.
  pose proof (Z.mod_pos_bound off (2 ^ b)). unfold as_signed.
  assert (2 ^ (32 - 1) = 2 ^ 31) as -> by done.
  destruct (Z.ltb_spec (off `mod` 2 ^ b) (2 ^ 31)); lia.
Qed.

(** A queue found empty takes an element of at most half the buffer. *)
Lemma eq_write_empty {E} m q L r m' q' :
  sized a b q -> elem_head q = elem_tail q -> buf_head q = buf_tail q -> 0 <= L -> 2 * align8 L <= 2 ^ b ->
  eq_write (E := E) false m q L = Ok (r, m', q') -> r <> ENOSPC.
Proof.
  intros (He & Hbm & Hte & Htb) Heh Hbh HL Hhalf. pose proof (N_bounds b Hb). pose proof (align8_bounds L).
  pose proof (n_bounds a Ha).
  unfold eq_write. rewrite eq_aligned_eq, He, Hbm, !pow2_capacity, Heh, Hbh, (proj2 (Z.ltb_ge _ (align8 L))) by lia.
  unfold wrapping_sub at 1. rewrite Z.sub_diag, (proj2 (Z.leb_gt _ (wrap 32 0))) by (change (wrap 32 0) with 0; lia).
  change eq_next_offset_by_len with next_offset_by_len.
  assert (buf_tail q = wrap 32 (buf_tail q)) as Hwt by (symmetry; by apply wrap_small).
  rewrite Hwt, next_offset_eq by lia. unfold wrapping_add. rewrite wrap_add_l.
  pose proof (nxt_ge (2 ^ b) (buf_tail q) (align8 L) ltac:(lia)).
  pose proof (nxt_pad (2 ^ b) (buf_tail q) (align8 L) ltac:(lia) ltac:(lia)).
  rewrite wrapping_sub_small by lia. rewrite (proj2 (Z.ltb_ge _ _)) by lia.
  intros Hr. inv_res. intros ->. rewrite as_signed_offset in Hr by lia.
  pose proof (land_mask_bounds (wrap 32 (nxt (2 ^ b) (buf_tail q) (align8 L))) b ltac:(lia)).
  unfold ENOSPC in Hr. simplify_eq. lia.
Qed.

(** The pause before retry [k]. *)
Definition pause (k : nat) : Z := Z.min (2 ^ Z.of_nat k) RETRY_BACKOFF_LIMIT * RETRY_INTERVAL.

Lemma next_backoff k :
  let next := wrapping_mul 64 (Z.min (2 ^ Z.of_nat k) RETRY_BACKOFF_LIMIT) RETRY_BACKOFF_RATIO in
  (if RETRY_BACKOFF_LIMIT <? next then RETRY_BACKOFF_LIMIT else next) = Z.min (2 ^ Z.of_nat (S k)) RETRY_BACKOFF_LIMIT.
Proof.
  unfold RETRY_BACKOFF_LIMIT, RETRY_BACKOFF_RATIO, wrapping_mul. rewrite Nat2Z.inj_succ, Z.pow_succ_r by lia.
  pose proof (Z.pow_pos_nonneg 2 (Z.of_nat k) ltac:(lia) ltac:(lia)). rewrite wrap_small by (unfold fits; lia). cbv zeta.
  destruct (Z.ltb_spec 512 (Z.min (2 ^ Z.of_nat k) 512 * 2)); lia.
Qed.

Lemma write_loop_returns {E} p k m w L heads :
  sized a b (queue_ w) -> length (elems m) = Z.to_nat (2 ^ a) -> 0 <= L -> 2 * align8 L <= 2 ^ b ->
  (elem_head (queue_ w), buf_head (queue_ w)) = (elem_tail (queue_ w), buf_tail (queue_ w))
  \/ (elem_tail (queue_ w), buf_tail (queue_ w)) ∈ heads ->
  exists off m' w' n,
    write_loop (E := E) p m w (Z.min (2 ^ Z.of_nat k) RETRY_BACKOFF_LIMIT) L heads
    = Ok (Reserved off, m', w', pause <$> seq k n)
    /\ 0 <= off < 2 ^ b /\ (n <= length heads)%nat.
Proof.
  revert k m w. induction heads as [|h heads IH]; intros k m w Hq Hlen HL Hhalf Hseen; cbn [write_loop];
    pose proof (align8_bounds L);
    destruct (eq_write_attempt (E := E) m (queue_ w) L Hq Hlen HL ltac:(lia)) as [Hno|(off & m' & q' & Hw & Hoff)].
  - destruct Hseen as [[= Heh Hbh]|[]%elem_of_nil]. by apply (eq_write_empty m (queue_ w) L) in Hno.
  - rewrite Hw. cbn [rbind]. rewrite (proj2 (Z.eqb_neq _ _)), (proj2 (Z.ltb_ge _ _)) by (unfold ENOSPC; lia).
    eexists _, _, _, 0%nat. split; [done|]. split; [lia|done].
  - rewrite Hno. cbn [rbind]. rewrite Z.eqb_refl, finish_batch_Ok. cbn [rbind].
    rewrite start_batch_Ok. cbn [rbind]. rewrite next_backoff.
    destruct Hseen as [[= Heh Hbh]|Hin]; [by apply (eq_write_empty m (queue_ w) L) in Hno|].
    match goal with
    | |- context [write_loop p ?m1 ?w1] => destruct (IH (S k) m1 w1) as (off & m2 & w2 & n & Hrun & Hoff & Hn)
    end; [by destruct w as [[]]|done|done|done| |].
    { apply elem_of_cons in Hin as [<-|Hin]; [by left|by right]. }
    eexists _, _, _, (S n). rewrite Hrun. cbn [rbind]. split; [done|]. split; [lia|]. simpl. lia.
  - rewrite Hw. cbn [rbind]. rewrite (proj2 (Z.eqb_neq _ _)), (proj2 (Z.ltb_ge _ _)) by (unfold ENOSPC; lia).
    eexists _, _, _, 0%nat. split; [done|]. split; [lia|simpl; lia].
Qed.

(** C30: a blocked writer is released.  For an element of at most half the
    buffer, [start_write] returns a slice of the buffer as soon as one of its
    attempts finds the queue empty, whatever the attempts before it found; the
    pause before the [k]-th retry is [min (2^k) 512] milliseconds. *)
Theorem blocked_writer_returns {E} p m w L h heads :
  sized a b (queue_ w) -> length (elems m) = Z.to_nat (2 ^ a) -> 0 <= L -> 2 * align8 L <= 2 ^ b ->
  (elem_tail (queue_ w), buf_tail (queue_ w)) ∈ h :: heads ->
  exists off m' w' n,
    eqw_start_write (E := E) p m w L (h :: heads) = Ok (Reserved off, m', w', pause <$> seq 0 n)
    /\ 0 <= off < 2 ^ b /\ (n <= length heads)%nat.
Proof.
  intros Hq Hlen HL Hhalf Hin. unfold eqw_start_write. rewrite start_batch_Ok. cbn [rbind].
  match goal with
  | |- context [write_loop p ?m1 ?w1] => apply (write_loop_returns p 0 m1 w1)
  end; [by destruct w as [[]]|done|done|done|].
  apply elem_of_cons in Hin as [<-|Hin]; [by left|by right].
Qed.

End waiting.

Lemma blocked_writer_returns_witness :
  exists off m' w' n,
    eqw_start_write (E := unit) Release (ms_mem (cpp_storage_new 4 64)) (mkEqWriter (mkQueue 3 63 0 0 4 32) 0) 24
      [(0, 0); (1, 8); (4, 32)] = Ok (Reserved off, m', w', pause <$> seq 0 n)
    /\ off = 32.
Proof.
  destruct (blocked_writer_returns (E := unit) 2 6 ltac:(lia) ltac:(lia) Release (ms_mem (cpp_storage_new 4 64))
    (mkEqWriter (mkQueue 3 63 0 0 4 32) 0) 24 (0, 0) [(1, 8); (4, 32)]) as (off & m' & w' & n & Hrun & _).
  - split_and!; unfold fits; simpl; lia.
  - reflexivity.
  - lia.
  - vm_compute. discriminate.
  - right. right. left.
  - eexists _, _, _, n. split; [exact Hrun|]. vm_compute in Hrun. by injection Hrun as <- _ _ _.
Defined.

(** An element that fits the buffer but not the rest of it, with more than half
    of it, is waited for although the queue is empty: every attempt finds the
    same empty queue and the same place. *)
Theorem large_element_waits_for_good {E} p m n :
  let w := mkEqWriter (mkQueue 3 63 1 32 1 32) 0 in
  align8 40 < 2 ^ 6
  /\ exists m' w' ps, eqw_start_write (E := E) p m w 40 (replicate (S n) (1, 32)) = Ok (Blocked, m', w', ps)
    /\ length ps = n.
Proof.
  split; [done|]. set (q := mkQueue 3 63 1 32 1 32).
  enough (forall n m s k, exists m' w' ps,
    write_loop (E := E) p m (mkEqWriter q s) k 40 (replicate n (1, 32)) = Ok (Blocked, m', w', ps) /\ length ps = n) as H.
  { cbn [eqw_start_write replicate]. rewrite start_batch_Ok. apply (H n). }
  clear n m. induction n as [|n IH]; intros m s k; cbn [write_loop replicate queue_];
    change (eq_write false m q 40) with (Ok (E := E) (ENOSPC, m, q));
    cbn [rbind]; rewrite Z.eqb_refl, finish_batch_Ok; cbn [rbind]; [by eexists _, _, _|].
  rewrite start_batch_Ok. cbn [rbind].
  match goal with |- context [write_loop p ?m2 (mkEqWriter ?q2 ?s2) ?k2] =>
    change q2 with q; destruct (IH m2 s2 k2) as (m' & w' & ps & Hrun & Hps) end.
  rewrite Hrun. eexists _, _, _. split; [reflexivity|]. simpl. by rewrite Hps.
Qed.

(** ** RpcQueueMatrix *)

Definition default_queue_n_elems : Z := Z.shiftl 1 18.
Definition default_queue_buf_len : Z := Z.shiftl 1 23.

(** The writer refers to the handle of the entry; the vector is reserved in
    advance, so entries do not move. *)
Record Entry := mkEntry { storage : nat; queue_writer : ElementQueueWriter }.

Record RpcQueueMatrix := mkMatrix { num_senders_ : nat; num_receivers_ : nat; entries_ : list Entry }.

Definition make_storage (heap : list MemStorage) (num_elems buf_len : Z) : list MemStorage * nat :=
  (heap ++ [cpp_storage_new num_elems buf_len], length heap).

(** The constructor of [Entry] over the storage at [loc]. *)
Definition entry_new (heap : list MemStorage) (loc : nat) : res exn Entry :=
  let? st := index heap loc in
  let? q := cpp_queue_new st in
  Ok (mkEntry loc (mkEqWriter q 0)).

Fixpoint make_entries (n : nat) (heap : list MemStorage) (n_elems buf_len : Z) : res exn (list MemStorage * list Entry) :=
  match n with
  | O => Ok (heap, [])
  | S n =>
      let '(heap, loc) := make_storage heap n_elems buf_len in
      let? ent := entry_new heap loc in
      let? '(heap, entries) := make_entries n heap n_elems buf_len in
      Ok (heap, ent :: entries)
  end.

Definition matrix_new (heap : list MemStorage) (num_senders num_receivers : nat) (queue_n_elems queue_buf_len : Z)
  : res exn (list MemStorage * RpcQueueMatrix) :=
  let? '(heap, entries) := make_entries (num_receivers * num_senders) heap queue_n_elems queue_buf_len in
  Ok (heap, mkMatrix num_senders num_receivers entries).

(** A [for] loop that appends to a vector. *)
Fixpoint push_each {A B E : Type} (f : A -> res E B) (l : list A) : res E (list B) :=
  match l with
  | [] => Ok []
  | x :: l => let? y := f x in rmap (cons y) (push_each f l)
  end.

(** The readers are handles of their own over the storage of the entries. *)
Definition make_readers (p : profile) (heap : list MemStorage) (mx : RpcQueueMatrix) (receiver : nat)
  : res exn (list (nat * ElementQueue)) :=
  let? _ := debug_assert p (receiver <? num_receivers_ mx)%nat in
  let offset := (receiver * num_senders_ mx)%nat in
  let stride := 1%nat in
  push_each (fun i =>
      let pos := (offset + i * stride)%nat in
      let? ent := index (entries_ mx) pos in
      let? st := index heap (storage ent) in
      let? q := cpp_queue_new st in
      Ok (storage ent, q))
    (seq 0 (num_senders_ mx)).

(** The writers refer to the entries at these positions. *)
Definition make_writers (p : profile) (mx : RpcQueueMatrix) (sender : nat) : res exn (list nat) :=
  let? _ := debug_assert p (sender <? num_senders_ mx)%nat in
  let offset := sender in
  let stride := num_senders_ mx in
  push_each (fun i =>
      let pos := (offset + i * stride)%nat in
      let? _ := index (entries_ mx) pos in
      Ok pos)
    (seq 0 (num_receivers_ mx)).

Lemma push_each_spec {A B E} (f : A -> res E B) (g : A -> B) l :
  Forall (fun x => f x = Ok (g x)) l -> push_each f l = Ok (g <$> l).
Proof. induction 1 as [|x l Hx _ IH]; [done|]. cbn [push_each]. by rewrite Hx, IH. Qed.

(** The queue from sender [i] to receiver [j]. *)
Definition cell (senders i j : nat) : nat := (j * senders + i)%nat.

Lemma cell_bound s r i j : (i < s)%nat -> (j < r)%nat -> (cell s i j < r * s)%nat.
Proof. unfold cell. nia. Qed.

Lemma cell_inj s i j i' j' : (i < s)%nat -> (i' < s)%nat -> cell s i j = cell s i' j' -> i = i' /\ j = j'.
Proof. unfold cell. intros. assert (j = j') by nia. subst. lia. Qed.

Section matrix.
Context (a b : Z) (Ha : 0 <= a <= 31) (Hb : 0 <= b <= 30).

(** The handle of a fresh queue. *)
Definition fresh_queue : ElementQueue := mkQueue (2 ^ a - 1) (2 ^ b - 1) 0 0 0 0.

Lemma fresh_queue_new : cpp_queue_new (cpp_storage_new (2 ^ a) (2 ^ b)) = Ok fresh_queue.
Proof. unfold cpp_queue_new. simpl. by rewrite (eq_init_contig_pow2 a b Ha Hb). Qed.

Lemma make_entries_spec n heap :
  make_entries n heap (2 ^ a) (2 ^ b)
  = Ok (heap ++ replicate n (cpp_storage_new (2 ^ a) (2 ^ b)),
        (fun loc => mkEntry loc (mkEqWriter fresh_queue 0)) <$> seq (length heap) n).
Proof.
  revert heap. induction n as [|n IH]; intros heap; [by rewrite app_nil_r|].
  cbn [make_entries make_storage]. unfold entry_new, index.
  rewrite (list_lookup_middle heap [] _ (length heap)) by done. cbn [unwrap rbind].
  rewrite fresh_queue_new. cbn [rbind]. rewrite IH. cbn [rbind]. rewrite <- app_assoc, length_app, Nat.add_1_r. done.
Qed.

Lemma matrix_new_spec heap s r :
  matrix_new heap s r (2 ^ a) (2 ^ b)
  = Ok (heap ++ replicate (r * s) (cpp_storage_new (2 ^ a) (2 ^ b)),
        mkMatrix s r ((fun loc => mkEntry loc (mkEqWriter fresh_queue 0)) <$> seq (length heap) (r * s))).
Proof. unfold matrix_new. by rewrite make_entries_spec. Qed.

Section made.
Context (p : profile) (heap heap' : list MemStorage) (s r : nat) (mx : RpcQueueMatrix).
Context (Hnew : matrix_new heap s r (2 ^ a) (2 ^ b) = Ok (heap', mx)).

Lemma matrix_entry k : (k < r * s)%nat ->
  entries_ mx !! k = Some (mkEntry (length heap + k) (mkEqWriter fresh_queue 0))
  /\ heap' !! (length heap + k)%nat = Some (cpp_storage_new (2 ^ a) (2 ^ b)).
Proof.
  intros Hk. rewrite matrix_new_spec in Hnew. injection Hnew as <- <-. simpl. split.
  - rewrite list_lookup_fmap, lookup_seq_lt by done. done.
  - rewrite lookup_app_r, lookup_replicate_2 by lia. done.
Qed.

Lemma make_readers_spec j :
  (j < r)%nat -> make_readers p heap' mx j = Ok ((fun i => ((length heap + cell s i j)%nat, fresh_queue)) <$> seq 0 s).
Proof.
  intros Hj. unfold make_readers.
  assert (num_senders_ mx = s /\ num_receivers_ mx = r) as [-> ->].
  { rewrite matrix_new_spec in Hnew. by injection Hnew as _ <-. }
  rewrite debug_assert_true by (by apply Nat.ltb_lt). cbn [rbind].
  apply (push_each_spec _ (fun i => ((length heap + cell s i j)%nat, fresh_queue))). apply Forall_forall.
  intros i Hi%elem_of_seq. destruct (matrix_entry (cell s i j)) as [He Hh]; [apply cell_bound; lia|].
  replace (j * s + i * 1)%nat with (cell s i j) by (unfold cell; lia).
  unfold index. rewrite He. cbn [unwrap rbind storage]. rewrite Hh. cbn [unwrap rbind].
  by rewrite fresh_queue_new.
Qed.

Lemma make_writers_spec i :
  (i < s)%nat -> make_writers p mx i = Ok ((fun j => cell s i j) <$> seq 0 r).
Proof.
  intros Hi. unfold make_writers.
  assert (num_senders_ mx = s /\ num_receivers_ mx = r) as [-> ->].
  { rewrite matrix_new_spec in Hnew. by injection Hnew as _ <-. }
  rewrite debug_assert_true by (by apply Nat.ltb_lt). cbn [rbind].
  apply (push_each_spec _ (fun j => cell s i j)). apply Forall_forall.
  intros j Hj%elem_of_seq. destruct (matrix_entry (cell s i j)) as [He _]; [apply cell_bound; lia|].
  replace (i + j * s)%nat with (cell s i j) by (unfold cell; lia). unfold index. by rewrite He.
Qed.

End made.
End matrix.

(** The storage that writer [j] of sender [i] writes. *)
Definition writer_storage (p : profile) (mx : RpcQueueMatrix) (i j : nat) : res exn nat :=
  let? ws := make_writers p mx i in
  let? pos := index ws j in
  let? ent := index (entries_ mx) pos in
  Ok (storage ent).

(** The storage that reader [i] of receiver [j] reads. *)
Definition reader_storage (p : profile) (heap : list MemStorage) (mx : RpcQueueMatrix) (j i : nat) : res exn nat :=
  let? rs := make_readers p heap mx j in
  let? '(loc, _) := index rs i in
  Ok loc.

(** C19: the matrix gives every pair of a sender and a receiver a queue of its
    own.  Each sender has a writer for each receiver and each receiver a reader
    for each sender; writer [j] of sender [i] and reader [i] of receiver [j]
    share their storage, which is new, and no other writer or reader has it, so
    every queue has one producer and one consumer. *)
Theorem matrix_one_to_one a b p heap heap' s r mx :
  0 <= a <= 31 -> 0 <= b <= 30 -> matrix_new heap s r (2 ^ a) (2 ^ b) = Ok (heap', mx) ->
  (forall i j, (i < s)%nat -> (j < r)%nat ->
     exists loc, writer_storage p mx i j = Ok loc /\ reader_storage p heap' mx j i = Ok loc /\ (length heap <= loc)%nat)
  /\ (forall i j i' j' loc, (i < s)%nat -> (i' < s)%nat -> (j < r)%nat -> (j' < r)%nat ->
       writer_storage p mx i j = Ok loc ->
       writer_storage p mx i' j' = Ok loc \/ reader_storage p heap' mx j' i' = Ok loc -> i = i' /\ j = j').
Proof.
  intros Ha Hb Hnew.
  assert (forall i j, (i < s)%nat -> (j < r)%nat ->
    writer_storage p mx i j = Ok (length heap + cell s i j)%nat
    /\ reader_storage p heap' mx j i = Ok (length heap + cell s i j)%nat) as Hcell.
  { intros i j Hi Hj. unfold writer_storage, reader_storage, index.
    rewrite (make_writers_spec a b Ha Hb p _ _ _ _ _ Hnew i Hi), (make_readers_spec a b Ha Hb p _ _ _ _ _ Hnew j Hj).
    cbn [rbind]. rewrite !list_lookup_fmap, !lookup_seq_lt by done. cbn [fmap option_fmap option_map unwrap rbind].
    cbn [Nat.add]. destruct (matrix_entry a b Ha Hb _ _ _ _ _ Hnew (cell s i j)) as [-> _]; [by apply (cell_bound s)|]. done. }
  split.
  - intros i j Hi Hj. destruct (Hcell i j Hi Hj) as [Hw Hr]. eexists. split; [exact Hw|]. split; [exact Hr|lia].
  - intros i j i' j' loc Hi Hi' Hj Hj' Hw Ho. destruct (Hcell i j Hi Hj) as [Hw1 _].
    destruct (Hcell i' j' Hi' Hj') as [Hw2 Hr2]. rewrite Hw1 in Hw. rewrite Hw2, Hr2 in Ho.
    apply (cell_inj s); [done|done|]. destruct Ho as [Ho|Ho]; simplify_eq; lia.
Qed.

Lemma matrix_one_to_one_witness :
  exists heap' mx, matrix_new [] 3 2 4 64 = Ok (heap', mx)
    /\ exists loc, writer_storage Debug mx 1 0 = Ok loc /\ reader_storage Debug heap' mx 0 1 = Ok loc.
Proof.
  eexists _, _. split; [reflexivity|].
  destruct (matrix_one_to_one 2 6 Debug [] _ 3 2 _ ltac:(lia) ltac:(lia) eq_refl) as [H _].
  destruct (H 1%nat 0%nat ltac:(lia) ltac:(lia)) as (loc & Hw & Hr & _). by exists loc.
Defined.
