(* ===== verification/RenderParser.v ===== *)
(** * The render parser (crates/render_parser)

    Splits a framed message into its timestamp and its body, and finds the
    handler registered for its RPC identifier.  The registry is the
    perfect-hash map of [PerfectHashMap]; its theorems are used here through
    that component's lemmas. *)

From S2P Require Import Prelude PerfectHashMap.

Local Open Scope rust_scope.

(** ** message.rs *)

Inductive Size := Fixed (n : Z) | Dynamic.

Record MessageMetadata := mkMetadata { rpc_id : Z; size : Size }.

Definition new_fixed (id sz : Z) (needs_auth : bool) : MessageMetadata := mkMetadata id (Fixed sz).
Definition new_dynamic (id : Z) (needs_auth : bool) : MessageMetadata := mkMetadata id Dynamic.

(** ** lib.rs *)

Inductive Error :=
| BufferTooSmall
| MessageNotRegistered (id : Z)
| InvalidLength (id len : Z).

Record Entry (V : Type) := mkPEntry { metadata : MessageMetadata; entry_value : V }.
Arguments mkPEntry {V} _ _.
Arguments metadata {V} _.
Arguments entry_value {V} _.

Record HandleOk (V : Type) := mkHandleOk { message : list Z; h_value : V; timestamp : Z }.
Arguments mkHandleOk {V} _ _ _.
Arguments message {V} _.
Arguments h_value {V} _.
Arguments timestamp {V} _.

Record Parser (V : Type) := mkParser { map : PerfectHashMap (Entry V) }.
Arguments mkParser {V} _.
Arguments map {V} _.

Section parser.
Context {V : Type} (p : profile) (e : endian).
Implicit Types ps : Parser V.

Definition new (hash_size : nat) (h : Z -> Z) : Parser V := mkParser (PerfectHashMap.new hash_size h).

Definition add_message ps (md : MessageMetadata) (v : V) : res CollisionError (option V * Parser V) :=
  let key := rpc_id md in
  let? '(old, m) := insert p (map ps) key (mkPEntry md v) in
  Ok (entry_value <$> old, mkParser m).

Definition handle ps (data : list Z) : res Error (HandleOk V) :=
  if (length data <? 8 + 2)%nat then Err BufferTooSmall
  else
    let? ts_bytes := index_range data 0 8 in
    let timestamp := from_ne_bytes e ts_bytes in
    let? id_bytes := index_range data 8 10 in
    let id := from_ne_bytes e id_bytes in
    match get (map ps) id with
    | None => Err (MessageNotRegistered id)
    | Some entry =>
        let? msg_slice :=
          match size (metadata entry) with
          | Fixed n =>
              let? need := add_chk p 64 8 n in
              if Z.of_nat (length data) <? need then Err BufferTooSmall
              else index_range data 8 (Z.to_nat need)
          | Dynamic =>
              if (length data <? 8 + 4)%nat then Err BufferTooSmall
              else
                let? b := index_range data 10 12 in
                let len_field := from_ne_bytes e b in
                if len_field <? 4 then Err (InvalidLength id len_field)
                else
                  let need := (8 + Z.to_nat len_field)%nat in
                  if (length data <? need)%nat then Err BufferTooSmall
                  else index_range data 8 need
          end in
        Ok (mkHandleOk msg_slice (entry_value entry) timestamp)
    end.

(** ** Frames *)

(** The body of a message with the given metadata: it starts with the RPC
    identifier and has the registered size, or carries its own length. *)
Definition is_body (md : MessageMetadata) (body : list Z) : Prop :=
  take 2 body = to_ne_bytes e 2 (rpc_id md)
  /\ match size md with
     | Fixed n => Z.of_nat (length body) = n /\ 2 <= n
     | Dynamic => take 2 (drop 2 body) = to_ne_bytes e 2 (Z.of_nat (length body))
         /\ 4 <= Z.of_nat (length body) < 2 ^ 16
     end.

(** What the encoders produce: the timestamp, then the body. *)
Definition frame (ts : Z) (body : list Z) : list Z := to_ne_bytes e 8 ts ++ body.

(** ** Properties *)

Lemma take_prefix_app {A} k (l r : list A) x : take k l = x -> length x = k -> take k (l ++ r) = x.
Proof.
  intros <- Hl. rewrite length_take in Hl. by rewrite take_app_le by lia.
Qed.

Lemma index_range_take {E A} (l : list A) i j :
  (i <= j <= length l)%nat -> index_range (E := E) l i j = Ok (take (j - i) (drop i l)).
Proof.
  intros H. replace j with (i + (j - i))%nat at 1 by lia. apply index_range_Ok. lia.
Qed.

Lemma frame_drop ts body rest : drop 8 (frame ts body ++ rest) = body ++ rest.
Proof.
  unfold frame. rewrite <- app_assoc. apply drop_app_length'. by rewrite length_to_ne_bytes.
Qed.

Lemma frame_take ts body rest : take 8 (frame ts body ++ rest) = to_ne_bytes e 8 ts.
Proof.
  unfold frame. rewrite <- app_assoc. apply take_app_length'. by rewrite length_to_ne_bytes.
Qed.

Lemma length_frame ts body : length (frame ts body) = (8 + length body)%nat.
Proof. unfold frame. rewrite length_app, length_to_ne_bytes. done. Qed.

Lemma frame_handled ps md v ts body rest :
  get (map ps) (rpc_id md) = Some (mkPEntry md v) -> fits 16 (rpc_id md) -> fits 64 ts ->
  Z.of_nat (length body) + 8 < 2 ^ 64 -> is_body md body ->
  handle ps (frame ts body ++ rest) = Ok (mkHandleOk body v ts).
Proof.
  intros Hget Hid Hts Hlen [Hrpc Hsize]. unfold handle.
  assert (2 <= length body)%nat as H2.
  { apply (f_equal length) in Hrpc. rewrite length_take, length_to_ne_bytes in Hrpc. lia. }
  assert (length (frame ts body ++ rest) = 8 + length body + length rest)%nat as Hl
    by (by rewrite length_app, length_frame).
  rewrite (proj2 (Nat.ltb_ge _ _)) by lia.
  rewrite !index_range_take by lia. cbn [rbind]. rewrite drop_0, frame_take, frame_drop.
  rewrite from_to_ne_bytes by done.
  change (10 - 8)%nat with 2%nat. rewrite (take_prefix_app _ _ _ _ Hrpc (length_to_ne_bytes _ _ _)).
  rewrite from_to_ne_bytes by done. rewrite Hget. cbn [metadata entry_value].
  destruct (size md) as [n|].
  - destruct Hsize as [Hn ?]. unfold add_chk. rewrite (proj2 (Z.ltb_lt _ _)) by lia. cbn [rbind].
    rewrite (proj2 (Z.ltb_ge _ _)) by lia. rewrite index_range_take by lia. cbn [rbind].
    rewrite frame_drop. do 2 f_equal. replace (Z.to_nat (8 + n) - 8)%nat with (length body) by lia.
    apply take_app_length.
  - destruct Hsize as [Hf Hr]. rewrite (proj2 (Nat.ltb_ge _ _)) by lia.
    rewrite index_range_take by lia. cbn [rbind].
    rewrite <- (drop_drop _ 2 8), frame_drop, drop_app_le by lia. change (12 - 10)%nat with 2%nat.
    rewrite (take_prefix_app _ _ _ _ Hf (length_to_ne_bytes _ _ _)).
    rewrite from_to_ne_bytes by (unfold fits; simpl; lia).
    rewrite (proj2 (Z.ltb_ge _ _)) by lia. rewrite Nat2Z.id, (proj2 (Nat.ltb_ge _ _)) by lia.
    rewrite index_range_take by lia. cbn [rbind]. rewrite frame_drop.
    replace (8 + length body - 8)%nat with (length body) by lia. by rewrite take_app_length.
Qed.

(** A registered message survives framing.  A frame followed by any other
    bytes is parsed into exactly its timestamp, its body and the value
    registered for its identifier. *)
Theorem handle_frame ps md v ts body rest :
  get (map ps) (rpc_id md) = Some (mkPEntry md v) -> fits 16 (rpc_id md) -> fits 64 ts ->
  Z.of_nat (length body) + 8 < 2 ^ 64 -> is_body md body ->
  handle ps (frame ts body ++ rest) = Ok (mkHandleOk body v ts).
Proof. apply frame_handled. Qed.

(** Any input of at least [k] bytes starts with a frame of [k - 8] bytes. *)
Lemma split_frame (data : list Z) k :
  is_bytes data -> (8 <= k <= length data)%nat ->
  data = frame (from_ne_bytes e (take 8 data)) (take (k - 8) (drop 8 data)) ++ drop k data.
Proof.
  intros Hb Hk. unfold frame. rewrite to_from_ne_bytes.
  - rewrite <- app_assoc. replace (drop k data) with (drop (k - 8) (drop 8 data)).
    + by rewrite !take_drop.
    + rewrite drop_drop. f_equal. lia.
  - rewrite length_take. lia.
  - by apply Forall_take.
Qed.

(** A two-byte field of a byte string. *)
Lemma field2 (data : list Z) i :
  is_bytes data -> (i + 2 <= length data)%nat ->
  let f := from_ne_bytes e (take 2 (drop i data)) in
  take 2 (drop i data) = to_ne_bytes e 2 f /\ fits 16 f.
Proof.
  intros Hb Hi f. assert (length (take 2 (drop i data)) = 2%nat) as Hl.
  { rewrite length_take, length_drop. lia. }
  assert (is_bytes (take 2 (drop i data))) as Hb2 by (by apply Forall_take, Forall_drop).
  split; [by unfold f; rewrite to_from_ne_bytes|].
  pose proof (from_ne_bytes_fits e _ Hb2) as Hf. by rewrite Hl in Hf.
Qed.

(** C28: what [handle] accepts is a frame.  Whenever it returns a message, the
    input starts with a frame of that timestamp and body, the body starts with
    an identifier [id] the registry maps to the returned value, and its length
    is the registered one. *)
Theorem handle_sound ps data r :
  is_bytes data -> handle ps data = Ok r ->
  exists id entry rest,
    data = frame (timestamp r) (message r) ++ rest
    /\ get (map ps) id = Some entry /\ h_value r = entry_value entry
    /\ take 2 (drop 8 data) = to_ne_bytes e 2 id
    /\ match size (metadata entry) with
       | Fixed n => fits 64 (8 + n) -> Z.of_nat (length (message r)) = n
       | Dynamic => is_body (mkMetadata id Dynamic) (message r)
       end.
Proof.
  intros Hb Hh. unfold handle in Hh.
  destruct (Nat.ltb_spec (length data) (8 + 2)) as [|Hlen]; [done|].
  rewrite !index_range_take in Hh by lia. cbn [rbind] in Hh. rewrite drop_0 in Hh.
  change (8 - 0)%nat with 8%nat in Hh. change (10 - 8)%nat with 2%nat in Hh.
  destruct (field2 data 8 Hb ltac:(lia)) as [Hid _].
  set (id := from_ne_bytes e (take 2 (drop 8 data))) in *.
  destruct (get (map ps) id) as [entry|] eqn:Hget; [|done]. inv_res. subst r.
  exists id, entry. cbn [message h_value timestamp].
  destruct (size (metadata entry)) as [n|] eqn:Hsz.
  - inv_res. destruct (Z.of_nat (length data) <? a0) eqn:Hn; [done|].
    apply index_range_inv in Ha as [Hr ->]. exists (drop (Z.to_nat a0) data).
    split_and!; [by apply split_frame|done|done|done|].
    intros [? Hfit]. unfold add_chk in Ha0. rewrite (proj2 (Z.ltb_lt _ _)) in Ha0 by done.
    injection Ha0 as <-. rewrite length_take, length_drop. lia.
  - destruct (Nat.ltb_spec (length data) (8 + 4)); [done|]. inv_res.
    apply index_range_inv in Ha0 as [_ ->]. change (12 - 10)%nat with 2%nat in Ha.
    destruct (field2 data 10 Hb ltac:(lia)) as [Hlen10 [_ Hl1]].
    set (len := from_ne_bytes e (take 2 (drop 10 data))) in *.
    destruct (Z.ltb_spec len 4); [done|].
    destruct (Nat.ltb_spec (length data) (8 + Z.to_nat len)); [done|].
    apply index_range_inv in Ha as [_ ->].
    exists (drop (8 + Z.to_nat len) data).
    split_and!; [by apply split_frame; [|lia]|done|done|done|].
    assert (Z.of_nat (length (take (8 + Z.to_nat len - 8) (drop 8 data))) = len) as Hml
      by (rewrite length_take, length_drop; lia).
    split; cbn [rpc_id size]; rewrite ?Hml; [|split; [|lia]].
    + rewrite <- Hid, take_take. f_equal. lia.
    + rewrite <- Hlen10, skipn_firstn_comm, take_take, drop_drop. f_equal; lia.
Qed.

(** A frame cut short anywhere is reported as [BufferTooSmall], so a
    reader can wait for more bytes and try again. *)
Theorem handle_truncated ps md v ts body k :
  get (map ps) (rpc_id md) = Some (mkPEntry md v) -> fits 16 (rpc_id md) ->
  Z.of_nat (length body) + 8 < 2 ^ 64 -> is_body md body ->
  (k < length (frame ts body))%nat ->
  handle ps (take k (frame ts body)) = Err BufferTooSmall.
Proof.
  intros Hget Hid Hlen [Hrpc Hsize] Hk. pose proof (length_frame ts body) as Hlf.
  assert (forall i j, (i + j <= k)%nat ->
            take j (drop i (take k (frame ts body))) = take j (drop i (frame ts body))) as Hcut.
  { intros i j Hij. rewrite skipn_firstn_comm, take_take. f_equal. lia. }
  assert (drop 8 (frame ts body) = body) as Hbody.
  { pose proof (frame_drop ts body []) as H. by rewrite !app_nil_r in H. }
  assert (length (take k (frame ts body)) = k) as Hkl by (rewrite length_take; lia).
  unfold handle. rewrite Hkl. destruct (Nat.ltb_spec k (8 + 2)) as [|H10]; [done|].
  rewrite !index_range_take by lia. cbn [rbind].
  change (10 - 8)%nat with 2%nat. rewrite (Hcut 8 2)%nat, Hbody, Hrpc by lia.
  rewrite from_to_ne_bytes by done. rewrite Hget. cbn [metadata entry_value].
  destruct (size md) as [n|].
  - destruct Hsize as [Hn ?]. unfold add_chk. rewrite (proj2 (Z.ltb_lt _ _)) by lia. cbn [rbind].
    by rewrite (proj2 (Z.ltb_lt _ _)) by lia.
  - destruct Hsize as [Hf Hr]. destruct (Nat.ltb_spec k (8 + 4)); [done|].
    rewrite index_range_take by lia. cbn [rbind]. change (12 - 10)%nat with 2%nat.
    rewrite (Hcut 10 2)%nat, <- (drop_drop _ 2 8), Hbody, Hf by lia.
    rewrite from_to_ne_bytes by (unfold fits; simpl; lia).
    rewrite (proj2 (Z.ltb_ge _ _)) by lia. rewrite Nat2Z.id.
    by rewrite (proj2 (Nat.ltb_lt _ _)) by lia.
Qed.

End parser.

(** ** Witnesses *)

(** A registry with one fixed and one dynamic message. *)
Definition sample_parser : Parser Z :=
  let h := fun k => k `mod` 4 in
  match add_message Debug (new 4 h) (new_fixed 461 16 true) 1 with
  | Ok (_, ps) =>
      match add_message Debug ps (new_dynamic 463 true) 2 with
      | Ok (_, ps) => ps
      | _ => ps
      end
  | _ => new 4 h
  end.

Definition sample_body : list Z := to_ne_bytes LittleEndian 2 463 ++ to_ne_bytes LittleEndian 2 5 ++ [9].

Lemma sample_is_body : is_body LittleEndian (new_dynamic 463 true) sample_body.
Proof. split; [done|]. split; [done|]. by vm_compute. Qed.

Lemma handle_frame_witness :
  handle Debug LittleEndian sample_parser (frame LittleEndian 1700 sample_body ++ [1; 2; 3])
  = Ok (mkHandleOk sample_body 2 1700).
Proof.
  apply (handle_frame Debug LittleEndian sample_parser (new_dynamic 463 true) 2);
    [done|done|done|done|apply sample_is_body].
Defined.

Lemma handle_sound_witness :
  exists id entry rest,
    frame LittleEndian 1700 sample_body ++ [1; 2; 3] = frame LittleEndian 1700 sample_body ++ rest
    /\ get (map sample_parser) id = Some entry /\ 2 = entry_value entry.
Proof.
  destruct (handle_sound Debug LittleEndian sample_parser
              (frame LittleEndian 1700 sample_body ++ [1; 2; 3])
              (mkHandleOk sample_body 2 1700)) as (id & entry & rest & H1 & H2 & H3 & _).
  - by apply (bool_decide_unpack _); vm_compute.
  - vm_compute. reflexivity.
  - by exists id, entry, rest.
Defined.

Lemma handle_truncated_witness :
  handle Debug LittleEndian sample_parser (take 12 (frame LittleEndian 1700 sample_body))
  = Err BufferTooSmall.
Proof.
  apply (handle_truncated Debug LittleEndian sample_parser (new_dynamic 463 true) 2 1700 sample_body 12);
    [done|done|done|apply sample_is_body|by vm_compute; lia].
Defined.
