(* ===== verification/Utf8.v ===== *)
(** * UTF-8 byte strings

    A Rust [String] is a byte string that is valid UTF-8.  This file models
    validity and [String::from_utf8_lossy], which replaces every maximal
    ill-formed sequence by U+FFFD, as the generated decoders use it. *)

From S2P Require Import Prelude.

Definition between (lo hi b : Z) : bool := (lo <=? b) && (b <=? hi).
Definition is_cont (b : Z) : bool := between 128 191 b.

(** The encoding of U+FFFD. *)
Definition replacement : list Z := [239; 191; 189].

(** The second byte a three-byte lead accepts. *)
Definition second3 (b0 b1 : Z) : bool :=
  if b0 =? 224 then between 160 191 b1
  else if b0 =? 237 then between 128 159 b1
  else is_cont b1.

(** The second byte a four-byte lead accepts. *)
Definition second4 (b0 b1 : Z) : bool :=
  if b0 =? 240 then between 144 191 b1
  else if b0 =? 244 then between 128 143 b1
  else is_cont b1.

(** The [i]-th byte, or 0 past the end. *)
Definition byte_at (bs : list Z) (i : nat) : Z := default 0 (bs !! i).

(** The sequence at the front of a non-empty byte string: whether it is well
    formed, and how many bytes it takes. *)
Definition front (bs : list Z) : bool * nat :=
  let b0 := byte_at bs 0 in
  let b1 := byte_at bs 1 in
  let b2 := byte_at bs 2 in
  let b3 := byte_at bs 3 in
  if b0 <? 128 then (true, 1%nat)
  else if between 194 223 b0 then
    if is_cont b1 then (true, 2%nat) else (false, 1%nat)
  else if between 224 239 b0 then
    if second3 b0 b1 then
      if is_cont b2 then (true, 3%nat) else (false, 2%nat)
    else (false, 1%nat)
  else if between 240 244 b0 then
    if second4 b0 b1 then
      if is_cont b2 then
        if is_cont b3 then (true, 4%nat) else (false, 3%nat)
      else (false, 2%nat)
    else (false, 1%nat)
  else (false, 1%nat).

Fixpoint valid_fuel (fuel : nat) (bs : list Z) : bool :=
  match fuel, bs with
  | _, [] => true
  | O, _ => false
  | S fuel, _ => let '(ok, k) := front bs in ok && valid_fuel fuel (drop k bs)
  end.

Fixpoint lossy_fuel (fuel : nat) (bs : list Z) : list Z :=
  match fuel, bs with
  | _, [] => []
  | O, _ => []
  | S fuel, _ =>
      let '(ok, k) := front bs in
      (if ok then take k bs else replacement) ++ lossy_fuel fuel (drop k bs)
  end.

Definition valid_utf8 (bs : list Z) : bool := valid_fuel (length bs) bs.
Definition from_utf8_lossy (bs : list Z) : list Z := lossy_fuel (length bs) bs.

(** ** Facts *)

Lemma byte_at_cont bs i : is_cont (byte_at bs i) = true -> (i < length bs)%nat.
Proof.
  unfold byte_at. intros H. destruct (bs !! i) eqn:Hi; [by eapply lookup_lt_Some|done].
Qed.

(** Every sequence takes at least one byte, and a well-formed one is inside
    the string. *)
Lemma front_bounds bs :
  bs <> [] -> (1 <= (front bs).2)%nat /\ ((front bs).1 = true -> (front bs).2 <= length bs)%nat.
Proof.
  intros Hne. assert (1 <= length bs)%nat by (destruct bs; [done|simpl; lia]).
  unfold front. repeat case_match; simpl; split; intros; try lia; try done;
    repeat match goal with
    | H : is_cont (byte_at _ _) = true |- _ => apply byte_at_cont in H
    end; lia.
Qed.

(** Only the fuel's being enough matters. *)
Lemma valid_fuel_enough f1 f2 bs :
  (length bs <= f1)%nat -> (length bs <= f2)%nat -> valid_fuel f1 bs = valid_fuel f2 bs.
Proof.
  revert f2 bs. induction f1 as [|f1 IH]; intros [|f2] [|b bs] H1 H2; try done; simpl in H1, H2; try lia.
  cbn [valid_fuel]. pose proof (front_bounds (b :: bs) ltac:(done)) as [Hk _].
  destruct (front (b :: bs)) as [ok k]. simpl in Hk. f_equal.
  apply IH; rewrite length_drop; simpl; lia.
Qed.

Lemma lossy_fuel_enough f1 f2 bs :
  (length bs <= f1)%nat -> (length bs <= f2)%nat -> lossy_fuel f1 bs = lossy_fuel f2 bs.
Proof.
  revert f2 bs. induction f1 as [|f1 IH]; intros [|f2] [|b bs] H1 H2; try done; simpl in H1, H2; try lia.
  cbn [lossy_fuel]. pose proof (front_bounds (b :: bs) ltac:(done)) as [Hk _].
  destruct (front (b :: bs)) as [ok k]. simpl in Hk. f_equal.
  apply IH; rewrite length_drop; simpl; lia.
Qed.

(** The lossy conversion leaves valid strings alone. *)
Lemma lossy_valid bs : valid_utf8 bs = true -> from_utf8_lossy bs = bs.
Proof.
  unfold valid_utf8, from_utf8_lossy. generalize (length bs). intros fuel. revert bs.
  induction fuel as [|fuel IH]; intros [|b bs] H; try done.
  cbn [valid_fuel lossy_fuel] in *. destruct (front (b :: bs)) as [ok k].
  apply andb_true_iff in H as [-> H]. rewrite (IH _ H). apply take_drop.
Qed.

(** A well-formed sequence is decided by its own bytes. *)
Lemma byte_at_app bs rest i : (i < length bs)%nat -> byte_at (bs ++ rest) i = byte_at bs i.
Proof. intros. unfold byte_at. by rewrite lookup_app_l. Qed.

Lemma front_take bs k :
  front bs = (true, k) -> bs <> [] -> forall rest, front (take k bs ++ rest) = (true, k).
Proof.
  intros Hf Hne rest.
  assert (k <= length bs)%nat as Hk.
  { destruct (front_bounds bs Hne) as [_ H]. rewrite Hf in H. by apply H. }
  assert (forall i, (i < k)%nat -> byte_at (take k bs ++ rest) i = byte_at bs i) as Hb.
  { intros i Hi. rewrite byte_at_app by (rewrite length_take; lia).
    unfold byte_at. by rewrite lookup_take_lt. }
  assert (1 <= k)%nat by (destruct (front_bounds bs Hne) as [H _]; by rewrite Hf in H).
  unfold front in *. rewrite (Hb 0%nat) by lia. revert Hf.
  repeat case_match; intros; simplify_eq; try done;
    repeat match goal with
    | H : context [byte_at (take _ _ ++ _) _] |- _ => rewrite Hb in H by lia
    end; congruence.
Qed.

Lemma valid_cons_chunk c rest :
  c <> [] -> front (c ++ rest) = (true, length c) ->
  valid_utf8 (c ++ rest) = valid_utf8 rest.
Proof.
  intros Hc Hf. unfold valid_utf8 at 1.
  destruct (length (c ++ rest)) as [|fuel] eqn:Hl.
  { rewrite length_app in Hl. destruct c; [done|simpl in Hl; lia]. }
  destruct (c ++ rest) as [|b bs] eqn:Hcr; [done|]. rewrite <- Hcr in *.
  assert (valid_fuel (S fuel) (c ++ rest) = valid_fuel fuel rest) as ->.
  { rewrite Hcr. cbn [valid_fuel]. rewrite <- Hcr, Hf, drop_app_length. done. }
  rewrite length_app in Hl. apply valid_fuel_enough; [|done].
  assert (1 <= length c)%nat by (destruct c; [done|simpl; lia]). lia.
Qed.

(** The lossy conversion always gives a valid string. *)
Lemma lossy_is_valid bs : valid_utf8 (from_utf8_lossy bs) = true.
Proof.
  unfold from_utf8_lossy. generalize (length bs). intros fuel. revert bs.
  induction fuel as [|fuel IH]; intros [|b bs]; try done. cbn [lossy_fuel].
  pose proof (front_bounds (b :: bs) ltac:(done)) as [Hk Hlen].
  destruct (front (b :: bs)) as [[] k] eqn:Hf; simpl in Hk, Hlen.
  - assert (length (take k (b :: bs)) = k) as Hlk by (rewrite length_take; simpl in *; lia).
    rewrite valid_cons_chunk; [apply IH| |].
    + intros Hn. rewrite Hn in Hlk. simpl in Hlk. lia.
    + rewrite Hlk. by apply front_take.
  - rewrite valid_cons_chunk; [apply IH|done|done].
Qed.
