(* ===== verification/Wire.v ===== *)
(** * Wire primitives of the generated encoders and decoders

    The generated crates lay a message out as a [repr(C)] struct of integers
    in native byte order, followed, for dynamic messages, by the strings whose
    lengths the struct holds.  This file has the pieces every generated
    [decode] and [encode] is made of, and their round trip. *)

From S2P Require Import Prelude Utf8.

Local Open Scope rust_scope.

Inductive DecodeError :=
| BufferTooSmall
| InvalidRpcId (got : Z)
| InvalidLength (len : Z)
| Utf8Error.

(** ** Decoding *)

Section decode.
Context (e : endian).

(** The check of the RPC identifier every [decode] starts with. *)
Definition check_rpc (id : Z) (body : list Z) : res DecodeError Z :=
  if (length body <? 2)%nat then Err BufferTooSmall
  else
    let? b2 := index_range body 0 2 in
    let rpc := from_ne_bytes e b2 in
    if rpc =? id then Ok rpc else Err (InvalidRpcId rpc).

(** The check of the total length of a dynamic message. *)
Definition check_len (body : list Z) : res DecodeError Z :=
  if (length body <? 4)%nat then Err BufferTooSmall
  else
    let? b2 := index_range body 2 4 in
    let len := from_ne_bytes e b2 in
    if len <? 4 then Err (InvalidLength len)
    else if (length body <? Z.to_nat len)%nat then Err BufferTooSmall
    else Ok len.

(** The check of the size of a fixed message. *)
Definition check_size (n : nat) (body : list Z) : res DecodeError unit :=
  if (length body <? n)%nat then Err BufferTooSmall else Ok tt.

(** [uN::from_ne_bytes(body[off..off + w].try_into().unwrap())]. *)
Definition get_uint (body : list Z) (off w : nat) : res DecodeError Z :=
  let? bs := index_range body off (off + w) in
  Ok (from_ne_bytes e bs).

(** One string of the payload: its length is at [hdr] in the header, its
    bytes at [off]; gives the string and the offset after it. *)
Definition get_str (body : list Z) (hdr off : nat) : res DecodeError (list Z * nat) :=
  let? l := get_uint body hdr 2 in
  let n := Z.to_nat l in
  if (length body <? off + n)%nat then Err BufferTooSmall
  else
    let? s := if (n =? 0)%nat then Ok []
              else rmap from_utf8_lossy (index_range body off (off + n)) in
    Ok (s, (off + n)%nat).

(** The last string of the payload: what is left of the message. *)
Definition get_tail (body : list Z) (len : Z) (off : nat) : res DecodeError (list Z) :=
  let tail := (Z.to_nat len - off)%nat in
  if (length body <? off + tail)%nat then Err BufferTooSmall
  else if (tail =? 0)%nat then Ok []
  else rmap from_utf8_lossy (index_range body off (off + tail)).

(** ** Encoding *)

(** One field of a [repr(C)] struct: offset, size, value. *)
Record field := mkField { f_off : nat; f_width : nat; f_val : Z }.

(** The [repr(C)] layout: each field at the next offset its size divides. *)
Fixpoint repr_c_from (off : nat) (fs : list (nat * Z)) : list field :=
  match fs with
  | [] => []
  | (w, v) :: fs =>
      let o := ((off + w - 1) / w * w)%nat in
      mkField o w v :: repr_c_from (o + w) fs
  end.

Definition repr_c (fs : list (nat * Z)) : list field := repr_c_from 0 fs.

(** The memory of a struct whose bytes were [pad] before its fields were
    stored: the padding keeps whatever it held. *)
Definition struct_bytes (fs : list field) (pad : list Z) : list Z :=
  fold_left (fun img f => write_at (f_off f) (to_ne_bytes e (f_width f) (f_val f)) img) fs pad.

(** The fixed part of every encoder: the destination is present, it has
    exactly the encoded length, and receives the timestamp and the struct. *)
Definition encode_fixed {E} (size : nat) (dest : option (list Z)) (tstamp : Z)
    (fs : list field) (pad : list Z) : res E (list Z) :=
  match dest with
  | None => Panic
  | Some dst =>
      if (8 + size =? length dst)%nat
      then Ok (write_at 8 (take size (struct_bytes fs pad)) (write_at 0 (to_ne_bytes e 8 tstamp) dst))
      else Panic
  end.

(** The sum of the encoded length, [u32] saturating. *)
Definition consumed (size : Z) (strs : list (list Z)) : Z :=
  fold_left (fun c s => saturating_add 32 c (Z.of_nat (length s))) strs size.

(** Appending the strings one after the other. *)
Definition append_strs (off : nat) (strs : list (list Z)) (dst : list Z) : nat * list Z :=
  fold_left (fun '(off, dst) s =>
    if bool_decide (s = []) then (off, dst)
    else ((off + length s)%nat, write_at off s dst)) strs (off, dst).

Definition encode_dynamic {E} (size : nat) (dest : option (list Z)) (tstamp : Z)
    (fs : Z -> list field) (pad : list Z) (strs : list (list Z)) : res E (list Z) :=
  match dest with
  | None => Panic
  | Some dst =>
      let c := consumed (Z.of_nat size) strs in
      if c <=? 65535 then
        if saturating_add 32 8 c =? Z.of_nat (length dst) then
          let dst := write_at 0 (to_ne_bytes e 8 tstamp) dst in
          let dst := write_at 8 (take size (struct_bytes (fs c) pad)) dst in
          Ok (append_strs (8 + size) strs dst).2
        else Panic
      else Panic
  end.

End decode.

(** ** Layouts *)

Definition disjoint (f g : field) : bool :=
  ((f_off f + f_width f <=? f_off g) || (f_off g + f_width g <=? f_off f))%nat.

(** The fields lie inside the struct and do not overlap, and every value fits
    its field. *)
Fixpoint layout_ok (n : nat) (fs : list field) : Prop :=
  match fs with
  | [] => True
  | f :: fs =>
      (f_off f + f_width f <= n)%nat /\ fits (8 * Z.of_nat (f_width f)) (f_val f)
      /\ forallb (disjoint f) fs = true /\ layout_ok n fs
  end.

Lemma length_struct_bytes e n fs pad :
  layout_ok n fs -> length pad = n -> length (struct_bytes e fs pad) = n.
Proof.
  unfold struct_bytes. revert pad. induction fs as [|f fs IH]; intros pad; [done|].
  simpl. intros (Hin & _ & _ & Hok) Hp. apply IH; [done|].
  rewrite length_write_at; rewrite ?length_to_ne_bytes; lia.
Qed.

(** Fields stored later do not disturb a disjoint range. *)
Lemma struct_bytes_disjoint e n f fs pad :
  layout_ok n fs -> forallb (disjoint f) fs = true -> length pad = n ->
  take (f_width f) (drop (f_off f) (struct_bytes e fs pad))
  = take (f_width f) (drop (f_off f) pad).
Proof.
  unfold struct_bytes. revert pad. induction fs as [|g fs IH]; intros pad; [done|].
  simpl. intros (Hin & _ & _ & Hok) Hd Hp. apply andb_true_iff in Hd as [Hfg Hd].
  rewrite IH; [|done|done|by rewrite length_write_at; rewrite ?length_to_ne_bytes; lia].
  apply sublist_write_disjoint; rewrite length_to_ne_bytes; [lia|].
  unfold disjoint in Hfg. apply orb_true_iff in Hfg as [H|H]; apply Nat.leb_le in H; lia.
Qed.

(** Every field is found where it was stored. *)
Lemma struct_bytes_field e n fs pad f :
  layout_ok n fs -> length pad = n -> f ∈ fs ->
  take (f_width f) (drop (f_off f) (struct_bytes e fs pad)) = to_ne_bytes e (f_width f) (f_val f).
Proof.
  unfold struct_bytes. revert pad. induction fs as [|g fs IH]; intros pad Hok Hp Hin.
  { by apply elem_of_nil in Hin. }
  simpl in Hok. destruct Hok as (Hb & Hv & Hd & Hok).
  set (w := to_ne_bytes e (f_width g) (f_val g)).
  assert (length w = f_width g) as Hw by apply length_to_ne_bytes.
  assert (length (write_at (f_off g) w pad) = n) as Hl by (rewrite length_write_at; lia).
  apply elem_of_cons in Hin as [->|Hin]; cbn [fold_left]; fold w.
  - fold (struct_bytes e fs (write_at (f_off g) w pad)).
    rewrite (struct_bytes_disjoint e n) by done.
    rewrite <- Hw. apply sublist_write_same. lia.
  - by apply IH.
Qed.

Lemma layout_in n fs f :
  layout_ok n fs -> f ∈ fs ->
  (f_off f + f_width f <= n)%nat /\ fits (8 * Z.of_nat (f_width f)) (f_val f).
Proof.
  induction fs as [|g fs IH]; intros Hok Hin; [by apply elem_of_nil in Hin|].
  simpl in Hok. destruct Hok as (? & ? & _ & Hok).
  apply elem_of_cons in Hin as [->|Hin]; [done|by apply IH].
Qed.

(** Reading a field of an encoded struct gives its value. *)
Lemma get_uint_field e n fs pad rest off w v :
  layout_ok n fs -> length pad = n -> mkField off w v ∈ fs ->
  get_uint e (struct_bytes e fs pad ++ rest) off w = Ok v.
Proof.
  intros Hok Hp Hin. pose proof (length_struct_bytes e n fs pad Hok Hp) as Hl.
  destruct (layout_in _ _ _ Hok Hin) as [Hb Hv]. simpl in Hb, Hv.
  unfold get_uint. rewrite index_range_Ok by (rewrite length_app; lia). cbn [rbind].
  rewrite drop_app_le, take_app_le by (rewrite ?length_drop; lia).
  pose proof (struct_bytes_field e n fs pad _ Hok Hp Hin) as Hf. simpl in Hf.
  by rewrite Hf, from_to_ne_bytes.
Qed.

Lemma index_field {E} e n fs pad rest off v :
  layout_ok n fs -> length pad = n -> mkField off 1 v ∈ fs ->
  index (E := E) (struct_bytes e fs pad ++ rest) off = Ok v.
Proof.
  intros Hok Hp Hin. pose proof (length_struct_bytes e n fs pad Hok Hp) as Hl.
  destruct (layout_in _ _ _ Hok Hin) as [Hb Hv]. simpl in Hb, Hv.
  pose proof (struct_bytes_field e n fs pad _ Hok Hp Hin) as Hf. cbn [f_off f_width f_val] in Hf.
  unfold index. rewrite lookup_app_l by lia.
  assert (to_ne_bytes e 1 v = [v]) as Hone.
  { pose proof (from_to_ne_bytes e 1 v Hv) as Hft. pose proof (length_to_ne_bytes e 1 v) as Hlen.
    destruct (to_ne_bytes e 1 v) as [|b [|]]; try done. f_equal. rewrite <- Hft.
    unfold from_ne_bytes. destruct e; simpl; by rewrite Z.shiftl_0_l, Z.lor_0_r. }
  rewrite Hone in Hf. apply (f_equal (.!! 0%nat)) in Hf.
  rewrite lookup_take_lt, lookup_drop, Nat.add_0_r in Hf by lia. by rewrite Hf.
Qed.

Lemma check_rpc_field e n fs pad rest id :
  layout_ok n fs -> length pad = n -> mkField 0 2 id ∈ fs ->
  check_rpc e id (struct_bytes e fs pad ++ rest) = Ok id.
Proof.
  intros Hok Hp Hin. pose proof (length_struct_bytes e n fs pad Hok Hp) as Hl.
  destruct (layout_in _ _ _ Hok Hin) as [Hb _]. simpl in Hb.
  pose proof (get_uint_field e n fs pad rest 0 2 id Hok Hp Hin) as Hg.
  unfold check_rpc. rewrite (proj2 (Nat.ltb_ge _ _)) by (rewrite length_app; lia).
  unfold get_uint in Hg. inv_res. change (0 + 2)%nat with 2%nat in Ha. rewrite Ha. cbn [rbind].
  by rewrite Hg, Z.eqb_refl.
Qed.

Lemma check_len_field e n fs pad rest len :
  layout_ok n fs -> length pad = n -> mkField 2 2 len ∈ fs -> 4 <= len ->
  Z.of_nat (n + length rest) = len ->
  check_len e (struct_bytes e fs pad ++ rest) = Ok len.
Proof.
  intros Hok Hp Hin H4 Hlen. pose proof (length_struct_bytes e n fs pad Hok Hp) as Hl.
  destruct (layout_in _ _ _ Hok Hin) as [Hb _]. simpl in Hb.
  pose proof (get_uint_field e n fs pad rest 2 2 len Hok Hp Hin) as Hg.
  unfold check_len. rewrite (proj2 (Nat.ltb_ge _ _)) by (rewrite length_app; lia).
  unfold get_uint in Hg. inv_res. change (2 + 2)%nat with 4%nat in Ha. rewrite Ha. cbn [rbind].
  rewrite Hg, (proj2 (Z.ltb_ge _ _)) by lia.
  by rewrite (proj2 (Nat.ltb_ge _ _)) by (rewrite length_app; lia).
Qed.

(** Reading a string of the payload. *)
Lemma get_str_field e n fs pad pre s post hdr off :
  layout_ok n fs -> length pad = n -> mkField hdr 2 (Z.of_nat (length s)) ∈ fs ->
  (n + length pre = off)%nat -> valid_utf8 s = true ->
  get_str e (struct_bytes e fs pad ++ pre ++ s ++ post) hdr off = Ok (s, (off + length s)%nat).
Proof.
  intros Hok Hp Hin Hoff Hs. pose proof (length_struct_bytes e n fs pad Hok Hp) as Hl.
  unfold get_str. rewrite (get_uint_field e n fs pad _ _ _ _ Hok Hp Hin). cbn [rbind].
  rewrite Nat2Z.id, (proj2 (Nat.ltb_ge _ _)) by (rewrite !length_app; lia).
  destruct (Nat.eqb_spec (length s) 0) as [H0|H0].
  { apply nil_length_inv in H0. by subst s. }
  rewrite index_range_Ok by (rewrite !length_app; lia). simpl. do 2 f_equal.
  rewrite app_assoc, drop_app_length' by (rewrite length_app; lia).
  rewrite take_app_length. by apply lossy_valid.
Qed.

Lemma get_tail_field e n fs pad pre s len off :
  layout_ok n fs -> length pad = n -> (n + length pre = off)%nat ->
  Z.of_nat (off + length s) = len -> valid_utf8 s = true ->
  get_tail (struct_bytes e fs pad ++ pre ++ s) len off = Ok s.
Proof.
  intros Hok Hp Hoff Hlen Hs. pose proof (length_struct_bytes e n fs pad Hok Hp) as Hl.
  unfold get_tail. replace (Z.to_nat len - off)%nat with (length s) by lia.
  rewrite (proj2 (Nat.ltb_ge _ _)) by (rewrite !length_app; lia).
  destruct (Nat.eqb_spec (length s) 0) as [H0|H0].
  { apply nil_length_inv in H0. by subst s. }
  rewrite index_range_Ok by (rewrite !length_app; lia). simpl. f_equal.
  rewrite app_assoc, drop_app_length' by (rewrite length_app; lia).
  rewrite firstn_all. by apply lossy_valid.
Qed.

(** ** Encoders write exactly the frame *)

Lemma write_at_all {A} (bs l : list A) : length bs = length l -> write_at 0 bs l = bs.
Proof. intros H. unfold write_at. simpl. by rewrite H, drop_all, app_nil_r. Qed.

Lemma write_at_app {A} (pre l bs : list A) :
  write_at (length pre) bs (pre ++ l) = pre ++ write_at 0 bs l.
Proof.
  unfold write_at. rewrite take_app_length. simpl. f_equal. f_equal.
  rewrite drop_app_ge by lia. f_equal. lia.
Qed.

Lemma write_at_prefix {A} (bs l : list A) :
  (length bs <= length l)%nat -> write_at 0 bs l = bs ++ drop (length bs) l.
Proof. done. Qed.

(** The frame of a struct and its payload. *)
Definition framed (e : endian) (ts : Z) (body : list Z) : list Z := to_ne_bytes e 8 ts ++ body.

Lemma write_header e ts body dst :
  (8 + length body <= length dst)%nat ->
  write_at 8 body (write_at 0 (to_ne_bytes e 8 ts) dst)
  = framed e ts body ++ drop (8 + length body) dst.
Proof.
  intros Hl. rewrite write_at_prefix by (rewrite length_to_ne_bytes; lia).
  rewrite <- (length_to_ne_bytes e 8 ts) at 1. rewrite write_at_app, write_at_prefix.
  - unfold framed. rewrite <- app_assoc, length_to_ne_bytes, drop_drop. done.
  - rewrite length_drop, length_to_ne_bytes. lia.
Qed.

Lemma encode_fixed_eq {E} e size dst ts fs pad :
  layout_ok size fs -> length pad = size -> length dst = (8 + size)%nat ->
  encode_fixed (E := E) e size (Some dst) ts fs pad = Ok (framed e ts (struct_bytes e fs pad)).
Proof.
  intros Hok Hp Hd. pose proof (length_struct_bytes e size fs pad Hok Hp) as Hl.
  unfold encode_fixed. rewrite (proj2 (Nat.eqb_eq _ _)) by done.
  rewrite take_ge by lia. rewrite write_header by lia.
  by rewrite Hl, <- Hd, drop_all, app_nil_r.
Qed.

Lemma consumed_sum size strs :
  0 <= size -> size + Z.of_nat (length (concat strs)) <= 65535 ->
  consumed size strs = size + Z.of_nat (length (concat strs)).
Proof.
  unfold consumed. revert size. induction strs as [|s strs IH]; intros size H0 Hs; simpl in *; [lia|].
  rewrite length_app in *.
  replace (saturating_add 32 size (Z.of_nat (length s))) with (size + Z.of_nat (length s))
    by (unfold saturating_add; lia).
  rewrite IH by lia. lia.
Qed.

Lemma append_strs_eq strs pre dst :
  (length (concat strs) <= length dst)%nat ->
  (append_strs (length pre) strs (pre ++ dst)).2
  = pre ++ concat strs ++ drop (length (concat strs)) dst.
Proof.
  unfold append_strs. revert pre dst. induction strs as [|s strs IH]; intros pre dst Hl; [done|].
  simpl in *. rewrite length_app in Hl. case_bool_decide as Hs.
  - subst s. simpl. by apply IH.
  - rewrite write_at_app, write_at_prefix by lia. rewrite app_assoc, <- length_app.
    rewrite IH by (rewrite length_drop; lia).
    by rewrite drop_drop, length_app, <- !app_assoc.
Qed.

Lemma encode_dynamic_eq {E} e size dst ts fs pad strs :
  let c := Z.of_nat size + Z.of_nat (length (concat strs)) in
  layout_ok size (fs c) -> length pad = size -> c <= 65535 ->
  Z.of_nat (length dst) = 8 + c ->
  encode_dynamic (E := E) e size (Some dst) ts fs pad strs
  = Ok (framed e ts (struct_bytes e (fs c) pad ++ concat strs)).
Proof.
  intros c Hok Hp Hc Hd. pose proof (length_struct_bytes e size (fs c) pad Hok Hp) as Hl.
  unfold encode_dynamic. rewrite consumed_sum by lia. fold c.
  rewrite (proj2 (Z.leb_le _ _)) by lia. unfold saturating_add. rewrite Z.min_l by lia.
  rewrite (proj2 (Z.eqb_eq _ _)) by lia. f_equal. rewrite take_ge by lia.
  rewrite write_header by lia. rewrite Hl.
  assert (8 + size = length (framed e ts (struct_bytes e (fs c) pad)))%nat as Hpre.
  { unfold framed. rewrite length_app, length_to_ne_bytes. lia. }
  rewrite Hpre at 1. rewrite append_strs_eq by (rewrite length_drop; lia).
  rewrite drop_drop, (drop_ge dst) by lia. unfold framed. by rewrite app_nil_r, <- app_assoc.
Qed.

(** An encoder refuses a missing destination and a destination of any other
    length. *)
Lemma encode_fixed_refuses {E} e size dest ts fs pad :
  match dest with Some dst => length dst <> (8 + size)%nat | None => True end ->
  encode_fixed (E := E) e size dest ts fs pad = Panic.
Proof.
  intros H. unfold encode_fixed. destruct dest as [dst|]; [|done].
  by rewrite (proj2 (Nat.eqb_neq _ _)) by lia.
Qed.

(** The offset of string [k] of the payload. *)
Definition str_off (n : nat) (strs : list (list Z)) (k : nat) : nat :=
  (n + length (concat (take k strs)))%nat.

Lemma concat_split {A} (l : list (list A)) k s :
  l !! k = Some s -> concat l = concat (take k l) ++ s ++ concat (drop (S k) l).
Proof.
  intros Hk. rewrite <- (take_drop_middle l k s Hk) at 1. by rewrite concat_app.
Qed.

Lemma str_off_S n strs k s :
  strs !! k = Some s -> str_off n strs (S k) = (str_off n strs k + length s)%nat.
Proof.
  intros Hk. unfold str_off. rewrite (take_S_r _ _ _ Hk), concat_app, length_app. simpl.
  rewrite app_nil_r. lia.
Qed.

(** Reading the strings of a payload one after the other. *)
Lemma get_str_nth e n fs pad strs k s hdr :
  layout_ok n fs -> length pad = n -> Forall (fun s => valid_utf8 s = true) strs ->
  strs !! k = Some s -> mkField hdr 2 (Z.of_nat (length s)) ∈ fs ->
  get_str e (struct_bytes e fs pad ++ concat strs) hdr (str_off n strs k)
  = Ok (s, str_off n strs (S k)).
Proof.
  intros Hok Hp Hv Hk Hin. rewrite (str_off_S n strs k s Hk), (concat_split strs k s Hk).
  apply (get_str_field e n); try done.
  by apply (proj1 (Forall_lookup _ _) Hv k).
Qed.

Lemma get_tail_last e n fs pad strs k s len :
  layout_ok n fs -> length pad = n -> Forall (fun s => valid_utf8 s = true) strs ->
  strs !! k = Some s -> length strs = S k -> Z.of_nat (n + length (concat strs)) = len ->
  get_tail (struct_bytes e fs pad ++ concat strs) len (str_off n strs k) = Ok s.
Proof.
  intros Hok Hp Hv Hk Hlast Hlen. rewrite (concat_split strs k s Hk) in *.
  rewrite (drop_ge strs (S k)) in * by lia. simpl in *. rewrite app_nil_r in *.
  apply (get_tail_field e n); try done.
  - unfold str_off. rewrite length_app in Hlen. lia.
  - by apply (proj1 (Forall_lookup _ _) Hv k).
Qed.

(** ** Decoding never panics once the header is complete *)

Lemma get_uint_no_panic e body off w :
  (off + w <= length body)%nat -> get_uint e body off w <> Panic.
Proof. intros H. unfold get_uint. by rewrite index_range_Ok. Qed.

Lemma index_no_panic {E} (body : list Z) off : (off < length body)%nat -> index (E := E) body off <> Panic.
Proof. intros H. unfold index. by destruct (lookup_lt_is_Some_2 body off H) as [x ->]. Qed.

Lemma get_str_no_panic e body hdr off :
  (hdr + 2 <= length body)%nat -> get_str e body hdr off <> Panic.
Proof.
  intros H. unfold get_str. apply rbind_no_panic; [by apply get_uint_no_panic|]. intros l _.
  destruct (Nat.ltb_spec (length body) (off + Z.to_nat l)); [done|].
  destruct (Z.to_nat l =? 0)%nat; [done|]. by rewrite index_range_Ok by lia.
Qed.

Lemma get_tail_no_panic body len off : get_tail body len off <> Panic.
Proof.
  unfold get_tail. destruct (Nat.ltb_spec (length body) (off + (Z.to_nat len - off))); [done|].
  destruct (_ =? 0)%nat; [done|]. by rewrite index_range_Ok by lia.
Qed.

Lemma check_rpc_no_panic e id body : check_rpc e id body <> Panic.
Proof.
  unfold check_rpc. destruct (Nat.ltb_spec (length body) 2); [done|].
  rewrite (index_range_Ok body 0 2) by lia. simpl. by case_match.
Qed.

Lemma check_len_no_panic e body : check_len e body <> Panic.
Proof.
  unfold check_len. destruct (Nat.ltb_spec (length body) 4); [done|].
  rewrite (index_range_Ok body 2 2) by lia. cbn [rbind]. by repeat case_match.
Qed.
