(* ===== verification/Codec.v ===== *)
(** * The generated codecs (crates/render/ebpf_net)

    The crates of the other applications are generated from the templates of
    the aggregation crate, for hundreds of messages.  Their functions differ
    in literals only: the identifier, the size of the header, the fields of
    the [repr(C)] struct, the offsets a [decode] reads and the order of the
    strings.  Here an encoder and a decoder are given by these literals, as
    the source has them, and [encode] and [decode] say what the template does
    with them.  A parsed struct is the list of its named fields.

    The literals of the encoder and of the decoder are independent: the round
    trip holds for the pairs that pass [message_ok], a check on the literals
    that compares the decoder's offsets with the [repr(C)] layout.  The layout
    itself is checked against the sizes and offsets that the crates' layout
    tests assert of the compiler ([wire_ok]). *)

From S2P Require Import Prelude RenderParser Utf8 Wire.

Local Open Scope rust_scope.

(** ** Values and structs *)

(** An integer, or the bytes of an array or a string. *)
Inductive value := VInt (z : Z) | VBytes (bs : list Z).

(** Types of struct fields: [uN], [iN] and [[u8; N]], with sizes in bytes. *)
Inductive wty := U (w : nat) | I (w : nat) | Arr (n : nat).

#[export] Instance wty_eq : EqDecision wty.
Proof. solve_decision. Defined.

Definition wty_size (t : wty) : nat := match t with U w | I w => w | Arr n => n end.
Definition wty_align (t : wty) : nat := match t with U w | I w => w | Arr _ => 1 end.

Abbreviation struct := (list (string * wty)).

(** The [repr(C)] layout: each field at the next offset its alignment
    divides. *)
Fixpoint place (off : nat) (s : struct) : list (string * nat * wty) :=
  match s with
  | [] => []
  | (nm, t) :: s =>
      let o := ((off + wty_align t - 1) / wty_align t * wty_align t)%nat in
      (nm, o, t) :: place (o + wty_size t) s
  end.

(** [align_of] and [size_of] of the struct: its size is the end of its last
    field, rounded up to its alignment. *)
Definition round_up (n a : nat) : nat := ((n + a - 1) / a * a)%nat.
Definition align_of (s : struct) : nat := list_max (wty_align <$> s.*2).
Definition raw_size (s : struct) : nat := list_max ((fun '(_, o, t) => o + wty_size t)%nat <$> place 0 s).
Definition size_of (s : struct) : nat := round_up (raw_size s) (align_of s).

(** A wire struct: its fields, the metadata of its message, the constant of
    its size on the wire, and the offsets its layout test asserts. *)
Record wire := mkWire {
  w_struct : struct;
  w_metadata : MessageMetadata;
  w_size : nat;
  w_offsets : list (string * nat);
}.

(** [Default]: [core::mem::zeroed()]. *)
Definition wire_default (w : wire) : list Z := replicate (size_of (w_struct w)) 0.

(** What the layout tests assert: the size, up to tail padding, and the offset
    of every field. *)
Definition wire_ok (w : wire) : bool :=
  (size_of (w_struct w) =? round_up (w_size w) (align_of (w_struct w)))%nat
  && bool_decide (fst <$> place 0 (w_struct w) = w_offsets w).

(** What a value is in memory, read as an unsigned integer of its size. *)
Definition mem_val (e : endian) (t : wty) (v : value) : Z :=
  match v with
  | VInt z => wrap (8 * Z.of_nat (wty_size t)) z
  | VBytes bs => from_ne_bytes e bs
  end.

Definition fields (e : endian) (s : struct) (val : string -> value) : list field :=
  (fun '(nm, o, t) => mkField o (wty_size t) (mem_val e t (val nm))) <$> place 0 s.

(** ** Encoders *)

(** The C types of parameters: [uN] and [iN], [*const u8] for an array, and
    [JbBlob] for a string. *)
Inductive pty := PU (w : nat) | PI (w : nat) | PPtr | PBlob.

#[export] Instance pty_eq : EqDecision pty.
Proof. solve_decision. Defined.

(** The parameters after the destination and the timestamp, in their order. *)
Abbreviation signature := (list (string * pty)).

Inductive encoder :=
| FixedEncoder (id : Z) (size : nat) (ps : signature) (s : struct)
| DynamicEncoder (id : Z) (size : nat) (ps : signature) (s : struct) (blobs : list string).

Definition bytes_of (v : value) : list Z := match v with VBytes bs => bs | VInt _ => [] end.

(** The initializer of the struct: the identifier, the encoded length, the
    lengths of the strings, and the arguments. *)
Definition init (id c : Z) (blobs : list string) (args : string -> value) (nm : string) : value :=
  if String.eqb nm "_rpc_id" then VInt id
  else if String.eqb nm "_len" then VInt (wrap 16 c)
  else if bool_decide (nm ∈ blobs) then VInt (wrap 16 (Z.of_nat (length (bytes_of (args nm)))))
  else args nm.

(** An argument, by the name of its parameter. *)
Fixpoint arg (l : list (string * value)) (nm : string) : value :=
  match l with
  | [] => VInt 0
  | (n, v) :: l => if String.eqb n nm then v else arg l nm
  end.

Definition encode {E} (e : endian) (en : encoder) (dest : option (list Z)) (tstamp : Z)
    (args : string -> value) (pad : list Z) : res E (list Z) :=
  match en with
  | FixedEncoder id size _ s => encode_fixed e size dest tstamp (fields e s (init id 0 [] args)) pad
  | DynamicEncoder id size _ s blobs =>
      encode_dynamic e size dest tstamp (fun c => fields e s (init id c blobs args)) pad
        (bytes_of ∘ args <$> blobs)
  end.

(** ** Decoders *)

(** How a header field is read. *)
Inductive getter := GUint (off w : nat) | GInt (off w : nat) | GByte (off : nat) | GArr (off n : nat).

Inductive decoder :=
| FixedDecoder (id : Z) (size : nat) (gets : list (string * getter))
| DynamicDecoder (id : Z) (gets : list (string * getter)) (off : nat) (strs : list (string * nat))
    (tail : string).

(** [while i < n { tmp[i] = body[off + i] }]. *)
Fixpoint get_array (body : list Z) (off n : nat) : res DecodeError (list Z) :=
  match n with
  | O => Ok []
  | S n =>
      let? b := index body off in
      let? bs := get_array body (S off) n in
      Ok (b :: bs)
  end.

Definition run_get (e : endian) (body : list Z) (g : getter) : res DecodeError value :=
  match g with
  | GUint off w => rmap VInt (get_uint e body off w)
  | GInt off w => rmap (fun z => VInt (as_signed (8 * Z.of_nat w) z)) (get_uint e body off w)
  | GByte off => rmap VInt (index body off)
  | GArr off n => rmap VBytes (get_array body off n)
  end.

Fixpoint run_gets (e : endian) (body : list Z) (gets : list (string * getter))
    : res DecodeError (list (string * value)) :=
  match gets with
  | [] => Ok []
  | (nm, g) :: gets =>
      let? v := run_get e body g in
      let? vs := run_gets e body gets in
      Ok ((nm, v) :: vs)
  end.

Fixpoint run_strs (e : endian) (body : list Z) (len : Z) (off : nat) (strs : list (string * nat))
    (tail : string) : res DecodeError (list (string * value)) :=
  match strs with
  | [] =>
      let? s := get_tail body len off in
      Ok [(tail, VBytes s)]
  | (nm, hdr) :: strs =>
      let? '(s, off) := get_str e body hdr off in
      let? vs := run_strs e body len off strs tail in
      Ok ((nm, VBytes s) :: vs)
  end.

Definition decode (e : endian) (d : decoder) (body : list Z)
    : res DecodeError (list (string * value)) :=
  match d with
  | FixedDecoder id size gets =>
      let? rpc := check_rpc e id body in
      let? _ := check_size size body in
      let? vs := run_gets e body gets in
      Ok (("_rpc_id"%string, VInt rpc) :: vs)
  | DynamicDecoder id gets off strs tail =>
      let? rpc := check_rpc e id body in
      let? len := check_len e body in
      let? vs := run_gets e body gets in
      let? ss := run_strs e body len off strs tail in
      Ok (("_rpc_id"%string, VInt rpc) :: vs ++ ss)
  end.

(** ** Messages *)

#[export] Instance Size_eq : EqDecision Size.
Proof. solve_decision. Defined.

Record message := mkMessage { m_encoder : encoder; m_decoder : decoder; m_wire : wire }.

Definition m_metadata (m : message) : MessageMetadata := w_metadata (m_wire m).

(** The messages of a crate, from its three files: encoder.rs,
    parsed_message.rs and wire_messages.rs list them in the same order. *)
Fixpoint link (es : list encoder) (ds : list decoder) (ws : list wire) : list message :=
  match es, ds, ws with
  | e :: es, d :: ds, w :: ws => mkMessage e d w :: link es ds ws
  | _, _, _ => []
  end.

Definition signature_of (en : encoder) : signature :=
  match en with FixedEncoder _ _ ps _ | DynamicEncoder _ _ ps _ _ => ps end.
Definition blobs_of (en : encoder) : list string :=
  match en with FixedEncoder _ _ _ _ => [] | DynamicEncoder _ _ _ _ blobs => blobs end.
Definition struct_of (en : encoder) : struct :=
  match en with FixedEncoder _ _ _ s | DynamicEncoder _ _ _ s _ => s end.
Definition header_size (en : encoder) : nat :=
  match en with FixedEncoder _ size _ _ | DynamicEncoder _ size _ _ _ => size end.

(** The names of the parameters of an encoder. *)
Definition params (en : encoder) : list string := (signature_of en).*1.

(** The place of a field that a getter reads. *)
Definition reads (nm : string) (g : getter) (x : string * nat * wty) : bool :=
  let '(nm', o, t) := x in
  String.eqb nm nm'
  && match g, t with
     | GUint off w, U w' => (off =? o)%nat && (w =? w')%nat && (0 <? w)%nat
     | GInt off w, I w' => (off =? o)%nat && (w =? w')%nat && (0 <? w)%nat
     | GByte off, U 1 => (off =? o)%nat
     | GArr off n, Arr n' => (off =? o)%nat && (n =? n')%nat
     | _, _ => false
     end.

Definition plain (blobs : list string) (nm : string) : bool :=
  negb (String.eqb nm "_rpc_id") && negb (String.eqb nm "_len") && negb (bool_decide (nm ∈ blobs)).

(** The struct fits the header, its fields have sizes, and every header field
    of the decoder is read where it lies. *)
Definition header_ok (size : nat) (s : struct) (blobs : list string) (gets : list (string * getter))
    : bool :=
  forallb (fun '(_, o, t) => (o + wty_size t <=? size)%nat && (0 <? wty_size t)%nat) (place 0 s)
  && forallb (fun '(nm, g) => plain blobs nm && existsb (reads nm g) (place 0 s)) gets
  && bool_decide (NoDup s.*1).

(** A parameter has the type of the field it initializes. *)
Definition param_ok (en : encoder) (x : string * pty) : bool :=
  let '(nm, t) := x in
  match t with
  | PBlob => bool_decide (nm ∈ blobs_of en)
  | PU w => bool_decide ((nm, U w) ∈ struct_of en) && plain (blobs_of en) nm
  | PI w => bool_decide ((nm, I w) ∈ struct_of en) && plain (blobs_of en) nm
  | PPtr => existsb (fun y => String.eqb nm y.1 && match y.2 with Arr _ => true | _ => false end) (struct_of en)
      && plain (blobs_of en) nm
  end.

(** The fields a decoder returns. *)
Definition names_of (d : decoder) : list string :=
  match d with
  | FixedDecoder _ _ gets => gets.*1
  | DynamicDecoder _ gets _ strs tail => gets.*1 ++ strs.*1 ++ [tail]
  end.

(** The identifiers, sizes and fields of encoder and decoder agree. *)
Definition parts_ok (m : message) : bool :=
  match m_encoder m, m_decoder m with
  | FixedEncoder id size _ s, FixedDecoder id' size' gets =>
      (id =? id') && (size =? size')%nat && bool_decide (fits 16 id)
      && header_ok size s [] gets
      && bool_decide (head s = Some ("_rpc_id"%string, U 2))
      && (rpc_id (m_metadata m) =? id)
      && bool_decide (RenderParser.size (m_metadata m) = Fixed (Z.of_nat size))
  | DynamicEncoder id size _ s blobs, DynamicDecoder id' gets off strs tail =>
      (id =? id') && (size =? off)%nat && bool_decide (fits 16 id)
      && header_ok size s blobs gets
      && bool_decide (take 2 s = [("_rpc_id"%string, U 2); ("_len"%string, U 2)])
      && bool_decide (blobs = strs.*1 ++ [tail])
      && forallb (fun '(nm, hdr) => negb (String.eqb nm "_rpc_id") && negb (String.eqb nm "_len")
           && bool_decide ((nm, hdr, U 2) ∈ place 0 s)) strs
      && (rpc_id (m_metadata m) =? id)
      && bool_decide (RenderParser.size (m_metadata m) = Dynamic)
  | _, _ => false
  end.

(** The encoder fills the wire struct and copies all of it, every parameter
    has its field, and every parameter is decoded, once. *)
Definition message_ok (m : message) : bool :=
  parts_ok m && wire_ok (m_wire m)
  && bool_decide (struct_of (m_encoder m) = w_struct (m_wire m))
  && (header_size (m_encoder m) =? w_size (m_wire m))%nat
  && (raw_size (w_struct (m_wire m)) =? w_size (m_wire m))%nat
  && forallb (param_ok (m_encoder m)) (signature_of (m_encoder m))
  && bool_decide (NoDup (names_of (m_decoder m)))
  && bool_decide (names_of (m_decoder m) ≡ₚ params (m_encoder m)).

(** ** Arguments *)

Definition typed (t : wty) (v : value) : Prop :=
  match t, v with
  | U w, VInt z => fits (8 * Z.of_nat w) z
  | I w, VInt z => - 2 ^ (8 * Z.of_nat w - 1) <= z < 2 ^ (8 * Z.of_nat w - 1)
  | Arr n, VBytes bs => length bs = n /\ is_bytes bs
  | _, _ => False
  end.

Definition encoded_size (en : encoder) (args : string -> value) : nat :=
  (header_size en + length (concat (bytes_of ∘ args <$> blobs_of en)))%nat.

(** The arguments have the types of the struct, the strings are UTF-8, and
    the message fits its length field. *)
Definition args_ok (en : encoder) (args : string -> value) : Prop :=
  (forall nm t, (nm, t) ∈ struct_of en -> plain (blobs_of en) nm = true -> typed t (args nm))
  /\ (forall nm, nm ∈ blobs_of en -> exists s, args nm = VBytes s /\ valid_utf8 s = true)
  /\ Z.of_nat (encoded_size en args) <= 65535.

(** ** The layout of a struct *)

Lemma place_sizes off s :
  (forall x, x ∈ place off s -> (0 < wty_size x.2)%nat) -> forall nm t, (nm, t) ∈ s -> (0 < wty_size t)%nat.
Proof.
  revert off. induction s as [|[nm t] s IH]; intros off H nm' t' Hin; [by apply elem_of_nil in Hin|].
  simpl in H. apply elem_of_cons in Hin as [[= -> ->]|Hin].
  - eapply (H (nm, _, t)). by left.
  - eapply IH; [|exact Hin]. intros x Hx. apply H. by right.
Qed.

Lemma place_from off s x :
  (forall x, x ∈ place off s -> (0 < wty_size x.2)%nat) -> x ∈ place off s -> (off <= x.1.2)%nat.
Proof.
  revert off. induction s as [|[nm t] s IH]; intros off H Hin; [by apply elem_of_nil in Hin|].
  simpl in H, Hin. set (o := ((off + wty_align t - 1) / wty_align t * wty_align t)%nat) in *.
  assert (off <= o)%nat as Ho.
  { assert (0 < wty_align t)%nat as Ha.
    { specialize (H (nm, o, t) ltac:(by left)). simpl in H. destruct t; simpl in *; lia. }
    unfold o. pose proof (Nat.div_mod_eq (off + wty_align t - 1) (wty_align t)).
    pose proof (Nat.mod_upper_bound (off + wty_align t - 1) (wty_align t)). lia. }
  apply elem_of_cons in Hin as [->|Hin]; [done|].
  assert (o + wty_size t <= x.1.2)%nat; [|lia]. apply IH; [|done]. intros y Hy. apply H. by right.
Qed.

Lemma round_up_le n a : (0 < a)%nat -> (n <= round_up n a)%nat.
Proof.
  intros Ha. unfold round_up. pose proof (Nat.div_mod_eq (n + a - 1) a).
  pose proof (Nat.mod_upper_bound (n + a - 1) a). lia.
Qed.

(** Every field lies inside the struct. *)
Lemma place_inside s nm o t :
  (forall nm t, (nm, t) ∈ s -> (0 < wty_size t)%nat) -> (nm, o, t) ∈ place 0 s -> (o + wty_size t <= size_of s)%nat.
Proof.
  intros Hs Hin. transitivity (raw_size s).
  - apply (proj1 (Forall_forall _ _) (proj1 (list_max_le _ _) (le_n _))). apply list_elem_of_fmap.
    by exists (nm, o, t).
  - apply round_up_le. unfold align_of. destruct s as [|[nm' t'] s]; [by apply elem_of_nil in Hin|].
    cbn [fmap list_fmap fst snd list_max foldr]. enough (0 < wty_align t')%nat by lia.
    specialize (Hs nm' t' ltac:(by left)). destruct t'; simpl in *; lia.
Qed.

Lemma from_zeros e n : from_ne_bytes e (replicate n 0) = 0.
Proof.
  assert (little_endian_to_Z 8 (replicate n 0) = 0) as H by (induction n as [|n IH]; [done|]; simpl; by rewrite IH).
  unfold from_ne_bytes. destruct e; [done|]. by rewrite reverse_replicate.
Qed.

(** The default value of a struct has zero in every field. *)
Lemma default_zero e w nm o t :
  (forall nm t, (nm, t) ∈ w_struct w -> (0 < wty_size t)%nat) -> (nm, o, t) ∈ place 0 (w_struct w) ->
  get_uint e (wire_default w) o (wty_size t) = Ok 0.
Proof.
  intros Hs Hin. apply place_inside in Hin; [|done]. unfold get_uint, wire_default.
  rewrite index_range_Ok by (rewrite length_replicate; lia). cbn [rbind].
  rewrite drop_replicate, take_replicate. f_equal. apply from_zeros.
Qed.

Definition field_at (e : endian) (val : string -> value) (x : string * nat * wty) : field :=
  mkField x.1.2 (wty_size x.2) (mem_val e x.2 (val x.1.1)).

Lemma fields_at e s val : fields e s val = field_at e val <$> place 0 s.
Proof. unfold fields. apply list_fmap_ext. by intros _ [[nm o] t] _. Qed.

Lemma layout_place e val n off s :
  (forall x, x ∈ place off s -> (x.1.2 + wty_size x.2 <= n)%nat /\ (0 < wty_size x.2)%nat) ->
  (forall nm t, (nm, t) ∈ s -> fits (8 * Z.of_nat (wty_size t)) (mem_val e t (val nm))) ->
  layout_ok n (field_at e val <$> place off s).
Proof.
  revert off. induction s as [|[nm t] s IH]; intros off Hb Hv; [done|]. simpl in *.
  set (o := ((off + wty_align t - 1) / wty_align t * wty_align t)%nat) in *.
  split_and!.
  - apply (Hb (nm, o, t)). by left.
  - apply Hv. by left.
  - apply forallb_forall. intros f Hf. apply list_elem_of_In in Hf.
    apply list_elem_of_fmap in Hf as (x & -> & Hx).
    unfold disjoint. simpl. apply orb_true_iff. left. apply Nat.leb_le.
    eapply place_from; [|exact Hx]. intros y Hy. apply Hb. by right.
  - apply IH; intros; [apply Hb|apply Hv]; by right.
Qed.

Lemma mem_val_fits e t v : typed t v \/ (exists z, v = VInt z) -> fits (8 * Z.of_nat (wty_size t)) (mem_val e t v).
Proof.
  intros [Ht|[z ->]]; [|by apply wrap_fits; lia].
  destruct t as [w|w|n], v as [z|bs]; try done; try (by apply wrap_fits; lia).
  destruct Ht as [<- Hb]. by apply from_ne_bytes_fits.
Qed.

(** ** Reading a header back *)

Lemma get_array_take body off n :
  (off + n <= length body)%nat -> get_array body off n = Ok (take n (drop off body)).
Proof.
  revert off. induction n as [|n IH]; intros off Hl; [done|]. simpl.
  destruct (lookup_lt_is_Some_2 body off) as [b Hb]; [lia|]. unfold index. rewrite Hb. cbn [rbind unwrap].
  rewrite IH by lia. cbn [rbind]. by rewrite (drop_S _ _ _ Hb).
Qed.

(** A field of the struct is read where it was stored. *)
Lemma run_get_field e n s val pad rest nm g x :
  layout_ok n (fields e s val) -> length pad = n -> x ∈ place 0 s ->
  reads nm g x = true -> typed x.2 (val nm) ->
  run_get e (struct_bytes e (fields e s val) pad ++ rest) g = Ok (val nm).
Proof.
  intros Hok Hp Hin Hr Ht. destruct x as [[nm' o] t]. unfold reads in Hr.
  apply andb_true_iff in Hr as [Hnm Hg]. apply String.eqb_eq in Hnm as <-. simpl in Ht.
  assert (mkField o (wty_size t) (mem_val e t (val nm)) ∈ fields e s val) as Hf.
  { rewrite fields_at. apply list_elem_of_fmap. by eexists (_, _, _). }
  destruct g as [off w|off w|off|off k], t as [w'|w'|k']; try done.
  - apply andb_true_iff in Hg as [Hg _]. apply andb_true_iff in Hg as [->%Nat.eqb_eq ->%Nat.eqb_eq].
    simpl. erewrite get_uint_field by done. simpl. destruct (val nm) as [z|]; [|done]. simpl in *.
    by rewrite wrap_small.
  - apply andb_true_iff in Hg as [Hg Hw]. apply andb_true_iff in Hg as [->%Nat.eqb_eq ->%Nat.eqb_eq].
    apply Nat.ltb_lt in Hw. simpl. erewrite get_uint_field by done. simpl.
    destruct (val nm) as [z|]; [|done]. simpl in *. by rewrite as_signed_wrap by lia.
  - destruct w' as [|[|]]; try done. apply Nat.eqb_eq in Hg as ->. simpl.
    erewrite index_field by done. simpl. destruct (val nm) as [z|]; [|done]. simpl in *.
    by rewrite wrap_small.
  - apply andb_true_iff in Hg as [->%Nat.eqb_eq ->%Nat.eqb_eq]. simpl in *.
    destruct (val nm) as [|bs]; [done|]. destruct Ht as [Hl Hb]. subst k'.
    pose proof (length_struct_bytes e n _ pad Hok Hp) as Hlen.
    destruct (layout_in _ _ _ Hok Hf) as [Hin' _]. simpl in Hin'.
    rewrite get_array_take by (rewrite length_app; lia). simpl. do 2 f_equal.
    rewrite drop_app_le, take_app_le by (rewrite ?length_drop; lia).
    pose proof (struct_bytes_field e n _ pad _ Hok Hp Hf) as Hsb. simpl in Hsb. rewrite Hsb.
    by apply to_from_ne_bytes.
Qed.

Lemma place_in off s x : x ∈ place off s -> (x.1.1, x.2) ∈ s.
Proof.
  revert off. induction s as [|[nm t] s IH]; intros off Hx; simpl in Hx; [by apply elem_of_nil in Hx|].
  apply elem_of_cons in Hx as [->|Hx]; [by left|right]. by eapply IH.
Qed.

Lemma init_plain id c blobs args nm : plain blobs nm = true -> init id c blobs args nm = args nm.
Proof.
  unfold plain, init. intros H. repeat (apply andb_true_iff in H as [H ?]).
  by repeat match goal with H : negb _ = true |- _ => apply negb_true_iff in H; rewrite H end.
Qed.

Lemma init_cases id c blobs args nm :
  plain blobs nm = true \/ exists z, init id c blobs args nm = VInt z.
Proof.
  unfold plain, init. destruct (String.eqb nm "_rpc_id"); [by eauto|].
  destruct (String.eqb nm "_len"); [by eauto|]. case_bool_decide; eauto.
Qed.

(** What the check of a header says. *)
Record header_spec (size : nat) (s : struct) (blobs : list string) (gets : list (string * getter))
    : Prop := {
  hs_in : forall x, x ∈ place 0 s -> (x.1.2 + wty_size x.2 <= size)%nat /\ (0 < wty_size x.2)%nat;
  hs_get : forall nm g, (nm, g) ∈ gets ->
    plain blobs nm = true /\ exists x, x ∈ place 0 s /\ reads nm g x = true;
  hs_names : NoDup s.*1;
}.

Lemma header_ok_spec size s blobs gets : header_ok size s blobs gets = true -> header_spec size s blobs gets.
Proof.
  unfold header_ok. intros H. apply andb_true_iff in H as [H Hnd%bool_decide_eq_true].
  apply andb_true_iff in H as [Hin Hg]. rewrite forallb_forall in Hin, Hg. split; [| |done].
  - intros [[nm o] t] Hx%list_elem_of_In. apply Hin in Hx. apply andb_true_iff in Hx as [?%Nat.leb_le ?%Nat.ltb_lt].
    done.
  - intros nm g Hx%list_elem_of_In. apply Hg in Hx. apply andb_true_iff in Hx as [? Hx]. split; [done|].
    apply existsb_exists in Hx as (x & Hx & ?). exists x. by rewrite list_elem_of_In.
Qed.

(** The struct an encoder fills from typed arguments is well laid out. *)
Lemma init_layout e size s blobs gets id c args :
  header_spec size s blobs gets ->
  (forall nm t, (nm, t) ∈ s -> plain blobs nm = true -> typed t (args nm)) ->
  layout_ok size (fields e s (init id c blobs args)).
Proof.
  intros [Hin _ _] Ht. rewrite fields_at. apply layout_place; [done|]. intros nm t Hs.
  apply mem_val_fits. destruct (init_cases id c blobs args nm) as [Hp|]; [left|by right].
  rewrite init_plain by done. by apply Ht.
Qed.

Definition returned (args : string -> value) (nm : string) : string * value := (nm, args nm).

Lemma run_gets_fields e size s blobs gets id c args pad rest :
  header_spec size s blobs gets ->
  (forall nm t, (nm, t) ∈ s -> plain blobs nm = true -> typed t (args nm)) -> length pad = size ->
  run_gets e (struct_bytes e (fields e s (init id c blobs args)) pad ++ rest) gets
  = Ok (returned args <$> gets.*1).
Proof.
  intros Hs Ht Hp. pose proof (init_layout e _ _ _ _ id c args Hs Ht) as Hok.
  pose proof (hs_get _ _ _ _ Hs) as Hg. clear Hs. induction gets as [|[nm g] gets IH]; [done|]. simpl.
  destruct (Hg nm g) as (Hpl & x & Hx & Hr); [by left|].
  assert (x.1.1 = nm) as Hnm.
  { destruct x as [[nm' o] t]. apply andb_true_iff in Hr as [->%String.eqb_eq _]. done. }
  erewrite run_get_field; [|done|done|done|done|].
  - rewrite init_plain by done. cbn [rbind]. rewrite IH by (intros; apply Hg; by right). done.
  - rewrite init_plain by done. apply Ht; [|done]. rewrite <- Hnm. by eapply place_in.
Qed.

(** The strings, one after the other, the last to the end of the message. *)
Lemma run_strs_fields e size s args pad id c blobs strs tail :
  let ss := bytes_of ∘ args <$> blobs in
  let fs := fields e s (init id c blobs args) in
  layout_ok size fs -> length pad = size -> c = Z.of_nat (size + length (concat ss)) ->
  (forall nm, nm ∈ blobs -> exists s, args nm = VBytes s /\ valid_utf8 s = true) ->
  (forall nm hdr, (nm, hdr) ∈ strs ->
     mkField hdr 2 (Z.of_nat (length (bytes_of (args nm)))) ∈ fs) ->
  forall k, drop k blobs = strs.*1 ++ [tail] ->
  run_strs e (struct_bytes e fs pad ++ concat ss) c (str_off size ss k) strs tail
  = Ok (returned args <$> strs.*1 ++ [tail]).
Proof.
  intros ss fs Hok Hp Hc Hb. assert (Forall (fun s => valid_utf8 s = true) ss) as Hv.
  { apply Forall_fmap, Forall_forall. intros nm Hnm. destruct (Hb nm Hnm) as (b & Heq & ?).
    simpl. by rewrite Heq. }
  assert (forall k nm l, drop k blobs = nm :: l -> ss !! k = Some (bytes_of (args nm))
    /\ VBytes (bytes_of (args nm)) = args nm /\ drop (S k) blobs = l) as Hk.
  { intros k nm l Hd. assert (blobs !! k = Some nm) as Hl.
    { by rewrite <- (Nat.add_0_r k), <- lookup_drop, Hd. }
    split_and!.
    - unfold ss. by rewrite list_lookup_fmap, Hl.
    - destruct (Hb nm) as (b & -> & _); [by eapply list_elem_of_lookup_2|done].
    - rewrite (drop_S _ _ _ Hl) in Hd. by injection Hd. }
  induction strs as [|[nm hdr] strs IH]; intros Hf k Hd; simpl in *.
  - destruct (Hk _ _ _ Hd) as (Hl & Hval & Hd').
    erewrite (get_tail_last e size fs pad ss k); [simpl; unfold returned; by rewrite Hval|done..| |lia].
    unfold ss. rewrite length_fmap. pose proof (length_drop blobs k) as H1.
    rewrite Hd in H1. simpl in H1. lia.
  - destruct (Hk _ _ _ Hd) as (Hl & Hval & Hd').
    erewrite (get_str_nth e size fs pad ss k); [|done..|by apply Hf; left]. cbn [rbind].
    rewrite IH; [simpl; unfold returned at 2; by rewrite Hval| |done]. intros; apply Hf. by right.
Qed.

(** ** Round trips *)

Ltac split_andb H :=
  repeat (let H' := fresh "Hand" in apply andb_true_iff in H as [H H']).

Lemma rpc_field e s val id :
  head s = Some ("_rpc_id"%string, U 2) -> val "_rpc_id"%string = VInt id -> fits 16 id ->
  mkField 0 2 id ∈ fields e s val.
Proof.
  intros Hh Hv Hid. rewrite fields_at. destruct s as [|x s]; simpl in Hh; [done|]. injection Hh as ->.
  simpl. apply elem_of_cons. left. unfold field_at. simpl. rewrite Hv. simpl. by rewrite wrap_small.
Qed.

Lemma u16_field z : fits 16 z -> mem_val LittleEndian (U 2) (VInt (wrap 16 z)) = z.
Proof. intros H. simpl. rewrite wrap_wrap. by apply wrap_small. Qed.

Lemma struct_rpc e n fs pad rest id :
  layout_ok n fs -> length pad = n -> mkField 0 2 id ∈ fs ->
  take 2 (struct_bytes e fs pad ++ rest) = to_ne_bytes e 2 id.
Proof.
  intros Hok Hp Hin. destruct (layout_in _ _ _ Hok Hin) as [Hb _]. simpl in Hb.
  rewrite take_app_le by (rewrite (length_struct_bytes e n) by done; lia).
  by apply (struct_bytes_field e n fs pad (mkField 0 2 id)).
Qed.

(** The contract of a message. *)
Definition roundtrip (m : message) : Prop :=
  forall e args dst ts pad,
  args_ok (m_encoder m) args -> length pad = header_size (m_encoder m) ->
  length dst = (8 + encoded_size (m_encoder m) args)%nat ->
  exists body,
    encode (E := unit) e (m_encoder m) (Some dst) ts args pad = Ok (frame e ts body)
    /\ decode e (m_decoder m) body
       = Ok (("_rpc_id"%string, VInt (rpc_id (m_metadata m))) :: (returned args <$> names_of (m_decoder m)))
    /\ is_body e (m_metadata m) body.

Lemma fixed_roundtrip id size ps s gets w :
  header_spec size s [] gets -> head s = Some ("_rpc_id"%string, U 2) -> fits 16 id ->
  rpc_id (w_metadata w) = id -> RenderParser.size (w_metadata w) = Fixed (Z.of_nat size) ->
  roundtrip (mkMessage (FixedEncoder id size ps s) (FixedDecoder id size gets) w).
Proof.
  intros Hs Hh Hid Hrpc Hsz e args dst ts pad (Ht & _ & _) Hp Hd. unfold m_metadata. simpl in *.
  unfold encoded_size in Hd. simpl in Hd.
  pose proof (init_layout e _ _ _ _ id 0 args Hs Ht) as Hok.
  set (fs := fields e s (init id 0 [] args)) in *.
  pose proof (length_struct_bytes e size fs pad Hok Hp) as Hl.
  assert (mkField 0 2 id ∈ fs) as Hf by (by apply rpc_field).
  destruct (layout_in _ _ _ Hok Hf) as [Hb _]. simpl in Hb.
  exists (struct_bytes e fs pad). split_and!.
  - apply (encode_fixed_eq e size); [done..|lia].
  - unfold check_size. rewrite <- (app_nil_r (struct_bytes e fs pad)).
    erewrite check_rpc_field by done. cbn [rbind].
    rewrite (proj2 (Nat.ltb_ge _ _)) by (rewrite app_nil_r; lia). cbn [rbind].
    unfold fs. rewrite (run_gets_fields e size) by done. cbn [rbind]. by rewrite Hrpc.
  - split; rewrite ?Hrpc, ?Hsz.
    + rewrite <- (app_nil_r (struct_bytes e fs pad)). by apply (struct_rpc e size).
    + lia.
Qed.

(** The strings of a dynamic message have a length field each, the last
    apart. *)
Definition strs_placed (s : struct) (strs : list (string * nat)) : Prop :=
  forall nm hdr, (nm, hdr) ∈ strs -> nm <> "_rpc_id"%string /\ nm <> "_len"%string
    /\ (nm, hdr, U 2) ∈ place 0 s.

Lemma strs_check s strs :
  forallb (fun '(nm, hdr) => negb (String.eqb nm "_rpc_id") && negb (String.eqb nm "_len")
    && bool_decide ((nm, hdr, U 2) ∈ place 0 s)) strs = true -> strs_placed s strs.
Proof.
  rewrite forallb_forall. intros H nm hdr Hin%list_elem_of_In. apply H in Hin.
  split_andb Hin. rewrite ?negb_true_iff, ?bool_decide_eq_true, ?String.eqb_neq in *. done.
Qed.

Lemma dynamic_roundtrip id size ps s blobs gets strs tail w :
  header_spec size s blobs gets -> take 2 s = [("_rpc_id"%string, U 2); ("_len"%string, U 2)] ->
  blobs = strs.*1 ++ [tail] ->
  strs_placed s strs -> fits 16 id ->
  rpc_id (w_metadata w) = id -> RenderParser.size (w_metadata w) = Dynamic ->
  roundtrip (mkMessage (DynamicEncoder id size ps s blobs) (DynamicDecoder id gets size strs tail) w).
Proof.
  intros Hs Hh Hbl Hstr Hid Hrpc Hsz e args dst ts pad (Ht & Hb & Hfit) Hp Hd. unfold m_metadata. simpl in *.
  unfold encoded_size in *. simpl in *. set (ss := bytes_of ∘ args <$> blobs) in *.
  set (c := Z.of_nat size + Z.of_nat (length (concat ss))).
  pose proof (init_layout e _ _ _ _ id c args Hs Ht) as Hok.
  set (fs := fields e s (init id c blobs args)) in *.
  pose proof (length_struct_bytes e size fs pad Hok Hp) as Hl.
  assert (mkField 0 2 id ∈ fs) as Hf.
  { apply rpc_field; [|done..]. destruct s; [done|]. simpl in *. congruence. }
  assert (mkField 2 2 c ∈ fs) as Hf2.
  { unfold fs. rewrite fields_at. destruct s as [|x1 [|x2 s]]; try done. simpl in Hh. injection Hh as -> ->.
    apply elem_of_cons. right. apply elem_of_cons. left. unfold field_at. simpl.
    f_equal. symmetry. apply u16_field. unfold fits. lia. }
  destruct (layout_in _ _ _ Hok Hf2) as [Hb2 _]. simpl in Hb2.
  assert (forall nm hdr, (nm, hdr) ∈ strs ->
    mkField hdr 2 (Z.of_nat (length (bytes_of (args nm)))) ∈ fs) as Hhdr.
  { intros nm hdr Hin. destruct (Hstr _ _ Hin) as (Hn1 & Hn2 & Hpl).
    assert (nm ∈ blobs) as Hnm.
    { rewrite Hbl. apply elem_of_app. left. apply list_elem_of_fmap. by exists (nm, hdr). }
    assert (length (bytes_of (args nm)) <= length (concat ss))%nat as Hle.
    { apply (list_elem_of_fmap_2 (bytes_of ∘ args)) in Hnm. fold ss in Hnm.
      apply list_elem_of_lookup in Hnm as [k Hk]. rewrite (concat_split _ _ _ Hk), !length_app. simpl. lia. }
    unfold fs. rewrite fields_at. apply list_elem_of_fmap. exists (nm, hdr, U 2). split; [|done].
    unfold field_at, init. simpl. rewrite !(proj2 (String.eqb_neq _ _)) by done.
    rewrite bool_decide_true by done. simpl. f_equal. symmetry. apply u16_field. unfold fits. lia. }
  exists (struct_bytes e fs pad ++ concat ss). split_and!.
  - apply (encode_dynamic_eq e size dst ts (fun c => fields e s (init id c blobs args))); fold ss c; try done; lia.
  - erewrite check_rpc_field by done. cbn [rbind].
    erewrite (check_len_field e size fs pad _ c) by (try done; unfold c; lia). cbn [rbind].
    unfold fs at 1. rewrite (run_gets_fields e size) by done. cbn [rbind].
    assert (c = Z.of_nat (size + length (concat ss))) as Hc by (unfold c; lia).
    pose proof (run_strs_fields e size s args pad id c blobs strs tail Hok Hp Hc Hb Hhdr 0 Hbl) as Hr.
    fold ss fs in Hr. replace (str_off size ss 0) with size in Hr by (unfold str_off; simpl; lia).
    rewrite Hr. cbn [rbind]. by rewrite Hrpc, (fmap_app _ gets.*1).
  - split; rewrite ?Hrpc, ?Hsz; [by apply (struct_rpc e size)|].
    rewrite length_app, Hl. replace (Z.of_nat (size + length (concat ss))) with c by (unfold c; lia).
    split; [|unfold c; lia]. rewrite drop_app_le, take_app_le by (rewrite ?length_drop; lia).
    by apply (struct_bytes_field e size fs pad (mkField 2 2 c)).
Qed.

(** What a checked message satisfies. *)
Record message_spec (m : message) : Prop := {
  ms_parts : parts_ok m = true;
  ms_wire : wire_ok (m_wire m) = true;
  ms_struct : struct_of (m_encoder m) = w_struct (m_wire m);
  ms_header : header_size (m_encoder m) = w_size (m_wire m);
  ms_raw : raw_size (w_struct (m_wire m)) = w_size (m_wire m);
  ms_params : forall x, x ∈ signature_of (m_encoder m) -> param_ok (m_encoder m) x = true;
  ms_nodup : NoDup (names_of (m_decoder m));
  ms_names : names_of (m_decoder m) ≡ₚ params (m_encoder m);
}.

Lemma message_ok_spec m : message_ok m = true -> message_spec m.
Proof.
  unfold message_ok. intros H. split_andb H. rewrite ?bool_decide_eq_true, ?Nat.eqb_eq in *.
  split; try done. rewrite forallb_forall in Hand1. intros x Hx. by apply Hand1, list_elem_of_In.
Qed.

(** The check is sound: a message that passes round trips. *)
Lemma parts_ok_correct m : parts_ok m = true -> roundtrip m.
Proof.
  destruct m as [en de w]. unfold parts_ok, m_metadata. simpl.
  destruct en as [id size ps s|id size ps s blobs], de as [id' size' gets|id' gets off strs tail]; try done;
    intros H; split_andb H; rewrite ?bool_decide_eq_true, ?Nat.eqb_eq, ?Z.eqb_eq in *; subst.
  - apply header_ok_spec in Hand2. by apply fixed_roundtrip.
  - apply header_ok_spec in Hand4. apply strs_check in Hand1. by apply dynamic_roundtrip.
Qed.

Lemma fields_sized m :
  message_ok m = true -> forall nm t, (nm, t) ∈ w_struct (m_wire m) -> (0 < wty_size t)%nat.
Proof.
  intros [Hp _ Hst _ _ _ _ _]%message_ok_spec. rewrite <- Hst. unfold parts_ok in Hp.
  destruct (m_encoder m) as [id size ps s|id size ps s blobs],
    (m_decoder m) as [id' size' gets|id' gets off strs tail]; try done; split_andb Hp;
    [apply header_ok_spec in Hand2 as Hs|apply header_ok_spec in Hand4 as Hs]; simpl;
    apply (place_sizes 0); intros x Hx; by apply (hs_in _ _ _ _ Hs) in Hx as [_ ?].
Qed.

(** ** When a decoder panics *)

Definition get_end (g : getter) : nat :=
  match g with GUint off w | GInt off w | GArr off w => off + w | GByte off => off + 1 end.

(** The bytes a decoder reads before it compares the strings with the body. *)
Definition needed (d : decoder) : nat :=
  match d with
  | FixedDecoder _ _ _ => 0
  | DynamicDecoder _ gets _ strs _ =>
      Nat.max (list_max (get_end ∘ snd <$> gets)) (list_max ((fun x => snd x + 2)%nat <$> take 1 strs))
  end.

(** A getter reads at least a byte. *)
Definition sized (g : getter) : Prop :=
  match g with GUint _ w | GInt _ w | GArr _ w => (0 < w)%nat | GByte _ => True end.

Lemma get_uint_panic e body off w :
  (0 < w)%nat -> get_uint e body off w = Panic <-> (length body < off + w)%nat.
Proof.
  intros Hpos. split.
  - intros H. destruct (decide (length body < off + w)%nat); [done|]. exfalso.
    unfold get_uint in H. by rewrite index_range_Ok in H by lia.
  - intros Hlt. unfold get_uint, index_range. case_decide; [|done].
    destruct (sublist_lookup _ _ _) eqn:Hs; [|done]. apply sublist_lookup_Some' in Hs as [_ ?]. lia.
Qed.

Lemma get_array_panic body off n :
  (0 < n)%nat -> get_array body off n = Panic <-> (length body < off + n)%nat.
Proof.
  intros Hn. split.
  - intros H. destruct (decide (length body < off + n)%nat); [done|]. exfalso.
    by rewrite get_array_take in H by lia.
  - revert off. induction n as [|n IH]; intros off Hl; [lia|]. simpl. unfold index.
    destruct (body !! off) eqn:Ho; [|done]. simpl. apply lookup_lt_Some in Ho. by rewrite IH by lia.
Qed.

Lemma rmap_panic {E A B} (f : A -> B) (c : res E A) : rmap f c = Panic <-> c = Panic.
Proof. by destruct c. Qed.

Lemma run_get_panic e body g : sized g -> run_get e body g = Panic <-> (length body < get_end g)%nat.
Proof.
  destruct g as [off w|off w|off|off n]; intros Hw; simpl; rewrite rmap_panic.
  - by apply get_uint_panic.
  - by apply get_uint_panic.
  - unfold index. destruct (body !! off) eqn:Hl; simpl.
    + apply lookup_lt_Some in Hl. split; [done|lia].
    + apply lookup_ge_None in Hl. split; [lia|done].
  - by apply get_array_panic.
Qed.

Lemma run_get_no_err e body g err : run_get e body g <> Err err.
Proof.
  assert (forall off w, get_uint e body off w <> Err err) as Hu.
  { intros off w. unfold get_uint, index_range. case_decide; [|done]. by destruct (sublist_lookup _ _ _). }
  destruct g as [off w|off w|off|off n]; simpl.
  - specialize (Hu off w). by destruct (get_uint e body off w); [|injection 1 as ->|].
  - specialize (Hu off w). by destruct (get_uint e body off w); [|injection 1 as ->|].
  - unfold index. by destruct (body !! off).
  - enough (get_array body off n <> Err err) as Ha by (by destruct (get_array body off n); [|injection 1 as ->|]).
    revert off. induction n as [|n IH]; intros off; [done|]. simpl. unfold index.
    destruct (body !! off); [|done]. simpl. specialize (IH (S off)).
    by destruct (get_array body (S off) n); [|injection 1 as ->|].
Qed.

Lemma run_gets_panic e body gets :
  (forall nm g, (nm, g) ∈ gets -> sized g) ->
  run_gets e body gets = Panic <-> (length body < list_max (get_end ∘ snd <$> gets))%nat.
Proof.
  induction gets as [|[nm g] gets IH]; intros Hs; [split; [done|simpl; lia]|].
  change (list_max (get_end ∘ snd <$> (nm, g) :: gets))
    with (Nat.max (get_end g) (list_max (get_end ∘ snd <$> gets))). cbn [run_gets].
  assert (sized g) as Hg by (eapply Hs; by left). pose proof (run_get_panic e body g Hg) as Hp.
  destruct IH as [IH1 IH2]; [intros; eapply Hs; by right|].
  destruct (run_get e body g) as [v|err|] eqn:Hr; cbn [rbind].
  - assert (~ (length body < get_end g)%nat) by (intros H; by apply Hp in H).
    split; [|intros; rewrite IH2; [done|lia]].
    destruct (run_gets e body gets) eqn:Hgs; [done|done|]. intros _. specialize (IH1 eq_refl). lia.
  - by apply run_get_no_err in Hr.
  - split; [intros _|done]. assert (length body < get_end g)%nat by (by apply Hp). lia.
Qed.

Lemma run_gets_no_err e body gets err : run_gets e body gets <> Err err.
Proof.
  induction gets as [|[nm g] gets IH]; simpl; [done|].
  pose proof (run_get_no_err e body g err). destruct (run_get e body g); [|by injection 1 as ->|done].
  simpl. by destruct (run_gets e body gets); [|injection 1 as ->|].
Qed.

Lemma run_strs_no_panic e body len off strs tail :
  (forall nm hdr, (nm, hdr) ∈ strs -> (hdr + 2 <= length body)%nat) ->
  run_strs e body len off strs tail <> Panic.
Proof.
  revert off. induction strs as [|[nm hdr] strs IH]; intros off Hs; simpl.
  - apply rbind_no_panic; [apply get_tail_no_panic|done].
  - apply rbind_no_panic; [apply get_str_no_panic; eapply Hs; by left|]. intros [str off'] _.
    apply rbind_no_panic; [apply IH; intros; eapply Hs; by right|done].
Qed.

(** On a body shorter than the header, the strings fail: by a panic when the
    first length lies outside, by an error otherwise. *)
Lemma run_strs_short e body len off strs tail :
  (length body < off)%nat ->
  run_strs e body len off strs tail = Panic
  <-> (length body < list_max ((fun x => snd x + 2)%nat <$> take 1 strs))%nat.
Proof.
  intros Hoff. destruct strs as [|[nm hdr] strs].
  { simpl. split; [|lia]. intros H. exfalso. by apply (run_strs_no_panic e body len off [] tail) in H;
      [|intros ?? []%elem_of_nil]. }
  replace (list_max ((fun x => snd x + 2)%nat <$> take 1 ((nm, hdr) :: strs))) with (hdr + 2)%nat
    by (simpl; lia).
  rewrite <- (get_uint_panic e) by lia. simpl. unfold get_str.
  destruct (get_uint e body hdr 2) as [l|err|] eqn:Hg; cbn [rbind]; [|done|done].
  by rewrite (proj2 (Nat.ltb_lt _ _)) by lia.
Qed.

Definition decoder_id (d : decoder) : Z :=
  match d with FixedDecoder id _ _ | DynamicDecoder id _ _ _ _ => id end.

(** The getters of a checked header are sized and end inside it. *)
Lemma header_gets size s blobs gets nm g :
  header_spec size s blobs gets -> (nm, g) ∈ gets -> sized g /\ (get_end g <= size)%nat.
Proof.
  intros Hs Hin. destruct (hs_get _ _ _ _ Hs _ _ Hin) as (_ & [[nm' o] t] & Hx & Hr).
  apply (hs_in _ _ _ _ Hs) in Hx. simpl in Hx. unfold reads in Hr. apply andb_true_iff in Hr as [_ Hr].
  destruct g as [off w|off w|off|off n], t as [w'|w'|n']; try done; cbn [wty_size sized get_end] in *.
  3: { destruct w' as [|[|]]; try done. apply Nat.eqb_eq in Hr. lia. }
  all: split_andb Hr; rewrite ?Nat.eqb_eq, ?Nat.ltb_lt in *; lia.
Qed.

Lemma gets_end size s blobs gets :
  header_spec size s blobs gets -> (list_max (get_end ∘ snd <$> gets) <= size)%nat.
Proof.
  intros Hs. apply list_max_le, Forall_fmap, Forall_forall. intros [nm g] Hin. by eapply header_gets.
Qed.

Lemma check_len_inv e body len :
  check_len e body = Ok len -> (4 <= length body)%nat.
Proof. unfold check_len. destruct (Nat.ltb_spec (length body) 4); [done|lia]. Qed.

Lemma check_rpc_id e id body rpc : check_rpc e id body = Ok rpc -> rpc = id.
Proof.
  unfold check_rpc. destruct (length body <? 2)%nat; [done|]. intros H. inv_res.
  destruct (Z.eqb_spec (from_ne_bytes e a) id); by simplify_eq.
Qed.

Lemma fixed_no_panic e id size s blobs gets body :
  header_spec size s blobs gets -> decode e (FixedDecoder id size gets) body <> Panic.
Proof.
  intros Hs. apply rbind_no_panic; [apply check_rpc_no_panic|]. intros rpc _. unfold check_size.
  destruct (Nat.ltb_spec (length body) size); [done|]. cbn [rbind].
  apply rbind_no_panic; [|done]. intros Hp. apply run_gets_panic in Hp.
  - apply gets_end in Hs. lia.
  - intros nm g Hin. by eapply header_gets.
Qed.

(** Once the checks passed, the reads decide. *)
Lemma reads_panic e size s blobs gets strs tail body len (k : list (string * value) -> list (string * value) -> list (string * value)) :
  header_spec size s blobs gets -> strs_placed s strs ->
  (let? vs := run_gets e body gets in
   let? ss := run_strs e body len size strs tail in Ok (k vs ss)) = Panic
  <-> (length body < Nat.max (list_max (get_end ∘ snd <$> gets))
         (list_max ((fun x => snd x + 2)%nat <$> take 1 strs)))%nat.
Proof.
  intros Hs Hstr.
  assert (forall nm hdr, (nm, hdr) ∈ strs -> (hdr + 2 <= size)%nat) as Hin.
  { intros nm hdr Hin. destruct (Hstr _ _ Hin) as (_ & _ & Hx). by apply (hs_in _ _ _ _ Hs) in Hx as [? _]. }
  assert (list_max ((fun x => snd x + 2)%nat <$> take 1 strs) <= size)%nat as Hfirst.
  { destruct strs as [|[nm hdr] strs]; simpl; [lia|]. specialize (Hin nm hdr ltac:(by left)). lia. }
  pose proof (gets_end _ _ _ _ Hs) as Hend.
  pose proof (run_gets_panic e body gets (fun nm g Hi => proj1 (header_gets _ _ _ _ _ _ Hs Hi))) as Hg.
  destruct (run_gets e body gets) as [vs|err|] eqn:Hgs; cbn [rbind].
  - assert (~ (length body < list_max (get_end ∘ snd <$> gets))%nat) as Hng
      by (intros Hlt; by apply Hg in Hlt).
    assert (forall r : res DecodeError (list (string * value)), (let? ss := r in Ok (k vs ss)) = Panic <-> r = Panic)
      as -> by (by intros []).
    destruct (decide (length body < size)%nat) as [Hlt|Hge]; [rewrite run_strs_short by done; lia|].
    split; [|lia]. intros Hp. exfalso. revert Hp. apply run_strs_no_panic.
    intros nm hdr Hi. specialize (Hin _ _ Hi). lia.
  - by apply run_gets_no_err in Hgs.
  - split; [intros _|done]. assert (length body < list_max (get_end ∘ snd <$> gets))%nat by (by apply Hg). lia.
Qed.

(** A decoder panics on exactly the bodies that announce themselves correctly
    and are shorter than what it reads unchecked. *)
Lemma decoder_panics_iff m e body :
  parts_ok m = true ->
  decode e (m_decoder m) body = Panic
  <-> (exists rpc, check_rpc e (decoder_id (m_decoder m)) body = Ok rpc)
      /\ (exists len, check_len e body = Ok len) /\ (length body < needed (m_decoder m))%nat.
Proof.
  destruct m as [en de w]. unfold parts_ok. simpl.
  destruct en as [id size ps s|id size ps s blobs], de as [id' size' gets|id' gets off strs tail]; try done;
    intros H; split_andb H; rewrite ?bool_decide_eq_true, ?Nat.eqb_eq, ?Z.eqb_eq in *.
  - apply header_ok_spec in Hand2. rewrite Hand4 in Hand2. split; [|simpl; intros (_ & _ & ?); lia].
    intros Hp. by apply (fixed_no_panic e id' size' s [] gets body) in Hand2.
  - apply header_ok_spec in Hand4. apply strs_check in Hand1. rewrite Hand6 in Hand4. simpl.
    destruct (check_rpc e id' body) as [rpc|err|] eqn:Hr; cbn [rbind];
      [|by split; [|intros [[? ?] _]]|by destruct (check_rpc_no_panic e id' body)].
    destruct (check_len e body) as [len|err|] eqn:Hl; cbn [rbind];
      [|by split; [|intros (_ & [? ?] & _)]|by destruct (check_len_no_panic e body)].
    rewrite (reads_panic e off s blobs gets strs tail body len
      (fun vs ss => ("_rpc_id"%string, VInt rpc) :: vs ++ ss)) by done.
    split; [eauto|tauto].
Qed.

(** ** Types of what a decoder returns *)

(** A field has the type of the parsed struct: a [String] is valid UTF-8, an
    integer or an array has the type of the wire struct's field. *)
Definition field_typed (m : message) (x : string * value) : Prop :=
  if bool_decide (x.1 ∈ blobs_of (m_encoder m)) then exists s, x.2 = VBytes s /\ valid_utf8 s = true
  else exists t, (x.1, t) ∈ w_struct (m_wire m) /\ typed t x.2.

Lemma index_range_bytes {E} (l : list Z) off k bs :
  index_range (E := E) l off (off + k) = Ok bs -> is_bytes l -> length bs = k /\ is_bytes bs.
Proof.
  intros [Hr ->]%index_range_inv Hl. replace (off + k - off)%nat with k by lia.
  split; [rewrite length_take, length_drop; lia|]. by apply Forall_take, Forall_drop.
Qed.

Lemma get_uint_fits e body off w z :
  get_uint e body off w = Ok z -> is_bytes body -> fits (8 * Z.of_nat w) z.
Proof.
  unfold get_uint. intros H Hb. inv_res. apply index_range_bytes in Ha as [<- Ha]; [|done].
  simplify_eq. by apply from_ne_bytes_fits.
Qed.

Lemma get_array_inv body off n bs :
  get_array body off n = Ok bs -> is_bytes body -> length bs = n /\ is_bytes bs.
Proof.
  revert off bs. induction n as [|n IH]; intros off bs H Hb; simpl in H.
  - simplify_eq. split; [done|by apply Forall_nil_2].
  - unfold index in H. destruct (body !! off) as [b|] eqn:Ho; [|done]. cbn [rbind unwrap] in H. inv_res.
    simplify_eq. apply IH in Ha as [<- Ha]; [|done]. split; [done|]. apply Forall_cons_2; [|done].
    by eapply Forall_lookup_1.
Qed.

Lemma run_get_typed e body nm g x v :
  is_bytes body -> reads nm g x = true -> run_get e body g = Ok v -> typed x.2 v.
Proof.
  intros Hb Hr. destruct x as [[nm' o] t]. unfold reads in Hr. apply andb_true_iff in Hr as [_ Hr].
  destruct g as [off w|off w|off|off n], t as [w'|w'|n']; try done; simpl; unfold rmap; intros H; inv_res; rewrite <- H.
  - split_andb Hr. apply Nat.eqb_eq in Hand0 as ->. by eapply get_uint_fits.
  - split_andb Hr. apply Nat.eqb_eq in Hand0 as ->. apply Nat.ltb_lt in Hand.
    apply as_signed_range; [lia|]. by eapply get_uint_fits.
  - destruct w' as [|[|]]; try done. unfold index in Ha. inv_res. by eapply Forall_lookup_1.
  - split_andb Hr. apply Nat.eqb_eq in Hand as ->. by eapply get_array_inv.
Qed.

Lemma get_str_valid e body hdr off s off' :
  get_str e body hdr off = Ok (s, off') -> valid_utf8 s = true.
Proof.
  unfold get_str. intros H. inv_res. destruct (length body <? off + Z.to_nat a)%nat; [done|].
  destruct (Z.to_nat a =? 0)%nat; cbn [rbind] in H; [by simplify_eq|]. unfold rmap in H. inv_res.
  simplify_eq. apply lossy_is_valid.
Qed.

Lemma get_tail_valid body len off s : get_tail body len off = Ok s -> valid_utf8 s = true.
Proof.
  unfold get_tail. intros H. destruct (length body <? _)%nat; [done|].
  destruct (_ =? 0)%nat; [by simplify_eq|]. unfold rmap in H. inv_res. simplify_eq. apply lossy_is_valid.
Qed.

Lemma run_gets_typed e body m size blobs gets vs :
  header_spec size (w_struct (m_wire m)) blobs gets -> blobs_of (m_encoder m) = blobs ->
  is_bytes body -> run_gets e body gets = Ok vs -> vs.*1 = gets.*1 /\ Forall (field_typed m) vs.
Proof.
  intros Hs Hbl Hb. pose proof (hs_get _ _ _ _ Hs) as Hg. clear Hs. revert vs.
  induction gets as [|[nm g] gets IH]; intros vs H; simpl in H; inv_res.
  { subst. split; [done|by apply Forall_nil_2]. }
  subst vs. destruct (IH (fun nm g Hi => Hg nm g (list_elem_of_further _ _ _ Hi)) _ Ha0) as [Hn Ht].
  csimpl. split; [by rewrite Hn|]. apply Forall_cons_2; [|done].
  destruct (Hg nm g (list_elem_of_here _ _)) as (Hp & x & Hx & Hr).
  assert (x.1.1 = nm) as <-.
  { destruct x as [[nm' o] t]. apply andb_true_iff in Hr as [->%String.eqb_eq _]. done. }
  unfold field_typed. simpl. rewrite Hbl. unfold plain in Hp. apply andb_true_iff in Hp as [_ Hp].
  apply negb_true_iff in Hp. rewrite Hp. exists x.2. split; [by eapply place_in|].
  by eapply run_get_typed.
Qed.

Lemma run_strs_typed e body m len off strs tail vs :
  blobs_of (m_encoder m) = strs.*1 ++ [tail] ->
  run_strs e body len off strs tail = Ok vs -> vs.*1 = strs.*1 ++ [tail] /\ Forall (field_typed m) vs.
Proof.
  intros Hbl. assert (forall nm, nm ∈ strs.*1 ++ [tail] -> forall s, valid_utf8 s = true ->
    field_typed m (nm, VBytes s)) as Hf.
  { intros nm Hin s Hv. unfold field_typed. simpl. rewrite Hbl, bool_decide_true by done. by exists s. }
  clear Hbl. revert off vs. induction strs as [|[nm hdr] strs IH]; intros off vs H; simpl in *; inv_res.
  - subst. split; [done|]. apply Forall_cons_2; [|by apply Forall_nil_2].
    apply Hf; [by left|]. by eapply get_tail_valid.
  - destruct a as [s off']. inv_res. subst. destruct (IH (fun nm Hi => Hf nm (list_elem_of_further _ _ _ Hi)) _ _ Ha0)
      as [Hn Ht].
    csimpl. split; [by rewrite Hn|]. apply Forall_cons_2; [|done]. apply Hf; [by left|]. by eapply get_str_valid.
Qed.

(** A decoder that returns, returns its fields, each of its type. *)
Lemma decode_typed m e body fs :
  message_ok m = true -> is_bytes body -> decode e (m_decoder m) body = Ok fs ->
  exists vs, fs = ("_rpc_id"%string, VInt (rpc_id (m_metadata m))) :: vs
    /\ vs.*1 = names_of (m_decoder m) /\ Forall (field_typed m) vs.
Proof.
  intros [Hp _ Hst _ _ _ _ _]%message_ok_spec Hb Hd. unfold parts_ok in Hp.
  destruct (m_encoder m) as [id size ps s|id size ps s blobs] eqn:He,
    (m_decoder m) as [id' size' gets|id' gets off strs tail] eqn:Hde; try done;
    split_andb Hp; rewrite ?bool_decide_eq_true, ?Nat.eqb_eq, ?Z.eqb_eq in *; simpl in Hst, Hd |- *; inv_res;
    subst fs; apply check_rpc_id in Ha as ->.
  - apply header_ok_spec in Hand2. rewrite Hst in Hand2.
    destruct (run_gets_typed e body m size [] gets a1) as [Hn Ht]; [done|by rewrite He|done..|].
    exists a1. split_and!; [do 3 f_equal; congruence|done..].
  - apply header_ok_spec in Hand4. rewrite Hst in Hand4.
    destruct (run_gets_typed e body m size blobs gets a1) as [Hn Ht]; [done|by rewrite He|done..|].
    destruct (run_strs_typed e body m a0 off strs tail a2) as [Hn' Ht']; [by rewrite He|done|].
    exists (a1 ++ a2). split_and!; [do 3 f_equal; congruence| |by apply Forall_app_2].
    by rewrite fmap_app, Hn, Hn'.
Qed.
