(* ===== verification/AggWire.v ===== *)
(** * The aggregation messages (crates/render/ebpf_net/aggregation)

    The generated codec between the matching and the aggregation stages: for
    each message its parsed struct, its [decode] (parsed_message.rs), its wire
    struct and metadata (wire_messages.rs) and its encoder (encoder.rs).  The
    decoder's offsets are the literal ones of the source; the encoder's come
    from the [repr(C)] rule, so the round trip also checks that they agree.

    Not modelled: the padding of a struct has unspecified contents and is a
    parameter ([pad], the first bytes of the struct's memory). *)

From S2P Require Import Prelude RenderParser Utf8 Wire.

Local Open Scope rust_scope.

(** *** agg_root_start *)

Record agg_root_start := mk_agg_root_start {
  start_rpc_id : Z;
  start_ref : Z;
}.

Definition decode_agg_root_start (e : endian) (body : list Z) : res DecodeError agg_root_start :=
  let? rpc := check_rpc e 461 body in
  let? _ := check_size 16 body in
  let? ref := get_uint e body 8 8 in
  Ok (mk_agg_root_start rpc ref).

Definition metadata_agg_root_start : MessageMetadata := new_fixed 461 16 true.

(** The fields of the struct [jb_aggregation__agg_root_start], in its order. *)
Definition wire_agg_root_start (ref : Z) : list field :=
  repr_c
    [(2%nat, 461); (8%nat, ref)].

Definition encode_agg_root_start {E} (e : endian) (dest : option (list Z)) (tstamp : Z)
    (ref : Z) (pad : list Z) : res E (list Z) :=
  encode_fixed e 16 dest tstamp (wire_agg_root_start ref) pad.

(** *** agg_root_end *)

Record agg_root_end := mk_agg_root_end {
  end_rpc_id : Z;
  end_ref : Z;
}.

Definition decode_agg_root_end (e : endian) (body : list Z) : res DecodeError agg_root_end :=
  let? rpc := check_rpc e 462 body in
  let? _ := check_size 16 body in
  let? ref := get_uint e body 8 8 in
  Ok (mk_agg_root_end rpc ref).

Definition metadata_agg_root_end : MessageMetadata := new_fixed 462 16 true.

(** The fields of the struct [jb_aggregation__agg_root_end], in its order. *)
Definition wire_agg_root_end (ref : Z) : list field :=
  repr_c
    [(2%nat, 462); (8%nat, ref)].

Definition encode_agg_root_end {E} (e : endian) (dest : option (list Z)) (tstamp : Z)
    (ref : Z) (pad : list Z) : res E (list Z) :=
  encode_fixed e 16 dest tstamp (wire_agg_root_end ref) pad.

(** *** update_tcp_metrics *)

Record update_tcp_metrics := mk_update_tcp_metrics {
  tcp_rpc_id : Z;
  tcp_ref : Z;
  tcp_direction : Z;
  tcp_active_sockets : Z;
  tcp_sum_retrans : Z;
  tcp_sum_bytes : Z;
  tcp_sum_srtt : Z;
  tcp_sum_delivered : Z;
  tcp_active_rtts : Z;
  tcp_syn_timeouts : Z;
  tcp_new_sockets : Z;
  tcp_tcp_resets : Z;
}.

Definition decode_update_tcp_metrics (e : endian) (body : list Z) : res DecodeError update_tcp_metrics :=
  let? rpc := check_rpc e 465 body in
  let? _ := check_size 60 body in
  let? ref := get_uint e body 32 8 in
  let? direction := index body 2 in
  let? active_sockets := get_uint e body 4 4 in
  let? sum_retrans := get_uint e body 40 4 in
  let? sum_bytes := get_uint e body 8 8 in
  let? sum_srtt := get_uint e body 16 8 in
  let? sum_delivered := get_uint e body 24 8 in
  let? active_rtts := get_uint e body 44 4 in
  let? syn_timeouts := get_uint e body 48 4 in
  let? new_sockets := get_uint e body 52 4 in
  let? tcp_resets := get_uint e body 56 4 in
  Ok (mk_update_tcp_metrics rpc ref direction active_sockets sum_retrans sum_bytes sum_srtt sum_delivered active_rtts syn_timeouts new_sockets tcp_resets).

Definition metadata_update_tcp_metrics : MessageMetadata := new_fixed 465 60 true.

(** The fields of the struct [jb_aggregation__update_tcp_metrics], in its order. *)
Definition wire_update_tcp_metrics (ref direction active_sockets sum_retrans sum_bytes sum_srtt sum_delivered active_rtts syn_timeouts new_sockets tcp_resets : Z) : list field :=
  repr_c
    [(2%nat, 465); (1%nat, direction); (4%nat, active_sockets); (8%nat, sum_bytes);
    (8%nat, sum_srtt); (8%nat, sum_delivered); (8%nat, ref); (4%nat, sum_retrans);
    (4%nat, active_rtts); (4%nat, syn_timeouts); (4%nat, new_sockets); (4%nat, tcp_resets)].

Definition encode_update_tcp_metrics {E} (e : endian) (dest : option (list Z)) (tstamp : Z)
    (ref direction active_sockets sum_retrans sum_bytes sum_srtt sum_delivered active_rtts syn_timeouts new_sockets tcp_resets : Z) (pad : list Z) : res E (list Z) :=
  encode_fixed e 60 dest tstamp (wire_update_tcp_metrics ref direction active_sockets sum_retrans sum_bytes sum_srtt sum_delivered active_rtts syn_timeouts new_sockets tcp_resets) pad.

(** *** update_udp_metrics *)

Record update_udp_metrics := mk_update_udp_metrics {
  udp_rpc_id : Z;
  udp_ref : Z;
  udp_direction : Z;
  udp_active_sockets : Z;
  udp_addr_changes : Z;
  udp_packets : Z;
  udp_bytes : Z;
  udp_drops : Z;
}.

Definition decode_update_udp_metrics (e : endian) (body : list Z) : res DecodeError update_udp_metrics :=
  let? rpc := check_rpc e 466 body in
  let? _ := check_size 36 body in
  let? ref := get_uint e body 16 8 in
  let? direction := index body 2 in
  let? active_sockets := get_uint e body 4 4 in
  let? addr_changes := get_uint e body 24 4 in
  let? packets := get_uint e body 28 4 in
  let? bytes := get_uint e body 8 8 in
  let? drops := get_uint e body 32 4 in
  Ok (mk_update_udp_metrics rpc ref direction active_sockets addr_changes packets bytes drops).

Definition metadata_update_udp_metrics : MessageMetadata := new_fixed 466 36 true.

(** The fields of the struct [jb_aggregation__update_udp_metrics], in its order. *)
Definition wire_update_udp_metrics (ref direction active_sockets addr_changes packets bytes drops : Z) : list field :=
  repr_c
    [(2%nat, 466); (1%nat, direction); (4%nat, active_sockets); (8%nat, bytes); (8%nat, ref);
    (4%nat, addr_changes); (4%nat, packets); (4%nat, drops)].

Definition encode_update_udp_metrics {E} (e : endian) (dest : option (list Z)) (tstamp : Z)
    (ref direction active_sockets addr_changes packets bytes drops : Z) (pad : list Z) : res E (list Z) :=
  encode_fixed e 36 dest tstamp (wire_update_udp_metrics ref direction active_sockets addr_changes packets bytes drops) pad.

(** *** update_http_metrics *)

Record update_http_metrics := mk_update_http_metrics {
  http_rpc_id : Z;
  http_ref : Z;
  http_direction : Z;
  http_active_sockets : Z;
  http_sum_code_200 : Z;
  http_sum_code_400 : Z;
  http_sum_code_500 : Z;
  http_sum_code_other : Z;
  http_sum_total_time_ns : Z;
  http_sum_processing_time_ns : Z;
}.

Definition decode_update_http_metrics (e : endian) (body : list Z) : res DecodeError update_http_metrics :=
  let? rpc := check_rpc e 467 body in
  let? _ := check_size 48 body in
  let? ref := get_uint e body 24 8 in
  let? direction := index body 2 in
  let? active_sockets := get_uint e body 4 4 in
  let? sum_code_200 := get_uint e body 32 4 in
  let? sum_code_400 := get_uint e body 36 4 in
  let? sum_code_500 := get_uint e body 40 4 in
  let? sum_code_other := get_uint e body 44 4 in
  let? sum_total_time_ns := get_uint e body 8 8 in
  let? sum_processing_time_ns := get_uint e body 16 8 in
  Ok (mk_update_http_metrics rpc ref direction active_sockets sum_code_200 sum_code_400 sum_code_500 sum_code_other sum_total_time_ns sum_processing_time_ns).

Definition metadata_update_http_metrics : MessageMetadata := new_fixed 467 48 true.

(** The fields of the struct [jb_aggregation__update_http_metrics], in its order. *)
Definition wire_update_http_metrics (ref direction active_sockets sum_code_200 sum_code_400 sum_code_500 sum_code_other sum_total_time_ns sum_processing_time_ns : Z) : list field :=
  repr_c
    [(2%nat, 467); (1%nat, direction); (4%nat, active_sockets); (8%nat, sum_total_time_ns);
    (8%nat, sum_processing_time_ns); (8%nat, ref); (4%nat, sum_code_200); (4%nat, sum_code_400);
    (4%nat, sum_code_500); (4%nat, sum_code_other)].

Definition encode_update_http_metrics {E} (e : endian) (dest : option (list Z)) (tstamp : Z)
    (ref direction active_sockets sum_code_200 sum_code_400 sum_code_500 sum_code_other sum_total_time_ns sum_processing_time_ns : Z) (pad : list Z) : res E (list Z) :=
  encode_fixed e 48 dest tstamp (wire_update_http_metrics ref direction active_sockets sum_code_200 sum_code_400 sum_code_500 sum_code_other sum_total_time_ns sum_processing_time_ns) pad.

(** *** update_dns_metrics *)

Record update_dns_metrics := mk_update_dns_metrics {
  dns_rpc_id : Z;
  dns_ref : Z;
  dns_direction : Z;
  dns_active_sockets : Z;
  dns_requests_a : Z;
  dns_requests_aaaa : Z;
  dns_responses : Z;
  dns_timeouts : Z;
  dns_sum_total_time_ns : Z;
  dns_sum_processing_time_ns : Z;
}.

Definition decode_update_dns_metrics (e : endian) (body : list Z) : res DecodeError update_dns_metrics :=
  let? rpc := check_rpc e 468 body in
  let? _ := check_size 48 body in
  let? ref := get_uint e body 24 8 in
  let? direction := index body 2 in
  let? active_sockets := get_uint e body 4 4 in
  let? requests_a := get_uint e body 32 4 in
  let? requests_aaaa := get_uint e body 36 4 in
  let? responses := get_uint e body 40 4 in
  let? timeouts := get_uint e body 44 4 in
  let? sum_total_time_ns := get_uint e body 8 8 in
  let? sum_processing_time_ns := get_uint e body 16 8 in
  Ok (mk_update_dns_metrics rpc ref direction active_sockets requests_a requests_aaaa responses timeouts sum_total_time_ns sum_processing_time_ns).

Definition metadata_update_dns_metrics : MessageMetadata := new_fixed 468 48 true.

(** The fields of the struct [jb_aggregation__update_dns_metrics], in its order. *)
Definition wire_update_dns_metrics (ref direction active_sockets requests_a requests_aaaa responses timeouts sum_total_time_ns sum_processing_time_ns : Z) : list field :=
  repr_c
    [(2%nat, 468); (1%nat, direction); (4%nat, active_sockets); (8%nat, sum_total_time_ns);
    (8%nat, sum_processing_time_ns); (8%nat, ref); (4%nat, requests_a); (4%nat, requests_aaaa);
    (4%nat, responses); (4%nat, timeouts)].

Definition encode_update_dns_metrics {E} (e : endian) (dest : option (list Z)) (tstamp : Z)
    (ref direction active_sockets requests_a requests_aaaa responses timeouts sum_total_time_ns sum_processing_time_ns : Z) (pad : list Z) : res E (list Z) :=
  encode_fixed e 48 dest tstamp (wire_update_dns_metrics ref direction active_sockets requests_a requests_aaaa responses timeouts sum_total_time_ns sum_processing_time_ns) pad.

(** *** pulse *)

Record pulse := mk_pulse { pulse_rpc_id : Z }.

Definition decode_pulse (e : endian) (body : list Z) : res DecodeError pulse :=
  let? rpc := check_rpc e 65535 body in
  let? _ := check_size 2 body in
  Ok (mk_pulse rpc).

Definition metadata_pulse : MessageMetadata := new_fixed 65535 2 true.

Definition wire_pulse : list field := repr_c [(2%nat, 65535)].

Definition encode_pulse {E} (e : endian) (dest : option (list Z)) (tstamp : Z) (pad : list Z)
  : res E (list Z) :=
  encode_fixed e 2 dest tstamp wire_pulse pad.

(** *** update_node *)

Record update_node := mk_update_node {
  node_rpc_id : Z;
  node_ref : Z;
  node_side : Z;
  node_id : list Z;
  node_az : list Z;
  node_role : list Z;
  node_version : list Z;
  node_env : list Z;
  node_ns : list Z;
  node_node_type : Z;
  node_address : list Z;
  node_process : list Z;
  node_container : list Z;
  node_pod_name : list Z;
  node_role_uid : list Z;
}.

Definition decode_update_node (e : endian) (body : list Z) : res DecodeError update_node :=
  let? rpc := check_rpc e 463 body in
  let? len := check_len e body in
  let? ref := get_uint e body 8 8 in
  let? side := index body 32 in
  let? node_type := index body 33 in
  let? '(id, off) := get_str e body 4 34 in
  let? '(az, off) := get_str e body 6 off in
  let? '(role, off) := get_str e body 16 off in
  let? '(version, off) := get_str e body 18 off in
  let? '(env, off) := get_str e body 20 off in
  let? '(ns, off) := get_str e body 22 off in
  let? '(address, off) := get_str e body 24 off in
  let? '(process, off) := get_str e body 26 off in
  let? '(container, off) := get_str e body 28 off in
  let? '(pod_name, off) := get_str e body 30 off in
  let? role_uid := get_tail body len off in
  Ok (mk_update_node rpc ref side id az role version env ns node_type address process container
        pod_name role_uid).

Definition metadata_update_node : MessageMetadata := new_dynamic 463 true.

(** [s.len() as u16]. *)
Definition len16 (s : list Z) : Z := wrap 16 (Z.of_nat (length s)).

Definition wire_update_node (ref side : Z) (id az role version env ns : list Z) (node_type : Z)
    (address process container pod_name : list Z) (consumed : Z) : list field :=
  repr_c
    [(2%nat, 463); (2%nat, wrap 16 consumed); (2%nat, len16 id); (2%nat, len16 az); (8%nat, ref);
     (2%nat, len16 role); (2%nat, len16 version); (2%nat, len16 env); (2%nat, len16 ns);
     (2%nat, len16 address); (2%nat, len16 process); (2%nat, len16 container);
     (2%nat, len16 pod_name); (1%nat, side); (1%nat, node_type)].

Definition encode_update_node {E} (e : endian) (dest : option (list Z)) (tstamp : Z)
    (ref side : Z) (id az role version env ns : list Z) (node_type : Z)
    (address process container pod_name role_uid : list Z) (pad : list Z) : res E (list Z) :=
  encode_dynamic e 34 dest tstamp
    (wire_update_node ref side id az role version env ns node_type address process container pod_name)
    pad [id; az; role; version; env; ns; address; process; container; pod_name; role_uid].

Definition all_message_metadata : list MessageMetadata :=
  [metadata_agg_root_start; metadata_agg_root_end; metadata_update_node;
   metadata_update_tcp_metrics; metadata_update_udp_metrics; metadata_update_http_metrics;
   metadata_update_dns_metrics; metadata_pulse].

(** ** Round trips *)

(** An encoder into a destination of exactly the encoded length writes a
    frame whose body is well formed for the parser and decodes to the message
    that was encoded, whatever the padding holds. *)
Definition roundtrips {M : Type} (ok : M -> Prop) (hdr : nat) (size : M -> nat)
    (enc : endian -> option (list Z) -> Z -> M -> list Z -> res unit (list Z))
    (dec : endian -> list Z -> res DecodeError M) (md : MessageMetadata) : Prop :=
  forall e dst ts m pad,
    ok m -> length pad = hdr -> length dst = (8 + size m)%nat ->
    exists body, enc e (Some dst) ts m pad = Ok (frame e ts body)
      /\ dec e body = Ok m /\ is_body e md body.

(** The fields of each message fit their types. *)
Definition ok_start (m : agg_root_start) : Prop := start_rpc_id m = 461 /\ fits 64 (start_ref m).
Definition ok_end (m : agg_root_end) : Prop := end_rpc_id m = 462 /\ fits 64 (end_ref m).
Definition ok_tcp (m : update_tcp_metrics) : Prop :=
  tcp_rpc_id m = 465 /\ fits 64 (tcp_ref m) /\ fits 8 (tcp_direction m)
  /\ fits 32 (tcp_active_sockets m) /\ fits 32 (tcp_sum_retrans m) /\ fits 64 (tcp_sum_bytes m)
  /\ fits 64 (tcp_sum_srtt m) /\ fits 64 (tcp_sum_delivered m) /\ fits 32 (tcp_active_rtts m)
  /\ fits 32 (tcp_syn_timeouts m) /\ fits 32 (tcp_new_sockets m) /\ fits 32 (tcp_tcp_resets m).
Definition ok_udp (m : update_udp_metrics) : Prop :=
  udp_rpc_id m = 466 /\ fits 64 (udp_ref m) /\ fits 8 (udp_direction m)
  /\ fits 32 (udp_active_sockets m) /\ fits 32 (udp_addr_changes m) /\ fits 32 (udp_packets m)
  /\ fits 64 (udp_bytes m) /\ fits 32 (udp_drops m).
Definition ok_http (m : update_http_metrics) : Prop :=
  http_rpc_id m = 467 /\ fits 64 (http_ref m) /\ fits 8 (http_direction m)
  /\ fits 32 (http_active_sockets m) /\ fits 32 (http_sum_code_200 m)
  /\ fits 32 (http_sum_code_400 m) /\ fits 32 (http_sum_code_500 m)
  /\ fits 32 (http_sum_code_other m) /\ fits 64 (http_sum_total_time_ns m)
  /\ fits 64 (http_sum_processing_time_ns m).
Definition ok_dns (m : update_dns_metrics) : Prop :=
  dns_rpc_id m = 468 /\ fits 64 (dns_ref m) /\ fits 8 (dns_direction m)
  /\ fits 32 (dns_active_sockets m) /\ fits 32 (dns_requests_a m)
  /\ fits 32 (dns_requests_aaaa m) /\ fits 32 (dns_responses m) /\ fits 32 (dns_timeouts m)
  /\ fits 64 (dns_sum_total_time_ns m) /\ fits 64 (dns_sum_processing_time_ns m).

(** The strings of a node. *)
Definition node_strs (m : update_node) : list (list Z) :=
  [node_id m; node_az m; node_role m; node_version m; node_env m; node_ns m;
   node_address m; node_process m; node_container m; node_pod_name m; node_role_uid m].

Definition node_size (m : update_node) : nat := (34 + length (concat (node_strs m)))%nat.

(** A node can be encoded: valid strings that fit one message together. *)
Definition ok_node (m : update_node) : Prop :=
  node_rpc_id m = 463 /\ fits 64 (node_ref m) /\ fits 8 (node_side m) /\ fits 8 (node_node_type m)
  /\ Forall (fun s => valid_utf8 s = true) (node_strs m) /\ Z.of_nat (node_size m) <= 65535.

(** Membership in a literal layout. *)
Ltac in_layout := cbn; repeat first [apply list_elem_of_here | apply list_elem_of_further].

(** The layout of a literal struct. *)
Ltac solve_layout :=
  cbn -[fits];
  repeat match goal with |- _ /\ _ => split end;
  first [exact I | reflexivity | assumption | apply wrap_fits; lia | lia | by vm_compute].

(** The round trip of a fixed message with layout [fs]: encode, then decode
    field by field. *)
Ltac solve_fixed sz dec :=
  match goal with
  | |- exists body, encode_fixed ?e _ (Some ?dst) ?ts ?fs ?pad = _ /\ _ =>
      let Hok := fresh in
      assert (layout_ok sz fs) as Hok by solve_layout;
      exists (struct_bytes e fs pad); split; [by apply encode_fixed_eq|];
      assert (length (struct_bytes e fs pad) = sz) by (by apply length_struct_bytes);
      split;
      [ unfold dec; rewrite <- (app_nil_r (struct_bytes e fs pad));
        erewrite check_rpc_field by (try eassumption; in_layout); cbn [rbind];
        unfold check_size; rewrite (proj2 (Nat.ltb_ge _ _)) by (rewrite app_nil_r; lia);
        repeat (cbn [rbind];
          first [ erewrite get_uint_field by (try eassumption; in_layout)
                | erewrite index_field by (try eassumption; in_layout) ]);
        cbn [rbind]; reflexivity
      | split; cbn [RenderParser.rpc_id RenderParser.size];
        [ eapply (struct_bytes_field e sz fs pad (mkField 0 2 _)); [done|done|in_layout]
        | change (Z.of_nat (length (struct_bytes e fs pad)) = Z.of_nat sz /\ 2 <= Z.of_nat sz);
          lia ] ]
  end.

(** Open a round-trip goal on a message given by its fields. *)
Ltac open_roundtrip ok enc :=
  let e := fresh "e" in let dst := fresh "dst" in let ts := fresh "ts" in
  let m := fresh "m" in let pad := fresh "pad" in
  let Hm := fresh "Hm" in let Hp := fresh "Hp" in let Hd := fresh "Hd" in
  intros e dst ts m pad Hm Hp Hd; destruct m; unfold ok in Hm; simpl in Hm; destruct_and? Hm;
  subst; cbv beta; unfold enc.

Lemma start_roundtrip :
  roundtrips ok_start 16 (fun _ => 16%nat)
    (fun e d ts m pad => encode_agg_root_start e d ts (start_ref m) pad)
    decode_agg_root_start metadata_agg_root_start.
Proof.
  open_roundtrip ok_start @encode_agg_root_start. solve_fixed 16%nat decode_agg_root_start.
Qed.

Lemma end_roundtrip :
  roundtrips ok_end 16 (fun _ => 16%nat)
    (fun e d ts m pad => encode_agg_root_end e d ts (end_ref m) pad)
    decode_agg_root_end metadata_agg_root_end.
Proof.
  open_roundtrip ok_end @encode_agg_root_end. solve_fixed 16%nat decode_agg_root_end.
Qed.

Lemma tcp_roundtrip :
  roundtrips ok_tcp 60 (fun _ => 60%nat)
    (fun e d ts m pad => encode_update_tcp_metrics e d ts (tcp_ref m) (tcp_direction m)
      (tcp_active_sockets m) (tcp_sum_retrans m) (tcp_sum_bytes m) (tcp_sum_srtt m)
      (tcp_sum_delivered m) (tcp_active_rtts m) (tcp_syn_timeouts m) (tcp_new_sockets m)
      (tcp_tcp_resets m) pad)
    decode_update_tcp_metrics metadata_update_tcp_metrics.
Proof.
  open_roundtrip ok_tcp @encode_update_tcp_metrics. solve_fixed 60%nat decode_update_tcp_metrics.
Qed.

Lemma udp_roundtrip :
  roundtrips ok_udp 36 (fun _ => 36%nat)
    (fun e d ts m pad => encode_update_udp_metrics e d ts (udp_ref m) (udp_direction m)
      (udp_active_sockets m) (udp_addr_changes m) (udp_packets m) (udp_bytes m) (udp_drops m) pad)
    decode_update_udp_metrics metadata_update_udp_metrics.
Proof.
  open_roundtrip ok_udp @encode_update_udp_metrics. solve_fixed 36%nat decode_update_udp_metrics.
Qed.

Lemma http_roundtrip :
  roundtrips ok_http 48 (fun _ => 48%nat)
    (fun e d ts m pad => encode_update_http_metrics e d ts (http_ref m) (http_direction m)
      (http_active_sockets m) (http_sum_code_200 m) (http_sum_code_400 m) (http_sum_code_500 m)
      (http_sum_code_other m) (http_sum_total_time_ns m) (http_sum_processing_time_ns m) pad)
    decode_update_http_metrics metadata_update_http_metrics.
Proof.
  open_roundtrip ok_http @encode_update_http_metrics. solve_fixed 48%nat decode_update_http_metrics.
Qed.

Lemma dns_roundtrip :
  roundtrips ok_dns 48 (fun _ => 48%nat)
    (fun e d ts m pad => encode_update_dns_metrics e d ts (dns_ref m) (dns_direction m)
      (dns_active_sockets m) (dns_requests_a m) (dns_requests_aaaa m) (dns_responses m)
      (dns_timeouts m) (dns_sum_total_time_ns m) (dns_sum_processing_time_ns m) pad)
    decode_update_dns_metrics metadata_update_dns_metrics.
Proof.
  open_roundtrip ok_dns @encode_update_dns_metrics. solve_fixed 48%nat decode_update_dns_metrics.
Qed.

Lemma pulse_roundtrip :
  roundtrips (fun m => pulse_rpc_id m = 65535) 2 (fun _ => 2%nat)
    (fun e d ts m pad => encode_pulse e d ts pad) decode_pulse metadata_pulse.
Proof.
  intros e dst ts [rpc] pad Hm Hp Hd. simpl in Hm. subst. cbv beta. unfold encode_pulse.
  solve_fixed 2%nat decode_pulse.
Qed.

(** The length of one string of an encodable node fits its header field. *)
Lemma node_len16 m s : ok_node m -> s ∈ node_strs m -> len16 s = Z.of_nat (length s).
Proof.
  intros (_ & _ & _ & _ & _ & Hsz) Hin. unfold len16. apply wrap_small. split; [lia|].
  assert (length s <= length (concat (node_strs m)))%nat; [|unfold node_size in Hsz; lia].
  apply list_elem_of_lookup in Hin as [k Hk]. rewrite (concat_split _ _ _ Hk), !length_app. lia.
Qed.

Lemma node_roundtrip e dst ts m pad :
  ok_node m -> length pad = 34%nat -> length dst = (8 + node_size m)%nat ->
  exists body,
    encode_update_node (E := unit) e (Some dst) ts (node_ref m) (node_side m) (node_id m) (node_az m)
      (node_role m) (node_version m) (node_env m) (node_ns m) (node_node_type m) (node_address m)
      (node_process m) (node_container m) (node_pod_name m) (node_role_uid m) pad
    = Ok (frame e ts body)
    /\ decode_update_node e body = Ok m /\ is_body e metadata_update_node body.
Proof.
  intros Hm Hp Hd. pose proof (fun s => node_len16 m s Hm) as H16.
  destruct (Hm) as (Hrpc & Href & Hside & Hty & Hv & Hsz). unfold node_size in *.
  set (strs := node_strs m) in *.
  set (fs := wire_update_node (node_ref m) (node_side m) (node_id m) (node_az m)
               (node_role m) (node_version m) (node_env m) (node_ns m) (node_node_type m)
               (node_address m) (node_process m) (node_container m) (node_pod_name m)).
  set (c := Z.of_nat 34 + Z.of_nat (length (concat strs))).
  assert (layout_ok 34 (fs c)) as Hok by (unfold fs; solve_layout).
  assert (length (struct_bytes e (fs c) pad) = 34%nat) as Hl by (by apply length_struct_bytes).
  assert (mkField 2 2 c ∈ fs c) as Hc2.
  { rewrite <- (wrap_small 16 c) at 1 by (unfold fits, c in *; lia). in_layout. }
  exists (struct_bytes e (fs c) pad ++ concat strs). split; [|split].
  - unfold encode_update_node. apply (encode_dynamic_eq e 34 dst ts fs pad strs); fold c; try done; lia.
  - unfold decode_update_node.
    erewrite check_rpc_field by (try eassumption; in_layout). cbn [rbind].
    erewrite (check_len_field e 34 (fs c) pad _ c) by (try eassumption; unfold c; lia). cbn [rbind].
    erewrite get_uint_field by (try eassumption; in_layout). cbn [rbind].
    erewrite index_field by (try eassumption; in_layout). cbn [rbind].
    erewrite index_field by (try eassumption; in_layout). cbn [rbind].
    change 34%nat with (str_off 34 strs 0) at 1.
    repeat (erewrite get_str_nth;
            [cbn [rbind]|eassumption|eassumption|eassumption|reflexivity
            |erewrite <- H16 by (unfold strs; in_layout); in_layout]).
    erewrite (get_tail_last e 34 (fs c) pad strs 10) by
      (try eassumption; try reflexivity; unfold c; lia).
    cbn [rbind]. rewrite <- Hrpc. by destruct m.
  - split; cbn [RenderParser.rpc_id RenderParser.size].
    + rewrite take_app_le by lia.
      eapply (struct_bytes_field e 34 (fs c) pad (mkField 0 2 463)); [done|done|in_layout].
    + change (take 2 (drop 2 (struct_bytes e (fs c) pad ++ concat strs))
              = to_ne_bytes e 2 (Z.of_nat (length (struct_bytes e (fs c) pad ++ concat strs)))
              /\ 4 <= Z.of_nat (length (struct_bytes e (fs c) pad ++ concat strs)) < 2 ^ 16).
      rewrite length_app, Hl. replace (Z.of_nat (34 + length (concat strs))) with c by (unfold c; lia).
      split; [|unfold c; lia]. rewrite drop_app_le, take_app_le by (rewrite ?length_drop; lia).
      eapply (struct_bytes_field e 34 (fs c) pad (mkField 2 2 c)); done.
Qed.

(** A node description survives the wire: encoded into a buffer of exactly
    its size it is a frame the parser accepts, and decoding the body gives
    every field back, the eleven strings included. *)
Theorem update_node_roundtrip e dst ts m pad :
  ok_node m -> length pad = 34%nat -> length dst = (8 + node_size m)%nat ->
  exists body,
    encode_update_node (E := unit) e (Some dst) ts (node_ref m) (node_side m) (node_id m) (node_az m)
      (node_role m) (node_version m) (node_env m) (node_ns m) (node_node_type m) (node_address m)
      (node_process m) (node_container m) (node_pod_name m) (node_role_uid m) pad
    = Ok (frame e ts body)
    /\ decode_update_node e body = Ok m /\ is_body e metadata_update_node body.
Proof. apply node_roundtrip. Qed.

(** Every fixed message of the protocol survives the wire in the same way:
    the encoder's [repr(C)] layout and the decoder's literal offsets agree. *)
Theorem fixed_messages_roundtrip :
  roundtrips ok_start 16 (fun _ => 16%nat)
    (fun e d ts m pad => encode_agg_root_start e d ts (start_ref m) pad)
    decode_agg_root_start metadata_agg_root_start
  /\ roundtrips ok_end 16 (fun _ => 16%nat)
    (fun e d ts m pad => encode_agg_root_end e d ts (end_ref m) pad)
    decode_agg_root_end metadata_agg_root_end
  /\ roundtrips ok_tcp 60 (fun _ => 60%nat)
    (fun e d ts m pad => encode_update_tcp_metrics e d ts (tcp_ref m) (tcp_direction m)
      (tcp_active_sockets m) (tcp_sum_retrans m) (tcp_sum_bytes m) (tcp_sum_srtt m)
      (tcp_sum_delivered m) (tcp_active_rtts m) (tcp_syn_timeouts m) (tcp_new_sockets m)
      (tcp_tcp_resets m) pad)
    decode_update_tcp_metrics metadata_update_tcp_metrics
  /\ roundtrips ok_udp 36 (fun _ => 36%nat)
    (fun e d ts m pad => encode_update_udp_metrics e d ts (udp_ref m) (udp_direction m)
      (udp_active_sockets m) (udp_addr_changes m) (udp_packets m) (udp_bytes m) (udp_drops m) pad)
    decode_update_udp_metrics metadata_update_udp_metrics
  /\ roundtrips ok_http 48 (fun _ => 48%nat)
    (fun e d ts m pad => encode_update_http_metrics e d ts (http_ref m) (http_direction m)
      (http_active_sockets m) (http_sum_code_200 m) (http_sum_code_400 m) (http_sum_code_500 m)
      (http_sum_code_other m) (http_sum_total_time_ns m) (http_sum_processing_time_ns m) pad)
    decode_update_http_metrics metadata_update_http_metrics
  /\ roundtrips ok_dns 48 (fun _ => 48%nat)
    (fun e d ts m pad => encode_update_dns_metrics e d ts (dns_ref m) (dns_direction m)
      (dns_active_sockets m) (dns_requests_a m) (dns_requests_aaaa m) (dns_responses m)
      (dns_timeouts m) (dns_sum_total_time_ns m) (dns_sum_processing_time_ns m) pad)
    decode_update_dns_metrics metadata_update_dns_metrics
  /\ roundtrips (fun m => pulse_rpc_id m = 65535) 2 (fun _ => 2%nat)
    (fun e d ts m pad => encode_pulse e d ts pad) decode_pulse metadata_pulse.
Proof.
  split_and!; [apply start_roundtrip|apply end_roundtrip|apply tcp_roundtrip|apply udp_roundtrip
              |apply http_roundtrip|apply dns_roundtrip|apply pulse_roundtrip].
Qed.

Lemma check_len_Ok e body len :
  check_len e body = Ok len ->
  (4 <= length body)%nat /\ len = from_ne_bytes e (take 2 (drop 2 body))
  /\ 4 <= len /\ (Z.to_nat len <= length body)%nat.
Proof.
  unfold check_len. destruct (Nat.ltb_spec (length body) 4); [done|].
  rewrite (index_range_Ok body 2 2) by lia. cbn [rbind].
  destruct (Z.ltb_spec (from_ne_bytes e (take 2 (drop 2 body))) 4); [done|].
  destruct (Nat.ltb_spec (length body) (Z.to_nat (from_ne_bytes e (take 2 (drop 2 body))))); [done|].
  intros H2. injection H2 as <-. done.
Qed.

(** Decoding a node description panics exactly on a body that announces a
    length it has but is shorter than the 34-byte header; every other malformed
    body is an error value. *)
Theorem decode_update_node_panics e body :
  decode_update_node e body = Panic <->
  check_rpc e 463 body = Ok 463 /\ (exists len, check_len e body = Ok len) /\ (length body < 34)%nat.
Proof.
  split.
  - intros Hp. unfold decode_update_node in Hp.
    destruct (check_rpc e 463 body) as [rpc| |] eqn:Hr; [|done|by destruct (check_rpc_no_panic e 463 body)].
    assert (rpc = 463) as ->.
    { unfold check_rpc in Hr. destruct (length body <? 2)%nat; [done|]. inv_res.
      destruct (Z.eqb_spec (from_ne_bytes e a) 463); by simplify_eq. }
    destruct (check_len e body) as [len| |] eqn:Hlen; [|done|by destruct (check_len_no_panic e body)].
    split; [done|]. split; [by exists len|]. destruct (decide (length body < 34)%nat) as [|Hge]; [done|].
    exfalso. revert Hp. cbn [rbind].
    apply rbind_no_panic; [apply get_uint_no_panic; lia|intros ref _].
    apply rbind_no_panic; [apply index_no_panic; lia|intros side _].
    apply rbind_no_panic; [apply index_no_panic; lia|intros node_type _].
    do 10 (apply rbind_no_panic; [apply get_str_no_panic; lia|intros [? ?] _]).
    apply rbind_no_panic; [apply get_tail_no_panic|done].
  - intros (Hr & [len Hlen] & Hl). unfold decode_update_node. rewrite Hr, Hlen. cbn [rbind].
    apply check_len_Ok in Hlen as (H4 & _).
    destruct (decide (16 <= length body)%nat).
    + unfold get_uint. rewrite index_range_Ok by lia. cbn [rbind]. unfold index.
      destruct (body !! 32%nat) eqn:H32; [|done]. apply lookup_lt_Some in H32.
      by rewrite (lookup_ge_None_2 body 33) by lia.
    + unfold get_uint, index_range. rewrite decide_True by lia.
      destruct (sublist_lookup 8 (8 + 8 - 8) body) eqn:Hs; [|done].
      apply sublist_lookup_Some' in Hs as [_ ?]. lia.
Qed.

(** ** Witness *)

Definition sample_node : update_node :=
  mk_update_node 463 77 1 [105] [97; 122] [] [49] [] [195; 169] 3 [49; 48] [] [99] [112] [117].

Lemma sample_node_ok : ok_node sample_node.
Proof. split_and!; [done..| |done]. by repeat constructor. Qed.

Lemma update_node_roundtrip_witness :
  exists body,
    encode_update_node (E := unit) LittleEndian (Some (replicate 53 0)) 1700 77 1 [105] [97; 122] [] [49]
      [] [195; 169] 3 [49; 48] [] [99] [112] [117] (replicate 34 170)
    = Ok (frame LittleEndian 1700 body)
    /\ decode_update_node LittleEndian body = Ok sample_node.
Proof.
  destruct (update_node_roundtrip LittleEndian (replicate 53 0) 1700 sample_node (replicate 34 170))
    as (body & H1 & H2 & _); [exact sample_node_ok|reflexivity|reflexivity|].
  exists body. split; [exact H1|exact H2].
Defined.
