(* ===== verification/Hash.v ===== *)
(** * Perfect hashes and message registries of the generated crates
      (hash.rs and all_message_metadata of crates/render/ebpf_net and of
      crates/render/test/app1)

    For each application of the render definition: the generated hash of RPC
    identifiers and the metadata of its messages.  The theorems show that each
    hash is total and in range on all of [u32] and free of collisions on the
    application's messages, so that its parser can be filled. *)

From S2P Require Import Prelude PerfectHashMap RenderParser AggWire.

Local Open Scope rust_scope.

(** The constants of a [hash.rs]. *)
Record tables := mkTables { HASH_SIZE : nat; G_ARRAY : list Z }.

(** ** aggregation *)

Definition aggregation_tables : tables := mkTables 16
  [0; 9; 0; 0].

Definition aggregation_hash {E} (rpc_id : Z) : res E Z :=
  let k := wrapping_mul 32 (Z.lxor rpc_id 0) 2654435761 in
  let? g := index (G_ARRAY aggregation_tables) (Z.to_nat (Z.shiftr k 30)) in
  Ok (Z.land (wrapping_add 32 (Z.shiftr k 26) g) 15).

(** ** ingest *)

Definition ingest_tables : tables := mkTables 128
  [0; 10; 9; 0; 63; 1; 11; 0; 0; 1; 4; 31; 4; 21; 14; 0; 5; 4; 4; 1; 0; 14; 3; 1; 4; 118; 0; 0;
  17; 1; 1; 0].

Definition ingest_hash {E} (rpc_id : Z) : res E Z :=
  let k := wrapping_mul 32 (Z.lxor rpc_id 0) 2654435761 in
  let? g := index (G_ARRAY ingest_tables) (Z.to_nat (Z.shiftr k 27)) in
  Ok (Z.land (wrapping_add 32 (Z.shiftr k 20) g) 127).

Definition ingest_all_message_metadata : list MessageMetadata :=
  [new_fixed 301 24 true; new_fixed 306 24 true; new_fixed 393 32 true; new_dynamic 546 true;
  new_fixed 397 16 true; new_fixed 399 24 true; new_dynamic 547 true; new_fixed 500 16 true;
  new_fixed 501 16 true; new_fixed 502 16 true; new_fixed 503 24 true; new_dynamic 504 true;
  new_fixed 517 28 true; new_fixed 394 88 true; new_fixed 544 280 true; new_fixed 395 16 true;
  new_dynamic 396 true; new_dynamic 410 true; new_dynamic 508 true; new_dynamic 512 true;
  new_dynamic 513 true; new_fixed 514 41 true; new_fixed 518 45 true; new_dynamic 538 true;
  new_fixed 302 16 true; new_fixed 303 26 true; new_fixed 304 50 true; new_fixed 326 32 true;
  new_fixed 360 22 true; new_fixed 308 16 true; new_fixed 398 16 true; new_fixed 401 25 true;
  new_fixed 519 16 true; new_fixed 307 16 true; new_fixed 309 16 true; new_fixed 310 16 false;
  new_dynamic 415 true; new_dynamic 416 true; new_fixed 321 19 true; new_fixed 322 67 true;
  new_fixed 323 20 true; new_fixed 324 20 true; new_dynamic 325 true; new_dynamic 391 true;
  new_fixed 327 62 true; new_fixed 352 86 false; new_fixed 353 28 true; new_fixed 354 40 true;
  new_fixed 355 32 true; new_fixed 356 16 true; new_fixed 357 16 true; new_dynamic 358 true;
  new_dynamic 414 true; new_dynamic 515 true; new_dynamic 400 true; new_dynamic 494 true;
  new_dynamic 359 true; new_fixed 390 16 true; new_fixed 351 16 true; new_fixed 392 2 true;
  new_dynamic 548 false; new_dynamic 409 false; new_dynamic 411 true; new_fixed 412 54 true;
  new_fixed 413 4 true; new_dynamic 419 true; new_dynamic 545 true; new_fixed 420 3 true;
  new_fixed 491 3 true; new_fixed 492 2 true; new_fixed 493 2 true; new_dynamic 495 true;
  new_fixed 496 6 true; new_fixed 498 24 true; new_dynamic 511 true; new_fixed 536 8 true;
  new_dynamic 537 true; new_fixed 406 32 true; new_fixed 407 16 true; new_dynamic 408 true;
  new_dynamic 417 true; new_fixed 328 28 true; new_fixed 330 16 true; new_fixed 341 21 true;
  new_fixed 350 33 true; new_dynamic 402 true; new_dynamic 403 true; new_fixed 405 12 true;
  new_dynamic 418 true; new_fixed 329 8 true; new_fixed 65535 2 true].

(** ** logging *)

Definition logging_tables : tables := mkTables 64
  [1; 4; 0; 0; 4; 3; 3; 4; 2; 3; 2; 2; 1; 0; 0; 0].

Definition logging_hash {E} (rpc_id : Z) : res E Z :=
  let k := wrapping_mul 32 (Z.lxor rpc_id 0) 2654435761 in
  let? g := index (G_ARRAY logging_tables) (Z.to_nat (Z.shiftr k 28)) in
  Ok (Z.land (wrapping_add 32 (Z.shiftr k 22) g) 63).

Definition logging_all_message_metadata : list MessageMetadata :=
  [new_fixed 600 16 true; new_fixed 601 16 true; new_dynamic 602 true; new_dynamic 603 true;
  new_fixed 604 24 true; new_dynamic 605 true; new_dynamic 606 true; new_fixed 607 16 true;
  new_fixed 608 16 true; new_fixed 609 16 true; new_fixed 610 16 true; new_dynamic 611 true;
  new_dynamic 612 true; new_dynamic 613 true; new_dynamic 614 true; new_dynamic 615 true;
  new_dynamic 616 true; new_fixed 617 88 true; new_dynamic 618 true; new_fixed 619 16 true;
  new_fixed 620 16 true; new_dynamic 621 true; new_dynamic 622 true; new_dynamic 623 true;
  new_dynamic 624 true; new_dynamic 625 true; new_dynamic 626 true; new_dynamic 627 true;
  new_dynamic 628 true; new_fixed 629 16 true; new_fixed 630 16 true; new_dynamic 631 true;
  new_dynamic 632 true; new_dynamic 644 true; new_fixed 633 16 true; new_fixed 634 16 true;
  new_dynamic 635 true; new_dynamic 636 true; new_dynamic 637 true; new_dynamic 638 true;
  new_dynamic 639 true; new_dynamic 640 true; new_dynamic 641 true; new_dynamic 642 true;
  new_dynamic 643 true; new_fixed 65535 2 true].

(** ** matching *)

Definition matching_tables : tables := mkTables 32
  [1; 2; 0; 0; 2; 0; 0; 1].

Definition matching_hash {E} (rpc_id : Z) : res E Z :=
  let k := wrapping_mul 32 (Z.lxor rpc_id 0) 2654435761 in
  let? g := index (G_ARRAY matching_tables) (Z.to_nat (Z.shiftr k 29)) in
  Ok (Z.land (wrapping_add 32 (Z.shiftr k 24) g) 31).

Definition matching_all_message_metadata : list MessageMetadata :=
  [new_fixed 421 48 true; new_fixed 422 16 true; new_dynamic 423 true; new_dynamic 424 true;
  new_dynamic 425 true; new_fixed 426 88 true; new_fixed 427 60 true; new_fixed 428 36 true;
  new_fixed 429 48 true; new_fixed 430 48 true; new_dynamic 434 true; new_dynamic 435 true;
  new_fixed 431 32 true; new_fixed 432 16 true; new_dynamic 433 true; new_fixed 436 88 true;
  new_fixed 437 16 true; new_dynamic 438 true; new_fixed 439 88 true; new_fixed 440 16 true;
  new_dynamic 471 true; new_fixed 65535 2 true].

(** ** agent_internal *)

Definition agent_internal_tables : tables := mkTables 64
  [1; 0; 0; 1; 0; 0; 1; 1].

Definition agent_internal_hash {E} (rpc_id : Z) : res E Z :=
  let k := wrapping_mul 32 (Z.lxor rpc_id 0) 2654435761 in
  let? g := index (G_ARRAY agent_internal_tables) (Z.to_nat (Z.shiftr k 29)) in
  Ok (Z.land (wrapping_add 32 (Z.shiftr k 23) g) 63).

Definition agent_internal_all_message_metadata : list MessageMetadata :=
  [new_dynamic 331 true; new_fixed 332 40 true; new_fixed 333 16 true; new_fixed 334 32 true;
  new_fixed 335 16 true; new_fixed 336 60 true; new_fixed 337 36 true; new_fixed 338 24 true;
  new_fixed 371 24 true; new_fixed 339 26 true; new_fixed 340 50 true; new_fixed 361 60 true;
  new_fixed 362 16 true; new_fixed 363 280 true; new_fixed 364 280 true; new_fixed 365 280 true;
  new_fixed 366 32 true; new_fixed 367 36 true; new_fixed 368 23 true; new_fixed 369 24 true;
  new_fixed 370 16 true; new_fixed 372 25 true; new_fixed 373 48 true; new_fixed 374 32 true;
  new_fixed 375 28 true; new_fixed 377 20 true; new_fixed 378 40 true; new_fixed 379 16 true;
  new_fixed 65535 2 true].

(** ** cloud_collector *)

Definition cloud_collector_tables : tables := mkTables 4
  [0; 2].

Definition cloud_collector_hash {E} (rpc_id : Z) : res E Z :=
  let k := wrapping_mul 32 (Z.lxor rpc_id 0) 2654435761 in
  let? g := index (G_ARRAY cloud_collector_tables) (Z.to_nat (Z.shiftr k 31)) in
  Ok (Z.land (wrapping_add 32 (Z.shiftr k 29) g) 3).

Definition cloud_collector_all_message_metadata : list MessageMetadata :=
  [new_fixed 65535 2 true].

(** ** kernel_collector *)

Definition kernel_collector_tables : tables := mkTables 4
  [0; 2].

Definition kernel_collector_hash {E} (rpc_id : Z) : res E Z :=
  let k := wrapping_mul 32 (Z.lxor rpc_id 0) 2654435761 in
  let? g := index (G_ARRAY kernel_collector_tables) (Z.to_nat (Z.shiftr k 31)) in
  Ok (Z.land (wrapping_add 32 (Z.shiftr k 29) g) 3).

Definition kernel_collector_all_message_metadata : list MessageMetadata :=
  [new_fixed 65535 2 true].

(** ** app1, the test application *)

Definition app1_tables : tables := mkTables 4
  [0; 2].

Definition app1_hash {E} (rpc_id : Z) : res E Z :=
  let k := wrapping_mul 32 (Z.lxor rpc_id 0) 2654435761 in
  let? g := index (G_ARRAY app1_tables) (Z.to_nat (Z.shiftr k 31)) in
  Ok (Z.land (wrapping_add 32 (Z.shiftr k 29) g) 3).

Definition app1_all_message_metadata : list MessageMetadata :=
  [new_fixed 65535 2 true].

(** ** The applications *)

Record app := mkApp {
  app_hash : Z -> res unit Z;
  app_size : nat;
  app_metadata : list MessageMetadata;
}.

Definition aggregation_app : app := mkApp aggregation_hash (HASH_SIZE aggregation_tables) all_message_metadata.

Definition ingest_app : app :=
  mkApp ingest_hash (HASH_SIZE ingest_tables) ingest_all_message_metadata.
Definition logging_app : app :=
  mkApp logging_hash (HASH_SIZE logging_tables) logging_all_message_metadata.
Definition matching_app : app :=
  mkApp matching_hash (HASH_SIZE matching_tables) matching_all_message_metadata.
Definition agent_internal_app : app :=
  mkApp agent_internal_hash (HASH_SIZE agent_internal_tables) agent_internal_all_message_metadata.
Definition cloud_collector_app : app :=
  mkApp cloud_collector_hash (HASH_SIZE cloud_collector_tables) cloud_collector_all_message_metadata.
Definition kernel_collector_app : app :=
  mkApp kernel_collector_hash (HASH_SIZE kernel_collector_tables) kernel_collector_all_message_metadata.
Definition app1_app : app :=
  mkApp app1_hash (HASH_SIZE app1_tables) app1_all_message_metadata.

Definition apps : list app :=
  [aggregation_app; ingest_app; logging_app; matching_app; agent_internal_app; cloud_collector_app;
   kernel_collector_app; app1_app].

(** The hash as the function the perfect-hash map takes. *)
Definition hash_fn (a : app) (k : Z) : Z :=
  match app_hash a k with Ok v => v | _ => 0 end.

Definition app_ids (a : app) : list Z := rpc_id <$> app_metadata a.

(** Registering messages one by one, each with a value. *)
Fixpoint add_messages {V} (p : profile) (ps : Parser V) (ms : list (MessageMetadata * V))
  : res CollisionError (Parser V) :=
  match ms with
  | [] => Ok ps
  | (md, v) :: ms => let? '(_, ps') := add_message p ps md v in add_messages p ps' ms
  end.

(** ** Properties *)

(** The common shape of the generated hashes: in range for every [u32]. *)
Lemma hash_in_range (G : list Z) gs hs s k :
  0 <= gs <= 32 -> Z.of_nat (length G) = 2 ^ (32 - gs) -> 0 <= s ->
  exists v,
    (let? g := index (E := unit) G (Z.to_nat (Z.shiftr (wrapping_mul 32 k 2654435761) gs)) in
     Ok (Z.land (wrapping_add 32 (Z.shiftr (wrapping_mul 32 k 2654435761) hs) g) (2 ^ s - 1))) = Ok v
    /\ 0 <= v < 2 ^ s.
Proof.
  intros Hgs HG Hs. set (m := wrapping_mul 32 k 2654435761).
  assert (fits 32 m) as [Hm0 Hm1] by (apply wrap_fits; lia).
  destruct (lookup_lt_is_Some_2 G (Z.to_nat (Z.shiftr m gs))) as [g Hg].
  { assert (Z.shiftr m gs < 2 ^ (32 - gs)); [|lia]. rewrite Z.shiftr_div_pow2 by lia.
    apply Z.div_lt_upper_bound; [lia|]. rewrite <- Z.pow_add_r by lia.
    by replace (gs + (32 - gs)) with 32 by lia. }
  unfold index. rewrite Hg. cbn [unwrap rbind]. eexists. split; [done|].
  rewrite land_mask by lia. apply Z.mod_pos_bound. lia.
Qed.

Lemma NoDup_fmap_inj {A B} (f : A -> B) (l : list A) x y :
  NoDup (f <$> l) -> x ∈ l -> y ∈ l -> f x = f y -> x = y.
Proof.
  intros Hnd Hx Hy Hf. apply list_elem_of_lookup in Hx as [i Hi], Hy as [j Hj].
  assert (i = j) as ->; [|congruence].
  eapply NoDup_lookup; [done|by rewrite list_lookup_fmap, Hi|by rewrite list_lookup_fmap, Hj; simpl; f_equal].
Qed.

(** An executable check of perfection. *)
Lemma perfect_check h n K :
  forallb (fun k => (Z.to_nat (h k) <? n)%nat) K = true ->
  bool_decide (NoDup ((fun k => Z.to_nat (h k)) <$> K)) = true ->
  perfect h n K.
Proof.
  intros Hr Hd. split.
  - apply Forall_forall. intros k Hk. apply Nat.ltb_lt.
    by apply (proj1 (forallb_forall _ _) Hr), list_elem_of_In.
  - intros k k' Hk Hk' Heq. apply bool_decide_eq_true in Hd.
    by apply (NoDup_fmap_inj (fun k => Z.to_nat (h k)) K).
Qed.

(** The generated hash of every application is defined and in range for
    every 32-bit key, so the parser's table is never indexed out of bounds,
    and it sends the application's RPC identifiers to distinct slots. *)
Theorem app_hashes_perfect :
  Forall (fun a =>
    (forall k, fits 32 k -> exists v, app_hash a k = Ok v /\ 0 <= v < Z.of_nat (app_size a))
    /\ perfect (hash_fn a) (app_size a) (app_ids a)) apps.
Proof.
  unfold apps. repeat apply Forall_cons_2; [..|by apply Forall_nil_2].
  all: split; [intros k _; cbn [app_hash app_size aggregation_app ingest_app logging_app matching_app
      agent_internal_app cloud_collector_app kernel_collector_app app1_app];
    unfold aggregation_hash, ingest_hash, logging_hash, matching_hash, agent_internal_hash,
      cloud_collector_hash, kernel_collector_hash, app1_hash; rewrite Z.lxor_0_r
    |apply perfect_check; vm_compute; reflexivity].
  - by apply (hash_in_range (G_ARRAY aggregation_tables) 30 26 4 k).
  - by apply (hash_in_range (G_ARRAY ingest_tables) 27 20 7 k).
  - by apply (hash_in_range (G_ARRAY logging_tables) 28 22 6 k).
  - by apply (hash_in_range (G_ARRAY matching_tables) 29 24 5 k).
  - by apply (hash_in_range (G_ARRAY agent_internal_tables) 29 23 6 k).
  - by apply (hash_in_range (G_ARRAY cloud_collector_tables) 31 29 2 k).
  - by apply (hash_in_range (G_ARRAY kernel_collector_tables) 31 29 2 k).
  - by apply (hash_in_range (G_ARRAY app1_tables) 31 29 2 k).
Qed.

(** Registering messages of a perfect hash adds them to the registry's
    abstract map, in order. *)
Lemma add_messages_spec {V} p K (ps : Parser V) g ms :
  simulates K (map ps) g -> Forall (fun m => rpc_id m.1 ∈ K) ms ->
  exists ps', add_messages p ps ms = Ok ps'
    /\ simulates K (map ps')
         (fold_left (fun g m => <[rpc_id m.1 := mkPEntry m.1 m.2]> g) ms g).
Proof.
  intros Hsim Hms. revert ps g Hsim. induction Hms as [|[md v] ms Hm _ IH]; intros ps g Hsim.
  { by exists ps. }
  destruct (step_simulates p K (map ps) g (OpInsert (rpc_id md) (mkPEntry md v)) Hsim) as (m' & Hst & Hsim').
  { by constructor. }
  simpl in Hst. inv_res. destruct a as [old m1]. simplify_eq.
  destruct (IH (mkParser m1) _ Hsim') as (ps' & Hps' & Hsim'').
  exists ps'. split; [|done]. cbn [add_messages]. unfold add_message. rewrite Ha. simpl. exact Hps'.
Qed.

(** With distinct identifiers, every message is found as registered. *)
Lemma registered_lookup {V} (ms : list (MessageMetadata * V)) (g : gmap Z (Entry V)) m :
  NoDup ((fun m => rpc_id m.1) <$> ms) -> m ∈ ms ->
  fold_left (fun g m => <[rpc_id m.1 := mkPEntry m.1 m.2]> g) ms g !! rpc_id m.1
  = Some (mkPEntry m.1 m.2).
Proof.
  assert (forall ms (g : gmap Z (Entry V)) k,
    k ∉ (fun m => rpc_id m.1) <$> ms ->
    fold_left (fun g m => <[rpc_id m.1 := mkPEntry m.1 m.2]> g) ms g !! k = g !! k) as Hother.
  { clear. induction ms as [|m ms IH]; intros g k Hk; [done|]. csimpl in *.
    apply not_elem_of_cons in Hk as [Hne Hk]. rewrite IH by done. by rewrite lookup_insert_ne. }
  revert g. induction ms as [|m0 ms IH]; intros g Hnd Hin; [by apply elem_of_nil in Hin|].
  csimpl in *. apply NoDup_cons in Hnd as [Hnew Hnd].
  apply elem_of_cons in Hin as [->|Hin]; [|by apply IH].
  rewrite Hother by done. by rewrite lookup_insert_eq.
Qed.

Lemma registered_parser {V} p a (v : MessageMetadata -> V) :
  a ∈ apps ->
  exists ps,
    add_messages p (new (app_size a) (hash_fn a)) ((fun md => (md, v md)) <$> app_metadata a) = Ok ps
    /\ Forall (fun md => get (map ps) (rpc_id md) = Some (mkPEntry md (v md))) (app_metadata a).
Proof.
  intros Ha.
  assert (perfect (hash_fn a) (app_size a) (app_ids a) /\ NoDup (app_ids a)
          /\ Z.of_nat (app_size a) < 2 ^ 64) as (Hperf & Hnd & Hsz).
  { revert a Ha. apply Forall_forall. unfold apps.
    repeat apply Forall_cons_2; [..|by apply Forall_nil_2];
      (split; [apply perfect_check; vm_compute; reflexivity|]);
      (split; [apply (bool_decide_eq_true_1 _); vm_compute; reflexivity|done]). }
  destruct (add_messages_spec p (app_ids a) (new (app_size a) (hash_fn a)) ∅
              ((fun md => (md, v md)) <$> app_metadata a)) as (ps & Hps & Hsim).
  - split_and!; [by apply wf_new|apply abs_new|simpl; by rewrite length_replicate|].
    intros k [x Hx]. by rewrite lookup_empty in Hx.
  - apply Forall_fmap, Forall_forall. intros md Hmd. simpl. apply list_elem_of_fmap. by exists md.
  - exists ps. split; [done|]. destruct Hsim as (Hwf & Habs & _). apply Forall_forall. intros md Hmd.
    rewrite get_abs, Habs by done.
    apply (registered_lookup _ ∅ (md, v md)).
    + rewrite <- list_fmap_compose. exact Hnd.
    + apply list_elem_of_fmap. by exists md.
Qed.

(** Every application's parser can be built: registering all its messages
    in order, each with any value, succeeds without a collision, and the
    registry then holds for each RPC identifier exactly its message's metadata
    and value. *)
Theorem registries_complete {V} p a (v : MessageMetadata -> V) :
  a ∈ apps ->
  exists ps,
    add_messages p (new (app_size a) (hash_fn a)) ((fun md => (md, v md)) <$> app_metadata a) = Ok ps
    /\ Forall (fun md => get (map ps) (rpc_id md) = Some (mkPEntry md (v md))) (app_metadata a).
Proof. apply registered_parser. Qed.

Lemma registries_complete_witness :
  exists ps, add_messages Debug (new 16 (hash_fn aggregation_app))
               ((fun md => (md, rpc_id md)) <$> all_message_metadata) = Ok ps
    /\ Forall (fun md => get (map ps) (rpc_id md) = Some (mkPEntry md (rpc_id md))) all_message_metadata.
Proof. apply (registries_complete Debug aggregation_app rpc_id). apply list_elem_of_here. Defined.
