(* ===== verification/IngestCodec.v ===== *)
(** * The ingest messages (crates/render/ebpf_net/ingest)

    For each message its wire struct, metadata and layout (wire_messages.rs),
    its encoder (encoder.rs) and its decoder (parsed_message.rs), by the
    literals of the generated code; see [Codec].  The lists at the end are the
    contents of the three files, in their order. *)

From S2P Require Import Prelude RenderParser Wire Codec.

Local Open Scope string_scope.
Local Open Scope Z_scope.

(** *** pid_info *)

Definition wire_pid_info : wire :=
  mkWire
    [("_rpc_id", U 2); ("comm", Arr 16); ("pid", U 4)]
    (new_fixed 301 24 true) 24
    [("_rpc_id", 0); ("comm", 2); ("pid", 20)]%nat.
Definition encode_pid_info : encoder :=
  FixedEncoder 301 24
    [("pid", PU 4); ("comm", PPtr)]
    (w_struct wire_pid_info).
Definition decode_pid_info : decoder :=
  FixedDecoder 301 24
    [("pid", GUint 20 4); ("comm", GArr 2 16)].

(** *** pid_close_info *)

Definition wire_pid_close_info : wire :=
  mkWire
    [("_rpc_id", U 2); ("comm", Arr 16); ("pid", U 4)]
    (new_fixed 306 24 true) 24
    [("_rpc_id", 0); ("comm", 2); ("pid", 20)]%nat.
Definition encode_pid_close_info : encoder :=
  FixedEncoder 306 24
    [("pid", PU 4); ("comm", PPtr)]
    (w_struct wire_pid_close_info).
Definition decode_pid_close_info : decoder :=
  FixedDecoder 306 24
    [("pid", GUint 20 4); ("comm", GArr 2 16)].

(** *** pid_info_create_deprecated *)

Definition wire_pid_info_create_deprecated : wire :=
  mkWire
    [("_rpc_id", U 2); ("comm", Arr 16); ("pid", U 4); ("cgroup", U 8)]
    (new_fixed 393 32 true) 32
    [("_rpc_id", 0); ("comm", 2); ("pid", 20); ("cgroup", 24)]%nat.
Definition encode_pid_info_create_deprecated : encoder :=
  FixedEncoder 393 32
    [("pid", PU 4); ("comm", PPtr); ("cgroup", PU 8)]
    (w_struct wire_pid_info_create_deprecated).
Definition decode_pid_info_create_deprecated : decoder :=
  FixedDecoder 393 32
    [("pid", GUint 20 4); ("comm", GArr 2 16); ("cgroup", GUint 24 8)].

(** *** pid_info_create *)

Definition wire_pid_info_create : wire :=
  mkWire
    [("_rpc_id", U 2); ("_len", U 2); ("pid", U 4); ("cgroup", U 8); ("parent_pid", I 4);
     ("comm", Arr 16)]
    (new_dynamic 546 true) 36
    [("_rpc_id", 0); ("_len", 2); ("pid", 4); ("cgroup", 8); ("parent_pid", 16); ("comm", 20)]%nat.
Definition encode_pid_info_create : encoder :=
  DynamicEncoder 546 36
    [("pid", PU 4); ("comm", PPtr); ("cgroup", PU 8); ("parent_pid", PI 4); ("cmdline", PBlob)]
    (w_struct wire_pid_info_create)
    ["cmdline"].
Definition decode_pid_info_create : decoder :=
  DynamicDecoder 546
    [("pid", GUint 4 4); ("comm", GArr 20 16); ("cgroup", GUint 8 8); ("parent_pid", GInt 16 4)] 36
    []
    "cmdline".

(** *** pid_cgroup_move *)

Definition wire_pid_cgroup_move : wire :=
  mkWire
    [("_rpc_id", U 2); ("pid", U 4); ("cgroup", U 8)]
    (new_fixed 397 16 true) 16
    [("_rpc_id", 0); ("pid", 4); ("cgroup", 8)]%nat.
Definition encode_pid_cgroup_move : encoder :=
  FixedEncoder 397 16
    [("pid", PU 4); ("cgroup", PU 8)]
    (w_struct wire_pid_cgroup_move).
Definition decode_pid_cgroup_move : decoder :=
  FixedDecoder 397 16
    [("pid", GUint 4 4); ("cgroup", GUint 8 8)].

(** *** pid_set_comm *)

Definition wire_pid_set_comm : wire :=
  mkWire
    [("_rpc_id", U 2); ("comm", Arr 16); ("pid", U 4)]
    (new_fixed 399 24 true) 24
    [("_rpc_id", 0); ("comm", 2); ("pid", 20)]%nat.
Definition encode_pid_set_comm : encoder :=
  FixedEncoder 399 24
    [("pid", PU 4); ("comm", PPtr)]
    (w_struct wire_pid_set_comm).
Definition decode_pid_set_comm : decoder :=
  FixedDecoder 399 24
    [("pid", GUint 20 4); ("comm", GArr 2 16)].

(** *** pid_set_cmdline *)

Definition wire_pid_set_cmdline : wire :=
  mkWire
    [("_rpc_id", U 2); ("_len", U 2); ("pid", U 4)]
    (new_dynamic 547 true) 8
    [("_rpc_id", 0); ("_len", 2); ("pid", 4)]%nat.
Definition encode_pid_set_cmdline : encoder :=
  DynamicEncoder 547 8
    [("pid", PU 4); ("cmdline", PBlob)]
    (w_struct wire_pid_set_cmdline)
    ["cmdline"].
Definition decode_pid_set_cmdline : decoder :=
  DynamicDecoder 547
    [("pid", GUint 4 4)] 8
    []
    "cmdline".

(** *** tracked_process_start *)

Definition wire_tracked_process_start : wire :=
  mkWire
    [("_rpc_id", U 2); ("_ref", U 8)]
    (new_fixed 500 16 true) 16
    [("_rpc_id", 0); ("_ref", 8)]%nat.
Definition encode_tracked_process_start : encoder :=
  FixedEncoder 500 16
    [("_ref", PU 8)]
    (w_struct wire_tracked_process_start).
Definition decode_tracked_process_start : decoder :=
  FixedDecoder 500 16
    [("_ref", GUint 8 8)].

(** *** tracked_process_end *)

Definition wire_tracked_process_end : wire :=
  mkWire
    [("_rpc_id", U 2); ("_ref", U 8)]
    (new_fixed 501 16 true) 16
    [("_rpc_id", 0); ("_ref", 8)]%nat.
Definition encode_tracked_process_end : encoder :=
  FixedEncoder 501 16
    [("_ref", PU 8)]
    (w_struct wire_tracked_process_end).
Definition decode_tracked_process_end : decoder :=
  FixedDecoder 501 16
    [("_ref", GUint 8 8)].

(** *** set_tgid *)

Definition wire_set_tgid : wire :=
  mkWire
    [("_rpc_id", U 2); ("tgid", U 4); ("_ref", U 8)]
    (new_fixed 502 16 true) 16
    [("_rpc_id", 0); ("tgid", 4); ("_ref", 8)]%nat.
Definition encode_set_tgid : encoder :=
  FixedEncoder 502 16
    [("_ref", PU 8); ("tgid", PU 4)]
    (w_struct wire_set_tgid).
Definition decode_set_tgid : decoder :=
  FixedDecoder 502 16
    [("_ref", GUint 8 8); ("tgid", GUint 4 4)].

(** *** set_cgroup *)

Definition wire_set_cgroup : wire :=
  mkWire
    [("_rpc_id", U 2); ("cgroup", U 8); ("_ref", U 8)]
    (new_fixed 503 24 true) 24
    [("_rpc_id", 0); ("cgroup", 8); ("_ref", 16)]%nat.
Definition encode_set_cgroup : encoder :=
  FixedEncoder 503 24
    [("_ref", PU 8); ("cgroup", PU 8)]
    (w_struct wire_set_cgroup).
Definition decode_set_cgroup : decoder :=
  FixedDecoder 503 24
    [("_ref", GUint 16 8); ("cgroup", GUint 8 8)].

(** *** set_command *)

Definition wire_set_command : wire :=
  mkWire
    [("_rpc_id", U 2); ("_len", U 2); ("_ref", U 8)]
    (new_dynamic 504 true) 16
    [("_rpc_id", 0); ("_len", 2); ("_ref", 8)]%nat.
Definition encode_set_command : encoder :=
  DynamicEncoder 504 16
    [("_ref", PU 8); ("command", PBlob)]
    (w_struct wire_set_command)
    ["command"].
Definition decode_set_command : decoder :=
  DynamicDecoder 504
    [("_ref", GUint 8 8)] 16
    []
    "command".

(** *** pid_exit *)

Definition wire_pid_exit : wire :=
  mkWire
    [("_rpc_id", U 2); ("pid", U 4); ("tgid", U 8); ("_ref", U 8); ("exit_code", I 4)]
    (new_fixed 517 28 true) 28
    [("_rpc_id", 0); ("pid", 4); ("tgid", 8); ("_ref", 16); ("exit_code", 24)]%nat.
Definition encode_pid_exit : encoder :=
  FixedEncoder 517 28
    [("_ref", PU 8); ("tgid", PU 8); ("pid", PU 4); ("exit_code", PI 4)]
    (w_struct wire_pid_exit).
Definition decode_pid_exit : decoder :=
  FixedDecoder 517 28
    [("_ref", GUint 16 8); ("tgid", GUint 8 8); ("pid", GUint 4 4); ("exit_code", GInt 24 4)].

(** *** cgroup_create_deprecated *)

Definition wire_cgroup_create_deprecated : wire :=
  mkWire
    [("_rpc_id", U 2); ("name", Arr 64); ("cgroup", U 8); ("cgroup_parent", U 8)]
    (new_fixed 394 88 true) 88
    [("_rpc_id", 0); ("name", 2); ("cgroup", 72); ("cgroup_parent", 80)]%nat.
Definition encode_cgroup_create_deprecated : encoder :=
  FixedEncoder 394 88
    [("cgroup", PU 8); ("cgroup_parent", PU 8); ("name", PPtr)]
    (w_struct wire_cgroup_create_deprecated).
Definition decode_cgroup_create_deprecated : decoder :=
  FixedDecoder 394 88
    [("cgroup", GUint 72 8); ("cgroup_parent", GUint 80 8); ("name", GArr 2 64)].

(** *** cgroup_create *)

Definition wire_cgroup_create : wire :=
  mkWire
    [("_rpc_id", U 2); ("name", Arr 256); ("cgroup", U 8); ("cgroup_parent", U 8)]
    (new_fixed 544 280 true) 280
    [("_rpc_id", 0); ("name", 2); ("cgroup", 264); ("cgroup_parent", 272)]%nat.
Definition encode_cgroup_create : encoder :=
  FixedEncoder 544 280
    [("cgroup", PU 8); ("cgroup_parent", PU 8); ("name", PPtr)]
    (w_struct wire_cgroup_create).
Definition decode_cgroup_create : decoder :=
  FixedDecoder 544 280
    [("cgroup", GUint 264 8); ("cgroup_parent", GUint 272 8); ("name", GArr 2 256)].

(** *** cgroup_close *)

Definition wire_cgroup_close : wire :=
  mkWire
    [("_rpc_id", U 2); ("cgroup", U 8)]
    (new_fixed 395 16 true) 16
    [("_rpc_id", 0); ("cgroup", 8)]%nat.
Definition encode_cgroup_close : encoder :=
  FixedEncoder 395 16
    [("cgroup", PU 8)]
    (w_struct wire_cgroup_close).
Definition decode_cgroup_close : decoder :=
  FixedDecoder 395 16
    [("cgroup", GUint 8 8)].

(** *** container_metadata *)

Definition wire_container_metadata : wire :=
  mkWire
    [("_rpc_id", U 2); ("_len", U 2); ("id", U 2); ("name", U 2); ("cgroup", U 8);
     ("image", U 2); ("ip_addr", U 2); ("cluster", U 2); ("container_name", U 2);
     ("task_family", U 2); ("task_version", U 2)]
    (new_dynamic 396 true) 28
    [("_rpc_id", 0); ("_len", 2); ("id", 4); ("name", 6); ("cgroup", 8); ("image", 16);
     ("ip_addr", 18); ("cluster", 20); ("container_name", 22); ("task_family", 24);
     ("task_version", 26)]%nat.
Definition encode_container_metadata : encoder :=
  DynamicEncoder 396 28
    [("cgroup", PU 8); ("id", PBlob); ("name", PBlob); ("image", PBlob); ("ip_addr", PBlob);
     ("cluster", PBlob); ("container_name", PBlob); ("task_family", PBlob);
     ("task_version", PBlob); ("ns", PBlob)]
    (w_struct wire_container_metadata)
    ["id"; "name"; "image"; "ip_addr"; "cluster"; "container_name"; "task_family";
     "task_version"; "ns"].
Definition decode_container_metadata : decoder :=
  DynamicDecoder 396
    [("cgroup", GUint 8 8)] 28
    [("id", 4); ("name", 6); ("image", 16); ("ip_addr", 18); ("cluster", 20);
     ("container_name", 22); ("task_family", 24); ("task_version", 26)]%nat
    "ns".

(** *** pod_name *)

Definition wire_pod_name : wire :=
  mkWire
    [("_rpc_id", U 2); ("_len", U 2); ("_deprecated_pod_uid", U 2); ("cgroup", U 8)]
    (new_dynamic 410 true) 16
    [("_rpc_id", 0); ("_len", 2); ("_deprecated_pod_uid", 4); ("cgroup", 8)]%nat.
Definition encode_pod_name : encoder :=
  DynamicEncoder 410 16
    [("cgroup", PU 8); ("_deprecated_pod_uid", PBlob); ("name", PBlob)]
    (w_struct wire_pod_name)
    ["_deprecated_pod_uid"; "name"].
Definition decode_pod_name : decoder :=
  DynamicDecoder 410
    [("cgroup", GUint 8 8)] 16
    [("_deprecated_pod_uid", 4)]%nat
    "name".

(** *** nomad_metadata *)

Definition wire_nomad_metadata : wire :=
  mkWire
    [("_rpc_id", U 2); ("_len", U 2); ("ns", U 2); ("group_name", U 2); ("cgroup", U 8);
     ("task_name", U 2)]
    (new_dynamic 508 true) 18
    [("_rpc_id", 0); ("_len", 2); ("ns", 4); ("group_name", 6); ("cgroup", 8); ("task_name", 16)]%nat.
Definition encode_nomad_metadata : encoder :=
  DynamicEncoder 508 18
    [("cgroup", PU 8); ("ns", PBlob); ("group_name", PBlob); ("task_name", PBlob);
     ("job_name", PBlob)]
    (w_struct wire_nomad_metadata)
    ["ns"; "group_name"; "task_name"; "job_name"].
Definition decode_nomad_metadata : decoder :=
  DynamicDecoder 508
    [("cgroup", GUint 8 8)] 18
    [("ns", 4); ("group_name", 6); ("task_name", 16)]%nat
    "job_name".

(** *** k8s_metadata *)

Definition wire_k8s_metadata : wire :=
  mkWire
    [("_rpc_id", U 2); ("_len", U 2); ("container_name", U 2); ("pod_name", U 2);
     ("cgroup", U 8); ("pod_ns", U 2); ("pod_uid", U 2)]
    (new_dynamic 512 true) 20
    [("_rpc_id", 0); ("_len", 2); ("container_name", 4); ("pod_name", 6); ("cgroup", 8);
     ("pod_ns", 16); ("pod_uid", 18)]%nat.
Definition encode_k8s_metadata : encoder :=
  DynamicEncoder 512 20
    [("cgroup", PU 8); ("container_name", PBlob); ("pod_name", PBlob); ("pod_ns", PBlob);
     ("pod_uid", PBlob); ("sandbox_uid", PBlob)]
    (w_struct wire_k8s_metadata)
    ["container_name"; "pod_name"; "pod_ns"; "pod_uid"; "sandbox_uid"].
Definition decode_k8s_metadata : decoder :=
  DynamicDecoder 512
    [("cgroup", GUint 8 8)] 20
    [("container_name", 4); ("pod_name", 6); ("pod_ns", 16); ("pod_uid", 18)]%nat
    "sandbox_uid".

(** *** k8s_metadata_port *)

Definition wire_k8s_metadata_port : wire :=
  mkWire
    [("_rpc_id", U 2); ("_len", U 2); ("port", U 2); ("protocol", U 1); ("cgroup", U 8)]
    (new_dynamic 513 true) 16
    [("_rpc_id", 0); ("_len", 2); ("port", 4); ("protocol", 6); ("cgroup", 8)]%nat.
Definition encode_k8s_metadata_port : encoder :=
  DynamicEncoder 513 16
    [("cgroup", PU 8); ("port", PU 2); ("protocol", PU 1); ("name", PBlob)]
    (w_struct wire_k8s_metadata_port)
    ["name"].
Definition decode_k8s_metadata_port : decoder :=
  DynamicDecoder 513
    [("cgroup", GUint 8 8); ("port", GUint 4 2); ("protocol", GByte 6)] 16
    []
    "name".

(** *** container_resource_limits_deprecated *)

Definition wire_container_resource_limits_deprecated : wire :=
  mkWire
    [("_rpc_id", U 2); ("cpu_shares", U 2); ("cpu_period", U 2); ("cpu_quota", U 2);
     ("cgroup", U 8); ("memory_limit", U 8); ("memory_soft_limit", U 8);
     ("total_memory_limit", I 8); ("memory_swappiness", U 1)]
    (new_fixed 514 41 true) 41
    [("_rpc_id", 0); ("cpu_shares", 2); ("cpu_period", 4); ("cpu_quota", 6); ("cgroup", 8);
     ("memory_limit", 16); ("memory_soft_limit", 24); ("total_memory_limit", 32);
     ("memory_swappiness", 40)]%nat.
Definition encode_container_resource_limits_deprecated : encoder :=
  FixedEncoder 514 41
    [("cgroup", PU 8); ("cpu_shares", PU 2); ("cpu_period", PU 2); ("cpu_quota", PU 2);
     ("memory_swappiness", PU 1); ("memory_limit", PU 8); ("memory_soft_limit", PU 8);
     ("total_memory_limit", PI 8)]
    (w_struct wire_container_resource_limits_deprecated).
Definition decode_container_resource_limits_deprecated : decoder :=
  FixedDecoder 514 41
    [("cgroup", GUint 8 8); ("cpu_shares", GUint 2 2); ("cpu_period", GUint 4 2);
     ("cpu_quota", GUint 6 2); ("memory_swappiness", GByte 40); ("memory_limit", GUint 16 8);
     ("memory_soft_limit", GUint 24 8); ("total_memory_limit", GInt 32 8)].

(** *** container_resource_limits *)

Definition wire_container_resource_limits : wire :=
  mkWire
    [("_rpc_id", U 2); ("cpu_shares", U 2); ("cpu_period", U 4); ("cgroup", U 8);
     ("memory_limit", U 8); ("memory_soft_limit", U 8); ("total_memory_limit", I 8);
     ("cpu_quota", U 4); ("memory_swappiness", U 1)]
    (new_fixed 518 45 true) 45
    [("_rpc_id", 0); ("cpu_shares", 2); ("cpu_period", 4); ("cgroup", 8); ("memory_limit", 16);
     ("memory_soft_limit", 24); ("total_memory_limit", 32); ("cpu_quota", 40);
     ("memory_swappiness", 44)]%nat.
Definition encode_container_resource_limits : encoder :=
  FixedEncoder 518 45
    [("cgroup", PU 8); ("cpu_shares", PU 2); ("cpu_period", PU 4); ("cpu_quota", PU 4);
     ("memory_swappiness", PU 1); ("memory_limit", PU 8); ("memory_soft_limit", PU 8);
     ("total_memory_limit", PI 8)]
    (w_struct wire_container_resource_limits).
Definition decode_container_resource_limits : decoder :=
  FixedDecoder 518 45
    [("cgroup", GUint 8 8); ("cpu_shares", GUint 2 2); ("cpu_period", GUint 4 4);
     ("cpu_quota", GUint 40 4); ("memory_swappiness", GByte 44); ("memory_limit", GUint 16 8);
     ("memory_soft_limit", GUint 24 8); ("total_memory_limit", GInt 32 8)].

(** *** container_annotation *)

Definition wire_container_annotation : wire :=
  mkWire
    [("_rpc_id", U 2); ("_len", U 2); ("key", U 2); ("cgroup", U 8)]
    (new_dynamic 538 true) 16
    [("_rpc_id", 0); ("_len", 2); ("key", 4); ("cgroup", 8)]%nat.
Definition encode_container_annotation : encoder :=
  DynamicEncoder 538 16
    [("cgroup", PU 8); ("key", PBlob); ("value", PBlob)]
    (w_struct wire_container_annotation)
    ["key"; "value"].
Definition decode_container_annotation : decoder :=
  DynamicDecoder 538
    [("cgroup", GUint 8 8)] 16
    [("key", 4)]%nat
    "value".

(** *** new_sock_info *)

Definition wire_new_sock_info : wire :=
  mkWire
    [("_rpc_id", U 2); ("pid", U 4); ("sk", U 8)]
    (new_fixed 302 16 true) 16
    [("_rpc_id", 0); ("pid", 4); ("sk", 8)]%nat.
Definition encode_new_sock_info : encoder :=
  FixedEncoder 302 16
    [("pid", PU 4); ("sk", PU 8)]
    (w_struct wire_new_sock_info).
Definition decode_new_sock_info : decoder :=
  FixedDecoder 302 16
    [("pid", GUint 4 4); ("sk", GUint 8 8)].

(** *** set_state_ipv4 *)

Definition wire_set_state_ipv4 : wire :=
  mkWire
    [("_rpc_id", U 2); ("dport", U 2); ("dest", U 4); ("sk", U 8); ("src", U 4);
     ("tx_rx", U 4); ("sport", U 2)]
    (new_fixed 303 26 true) 26
    [("_rpc_id", 0); ("dport", 2); ("dest", 4); ("sk", 8); ("src", 16); ("tx_rx", 20);
     ("sport", 24)]%nat.
Definition encode_set_state_ipv4 : encoder :=
  FixedEncoder 303 26
    [("dest", PU 4); ("src", PU 4); ("dport", PU 2); ("sport", PU 2); ("sk", PU 8);
     ("tx_rx", PU 4)]
    (w_struct wire_set_state_ipv4).
Definition decode_set_state_ipv4 : decoder :=
  FixedDecoder 303 26
    [("dest", GUint 4 4); ("src", GUint 16 4); ("dport", GUint 2 2); ("sport", GUint 24 2);
     ("sk", GUint 8 8); ("tx_rx", GUint 20 4)].

(** *** set_state_ipv6 *)

Definition wire_set_state_ipv6 : wire :=
  mkWire
    [("_rpc_id", U 2); ("dport", U 2); ("tx_rx", U 4); ("sk", U 8); ("sport", U 2);
     ("dest", Arr 16); ("src", Arr 16)]
    (new_fixed 304 50 true) 50
    [("_rpc_id", 0); ("dport", 2); ("tx_rx", 4); ("sk", 8); ("sport", 16); ("dest", 18);
     ("src", 34)]%nat.
Definition encode_set_state_ipv6 : encoder :=
  FixedEncoder 304 50
    [("dest", PPtr); ("src", PPtr); ("dport", PU 2); ("sport", PU 2); ("sk", PU 8);
     ("tx_rx", PU 4)]
    (w_struct wire_set_state_ipv6).
Definition decode_set_state_ipv6 : decoder :=
  FixedDecoder 304 50
    [("dest", GArr 18 16); ("src", GArr 34 16); ("dport", GUint 2 2); ("sport", GUint 16 2);
     ("sk", GUint 8 8); ("tx_rx", GUint 4 4)].

(** *** socket_stats *)

Definition wire_socket_stats : wire :=
  mkWire
    [("_rpc_id", U 2); ("is_rx", U 1); ("diff_delivered", U 4); ("sk", U 8);
     ("diff_bytes", U 8); ("diff_retrans", U 4); ("max_srtt", U 4)]
    (new_fixed 326 32 true) 32
    [("_rpc_id", 0); ("is_rx", 2); ("diff_delivered", 4); ("sk", 8); ("diff_bytes", 16);
     ("diff_retrans", 24); ("max_srtt", 28)]%nat.
Definition encode_socket_stats : encoder :=
  FixedEncoder 326 32
    [("sk", PU 8); ("diff_bytes", PU 8); ("diff_delivered", PU 4); ("diff_retrans", PU 4);
     ("max_srtt", PU 4); ("is_rx", PU 1)]
    (w_struct wire_socket_stats).
Definition decode_socket_stats : decoder :=
  FixedDecoder 326 32
    [("sk", GUint 8 8); ("diff_bytes", GUint 16 8); ("diff_delivered", GUint 4 4);
     ("diff_retrans", GUint 24 4); ("max_srtt", GUint 28 4); ("is_rx", GByte 2)].

(** *** nat_remapping *)

Definition wire_nat_remapping : wire :=
  mkWire
    [("_rpc_id", U 2); ("sport", U 2); ("src", U 4); ("sk", U 8); ("dst", U 4); ("dport", U 2)]
    (new_fixed 360 22 true) 22
    [("_rpc_id", 0); ("sport", 2); ("src", 4); ("sk", 8); ("dst", 16); ("dport", 20)]%nat.
Definition encode_nat_remapping : encoder :=
  FixedEncoder 360 22
    [("sk", PU 8); ("src", PU 4); ("dst", PU 4); ("sport", PU 2); ("dport", PU 2)]
    (w_struct wire_nat_remapping).
Definition decode_nat_remapping : decoder :=
  FixedDecoder 360 22
    [("sk", GUint 8 8); ("src", GUint 4 4); ("dst", GUint 16 4); ("sport", GUint 2 2);
     ("dport", GUint 20 2)].

(** *** close_sock_info *)

Definition wire_close_sock_info : wire :=
  mkWire
    [("_rpc_id", U 2); ("sk", U 8)]
    (new_fixed 308 16 true) 16
    [("_rpc_id", 0); ("sk", 8)]%nat.
Definition encode_close_sock_info : encoder :=
  FixedEncoder 308 16
    [("sk", PU 8)]
    (w_struct wire_close_sock_info).
Definition decode_close_sock_info : decoder :=
  FixedDecoder 308 16
    [("sk", GUint 8 8)].

(** *** syn_timeout *)

Definition wire_syn_timeout : wire :=
  mkWire
    [("_rpc_id", U 2); ("sk", U 8)]
    (new_fixed 398 16 true) 16
    [("_rpc_id", 0); ("sk", 8)]%nat.
Definition encode_syn_timeout : encoder :=
  FixedEncoder 398 16
    [("sk", PU 8)]
    (w_struct wire_syn_timeout).
Definition decode_syn_timeout : decoder :=
  FixedDecoder 398 16
    [("sk", GUint 8 8)].

(** *** http_response *)

Definition wire_http_response : wire :=
  mkWire
    [("_rpc_id", U 2); ("code", U 2); ("pid", U 4); ("sk", U 8); ("latency_ns", U 8);
     ("client_server", U 1)]
    (new_fixed 401 25 true) 25
    [("_rpc_id", 0); ("code", 2); ("pid", 4); ("sk", 8); ("latency_ns", 16);
     ("client_server", 24)]%nat.
Definition encode_http_response : encoder :=
  FixedEncoder 401 25
    [("sk", PU 8); ("pid", PU 4); ("code", PU 2); ("latency_ns", PU 8); ("client_server", PU 1)]
    (w_struct wire_http_response).
Definition decode_http_response : decoder :=
  FixedDecoder 401 25
    [("sk", GUint 8 8); ("pid", GUint 4 4); ("code", GUint 2 2); ("latency_ns", GUint 16 8);
     ("client_server", GByte 24)].

(** *** tcp_reset *)

Definition wire_tcp_reset : wire :=
  mkWire
    [("_rpc_id", U 2); ("is_rx", U 1); ("sk", U 8)]
    (new_fixed 519 16 true) 16
    [("_rpc_id", 0); ("is_rx", 2); ("sk", 8)]%nat.
Definition encode_tcp_reset : encoder :=
  FixedEncoder 519 16
    [("sk", PU 8); ("is_rx", PU 1)]
    (w_struct wire_tcp_reset).
Definition decode_tcp_reset : decoder :=
  FixedDecoder 519 16
    [("sk", GUint 8 8); ("is_rx", GByte 2)].

(** *** process_steady_state *)

Definition wire_process_steady_state : wire :=
  mkWire
    [("_rpc_id", U 2); ("time", U 8)]
    (new_fixed 307 16 true) 16
    [("_rpc_id", 0); ("time", 8)]%nat.
Definition encode_process_steady_state : encoder :=
  FixedEncoder 307 16
    [("time", PU 8)]
    (w_struct wire_process_steady_state).
Definition decode_process_steady_state : decoder :=
  FixedDecoder 307 16
    [("time", GUint 8 8)].

(** *** socket_steady_state *)

Definition wire_socket_steady_state : wire :=
  mkWire
    [("_rpc_id", U 2); ("time", U 8)]
    (new_fixed 309 16 true) 16
    [("_rpc_id", 0); ("time", 8)]%nat.
Definition encode_socket_steady_state : encoder :=
  FixedEncoder 309 16
    [("time", PU 8)]
    (w_struct wire_socket_steady_state).
Definition decode_socket_steady_state : decoder :=
  FixedDecoder 309 16
    [("time", GUint 8 8)].

(** *** version_info *)

Definition wire_version_info : wire :=
  mkWire
    [("_rpc_id", U 2); ("major", U 4); ("minor", U 4); ("patch", U 4)]
    (new_fixed 310 16 false) 16
    [("_rpc_id", 0); ("major", 4); ("minor", 8); ("patch", 12)]%nat.
Definition encode_version_info : encoder :=
  FixedEncoder 310 16
    [("major", PU 4); ("minor", PU 4); ("patch", PU 4)]
    (w_struct wire_version_info).
Definition decode_version_info : decoder :=
  FixedDecoder 310 16
    [("major", GUint 4 4); ("minor", GUint 8 4); ("patch", GUint 12 4)].

(** *** set_node_info *)

Definition wire_set_node_info : wire :=
  mkWire
    [("_rpc_id", U 2); ("_len", U 2); ("az", U 2); ("role", U 2); ("instance_id", U 2)]
    (new_dynamic 415 true) 10
    [("_rpc_id", 0); ("_len", 2); ("az", 4); ("role", 6); ("instance_id", 8)]%nat.
Definition encode_set_node_info : encoder :=
  DynamicEncoder 415 10
    [("az", PBlob); ("role", PBlob); ("instance_id", PBlob); ("instance_type", PBlob)]
    (w_struct wire_set_node_info)
    ["az"; "role"; "instance_id"; "instance_type"].
Definition decode_set_node_info : decoder :=
  DynamicDecoder 415
    [] 10
    [("az", 4); ("role", 6); ("instance_id", 8)]%nat
    "instance_type".

(** *** set_config_label *)

Definition wire_set_config_label : wire :=
  mkWire
    [("_rpc_id", U 2); ("_len", U 2); ("key", U 2)]
    (new_dynamic 416 true) 6
    [("_rpc_id", 0); ("_len", 2); ("key", 4)]%nat.
Definition encode_set_config_label : encoder :=
  DynamicEncoder 416 6
    [("key", PBlob); ("value", PBlob)]
    (w_struct wire_set_config_label)
    ["key"; "value"].
Definition decode_set_config_label : decoder :=
  DynamicDecoder 416
    [] 6
    [("key", 4)]%nat
    "value".

(** *** set_availability_zone_deprecated *)

Definition wire_set_availability_zone_deprecated : wire :=
  mkWire
    [("_rpc_id", U 2); ("retcode", U 1); ("az", Arr 16)]
    (new_fixed 321 19 true) 19
    [("_rpc_id", 0); ("retcode", 2); ("az", 3)]%nat.
Definition encode_set_availability_zone_deprecated : encoder :=
  FixedEncoder 321 19
    [("retcode", PU 1); ("az", PPtr)]
    (w_struct wire_set_availability_zone_deprecated).
Definition decode_set_availability_zone_deprecated : decoder :=
  FixedDecoder 321 19
    [("retcode", GByte 2); ("az", GArr 3 16)].

(** *** set_iam_role_deprecated *)

Definition wire_set_iam_role_deprecated : wire :=
  mkWire
    [("_rpc_id", U 2); ("retcode", U 1); ("role", Arr 64)]
    (new_fixed 322 67 true) 67
    [("_rpc_id", 0); ("retcode", 2); ("role", 3)]%nat.
Definition encode_set_iam_role_deprecated : encoder :=
  FixedEncoder 322 67
    [("retcode", PU 1); ("role", PPtr)]
    (w_struct wire_set_iam_role_deprecated).
Definition decode_set_iam_role_deprecated : decoder :=
  FixedDecoder 322 67
    [("retcode", GByte 2); ("role", GArr 3 64)].

(** *** set_instance_id_deprecated *)

Definition wire_set_instance_id_deprecated : wire :=
  mkWire
    [("_rpc_id", U 2); ("retcode", U 1); ("id", Arr 17)]
    (new_fixed 323 20 true) 20
    [("_rpc_id", 0); ("retcode", 2); ("id", 3)]%nat.
Definition encode_set_instance_id_deprecated : encoder :=
  FixedEncoder 323 20
    [("retcode", PU 1); ("id", PPtr)]
    (w_struct wire_set_instance_id_deprecated).
Definition decode_set_instance_id_deprecated : decoder :=
  FixedDecoder 323 20
    [("retcode", GByte 2); ("id", GArr 3 17)].

(** *** set_instance_type_deprecated *)

Definition wire_set_instance_type_deprecated : wire :=
  mkWire
    [("_rpc_id", U 2); ("retcode", U 1); ("val", Arr 17)]
    (new_fixed 324 20 true) 20
    [("_rpc_id", 0); ("retcode", 2); ("val", 3)]%nat.
Definition encode_set_instance_type_deprecated : encoder :=
  FixedEncoder 324 20
    [("retcode", PU 1); ("val", PPtr)]
    (w_struct wire_set_instance_type_deprecated).
Definition decode_set_instance_type_deprecated : decoder :=
  FixedDecoder 324 20
    [("retcode", GByte 2); ("val", GArr 3 17)].

(** *** dns_response_fake *)

Definition wire_dns_response_fake : wire :=
  mkWire
    [("_rpc_id", U 2); ("_len", U 2); ("total_dn_len", U 2); ("ips", U 2)]
    (new_dynamic 325 true) 8
    [("_rpc_id", 0); ("_len", 2); ("total_dn_len", 4); ("ips", 6)]%nat.
Definition encode_dns_response_fake : encoder :=
  DynamicEncoder 325 8
    [("total_dn_len", PU 2); ("ips", PBlob); ("domain_name", PBlob)]
    (w_struct wire_dns_response_fake)
    ["ips"; "domain_name"].
Definition decode_dns_response_fake : decoder :=
  DynamicDecoder 325
    [("total_dn_len", GUint 4 2)] 8
    [("ips", 6)]%nat
    "domain_name".

(** *** dns_response_dep_a_deprecated *)

Definition wire_dns_response_dep_a_deprecated : wire :=
  mkWire
    [("_rpc_id", U 2); ("_len", U 2); ("total_dn_len", U 2); ("domain_name", U 2);
     ("ipv4_addrs", U 2)]
    (new_dynamic 391 true) 10
    [("_rpc_id", 0); ("_len", 2); ("total_dn_len", 4); ("domain_name", 6); ("ipv4_addrs", 8)]%nat.
Definition encode_dns_response_dep_a_deprecated : encoder :=
  DynamicEncoder 391 10
    [("total_dn_len", PU 2); ("domain_name", PBlob); ("ipv4_addrs", PBlob);
     ("ipv6_addrs", PBlob)]
    (w_struct wire_dns_response_dep_a_deprecated)
    ["domain_name"; "ipv4_addrs"; "ipv6_addrs"].
Definition decode_dns_response_dep_a_deprecated : decoder :=
  DynamicDecoder 391
    [("total_dn_len", GUint 4 2)] 10
    [("domain_name", 6); ("ipv4_addrs", 8)]%nat
    "ipv6_addrs".

(** *** set_config_label_deprecated *)

Definition wire_set_config_label_deprecated : wire :=
  mkWire
    [("_rpc_id", U 2); ("key", Arr 20); ("val", Arr 40)]
    (new_fixed 327 62 true) 62
    [("_rpc_id", 0); ("key", 2); ("val", 22)]%nat.
Definition encode_set_config_label_deprecated : encoder :=
  FixedEncoder 327 62
    [("key", PPtr); ("val", PPtr)]
    (w_struct wire_set_config_label_deprecated).
Definition decode_set_config_label_deprecated : decoder :=
  FixedDecoder 327 62
    [("key", GArr 2 20); ("val", GArr 22 40)].

(** *** api_key *)

Definition wire_api_key : wire :=
  mkWire
    [("_rpc_id", U 2); ("tenant", Arr 20); ("api_key", Arr 64)]
    (new_fixed 352 86 false) 86
    [("_rpc_id", 0); ("tenant", 2); ("api_key", 22)]%nat.
Definition encode_api_key : encoder :=
  FixedEncoder 352 86
    [("tenant", PPtr); ("api_key", PPtr)]
    (w_struct wire_api_key).
Definition decode_api_key : decoder :=
  FixedDecoder 352 86
    [("tenant", GArr 2 20); ("api_key", GArr 22 64)].

(** *** private_ipv4_addr *)

Definition wire_private_ipv4_addr : wire :=
  mkWire
    [("_rpc_id", U 2); ("vpc_id", Arr 22); ("addr", U 4)]
    (new_fixed 353 28 true) 28
    [("_rpc_id", 0); ("vpc_id", 2); ("addr", 24)]%nat.
Definition encode_private_ipv4_addr : encoder :=
  FixedEncoder 353 28
    [("addr", PU 4); ("vpc_id", PPtr)]
    (w_struct wire_private_ipv4_addr).
Definition decode_private_ipv4_addr : decoder :=
  FixedDecoder 353 28
    [("addr", GUint 24 4); ("vpc_id", GArr 2 22)].

(** *** ipv6_addr *)

Definition wire_ipv6_addr : wire :=
  mkWire
    [("_rpc_id", U 2); ("addr", Arr 16); ("vpc_id", Arr 22)]
    (new_fixed 354 40 true) 40
    [("_rpc_id", 0); ("addr", 2); ("vpc_id", 18)]%nat.
Definition encode_ipv6_addr : encoder :=
  FixedEncoder 354 40
    [("addr", PPtr); ("vpc_id", PPtr)]
    (w_struct wire_ipv6_addr).
Definition decode_ipv6_addr : decoder :=
  FixedDecoder 354 40
    [("addr", GArr 2 16); ("vpc_id", GArr 18 22)].

(** *** public_to_private_ipv4 *)

Definition wire_public_to_private_ipv4 : wire :=
  mkWire
    [("_rpc_id", U 2); ("vpc_id", Arr 22); ("public_addr", U 4); ("private_addr", U 4)]
    (new_fixed 355 32 true) 32
    [("_rpc_id", 0); ("vpc_id", 2); ("public_addr", 24); ("private_addr", 28)]%nat.
Definition encode_public_to_private_ipv4 : encoder :=
  FixedEncoder 355 32
    [("public_addr", PU 4); ("private_addr", PU 4); ("vpc_id", PPtr)]
    (w_struct wire_public_to_private_ipv4).
Definition decode_public_to_private_ipv4 : decoder :=
  FixedDecoder 355 32
    [("public_addr", GUint 24 4); ("private_addr", GUint 28 4); ("vpc_id", GArr 2 22)].

(** *** metadata_complete *)

Definition wire_metadata_complete : wire :=
  mkWire
    [("_rpc_id", U 2); ("time", U 8)]
    (new_fixed 356 16 true) 16
    [("_rpc_id", 0); ("time", 8)]%nat.
Definition encode_metadata_complete : encoder :=
  FixedEncoder 356 16
    [("time", PU 8)]
    (w_struct wire_metadata_complete).
Definition decode_metadata_complete : decoder :=
  FixedDecoder 356 16
    [("time", GUint 8 8)].

(** *** bpf_lost_samples *)

Definition wire_bpf_lost_samples : wire :=
  mkWire
    [("_rpc_id", U 2); ("count", U 8)]
    (new_fixed 357 16 true) 16
    [("_rpc_id", 0); ("count", 8)]%nat.
Definition encode_bpf_lost_samples : encoder :=
  FixedEncoder 357 16
    [("count", PU 8)]
    (w_struct wire_bpf_lost_samples).
Definition decode_bpf_lost_samples : decoder :=
  FixedDecoder 357 16
    [("count", GUint 8 8)].

(** *** pod_new_legacy *)

Definition wire_pod_new_legacy : wire :=
  mkWire
    [("_rpc_id", U 2); ("_len", U 2); ("ip", U 4); ("uid", U 2); ("owner_name", U 2);
     ("owner_uid", U 2); ("owner_kind", U 1); ("is_host_network", U 1)]
    (new_dynamic 358 true) 16
    [("_rpc_id", 0); ("_len", 2); ("ip", 4); ("uid", 8); ("owner_name", 10); ("owner_uid", 12);
     ("owner_kind", 14); ("is_host_network", 15)]%nat.
Definition encode_pod_new_legacy : encoder :=
  DynamicEncoder 358 16
    [("uid", PBlob); ("ip", PU 4); ("owner_name", PBlob); ("owner_kind", PU 1);
     ("owner_uid", PBlob); ("is_host_network", PU 1); ("ns", PBlob)]
    (w_struct wire_pod_new_legacy)
    ["uid"; "owner_name"; "owner_uid"; "ns"].
Definition decode_pod_new_legacy : decoder :=
  DynamicDecoder 358
    [("ip", GUint 4 4); ("owner_kind", GByte 14); ("is_host_network", GByte 15)] 16
    [("uid", 8); ("owner_name", 10); ("owner_uid", 12)]%nat
    "ns".

(** *** pod_new_legacy2 *)

Definition wire_pod_new_legacy2 : wire :=
  mkWire
    [("_rpc_id", U 2); ("_len", U 2); ("ip", U 4); ("uid", U 2); ("owner_name", U 2);
     ("owner_uid", U 2); ("ns", U 2); ("owner_kind", U 1); ("is_host_network", U 1)]
    (new_dynamic 414 true) 18
    [("_rpc_id", 0); ("_len", 2); ("ip", 4); ("uid", 8); ("owner_name", 10); ("owner_uid", 12);
     ("ns", 14); ("owner_kind", 16); ("is_host_network", 17)]%nat.
Definition encode_pod_new_legacy2 : encoder :=
  DynamicEncoder 414 18
    [("uid", PBlob); ("ip", PU 4); ("owner_name", PBlob); ("owner_kind", PU 1);
     ("owner_uid", PBlob); ("is_host_network", PU 1); ("ns", PBlob); ("version", PBlob)]
    (w_struct wire_pod_new_legacy2)
    ["uid"; "owner_name"; "owner_uid"; "ns"; "version"].
Definition decode_pod_new_legacy2 : decoder :=
  DynamicDecoder 414
    [("ip", GUint 4 4); ("owner_kind", GByte 16); ("is_host_network", GByte 17)] 18
    [("uid", 8); ("owner_name", 10); ("owner_uid", 12); ("ns", 14)]%nat
    "version".

(** *** pod_new_with_name *)

Definition wire_pod_new_with_name : wire :=
  mkWire
    [("_rpc_id", U 2); ("_len", U 2); ("ip", U 4); ("uid", U 2); ("owner_name", U 2);
     ("pod_name", U 2); ("owner_uid", U 2); ("ns", U 2); ("owner_kind", U 1);
     ("is_host_network", U 1)]
    (new_dynamic 515 true) 20
    [("_rpc_id", 0); ("_len", 2); ("ip", 4); ("uid", 8); ("owner_name", 10); ("pod_name", 12);
     ("owner_uid", 14); ("ns", 16); ("owner_kind", 18); ("is_host_network", 19)]%nat.
Definition encode_pod_new_with_name : encoder :=
  DynamicEncoder 515 20
    [("uid", PBlob); ("ip", PU 4); ("owner_name", PBlob); ("pod_name", PBlob);
     ("owner_kind", PU 1); ("owner_uid", PBlob); ("is_host_network", PU 1); ("ns", PBlob);
     ("version", PBlob)]
    (w_struct wire_pod_new_with_name)
    ["uid"; "owner_name"; "pod_name"; "owner_uid"; "ns"; "version"].
Definition decode_pod_new_with_name : decoder :=
  DynamicDecoder 515
    [("ip", GUint 4 4); ("owner_kind", GByte 18); ("is_host_network", GByte 19)] 20
    [("uid", 8); ("owner_name", 10); ("pod_name", 12); ("owner_uid", 14); ("ns", 16)]%nat
    "version".

(** *** pod_container_legacy *)

Definition wire_pod_container_legacy : wire :=
  mkWire
    [("_rpc_id", U 2); ("_len", U 2); ("uid", U 2)]
    (new_dynamic 400 true) 6
    [("_rpc_id", 0); ("_len", 2); ("uid", 4)]%nat.
Definition encode_pod_container_legacy : encoder :=
  DynamicEncoder 400 6
    [("uid", PBlob); ("container_id", PBlob)]
    (w_struct wire_pod_container_legacy)
    ["uid"; "container_id"].
Definition decode_pod_container_legacy : decoder :=
  DynamicDecoder 400
    [] 6
    [("uid", 4)]%nat
    "container_id".

(** *** pod_container *)

Definition wire_pod_container : wire :=
  mkWire
    [("_rpc_id", U 2); ("_len", U 2); ("uid", U 2); ("container_id", U 2);
     ("container_name", U 2)]
    (new_dynamic 494 true) 10
    [("_rpc_id", 0); ("_len", 2); ("uid", 4); ("container_id", 6); ("container_name", 8)]%nat.
Definition encode_pod_container : encoder :=
  DynamicEncoder 494 10
    [("uid", PBlob); ("container_id", PBlob); ("container_name", PBlob);
     ("container_image", PBlob)]
    (w_struct wire_pod_container)
    ["uid"; "container_id"; "container_name"; "container_image"].
Definition decode_pod_container : decoder :=
  DynamicDecoder 494
    [] 10
    [("uid", 4); ("container_id", 6); ("container_name", 8)]%nat
    "container_image".

(** *** pod_delete *)

Definition wire_pod_delete : wire :=
  mkWire
    [("_rpc_id", U 2); ("_len", U 2)]
    (new_dynamic 359 true) 4
    [("_rpc_id", 0); ("_len", 2)]%nat.
Definition encode_pod_delete : encoder :=
  DynamicEncoder 359 4
    [("uid", PBlob)]
    (w_struct wire_pod_delete)
    ["uid"].
Definition decode_pod_delete : decoder :=
  DynamicDecoder 359
    [] 4
    []
    "uid".

(** *** pod_resync *)

Definition wire_pod_resync : wire :=
  mkWire
    [("_rpc_id", U 2); ("resync_count", U 8)]
    (new_fixed 390 16 true) 16
    [("_rpc_id", 0); ("resync_count", 8)]%nat.
Definition encode_pod_resync : encoder :=
  FixedEncoder 390 16
    [("resync_count", PU 8)]
    (w_struct wire_pod_resync).
Definition decode_pod_resync : decoder :=
  FixedDecoder 390 16
    [("resync_count", GUint 8 8)].

(** *** span_duration_info *)

Definition wire_span_duration_info : wire :=
  mkWire
    [("_rpc_id", U 2); ("duration", U 8)]
    (new_fixed 351 16 true) 16
    [("_rpc_id", 0); ("duration", 8)]%nat.
Definition encode_span_duration_info : encoder :=
  FixedEncoder 351 16
    [("duration", PU 8)]
    (w_struct wire_span_duration_info).
Definition decode_span_duration_info : decoder :=
  FixedDecoder 351 16
    [("duration", GUint 8 8)].

(** *** heartbeat *)

Definition wire_heartbeat : wire :=
  mkWire
    [("_rpc_id", U 2)]
    (new_fixed 392 2 true) 2
    [("_rpc_id", 0)]%nat.
Definition encode_heartbeat : encoder :=
  FixedEncoder 392 2
    []
    (w_struct wire_heartbeat).
Definition decode_heartbeat : decoder :=
  FixedDecoder 392 2
    [].

(** *** connect *)

Definition wire_connect : wire :=
  mkWire
    [("_rpc_id", U 2); ("_len", U 2); ("collector_type", U 1)]
    (new_dynamic 548 false) 5
    [("_rpc_id", 0); ("_len", 2); ("collector_type", 4)]%nat.
Definition encode_connect : encoder :=
  DynamicEncoder 548 5
    [("collector_type", PU 1); ("hostname", PBlob)]
    (w_struct wire_connect)
    ["hostname"].
Definition decode_connect : decoder :=
  DynamicDecoder 548
    [("collector_type", GByte 4)] 5
    []
    "hostname".

(** *** health_check *)

Definition wire_health_check : wire :=
  mkWire
    [("_rpc_id", U 2); ("_len", U 2); ("client_type", U 1)]
    (new_dynamic 409 false) 5
    [("_rpc_id", 0); ("_len", 2); ("client_type", 4)]%nat.
Definition encode_health_check : encoder :=
  DynamicEncoder 409 5
    [("client_type", PU 1); ("origin", PBlob)]
    (w_struct wire_health_check)
    ["origin"].
Definition decode_health_check : decoder :=
  DynamicDecoder 409
    [("client_type", GByte 4)] 5
    []
    "origin".

(** *** log_message *)

Definition wire_log_message : wire :=
  mkWire
    [("_rpc_id", U 2); ("_len", U 2); ("log_level", U 1)]
    (new_dynamic 411 true) 5
    [("_rpc_id", 0); ("_len", 2); ("log_level", 4)]%nat.
Definition encode_log_message : encoder :=
  DynamicEncoder 411 5
    [("log_level", PU 1); ("message", PBlob)]
    (w_struct wire_log_message)
    ["message"].
Definition decode_log_message : decoder :=
  DynamicDecoder 411
    [("log_level", GByte 4)] 5
    []
    "message".

(** *** agent_resource_usage *)

Definition wire_agent_resource_usage : wire :=
  mkWire
    [("_rpc_id", U 2); ("cpu_usage_by_agent", U 2); ("minor_page_faults", U 4);
     ("user_mode_time_us", U 8); ("kernel_mode_time_us", U 8); ("max_resident_set_size", U 8);
     ("major_page_faults", U 4); ("block_input_count", U 4); ("block_output_count", U 4);
     ("voluntary_context_switch_count", U 4); ("involuntary_context_switch_count", U 4);
     ("cpu_idle", U 2)]
    (new_fixed 412 54 true) 54
    [("_rpc_id", 0); ("cpu_usage_by_agent", 2); ("minor_page_faults", 4);
     ("user_mode_time_us", 8); ("kernel_mode_time_us", 16); ("max_resident_set_size", 24);
     ("major_page_faults", 32); ("block_input_count", 36); ("block_output_count", 40);
     ("voluntary_context_switch_count", 44); ("involuntary_context_switch_count", 48);
     ("cpu_idle", 52)]%nat.
Definition encode_agent_resource_usage : encoder :=
  FixedEncoder 412 54
    [("user_mode_time_us", PU 8); ("kernel_mode_time_us", PU 8);
     ("max_resident_set_size", PU 8); ("minor_page_faults", PU 4); ("major_page_faults", PU 4);
     ("block_input_count", PU 4); ("block_output_count", PU 4);
     ("voluntary_context_switch_count", PU 4); ("involuntary_context_switch_count", PU 4);
     ("cpu_usage_by_agent", PU 2); ("cpu_idle", PU 2)]
    (w_struct wire_agent_resource_usage).
Definition decode_agent_resource_usage : decoder :=
  FixedDecoder 412 54
    [("user_mode_time_us", GUint 8 8); ("kernel_mode_time_us", GUint 16 8);
     ("max_resident_set_size", GUint 24 8); ("minor_page_faults", GUint 4 4);
     ("major_page_faults", GUint 32 4); ("block_input_count", GUint 36 4);
     ("block_output_count", GUint 40 4); ("voluntary_context_switch_count", GUint 44 4);
     ("involuntary_context_switch_count", GUint 48 4); ("cpu_usage_by_agent", GUint 2 2);
     ("cpu_idle", GUint 52 2)].

(** *** cloud_platform *)

Definition wire_cloud_platform : wire :=
  mkWire
    [("_rpc_id", U 2); ("cloud_platform", U 2)]
    (new_fixed 413 4 true) 4
    [("_rpc_id", 0); ("cloud_platform", 2)]%nat.
Definition encode_cloud_platform : encoder :=
  FixedEncoder 413 4
    [("cloud_platform", PU 2)]
    (w_struct wire_cloud_platform).
Definition decode_cloud_platform : decoder :=
  FixedDecoder 413 4
    [("cloud_platform", GUint 2 2)].

(** *** os_info_deprecated *)

Definition wire_os_info_deprecated : wire :=
  mkWire
    [("_rpc_id", U 2); ("_len", U 2); ("os", U 1); ("flavor", U 1)]
    (new_dynamic 419 true) 6
    [("_rpc_id", 0); ("_len", 2); ("os", 4); ("flavor", 5)]%nat.
Definition encode_os_info_deprecated : encoder :=
  DynamicEncoder 419 6
    [("os", PU 1); ("flavor", PU 1); ("kernel_version", PBlob)]
    (w_struct wire_os_info_deprecated)
    ["kernel_version"].
Definition decode_os_info_deprecated : decoder :=
  DynamicDecoder 419
    [("os", GByte 4); ("flavor", GByte 5)] 6
    []
    "kernel_version".

(** *** os_info *)

Definition wire_os_info : wire :=
  mkWire
    [("_rpc_id", U 2); ("_len", U 2); ("os_version", U 2); ("os", U 1); ("flavor", U 1)]
    (new_dynamic 545 true) 8
    [("_rpc_id", 0); ("_len", 2); ("os_version", 4); ("os", 6); ("flavor", 7)]%nat.
Definition encode_os_info : encoder :=
  DynamicEncoder 545 8
    [("os", PU 1); ("flavor", PU 1); ("os_version", PBlob); ("kernel_version", PBlob)]
    (w_struct wire_os_info)
    ["os_version"; "kernel_version"].
Definition decode_os_info : decoder :=
  DynamicDecoder 545
    [("os", GByte 6); ("flavor", GByte 7)] 8
    [("os_version", 4)]%nat
    "kernel_version".

(** *** kernel_headers_source *)

Definition wire_kernel_headers_source : wire :=
  mkWire
    [("_rpc_id", U 2); ("source", U 1)]
    (new_fixed 420 3 true) 3
    [("_rpc_id", 0); ("source", 2)]%nat.
Definition encode_kernel_headers_source : encoder :=
  FixedEncoder 420 3
    [("source", PU 1)]
    (w_struct wire_kernel_headers_source).
Definition decode_kernel_headers_source : decoder :=
  FixedDecoder 420 3
    [("source", GByte 2)].

(** *** entrypoint_error *)

Definition wire_entrypoint_error : wire :=
  mkWire
    [("_rpc_id", U 2); ("error", U 1)]
    (new_fixed 491 3 true) 3
    [("_rpc_id", 0); ("error", 2)]%nat.
Definition encode_entrypoint_error : encoder :=
  FixedEncoder 491 3
    [("error", PU 1)]
    (w_struct wire_entrypoint_error).
Definition decode_entrypoint_error : decoder :=
  FixedDecoder 491 3
    [("error", GByte 2)].

(** *** bpf_compiled *)

Definition wire_bpf_compiled : wire :=
  mkWire
    [("_rpc_id", U 2)]
    (new_fixed 492 2 true) 2
    [("_rpc_id", 0)]%nat.
Definition encode_bpf_compiled : encoder :=
  FixedEncoder 492 2
    []
    (w_struct wire_bpf_compiled).
Definition decode_bpf_compiled : decoder :=
  FixedDecoder 492 2
    [].

(** *** begin_telemetry *)

Definition wire_begin_telemetry : wire :=
  mkWire
    [("_rpc_id", U 2)]
    (new_fixed 493 2 true) 2
    [("_rpc_id", 0)]%nat.
Definition encode_begin_telemetry : encoder :=
  FixedEncoder 493 2
    []
    (w_struct wire_begin_telemetry).
Definition decode_begin_telemetry : decoder :=
  FixedDecoder 493 2
    [].

(** *** cloud_platform_account_info *)

Definition wire_cloud_platform_account_info : wire :=
  mkWire
    [("_rpc_id", U 2); ("_len", U 2)]
    (new_dynamic 495 true) 4
    [("_rpc_id", 0); ("_len", 2)]%nat.
Definition encode_cloud_platform_account_info : encoder :=
  DynamicEncoder 495 4
    [("account_id", PBlob)]
    (w_struct wire_cloud_platform_account_info)
    ["account_id"].
Definition decode_cloud_platform_account_info : decoder :=
  DynamicDecoder 495
    [] 4
    []
    "account_id".

(** *** collector_health *)

Definition wire_collector_health : wire :=
  mkWire
    [("_rpc_id", U 2); ("status", U 2); ("detail", U 2)]
    (new_fixed 496 6 true) 6
    [("_rpc_id", 0); ("status", 2); ("detail", 4)]%nat.
Definition encode_collector_health : encoder :=
  FixedEncoder 496 6
    [("status", PU 2); ("detail", PU 2)]
    (w_struct wire_collector_health).
Definition decode_collector_health : decoder :=
  FixedDecoder 496 6
    [("status", GUint 2 2); ("detail", GUint 4 2)].

(** *** system_wide_process_settings *)

Definition wire_system_wide_process_settings : wire :=
  mkWire
    [("_rpc_id", U 2); ("clock_ticks_per_second", U 8); ("memory_page_bytes", U 8)]
    (new_fixed 498 24 true) 24
    [("_rpc_id", 0); ("clock_ticks_per_second", 8); ("memory_page_bytes", 16)]%nat.
Definition encode_system_wide_process_settings : encoder :=
  FixedEncoder 498 24
    [("clock_ticks_per_second", PU 8); ("memory_page_bytes", PU 8)]
    (w_struct wire_system_wide_process_settings).
Definition decode_system_wide_process_settings : decoder :=
  FixedDecoder 498 24
    [("clock_ticks_per_second", GUint 8 8); ("memory_page_bytes", GUint 16 8)].

(** *** collect_blob *)

Definition wire_collect_blob : wire :=
  mkWire
    [("_rpc_id", U 2); ("_len", U 2); ("blob_type", U 2); ("metadata", U 2); ("subtype", U 8)]
    (new_dynamic 511 true) 16
    [("_rpc_id", 0); ("_len", 2); ("blob_type", 4); ("metadata", 6); ("subtype", 8)]%nat.
Definition encode_collect_blob : encoder :=
  DynamicEncoder 511 16
    [("blob_type", PU 2); ("subtype", PU 8); ("metadata", PBlob); ("blob", PBlob)]
    (w_struct wire_collect_blob)
    ["metadata"; "blob"].
Definition decode_collect_blob : decoder :=
  DynamicDecoder 511
    [("blob_type", GUint 4 2); ("subtype", GUint 8 8)] 16
    [("metadata", 6)]%nat
    "blob".

(** *** report_cpu_cores *)

Definition wire_report_cpu_cores : wire :=
  mkWire
    [("_rpc_id", U 2); ("cpu_core_count", U 4)]
    (new_fixed 536 8 true) 8
    [("_rpc_id", 0); ("cpu_core_count", 4)]%nat.
Definition encode_report_cpu_cores : encoder :=
  FixedEncoder 536 8
    [("cpu_core_count", PU 4)]
    (w_struct wire_report_cpu_cores).
Definition decode_report_cpu_cores : decoder :=
  FixedDecoder 536 8
    [("cpu_core_count", GUint 4 4)].

(** *** bpf_log *)

Definition wire_bpf_log : wire :=
  mkWire
    [("_rpc_id", U 2); ("_len", U 2); ("line", U 4); ("code", U 8); ("arg0", U 8);
     ("arg1", U 8); ("arg2", U 8)]
    (new_dynamic 537 true) 40
    [("_rpc_id", 0); ("_len", 2); ("line", 4); ("code", 8); ("arg0", 16); ("arg1", 24);
     ("arg2", 32)]%nat.
Definition encode_bpf_log : encoder :=
  DynamicEncoder 537 40
    [("filename", PBlob); ("line", PU 4); ("code", PU 8); ("arg0", PU 8); ("arg1", PU 8);
     ("arg2", PU 8)]
    (w_struct wire_bpf_log)
    ["filename"].
Definition decode_bpf_log : decoder :=
  DynamicDecoder 537
    [("line", GUint 4 4); ("code", GUint 8 8); ("arg0", GUint 16 8); ("arg1", GUint 24 8);
     ("arg2", GUint 32 8)] 40
    []
    "filename".

(** *** aws_network_interface_start *)

Definition wire_aws_network_interface_start : wire :=
  mkWire
    [("_rpc_id", U 2); ("_ref", U 8); ("ip", U 16)]
    (new_fixed 406 32 true) 32
    [("_rpc_id", 0); ("_ref", 8); ("ip", 16)]%nat.
Definition encode_aws_network_interface_start : encoder :=
  FixedEncoder 406 32
    [("_ref", PU 8); ("ip", PU 16)]
    (w_struct wire_aws_network_interface_start).
Definition decode_aws_network_interface_start : decoder :=
  FixedDecoder 406 32
    [("_ref", GUint 8 8); ("ip", GUint 16 16)].

(** *** aws_network_interface_end *)

Definition wire_aws_network_interface_end : wire :=
  mkWire
    [("_rpc_id", U 2); ("_ref", U 8)]
    (new_fixed 407 16 true) 16
    [("_rpc_id", 0); ("_ref", 8)]%nat.
Definition encode_aws_network_interface_end : encoder :=
  FixedEncoder 407 16
    [("_ref", PU 8)]
    (w_struct wire_aws_network_interface_end).
Definition decode_aws_network_interface_end : decoder :=
  FixedDecoder 407 16
    [("_ref", GUint 8 8)].

(** *** network_interface_info_deprecated *)

Definition wire_network_interface_info_deprecated : wire :=
  mkWire
    [("_rpc_id", U 2); ("_len", U 2); ("interface_id", U 2); ("interface_type", U 2);
     ("_ref", U 8); ("instance_id", U 2); ("instance_owner_id", U 2); ("public_dns_name", U 2);
     ("private_dns_name", U 2); ("ip_owner_id", Arr 18); ("vpc_id", Arr 22); ("az", Arr 16)]
    (new_dynamic 408 true) 80
    [("_rpc_id", 0); ("_len", 2); ("interface_id", 4); ("interface_type", 6); ("_ref", 8);
     ("instance_id", 16); ("instance_owner_id", 18); ("public_dns_name", 20);
     ("private_dns_name", 22); ("ip_owner_id", 24); ("vpc_id", 42); ("az", 64)]%nat.
Definition encode_network_interface_info_deprecated : encoder :=
  DynamicEncoder 408 80
    [("_ref", PU 8); ("ip_owner_id", PPtr); ("vpc_id", PPtr); ("az", PPtr);
     ("interface_id", PBlob); ("interface_type", PU 2); ("instance_id", PBlob);
     ("instance_owner_id", PBlob); ("public_dns_name", PBlob); ("private_dns_name", PBlob);
     ("interface_description", PBlob)]
    (w_struct wire_network_interface_info_deprecated)
    ["interface_id"; "instance_id"; "instance_owner_id"; "public_dns_name"; "private_dns_name";
     "interface_description"].
Definition decode_network_interface_info_deprecated : decoder :=
  DynamicDecoder 408
    [("_ref", GUint 8 8); ("ip_owner_id", GArr 24 18); ("vpc_id", GArr 42 22);
     ("az", GArr 64 16); ("interface_type", GUint 6 2)] 80
    [("interface_id", 4); ("instance_id", 16); ("instance_owner_id", 18);
     ("public_dns_name", 20); ("private_dns_name", 22)]%nat
    "interface_description".

(** *** network_interface_info *)

Definition wire_network_interface_info : wire :=
  mkWire
    [("_rpc_id", U 2); ("_len", U 2); ("ip_owner_id", U 2); ("vpc_id", U 2); ("_ref", U 8);
     ("az", U 2); ("interface_id", U 2); ("interface_type", U 2); ("instance_id", U 2);
     ("instance_owner_id", U 2); ("public_dns_name", U 2); ("private_dns_name", U 2)]
    (new_dynamic 417 true) 30
    [("_rpc_id", 0); ("_len", 2); ("ip_owner_id", 4); ("vpc_id", 6); ("_ref", 8); ("az", 16);
     ("interface_id", 18); ("interface_type", 20); ("instance_id", 22);
     ("instance_owner_id", 24); ("public_dns_name", 26); ("private_dns_name", 28)]%nat.
Definition encode_network_interface_info : encoder :=
  DynamicEncoder 417 30
    [("_ref", PU 8); ("ip_owner_id", PBlob); ("vpc_id", PBlob); ("az", PBlob);
     ("interface_id", PBlob); ("interface_type", PU 2); ("instance_id", PBlob);
     ("instance_owner_id", PBlob); ("public_dns_name", PBlob); ("private_dns_name", PBlob);
     ("interface_description", PBlob)]
    (w_struct wire_network_interface_info)
    ["ip_owner_id"; "vpc_id"; "az"; "interface_id"; "instance_id"; "instance_owner_id";
     "public_dns_name"; "private_dns_name"; "interface_description"].
Definition decode_network_interface_info : decoder :=
  DynamicDecoder 417
    [("_ref", GUint 8 8); ("interface_type", GUint 20 2)] 30
    [("ip_owner_id", 4); ("vpc_id", 6); ("az", 16); ("interface_id", 18); ("instance_id", 22);
     ("instance_owner_id", 24); ("public_dns_name", 26); ("private_dns_name", 28)]%nat
    "interface_description".

(** *** udp_new_socket *)

Definition wire_udp_new_socket : wire :=
  mkWire
    [("_rpc_id", U 2); ("lport", U 2); ("pid", U 4); ("sk_id", U 4); ("laddr", Arr 16)]
    (new_fixed 328 28 true) 28
    [("_rpc_id", 0); ("lport", 2); ("pid", 4); ("sk_id", 8); ("laddr", 12)]%nat.
Definition encode_udp_new_socket : encoder :=
  FixedEncoder 328 28
    [("pid", PU 4); ("sk_id", PU 4); ("laddr", PPtr); ("lport", PU 2)]
    (w_struct wire_udp_new_socket).
Definition decode_udp_new_socket : decoder :=
  FixedDecoder 328 28
    [("pid", GUint 4 4); ("sk_id", GUint 8 4); ("laddr", GArr 12 16); ("lport", GUint 2 2)].

(** *** udp_stats_addr_unchanged *)

Definition wire_udp_stats_addr_unchanged : wire :=
  mkWire
    [("_rpc_id", U 2); ("is_rx", U 1); ("sk_id", U 4); ("packets", U 4); ("bytes", U 4)]
    (new_fixed 330 16 true) 16
    [("_rpc_id", 0); ("is_rx", 2); ("sk_id", 4); ("packets", 8); ("bytes", 12)]%nat.
Definition encode_udp_stats_addr_unchanged : encoder :=
  FixedEncoder 330 16
    [("sk_id", PU 4); ("is_rx", PU 1); ("packets", PU 4); ("bytes", PU 4)]
    (w_struct wire_udp_stats_addr_unchanged).
Definition decode_udp_stats_addr_unchanged : decoder :=
  FixedDecoder 330 16
    [("sk_id", GUint 4 4); ("is_rx", GByte 2); ("packets", GUint 8 4); ("bytes", GUint 12 4)].

(** *** udp_stats_addr_changed_v4 *)

Definition wire_udp_stats_addr_changed_v4 : wire :=
  mkWire
    [("_rpc_id", U 2); ("rport", U 2); ("sk_id", U 4); ("packets", U 4); ("bytes", U 4);
     ("raddr", U 4); ("is_rx", U 1)]
    (new_fixed 341 21 true) 21
    [("_rpc_id", 0); ("rport", 2); ("sk_id", 4); ("packets", 8); ("bytes", 12); ("raddr", 16);
     ("is_rx", 20)]%nat.
Definition encode_udp_stats_addr_changed_v4 : encoder :=
  FixedEncoder 341 21
    [("sk_id", PU 4); ("is_rx", PU 1); ("packets", PU 4); ("bytes", PU 4); ("raddr", PU 4);
     ("rport", PU 2)]
    (w_struct wire_udp_stats_addr_changed_v4).
Definition decode_udp_stats_addr_changed_v4 : decoder :=
  FixedDecoder 341 21
    [("sk_id", GUint 4 4); ("is_rx", GByte 20); ("packets", GUint 8 4); ("bytes", GUint 12 4);
     ("raddr", GUint 16 4); ("rport", GUint 2 2)].

(** *** udp_stats_addr_changed_v6 *)

Definition wire_udp_stats_addr_changed_v6 : wire :=
  mkWire
    [("_rpc_id", U 2); ("rport", U 2); ("sk_id", U 4); ("packets", U 4); ("bytes", U 4);
     ("is_rx", U 1); ("raddr", Arr 16)]
    (new_fixed 350 33 true) 33
    [("_rpc_id", 0); ("rport", 2); ("sk_id", 4); ("packets", 8); ("bytes", 12); ("is_rx", 16);
     ("raddr", 17)]%nat.
Definition encode_udp_stats_addr_changed_v6 : encoder :=
  FixedEncoder 350 33
    [("sk_id", PU 4); ("is_rx", PU 1); ("packets", PU 4); ("bytes", PU 4); ("raddr", PPtr);
     ("rport", PU 2)]
    (w_struct wire_udp_stats_addr_changed_v6).
Definition decode_udp_stats_addr_changed_v6 : decoder :=
  FixedDecoder 350 33
    [("sk_id", GUint 4 4); ("is_rx", GByte 16); ("packets", GUint 8 4); ("bytes", GUint 12 4);
     ("raddr", GArr 17 16); ("rport", GUint 2 2)].

(** *** dns_response_dep_b *)

Definition wire_dns_response_dep_b : wire :=
  mkWire
    [("_rpc_id", U 2); ("_len", U 2); ("sk_id", U 4); ("latency_ns", U 8);
     ("total_dn_len", U 2); ("domain_name", U 2); ("ipv4_addrs", U 2)]
    (new_dynamic 402 true) 22
    [("_rpc_id", 0); ("_len", 2); ("sk_id", 4); ("latency_ns", 8); ("total_dn_len", 16);
     ("domain_name", 18); ("ipv4_addrs", 20)]%nat.
Definition encode_dns_response_dep_b : encoder :=
  DynamicEncoder 402 22
    [("sk_id", PU 4); ("total_dn_len", PU 2); ("domain_name", PBlob); ("ipv4_addrs", PBlob);
     ("ipv6_addrs", PBlob); ("latency_ns", PU 8)]
    (w_struct wire_dns_response_dep_b)
    ["domain_name"; "ipv4_addrs"; "ipv6_addrs"].
Definition decode_dns_response_dep_b : decoder :=
  DynamicDecoder 402
    [("sk_id", GUint 4 4); ("total_dn_len", GUint 16 2); ("latency_ns", GUint 8 8)] 22
    [("domain_name", 18); ("ipv4_addrs", 20)]%nat
    "ipv6_addrs".

(** *** dns_timeout *)

Definition wire_dns_timeout : wire :=
  mkWire
    [("_rpc_id", U 2); ("_len", U 2); ("sk_id", U 4); ("timeout_ns", U 8); ("total_dn_len", U 2)]
    (new_dynamic 403 true) 18
    [("_rpc_id", 0); ("_len", 2); ("sk_id", 4); ("timeout_ns", 8); ("total_dn_len", 16)]%nat.
Definition encode_dns_timeout : encoder :=
  DynamicEncoder 403 18
    [("sk_id", PU 4); ("total_dn_len", PU 2); ("domain_name", PBlob); ("timeout_ns", PU 8)]
    (w_struct wire_dns_timeout)
    ["domain_name"].
Definition decode_dns_timeout : decoder :=
  DynamicDecoder 403
    [("sk_id", GUint 4 4); ("total_dn_len", GUint 16 2); ("timeout_ns", GUint 8 8)] 18
    []
    "domain_name".

(** *** udp_stats_drops_changed *)

Definition wire_udp_stats_drops_changed : wire :=
  mkWire
    [("_rpc_id", U 2); ("sk_id", U 4); ("drops", U 4)]
    (new_fixed 405 12 true) 12
    [("_rpc_id", 0); ("sk_id", 4); ("drops", 8)]%nat.
Definition encode_udp_stats_drops_changed : encoder :=
  FixedEncoder 405 12
    [("sk_id", PU 4); ("drops", PU 4)]
    (w_struct wire_udp_stats_drops_changed).
Definition decode_udp_stats_drops_changed : decoder :=
  FixedDecoder 405 12
    [("sk_id", GUint 4 4); ("drops", GUint 8 4)].

(** *** dns_response *)

Definition wire_dns_response : wire :=
  mkWire
    [("_rpc_id", U 2); ("_len", U 2); ("sk_id", U 4); ("latency_ns", U 8);
     ("total_dn_len", U 2); ("domain_name", U 2); ("ipv4_addrs", U 2); ("client_server", U 1)]
    (new_dynamic 418 true) 23
    [("_rpc_id", 0); ("_len", 2); ("sk_id", 4); ("latency_ns", 8); ("total_dn_len", 16);
     ("domain_name", 18); ("ipv4_addrs", 20); ("client_server", 22)]%nat.
Definition encode_dns_response : encoder :=
  DynamicEncoder 418 23
    [("sk_id", PU 4); ("total_dn_len", PU 2); ("domain_name", PBlob); ("ipv4_addrs", PBlob);
     ("ipv6_addrs", PBlob); ("latency_ns", PU 8); ("client_server", PU 1)]
    (w_struct wire_dns_response)
    ["domain_name"; "ipv4_addrs"; "ipv6_addrs"].
Definition decode_dns_response : decoder :=
  DynamicDecoder 418
    [("sk_id", GUint 4 4); ("total_dn_len", GUint 16 2); ("latency_ns", GUint 8 8);
     ("client_server", GByte 22)] 23
    [("domain_name", 18); ("ipv4_addrs", 20)]%nat
    "ipv6_addrs".

(** *** udp_destroy_socket *)

Definition wire_udp_destroy_socket : wire :=
  mkWire
    [("_rpc_id", U 2); ("sk_id", U 4)]
    (new_fixed 329 8 true) 8
    [("_rpc_id", 0); ("sk_id", 4)]%nat.
Definition encode_udp_destroy_socket : encoder :=
  FixedEncoder 329 8
    [("sk_id", PU 4)]
    (w_struct wire_udp_destroy_socket).
Definition decode_udp_destroy_socket : decoder :=
  FixedDecoder 329 8
    [("sk_id", GUint 4 4)].

(** *** pulse *)

Definition wire_pulse : wire :=
  mkWire
    [("_rpc_id", U 2)]
    (new_fixed 65535 2 true) 2
    [("_rpc_id", 0)]%nat.
Definition encode_pulse : encoder :=
  FixedEncoder 65535 2
    []
    (w_struct wire_pulse).
Definition decode_pulse : decoder :=
  FixedDecoder 65535 2
    [].

(** wire_messages.rs. *)

Definition wires_1 : list wire :=
  [wire_pid_info; wire_pid_close_info; wire_pid_info_create_deprecated].
Definition wires_2 : list wire :=
  [wire_pid_info_create; wire_pid_cgroup_move; wire_pid_set_comm].
Definition wires_3 : list wire :=
  [wire_pid_set_cmdline; wire_tracked_process_start; wire_tracked_process_end; wire_set_tgid].
Definition wires_4 : list wire :=
  [wire_set_cgroup; wire_set_command; wire_pid_exit].
Definition wires_5 : list wire :=
  [wire_cgroup_create_deprecated; wire_cgroup_create; wire_cgroup_close].
Definition wires_6 : list wire :=
  [wire_container_metadata; wire_pod_name; wire_nomad_metadata].
Definition wires_7 : list wire :=
  [wire_k8s_metadata; wire_k8s_metadata_port].
Definition wires_8 : list wire :=
  [wire_container_resource_limits_deprecated].
Definition wires_9 : list wire :=
  [wire_container_resource_limits; wire_container_annotation; wire_new_sock_info].
Definition wires_10 : list wire :=
  [wire_set_state_ipv4; wire_set_state_ipv6; wire_socket_stats].
Definition wires_11 : list wire :=
  [wire_nat_remapping; wire_close_sock_info; wire_syn_timeout].
Definition wires_12 : list wire :=
  [wire_http_response; wire_tcp_reset; wire_process_steady_state; wire_socket_steady_state].
Definition wires_13 : list wire :=
  [wire_version_info; wire_set_node_info; wire_set_config_label].
Definition wires_14 : list wire :=
  [wire_set_availability_zone_deprecated; wire_set_iam_role_deprecated;
   wire_set_instance_id_deprecated].
Definition wires_15 : list wire :=
  [wire_set_instance_type_deprecated; wire_dns_response_fake; wire_dns_response_dep_a_deprecated].
Definition wires_16 : list wire :=
  [wire_set_config_label_deprecated; wire_api_key; wire_private_ipv4_addr].
Definition wires_17 : list wire :=
  [wire_ipv6_addr; wire_public_to_private_ipv4; wire_metadata_complete].
Definition wires_18 : list wire :=
  [wire_bpf_lost_samples; wire_pod_new_legacy; wire_pod_new_legacy2].
Definition wires_19 : list wire :=
  [wire_pod_new_with_name; wire_pod_container_legacy; wire_pod_container].
Definition wires_20 : list wire :=
  [wire_pod_delete; wire_pod_resync; wire_span_duration_info; wire_heartbeat].
Definition wires_21 : list wire :=
  [wire_connect; wire_health_check; wire_log_message].
Definition wires_22 : list wire :=
  [wire_agent_resource_usage; wire_cloud_platform].
Definition wires_23 : list wire :=
  [wire_os_info_deprecated; wire_os_info; wire_kernel_headers_source; wire_entrypoint_error].
Definition wires_24 : list wire :=
  [wire_bpf_compiled; wire_begin_telemetry; wire_cloud_platform_account_info;
   wire_collector_health].
Definition wires_25 : list wire :=
  [wire_system_wide_process_settings; wire_collect_blob; wire_report_cpu_cores].
Definition wires_26 : list wire :=
  [wire_bpf_log; wire_aws_network_interface_start; wire_aws_network_interface_end].
Definition wires_27 : list wire :=
  [wire_network_interface_info_deprecated].
Definition wires_28 : list wire :=
  [wire_network_interface_info; wire_udp_new_socket].
Definition wires_29 : list wire :=
  [wire_udp_stats_addr_unchanged; wire_udp_stats_addr_changed_v4].
Definition wires_30 : list wire :=
  [wire_udp_stats_addr_changed_v6; wire_dns_response_dep_b].
Definition wires_31 : list wire :=
  [wire_dns_timeout; wire_udp_stats_drops_changed; wire_dns_response].
Definition wires_32 : list wire :=
  [wire_udp_destroy_socket; wire_pulse].

(** encoder.rs. *)

Definition encoders_1 : list encoder :=
  [encode_pid_info; encode_pid_close_info; encode_pid_info_create_deprecated].
Definition encoders_2 : list encoder :=
  [encode_pid_info_create; encode_pid_cgroup_move; encode_pid_set_comm].
Definition encoders_3 : list encoder :=
  [encode_pid_set_cmdline; encode_tracked_process_start; encode_tracked_process_end;
   encode_set_tgid].
Definition encoders_4 : list encoder :=
  [encode_set_cgroup; encode_set_command; encode_pid_exit; encode_cgroup_create_deprecated].
Definition encoders_5 : list encoder :=
  [encode_cgroup_create; encode_cgroup_close].
Definition encoders_6 : list encoder :=
  [encode_container_metadata].
Definition encoders_7 : list encoder :=
  [encode_pod_name; encode_nomad_metadata].
Definition encoders_8 : list encoder :=
  [encode_k8s_metadata; encode_k8s_metadata_port].
Definition encoders_9 : list encoder :=
  [encode_container_resource_limits_deprecated; encode_container_resource_limits;
   encode_container_annotation].
Definition encoders_10 : list encoder :=
  [encode_new_sock_info; encode_set_state_ipv4; encode_set_state_ipv6].
Definition encoders_11 : list encoder :=
  [encode_socket_stats; encode_nat_remapping; encode_close_sock_info; encode_syn_timeout].
Definition encoders_12 : list encoder :=
  [encode_http_response; encode_tcp_reset; encode_process_steady_state;
   encode_socket_steady_state].
Definition encoders_13 : list encoder :=
  [encode_version_info; encode_set_node_info].
Definition encoders_14 : list encoder :=
  [encode_set_config_label; encode_set_availability_zone_deprecated;
   encode_set_iam_role_deprecated].
Definition encoders_15 : list encoder :=
  [encode_set_instance_id_deprecated; encode_set_instance_type_deprecated;
   encode_dns_response_fake].
Definition encoders_16 : list encoder :=
  [encode_dns_response_dep_a_deprecated; encode_set_config_label_deprecated; encode_api_key].
Definition encoders_17 : list encoder :=
  [encode_private_ipv4_addr; encode_ipv6_addr; encode_public_to_private_ipv4;
   encode_metadata_complete].
Definition encoders_18 : list encoder :=
  [encode_bpf_lost_samples; encode_pod_new_legacy].
Definition encoders_19 : list encoder :=
  [encode_pod_new_legacy2].
Definition encoders_20 : list encoder :=
  [encode_pod_new_with_name; encode_pod_container_legacy].
Definition encoders_21 : list encoder :=
  [encode_pod_container; encode_pod_delete; encode_pod_resync].
Definition encoders_22 : list encoder :=
  [encode_span_duration_info; encode_heartbeat; encode_connect; encode_health_check].
Definition encoders_23 : list encoder :=
  [encode_log_message; encode_agent_resource_usage; encode_cloud_platform].
Definition encoders_24 : list encoder :=
  [encode_os_info_deprecated; encode_os_info; encode_kernel_headers_source].
Definition encoders_25 : list encoder :=
  [encode_entrypoint_error; encode_bpf_compiled; encode_begin_telemetry;
   encode_cloud_platform_account_info].
Definition encoders_26 : list encoder :=
  [encode_collector_health; encode_system_wide_process_settings; encode_collect_blob].
Definition encoders_27 : list encoder :=
  [encode_report_cpu_cores; encode_bpf_log; encode_aws_network_interface_start;
   encode_aws_network_interface_end].
Definition encoders_28 : list encoder :=
  [encode_network_interface_info_deprecated].
Definition encoders_29 : list encoder :=
  [encode_network_interface_info].
Definition encoders_30 : list encoder :=
  [encode_udp_new_socket; encode_udp_stats_addr_unchanged; encode_udp_stats_addr_changed_v4].
Definition encoders_31 : list encoder :=
  [encode_udp_stats_addr_changed_v6; encode_dns_response_dep_b].
Definition encoders_32 : list encoder :=
  [encode_dns_timeout; encode_udp_stats_drops_changed; encode_dns_response].
Definition encoders_33 : list encoder :=
  [encode_udp_destroy_socket; encode_pulse].

(** parsed_message.rs. *)

Definition decoders_1 : list decoder :=
  [decode_pid_info; decode_pid_close_info; decode_pid_info_create_deprecated].
Definition decoders_2 : list decoder :=
  [decode_pid_info_create; decode_pid_cgroup_move; decode_pid_set_comm].
Definition decoders_3 : list decoder :=
  [decode_pid_set_cmdline; decode_tracked_process_start; decode_tracked_process_end].
Definition decoders_4 : list decoder :=
  [decode_set_tgid; decode_set_cgroup; decode_set_command].
Definition decoders_5 : list decoder :=
  [decode_pid_exit; decode_cgroup_create_deprecated; decode_cgroup_create].
Definition decoders_6 : list decoder :=
  [decode_cgroup_close].
Definition decoders_7 : list decoder :=
  [decode_container_metadata].
Definition decoders_8 : list decoder :=
  [decode_pod_name].
Definition decoders_9 : list decoder :=
  [decode_nomad_metadata].
Definition decoders_10 : list decoder :=
  [decode_k8s_metadata].
Definition decoders_11 : list decoder :=
  [decode_k8s_metadata_port; decode_container_resource_limits_deprecated].
Definition decoders_12 : list decoder :=
  [decode_container_resource_limits; decode_container_annotation].
Definition decoders_13 : list decoder :=
  [decode_new_sock_info; decode_set_state_ipv4; decode_set_state_ipv6].
Definition decoders_14 : list decoder :=
  [decode_socket_stats; decode_nat_remapping; decode_close_sock_info].
Definition decoders_15 : list decoder :=
  [decode_syn_timeout; decode_http_response; decode_tcp_reset; decode_process_steady_state].
Definition decoders_16 : list decoder :=
  [decode_socket_steady_state; decode_version_info].
Definition decoders_17 : list decoder :=
  [decode_set_node_info].
Definition decoders_18 : list decoder :=
  [decode_set_config_label; decode_set_availability_zone_deprecated].
Definition decoders_19 : list decoder :=
  [decode_set_iam_role_deprecated; decode_set_instance_id_deprecated;
   decode_set_instance_type_deprecated].
Definition decoders_20 : list decoder :=
  [decode_dns_response_fake; decode_dns_response_dep_a_deprecated].
Definition decoders_21 : list decoder :=
  [decode_set_config_label_deprecated; decode_api_key; decode_private_ipv4_addr].
Definition decoders_22 : list decoder :=
  [decode_ipv6_addr; decode_public_to_private_ipv4; decode_metadata_complete].
Definition decoders_23 : list decoder :=
  [decode_bpf_lost_samples; decode_pod_new_legacy].
Definition decoders_24 : list decoder :=
  [decode_pod_new_legacy2].
Definition decoders_25 : list decoder :=
  [decode_pod_new_with_name].
Definition decoders_26 : list decoder :=
  [decode_pod_container_legacy].
Definition decoders_27 : list decoder :=
  [decode_pod_container; decode_pod_delete].
Definition decoders_28 : list decoder :=
  [decode_pod_resync; decode_span_duration_info; decode_heartbeat; decode_connect].
Definition decoders_29 : list decoder :=
  [decode_health_check; decode_log_message].
Definition decoders_30 : list decoder :=
  [decode_agent_resource_usage; decode_cloud_platform; decode_os_info_deprecated].
Definition decoders_31 : list decoder :=
  [decode_os_info; decode_kernel_headers_source; decode_entrypoint_error].
Definition decoders_32 : list decoder :=
  [decode_bpf_compiled; decode_begin_telemetry; decode_cloud_platform_account_info;
   decode_collector_health].
Definition decoders_33 : list decoder :=
  [decode_system_wide_process_settings; decode_collect_blob; decode_report_cpu_cores].
Definition decoders_34 : list decoder :=
  [decode_bpf_log; decode_aws_network_interface_start; decode_aws_network_interface_end].
Definition decoders_35 : list decoder :=
  [decode_network_interface_info_deprecated].
Definition decoders_36 : list decoder :=
  [decode_network_interface_info].
Definition decoders_37 : list decoder :=
  [decode_udp_new_socket; decode_udp_stats_addr_unchanged; decode_udp_stats_addr_changed_v4].
Definition decoders_38 : list decoder :=
  [decode_udp_stats_addr_changed_v6; decode_dns_response_dep_b].
Definition decoders_39 : list decoder :=
  [decode_dns_timeout; decode_udp_stats_drops_changed].
Definition decoders_40 : list decoder :=
  [decode_dns_response; decode_udp_destroy_socket; decode_pulse].

Definition messages : list message :=
  link
    (encoders_1 ++ encoders_2 ++ encoders_3 ++ encoders_4 ++ encoders_5 ++ encoders_6 ++
       encoders_7 ++ encoders_8 ++ encoders_9 ++ encoders_10 ++ encoders_11 ++ encoders_12 ++
       encoders_13 ++ encoders_14 ++ encoders_15 ++ encoders_16 ++ encoders_17 ++
       encoders_18 ++ encoders_19 ++ encoders_20 ++ encoders_21 ++ encoders_22 ++
       encoders_23 ++ encoders_24 ++ encoders_25 ++ encoders_26 ++ encoders_27 ++
       encoders_28 ++ encoders_29 ++ encoders_30 ++ encoders_31 ++ encoders_32 ++ encoders_33)
    (decoders_1 ++ decoders_2 ++ decoders_3 ++ decoders_4 ++ decoders_5 ++ decoders_6 ++
       decoders_7 ++ decoders_8 ++ decoders_9 ++ decoders_10 ++ decoders_11 ++ decoders_12 ++
       decoders_13 ++ decoders_14 ++ decoders_15 ++ decoders_16 ++ decoders_17 ++
       decoders_18 ++ decoders_19 ++ decoders_20 ++ decoders_21 ++ decoders_22 ++
       decoders_23 ++ decoders_24 ++ decoders_25 ++ decoders_26 ++ decoders_27 ++
       decoders_28 ++ decoders_29 ++ decoders_30 ++ decoders_31 ++ decoders_32 ++
       decoders_33 ++ decoders_34 ++ decoders_35 ++ decoders_36 ++ decoders_37 ++
       decoders_38 ++ decoders_39 ++ decoders_40)
    (wires_1 ++ wires_2 ++ wires_3 ++ wires_4 ++ wires_5 ++ wires_6 ++ wires_7 ++ wires_8 ++
       wires_9 ++ wires_10 ++ wires_11 ++ wires_12 ++ wires_13 ++ wires_14 ++ wires_15 ++
       wires_16 ++ wires_17 ++ wires_18 ++ wires_19 ++ wires_20 ++ wires_21 ++ wires_22 ++
       wires_23 ++ wires_24 ++ wires_25 ++ wires_26 ++ wires_27 ++ wires_28 ++ wires_29 ++
       wires_30 ++ wires_31 ++ wires_32).

(** The messages the k8s collector sends. *)

Definition message_pod_resync : message :=
  mkMessage encode_pod_resync decode_pod_resync wire_pod_resync.
Definition message_pod_delete : message :=
  mkMessage encode_pod_delete decode_pod_delete wire_pod_delete.
Definition message_pod_container : message :=
  mkMessage encode_pod_container decode_pod_container wire_pod_container.
Definition message_pod_new_with_name : message :=
  mkMessage encode_pod_new_with_name decode_pod_new_with_name wire_pod_new_with_name.
Definition message_version_info : message :=
  mkMessage encode_version_info decode_version_info wire_version_info.
Definition message_connect : message :=
  mkMessage encode_connect decode_connect wire_connect.
Definition message_heartbeat : message :=
  mkMessage encode_heartbeat decode_heartbeat wire_heartbeat.
