(* ===== verification/LoggingCodec.v ===== *)
(** * The logging messages (crates/render/ebpf_net/logging)

    For each message its wire struct, metadata and layout (wire_messages.rs),
    its encoder (encoder.rs) and its decoder (parsed_message.rs), by the
    literals of the generated code; see [Codec].  The lists at the end are the
    contents of the three files, in their order. *)

From S2P Require Import Prelude RenderParser Wire Codec.

Local Open Scope string_scope.
Local Open Scope Z_scope.

(** *** logger_start *)

Definition wire_logger_start : wire :=
  mkWire
    [("_rpc_id", U 2); ("_ref", U 8)]
    (new_fixed 600 16 true) 16
    [("_rpc_id", 0); ("_ref", 8)]%nat.
Definition encode_logger_start : encoder :=
  FixedEncoder 600 16
    [("_ref", PU 8)]
    (w_struct wire_logger_start).
Definition decode_logger_start : decoder :=
  FixedDecoder 600 16
    [("_ref", GUint 8 8)].

(** *** logger_end *)

Definition wire_logger_end : wire :=
  mkWire
    [("_rpc_id", U 2); ("_ref", U 8)]
    (new_fixed 601 16 true) 16
    [("_rpc_id", 0); ("_ref", 8)]%nat.
Definition encode_logger_end : encoder :=
  FixedEncoder 601 16
    [("_ref", PU 8)]
    (w_struct wire_logger_end).
Definition decode_logger_end : decoder :=
  FixedDecoder 601 16
    [("_ref", GUint 8 8)].

(** *** agent_lost_events *)

Definition wire_agent_lost_events : wire :=
  mkWire
    [("_rpc_id", U 2); ("_len", U 2); ("count", U 4); ("_ref", U 8)]
    (new_dynamic 602 true) 16
    [("_rpc_id", 0); ("_len", 2); ("count", 4); ("_ref", 8)]%nat.
Definition encode_agent_lost_events : encoder :=
  DynamicEncoder 602 16
    [("_ref", PU 8); ("count", PU 4); ("client_hostname", PBlob)]
    (w_struct wire_agent_lost_events)
    ["client_hostname"].
Definition decode_agent_lost_events : decoder :=
  DynamicDecoder 602
    [("_ref", GUint 8 8); ("count", GUint 4 4)] 16
    []
    "client_hostname".

(** *** pod_not_found *)

Definition wire_pod_not_found : wire :=
  mkWire
    [("_rpc_id", U 2); ("_len", U 2); ("on_delete", U 1); ("_ref", U 8)]
    (new_dynamic 603 true) 16
    [("_rpc_id", 0); ("_len", 2); ("on_delete", 4); ("_ref", 8)]%nat.
Definition encode_pod_not_found : encoder :=
  DynamicEncoder 603 16
    [("_ref", PU 8); ("uid", PBlob); ("on_delete", PU 1)]
    (w_struct wire_pod_not_found)
    ["uid"].
Definition decode_pod_not_found : decoder :=
  DynamicDecoder 603
    [("_ref", GUint 8 8); ("on_delete", GByte 4)] 16
    []
    "uid".

(** *** cgroup_not_found *)

Definition wire_cgroup_not_found : wire :=
  mkWire
    [("_rpc_id", U 2); ("cgroup", U 8); ("_ref", U 8)]
    (new_fixed 604 24 true) 24
    [("_rpc_id", 0); ("cgroup", 8); ("_ref", 16)]%nat.
Definition encode_cgroup_not_found : encoder :=
  FixedEncoder 604 24
    [("_ref", PU 8); ("cgroup", PU 8)]
    (w_struct wire_cgroup_not_found).
Definition decode_cgroup_not_found : decoder :=
  FixedDecoder 604 24
    [("_ref", GUint 16 8); ("cgroup", GUint 8 8)].

(** *** rewriting_private_to_public_ip_mapping *)

Definition wire_rewriting_private_to_public_ip_mapping : wire :=
  mkWire
    [("_rpc_id", U 2); ("_len", U 2); ("private_addr", U 2); ("existing_public_addr", U 2);
     ("_ref", U 8)]
    (new_dynamic 605 true) 16
    [("_rpc_id", 0); ("_len", 2); ("private_addr", 4); ("existing_public_addr", 6); ("_ref", 8)]%nat.
Definition encode_rewriting_private_to_public_ip_mapping : encoder :=
  DynamicEncoder 605 16
    [("_ref", PU 8); ("private_addr", PBlob); ("existing_public_addr", PBlob);
     ("new_public_addr", PBlob)]
    (w_struct wire_rewriting_private_to_public_ip_mapping)
    ["private_addr"; "existing_public_addr"; "new_public_addr"].
Definition decode_rewriting_private_to_public_ip_mapping : decoder :=
  DynamicDecoder 605
    [("_ref", GUint 8 8)] 16
    [("private_addr", 4); ("existing_public_addr", 6)]%nat
    "new_public_addr".

(** *** private_ip_in_private_to_public_ip_mapping *)

Definition wire_private_ip_in_private_to_public_ip_mapping : wire :=
  mkWire
    [("_rpc_id", U 2); ("_len", U 2); ("private_addr", U 2); ("_ref", U 8)]
    (new_dynamic 606 true) 16
    [("_rpc_id", 0); ("_len", 2); ("private_addr", 4); ("_ref", 8)]%nat.
Definition encode_private_ip_in_private_to_public_ip_mapping : encoder :=
  DynamicEncoder 606 16
    [("_ref", PU 8); ("private_addr", PBlob); ("existing_public_addr", PBlob)]
    (w_struct wire_private_ip_in_private_to_public_ip_mapping)
    ["private_addr"; "existing_public_addr"].
Definition decode_private_ip_in_private_to_public_ip_mapping : decoder :=
  DynamicDecoder 606
    [("_ref", GUint 8 8)] 16
    [("private_addr", 4)]%nat
    "existing_public_addr".

(** *** failed_to_insert_dns_record *)

Definition wire_failed_to_insert_dns_record : wire :=
  mkWire
    [("_rpc_id", U 2); ("_ref", U 8)]
    (new_fixed 607 16 true) 16
    [("_rpc_id", 0); ("_ref", 8)]%nat.
Definition encode_failed_to_insert_dns_record : encoder :=
  FixedEncoder 607 16
    [("_ref", PU 8)]
    (w_struct wire_failed_to_insert_dns_record).
Definition decode_failed_to_insert_dns_record : decoder :=
  FixedDecoder 607 16
    [("_ref", GUint 8 8)].

(** *** tcp_socket_failed_getting_process_reference *)

Definition wire_tcp_socket_failed_getting_process_reference : wire :=
  mkWire
    [("_rpc_id", U 2); ("pid", U 4); ("_ref", U 8)]
    (new_fixed 608 16 true) 16
    [("_rpc_id", 0); ("pid", 4); ("_ref", 8)]%nat.
Definition encode_tcp_socket_failed_getting_process_reference : encoder :=
  FixedEncoder 608 16
    [("_ref", PU 8); ("pid", PU 4)]
    (w_struct wire_tcp_socket_failed_getting_process_reference).
Definition decode_tcp_socket_failed_getting_process_reference : decoder :=
  FixedDecoder 608 16
    [("_ref", GUint 8 8); ("pid", GUint 4 4)].

(** *** udp_socket_failed_getting_process_reference *)

Definition wire_udp_socket_failed_getting_process_reference : wire :=
  mkWire
    [("_rpc_id", U 2); ("pid", U 4); ("_ref", U 8)]
    (new_fixed 609 16 true) 16
    [("_rpc_id", 0); ("pid", 4); ("_ref", 8)]%nat.
Definition encode_udp_socket_failed_getting_process_reference : encoder :=
  FixedEncoder 609 16
    [("_ref", PU 8); ("pid", PU 4)]
    (w_struct wire_udp_socket_failed_getting_process_reference).
Definition decode_udp_socket_failed_getting_process_reference : decoder :=
  FixedDecoder 609 16
    [("_ref", GUint 8 8); ("pid", GUint 4 4)].

(** *** socket_address_already_assigned *)

Definition wire_socket_address_already_assigned : wire :=
  mkWire
    [("_rpc_id", U 2); ("_ref", U 8)]
    (new_fixed 610 16 true) 16
    [("_rpc_id", 0); ("_ref", 8)]%nat.
Definition encode_socket_address_already_assigned : encoder :=
  FixedEncoder 610 16
    [("_ref", PU 8)]
    (w_struct wire_socket_address_already_assigned).
Definition decode_socket_address_already_assigned : decoder :=
  FixedDecoder 610 16
    [("_ref", GUint 8 8)].

(** *** ingest_decompression_error *)

Definition wire_ingest_decompression_error : wire :=
  mkWire
    [("_rpc_id", U 2); ("_len", U 2); ("client_hostname", U 2); ("client_type", U 1);
     ("_ref", U 8)]
    (new_dynamic 611 true) 16
    [("_rpc_id", 0); ("_len", 2); ("client_hostname", 4); ("client_type", 6); ("_ref", 8)]%nat.
Definition encode_ingest_decompression_error : encoder :=
  DynamicEncoder 611 16
    [("_ref", PU 8); ("client_type", PU 1); ("client_hostname", PBlob); ("error", PBlob)]
    (w_struct wire_ingest_decompression_error)
    ["client_hostname"; "error"].
Definition decode_ingest_decompression_error : decoder :=
  DynamicDecoder 611
    [("_ref", GUint 8 8); ("client_type", GByte 6)] 16
    [("client_hostname", 4)]%nat
    "error".

(** *** ingest_processing_error *)

Definition wire_ingest_processing_error : wire :=
  mkWire
    [("_rpc_id", U 2); ("_len", U 2); ("client_hostname", U 2); ("client_type", U 1);
     ("_ref", U 8)]
    (new_dynamic 612 true) 16
    [("_rpc_id", 0); ("_len", 2); ("client_hostname", 4); ("client_type", 6); ("_ref", 8)]%nat.
Definition encode_ingest_processing_error : encoder :=
  DynamicEncoder 612 16
    [("_ref", PU 8); ("client_type", PU 1); ("client_hostname", PBlob); ("error", PBlob)]
    (w_struct wire_ingest_processing_error)
    ["client_hostname"; "error"].
Definition decode_ingest_processing_error : decoder :=
  DynamicDecoder 612
    [("_ref", GUint 8 8); ("client_type", GByte 6)] 16
    [("client_hostname", 4)]%nat
    "error".

(** *** ingest_connection_error *)

Definition wire_ingest_connection_error : wire :=
  mkWire
    [("_rpc_id", U 2); ("_len", U 2); ("client_hostname", U 2); ("client_type", U 1);
     ("_ref", U 8)]
    (new_dynamic 613 true) 16
    [("_rpc_id", 0); ("_len", 2); ("client_hostname", 4); ("client_type", 6); ("_ref", 8)]%nat.
Definition encode_ingest_connection_error : encoder :=
  DynamicEncoder 613 16
    [("_ref", PU 8); ("client_type", PU 1); ("client_hostname", PBlob); ("error", PBlob)]
    (w_struct wire_ingest_connection_error)
    ["client_hostname"; "error"].
Definition decode_ingest_connection_error : decoder :=
  DynamicDecoder 613
    [("_ref", GUint 8 8); ("client_type", GByte 6)] 16
    [("client_hostname", 4)]%nat
    "error".

(** *** agent_auth_success *)

Definition wire_agent_auth_success : wire :=
  mkWire
    [("_rpc_id", U 2); ("_len", U 2); ("client_type", U 1); ("_ref", U 8)]
    (new_dynamic 614 true) 16
    [("_rpc_id", 0); ("_len", 2); ("client_type", 4); ("_ref", 8)]%nat.
Definition encode_agent_auth_success : encoder :=
  DynamicEncoder 614 16
    [("_ref", PU 8); ("client_type", PU 1); ("client_hostname", PBlob)]
    (w_struct wire_agent_auth_success)
    ["client_hostname"].
Definition decode_agent_auth_success : decoder :=
  DynamicDecoder 614
    [("_ref", GUint 8 8); ("client_type", GByte 4)] 16
    []
    "client_hostname".

(** *** agent_auth_failure *)

Definition wire_agent_auth_failure : wire :=
  mkWire
    [("_rpc_id", U 2); ("_len", U 2); ("client_hostname", U 2); ("client_type", U 1);
     ("_ref", U 8)]
    (new_dynamic 615 true) 16
    [("_rpc_id", 0); ("_len", 2); ("client_hostname", 4); ("client_type", 6); ("_ref", 8)]%nat.
Definition encode_agent_auth_failure : encoder :=
  DynamicEncoder 615 16
    [("_ref", PU 8); ("client_type", PU 1); ("client_hostname", PBlob); ("error", PBlob)]
    (w_struct wire_agent_auth_failure)
    ["client_hostname"; "error"].
Definition decode_agent_auth_failure : decoder :=
  DynamicDecoder 615
    [("_ref", GUint 8 8); ("client_type", GByte 6)] 16
    [("client_hostname", 4)]%nat
    "error".

(** *** agent_attempting_auth_using_api_key *)

Definition wire_agent_attempting_auth_using_api_key : wire :=
  mkWire
    [("_rpc_id", U 2); ("_len", U 2); ("client_type", U 1); ("_ref", U 8)]
    (new_dynamic 616 true) 16
    [("_rpc_id", 0); ("_len", 2); ("client_type", 4); ("_ref", 8)]%nat.
Definition encode_agent_attempting_auth_using_api_key : encoder :=
  DynamicEncoder 616 16
    [("_ref", PU 8); ("client_type", PU 1); ("client_hostname", PBlob)]
    (w_struct wire_agent_attempting_auth_using_api_key)
    ["client_hostname"].
Definition decode_agent_attempting_auth_using_api_key : decoder :=
  DynamicDecoder 616
    [("_ref", GUint 8 8); ("client_type", GByte 4)] 16
    []
    "client_hostname".

(** *** k8s_container_pod_not_found *)

Definition wire_k8s_container_pod_not_found : wire :=
  mkWire
    [("_rpc_id", U 2); ("pod_uid_suffix", Arr 64); ("pod_uid_hash", U 8); ("_ref", U 8)]
    (new_fixed 617 88 true) 88
    [("_rpc_id", 0); ("pod_uid_suffix", 2); ("pod_uid_hash", 72); ("_ref", 80)]%nat.
Definition encode_k8s_container_pod_not_found : encoder :=
  FixedEncoder 617 88
    [("_ref", PU 8); ("pod_uid_suffix", PPtr); ("pod_uid_hash", PU 8)]
    (w_struct wire_k8s_container_pod_not_found).
Definition decode_k8s_container_pod_not_found : decoder :=
  FixedDecoder 617 88
    [("_ref", GUint 80 8); ("pod_uid_suffix", GArr 2 64); ("pod_uid_hash", GUint 72 8)].

(** *** agent_connect_success *)

Definition wire_agent_connect_success : wire :=
  mkWire
    [("_rpc_id", U 2); ("_len", U 2); ("client_type", U 1); ("_ref", U 8)]
    (new_dynamic 618 true) 16
    [("_rpc_id", 0); ("_len", 2); ("client_type", 4); ("_ref", 8)]%nat.
Definition encode_agent_connect_success : encoder :=
  DynamicEncoder 618 16
    [("_ref", PU 8); ("client_type", PU 1); ("client_hostname", PBlob)]
    (w_struct wire_agent_connect_success)
    ["client_hostname"].
Definition decode_agent_connect_success : decoder :=
  DynamicDecoder 618
    [("_ref", GUint 8 8); ("client_type", GByte 4)] 16
    []
    "client_hostname".

(** *** core_stats_start *)

Definition wire_core_stats_start : wire :=
  mkWire
    [("_rpc_id", U 2); ("_ref", U 8)]
    (new_fixed 619 16 true) 16
    [("_rpc_id", 0); ("_ref", 8)]%nat.
Definition encode_core_stats_start : encoder :=
  FixedEncoder 619 16
    [("_ref", PU 8)]
    (w_struct wire_core_stats_start).
Definition decode_core_stats_start : decoder :=
  FixedDecoder 619 16
    [("_ref", GUint 8 8)].

(** *** core_stats_end *)

Definition wire_core_stats_end : wire :=
  mkWire
    [("_rpc_id", U 2); ("_ref", U 8)]
    (new_fixed 620 16 true) 16
    [("_rpc_id", 0); ("_ref", 8)]%nat.
Definition encode_core_stats_end : encoder :=
  FixedEncoder 620 16
    [("_ref", PU 8)]
    (w_struct wire_core_stats_end).
Definition decode_core_stats_end : decoder :=
  FixedDecoder 620 16
    [("_ref", GUint 8 8)].

(** *** span_utilization_stats *)

Definition wire_span_utilization_stats : wire :=
  mkWire
    [("_rpc_id", U 2); ("_len", U 2); ("span_name", U 2); ("shard", U 2); ("time_ns", U 8);
     ("_ref", U 8); ("allocated", U 2); ("max_allocated", U 2); ("pool_size_", U 2)]
    (new_dynamic 621 true) 30
    [("_rpc_id", 0); ("_len", 2); ("span_name", 4); ("shard", 6); ("time_ns", 8); ("_ref", 16);
     ("allocated", 24); ("max_allocated", 26); ("pool_size_", 28)]%nat.
Definition encode_span_utilization_stats : encoder :=
  DynamicEncoder 621 30
    [("_ref", PU 8); ("span_name", PBlob); ("module", PBlob); ("shard", PU 2);
     ("allocated", PU 2); ("max_allocated", PU 2); ("pool_size_", PU 2); ("time_ns", PU 8)]
    (w_struct wire_span_utilization_stats)
    ["span_name"; "module"].
Definition decode_span_utilization_stats : decoder :=
  DynamicDecoder 621
    [("_ref", GUint 16 8); ("shard", GUint 6 2); ("allocated", GUint 24 2);
     ("max_allocated", GUint 26 2); ("pool_size_", GUint 28 2); ("time_ns", GUint 8 8)] 30
    [("span_name", 4)]%nat
    "module".

(** *** connection_message_stats *)

Definition wire_connection_message_stats : wire :=
  mkWire
    [("_rpc_id", U 2); ("_len", U 2); ("severity_", U 4); ("time_ns", U 8); ("count", U 8);
     ("_ref", U 8); ("module", U 2); ("shard", U 2); ("conn", U 2)]
    (new_dynamic 622 true) 38
    [("_rpc_id", 0); ("_len", 2); ("severity_", 4); ("time_ns", 8); ("count", 16);
     ("_ref", 24); ("module", 32); ("shard", 34); ("conn", 36)]%nat.
Definition encode_connection_message_stats : encoder :=
  DynamicEncoder 622 38
    [("_ref", PU 8); ("module", PBlob); ("msg_", PBlob); ("shard", PU 2); ("severity_", PU 4);
     ("conn", PU 2); ("time_ns", PU 8); ("count", PU 8)]
    (w_struct wire_connection_message_stats)
    ["module"; "msg_"].
Definition decode_connection_message_stats : decoder :=
  DynamicDecoder 622
    [("_ref", GUint 24 8); ("shard", GUint 34 2); ("severity_", GUint 4 4);
     ("conn", GUint 36 2); ("time_ns", GUint 8 8); ("count", GUint 16 8)] 38
    [("module", 32)]%nat
    "msg_".

(** *** connection_message_error_stats *)

Definition wire_connection_message_error_stats : wire :=
  mkWire
    [("_rpc_id", U 2); ("_len", U 2); ("module", U 2); ("shard", U 2); ("count", U 8);
     ("time_ns", U 8); ("_ref", U 8); ("conn", U 2); ("msg_", U 2)]
    (new_dynamic 623 true) 36
    [("_rpc_id", 0); ("_len", 2); ("module", 4); ("shard", 6); ("count", 8); ("time_ns", 16);
     ("_ref", 24); ("conn", 32); ("msg_", 34)]%nat.
Definition encode_connection_message_error_stats : encoder :=
  DynamicEncoder 623 36
    [("_ref", PU 8); ("module", PBlob); ("shard", PU 2); ("conn", PU 2); ("msg_", PBlob);
     ("error", PBlob); ("count", PU 8); ("time_ns", PU 8)]
    (w_struct wire_connection_message_error_stats)
    ["module"; "msg_"; "error"].
Definition decode_connection_message_error_stats : decoder :=
  DynamicDecoder 623
    [("_ref", GUint 24 8); ("shard", GUint 6 2); ("conn", GUint 32 2); ("count", GUint 8 8);
     ("time_ns", GUint 16 8)] 36
    [("module", 4); ("msg_", 34)]%nat
    "error".

(** *** status_stats *)

Definition wire_status_stats : wire :=
  mkWire
    [("_rpc_id", U 2); ("_len", U 2); ("module", U 2); ("shard", U 2); ("time_ns", U 8);
     ("_ref", U 8); ("program", U 2); ("status", U 1)]
    (new_dynamic 624 true) 27
    [("_rpc_id", 0); ("_len", 2); ("module", 4); ("shard", 6); ("time_ns", 8); ("_ref", 16);
     ("program", 24); ("status", 26)]%nat.
Definition encode_status_stats : encoder :=
  DynamicEncoder 624 27
    [("_ref", PU 8); ("module", PBlob); ("shard", PU 2); ("program", PBlob);
     ("version", PBlob); ("status", PU 1); ("time_ns", PU 8)]
    (w_struct wire_status_stats)
    ["module"; "program"; "version"].
Definition decode_status_stats : decoder :=
  DynamicDecoder 624
    [("_ref", GUint 16 8); ("shard", GUint 6 2); ("status", GByte 26); ("time_ns", GUint 8 8)] 27
    [("module", 4); ("program", 24)]%nat
    "version".

(** *** rpc_receive_stats *)

Definition wire_rpc_receive_stats : wire :=
  mkWire
    [("_rpc_id", U 2); ("_len", U 2); ("receiver_app", U 2); ("shard", U 2);
     ("max_latency_ns", U 8); ("time_ns", U 8); ("_ref", U 8)]
    (new_dynamic 625 true) 32
    [("_rpc_id", 0); ("_len", 2); ("receiver_app", 4); ("shard", 6); ("max_latency_ns", 8);
     ("time_ns", 16); ("_ref", 24)]%nat.
Definition encode_rpc_receive_stats : encoder :=
  DynamicEncoder 625 32
    [("_ref", PU 8); ("receiver_app", PBlob); ("shard", PU 2); ("sender_app", PBlob);
     ("max_latency_ns", PU 8); ("time_ns", PU 8)]
    (w_struct wire_rpc_receive_stats)
    ["receiver_app"; "sender_app"].
Definition decode_rpc_receive_stats : decoder :=
  DynamicDecoder 625
    [("_ref", GUint 24 8); ("shard", GUint 6 2); ("max_latency_ns", GUint 8 8);
     ("time_ns", GUint 16 8)] 32
    [("receiver_app", 4)]%nat
    "sender_app".

(** *** rpc_write_stalls_stats *)

Definition wire_rpc_write_stalls_stats : wire :=
  mkWire
    [("_rpc_id", U 2); ("_len", U 2); ("sender_app", U 2); ("shard", U 2); ("count", U 8);
     ("time_ns", U 8); ("_ref", U 8)]
    (new_dynamic 626 true) 32
    [("_rpc_id", 0); ("_len", 2); ("sender_app", 4); ("shard", 6); ("count", 8);
     ("time_ns", 16); ("_ref", 24)]%nat.
Definition encode_rpc_write_stalls_stats : encoder :=
  DynamicEncoder 626 32
    [("_ref", PU 8); ("sender_app", PBlob); ("shard", PU 2); ("receiver_app", PBlob);
     ("count", PU 8); ("time_ns", PU 8)]
    (w_struct wire_rpc_write_stalls_stats)
    ["sender_app"; "receiver_app"].
Definition decode_rpc_write_stalls_stats : decoder :=
  DynamicDecoder 626
    [("_ref", GUint 24 8); ("shard", GUint 6 2); ("count", GUint 8 8); ("time_ns", GUint 16 8)] 32
    [("sender_app", 4)]%nat
    "receiver_app".

(** *** rpc_write_utilization_stats *)

Definition wire_rpc_write_utilization_stats : wire :=
  mkWire
    [("_rpc_id", U 2); ("_len", U 2); ("max_buf_used", U 4); ("max_buf_util", U 8);
     ("max_elem_util", U 8); ("time_ns", U 8); ("_ref", U 8); ("sender_app", U 2);
     ("shard", U 2)]
    (new_dynamic 627 true) 44
    [("_rpc_id", 0); ("_len", 2); ("max_buf_used", 4); ("max_buf_util", 8);
     ("max_elem_util", 16); ("time_ns", 24); ("_ref", 32); ("sender_app", 40); ("shard", 42)]%nat.
Definition encode_rpc_write_utilization_stats : encoder :=
  DynamicEncoder 627 44
    [("_ref", PU 8); ("sender_app", PBlob); ("shard", PU 2); ("receiver_app", PBlob);
     ("max_buf_used", PU 4); ("max_buf_util", PU 8); ("max_elem_util", PU 8); ("time_ns", PU 8)]
    (w_struct wire_rpc_write_utilization_stats)
    ["sender_app"; "receiver_app"].
Definition decode_rpc_write_utilization_stats : decoder :=
  DynamicDecoder 627
    [("_ref", GUint 32 8); ("shard", GUint 42 2); ("max_buf_used", GUint 4 4);
     ("max_buf_util", GUint 8 8); ("max_elem_util", GUint 16 8); ("time_ns", GUint 24 8)] 44
    [("sender_app", 40)]%nat
    "receiver_app".

(** *** code_timing_stats *)

Definition wire_code_timing_stats : wire :=
  mkWire
    [("_rpc_id", U 2); ("_len", U 2); ("name", U 2); ("line", U 2); ("index_string", U 8);
     ("count", U 8); ("avg_ns", U 8); ("min_ns", U 8); ("max_ns", U 8); ("sum_ns", U 8);
     ("time_ns", U 8); ("_ref", U 8)]
    (new_dynamic 628 true) 72
    [("_rpc_id", 0); ("_len", 2); ("name", 4); ("line", 6); ("index_string", 8); ("count", 16);
     ("avg_ns", 24); ("min_ns", 32); ("max_ns", 40); ("sum_ns", 48); ("time_ns", 56);
     ("_ref", 64)]%nat.
Definition encode_code_timing_stats : encoder :=
  DynamicEncoder 628 72
    [("_ref", PU 8); ("name", PBlob); ("filename", PBlob); ("line", PU 2);
     ("index_string", PU 8); ("count", PU 8); ("avg_ns", PU 8); ("min_ns", PU 8);
     ("sum_ns", PU 8); ("max_ns", PU 8); ("time_ns", PU 8)]
    (w_struct wire_code_timing_stats)
    ["name"; "filename"].
Definition decode_code_timing_stats : decoder :=
  DynamicDecoder 628
    [("_ref", GUint 64 8); ("line", GUint 6 2); ("index_string", GUint 8 8);
     ("count", GUint 16 8); ("avg_ns", GUint 24 8); ("min_ns", GUint 32 8);
     ("sum_ns", GUint 48 8); ("max_ns", GUint 40 8); ("time_ns", GUint 56 8)] 72
    [("name", 4)]%nat
    "filename".

(** *** agg_core_stats_start *)

Definition wire_agg_core_stats_start : wire :=
  mkWire
    [("_rpc_id", U 2); ("_ref", U 8)]
    (new_fixed 629 16 true) 16
    [("_rpc_id", 0); ("_ref", 8)]%nat.
Definition encode_agg_core_stats_start : encoder :=
  FixedEncoder 629 16
    [("_ref", PU 8)]
    (w_struct wire_agg_core_stats_start).
Definition decode_agg_core_stats_start : decoder :=
  FixedDecoder 629 16
    [("_ref", GUint 8 8)].

(** *** agg_core_stats_end *)

Definition wire_agg_core_stats_end : wire :=
  mkWire
    [("_rpc_id", U 2); ("_ref", U 8)]
    (new_fixed 630 16 true) 16
    [("_rpc_id", 0); ("_ref", 8)]%nat.
Definition encode_agg_core_stats_end : encoder :=
  FixedEncoder 630 16
    [("_ref", PU 8)]
    (w_struct wire_agg_core_stats_end).
Definition decode_agg_core_stats_end : decoder :=
  FixedDecoder 630 16
    [("_ref", GUint 8 8)].

(** *** agg_root_truncation_stats *)

Definition wire_agg_root_truncation_stats : wire :=
  mkWire
    [("_rpc_id", U 2); ("_len", U 2); ("module", U 2); ("shard", U 2); ("count", U 8);
     ("time_ns", U 8); ("_ref", U 8)]
    (new_dynamic 631 true) 32
    [("_rpc_id", 0); ("_len", 2); ("module", 4); ("shard", 6); ("count", 8); ("time_ns", 16);
     ("_ref", 24)]%nat.
Definition encode_agg_root_truncation_stats : encoder :=
  DynamicEncoder 631 32
    [("_ref", PU 8); ("module", PBlob); ("shard", PU 2); ("field", PBlob); ("count", PU 8);
     ("time_ns", PU 8)]
    (w_struct wire_agg_root_truncation_stats)
    ["module"; "field"].
Definition decode_agg_root_truncation_stats : decoder :=
  DynamicDecoder 631
    [("_ref", GUint 24 8); ("shard", GUint 6 2); ("count", GUint 8 8); ("time_ns", GUint 16 8)] 32
    [("module", 4)]%nat
    "field".

(** *** agg_prometheus_bytes_stats *)

Definition wire_agg_prometheus_bytes_stats : wire :=
  mkWire
    [("_rpc_id", U 2); ("_len", U 2); ("shard", U 2); ("prometheus_bytes_written", U 8);
     ("prometheus_bytes_discarded", U 8); ("time_ns", U 8); ("_ref", U 8)]
    (new_dynamic 632 true) 40
    [("_rpc_id", 0); ("_len", 2); ("shard", 4); ("prometheus_bytes_written", 8);
     ("prometheus_bytes_discarded", 16); ("time_ns", 24); ("_ref", 32)]%nat.
Definition encode_agg_prometheus_bytes_stats : encoder :=
  DynamicEncoder 632 40
    [("_ref", PU 8); ("module", PBlob); ("shard", PU 2); ("prometheus_bytes_written", PU 8);
     ("prometheus_bytes_discarded", PU 8); ("time_ns", PU 8)]
    (w_struct wire_agg_prometheus_bytes_stats)
    ["module"].
Definition decode_agg_prometheus_bytes_stats : decoder :=
  DynamicDecoder 632
    [("_ref", GUint 32 8); ("shard", GUint 4 2); ("prometheus_bytes_written", GUint 8 8);
     ("prometheus_bytes_discarded", GUint 16 8); ("time_ns", GUint 24 8)] 40
    []
    "module".

(** *** agg_otlp_grpc_stats *)

Definition wire_agg_otlp_grpc_stats : wire :=
  mkWire
    [("_rpc_id", U 2); ("_len", U 2); ("module", U 2); ("shard", U 2); ("bytes_failed", U 8);
     ("bytes_sent", U 8); ("data_points_failed", U 8); ("data_points_sent", U 8);
     ("requests_failed", U 8); ("requests_sent", U 8); ("unknown_response_tags", U 8);
     ("time_ns", U 8); ("_ref", U 8)]
    (new_dynamic 644 true) 80
    [("_rpc_id", 0); ("_len", 2); ("module", 4); ("shard", 6); ("bytes_failed", 8);
     ("bytes_sent", 16); ("data_points_failed", 24); ("data_points_sent", 32);
     ("requests_failed", 40); ("requests_sent", 48); ("unknown_response_tags", 56);
     ("time_ns", 64); ("_ref", 72)]%nat.
Definition encode_agg_otlp_grpc_stats : encoder :=
  DynamicEncoder 644 80
    [("_ref", PU 8); ("module", PBlob); ("shard", PU 2); ("client_type", PBlob);
     ("bytes_failed", PU 8); ("bytes_sent", PU 8); ("data_points_failed", PU 8);
     ("data_points_sent", PU 8); ("requests_failed", PU 8); ("requests_sent", PU 8);
     ("unknown_response_tags", PU 8); ("time_ns", PU 8)]
    (w_struct wire_agg_otlp_grpc_stats)
    ["module"; "client_type"].
Definition decode_agg_otlp_grpc_stats : decoder :=
  DynamicDecoder 644
    [("_ref", GUint 72 8); ("shard", GUint 6 2); ("bytes_failed", GUint 8 8);
     ("bytes_sent", GUint 16 8); ("data_points_failed", GUint 24 8);
     ("data_points_sent", GUint 32 8); ("requests_failed", GUint 40 8);
     ("requests_sent", GUint 48 8); ("unknown_response_tags", GUint 56 8);
     ("time_ns", GUint 64 8)] 80
    [("module", 4)]%nat
    "client_type".

(** *** ingest_core_stats_start *)

Definition wire_ingest_core_stats_start : wire :=
  mkWire
    [("_rpc_id", U 2); ("_ref", U 8)]
    (new_fixed 633 16 true) 16
    [("_rpc_id", 0); ("_ref", 8)]%nat.
Definition encode_ingest_core_stats_start : encoder :=
  FixedEncoder 633 16
    [("_ref", PU 8)]
    (w_struct wire_ingest_core_stats_start).
Definition decode_ingest_core_stats_start : decoder :=
  FixedDecoder 633 16
    [("_ref", GUint 8 8)].

(** *** ingest_core_stats_end *)

Definition wire_ingest_core_stats_end : wire :=
  mkWire
    [("_rpc_id", U 2); ("_ref", U 8)]
    (new_fixed 634 16 true) 16
    [("_rpc_id", 0); ("_ref", 8)]%nat.
Definition encode_ingest_core_stats_end : encoder :=
  FixedEncoder 634 16
    [("_ref", PU 8)]
    (w_struct wire_ingest_core_stats_end).
Definition decode_ingest_core_stats_end : decoder :=
  FixedDecoder 634 16
    [("_ref", GUint 8 8)].

(** *** client_handle_pool_stats *)

Definition wire_client_handle_pool_stats : wire :=
  mkWire
    [("_rpc_id", U 2); ("_len", U 2); ("module", U 2); ("shard", U 2); ("time_ns", U 8);
     ("client_handle_pool", U 8); ("client_handle_pool_fraction", U 8); ("_ref", U 8);
     ("span_name", U 2); ("version", U 2); ("cloud", U 2); ("env", U 2); ("role", U 2);
     ("az", U 2); ("node_id", U 2); ("kernel_version", U 2); ("client_type", U 2);
     ("agent_hostname", U 2); ("os", U 2)]
    (new_dynamic 635 true) 62
    [("_rpc_id", 0); ("_len", 2); ("module", 4); ("shard", 6); ("time_ns", 8);
     ("client_handle_pool", 16); ("client_handle_pool_fraction", 24); ("_ref", 32);
     ("span_name", 40); ("version", 42); ("cloud", 44); ("env", 46); ("role", 48); ("az", 50);
     ("node_id", 52); ("kernel_version", 54); ("client_type", 56); ("agent_hostname", 58);
     ("os", 60)]%nat.
Definition encode_client_handle_pool_stats : encoder :=
  DynamicEncoder 635 62
    [("_ref", PU 8); ("module", PBlob); ("shard", PU 2); ("span_name", PBlob);
     ("version", PBlob); ("cloud", PBlob); ("env", PBlob); ("role", PBlob); ("az", PBlob);
     ("node_id", PBlob); ("kernel_version", PBlob); ("client_type", PU 2);
     ("agent_hostname", PBlob); ("os", PBlob); ("os_version", PBlob); ("time_ns", PU 8);
     ("client_handle_pool", PU 8); ("client_handle_pool_fraction", PU 8)]
    (w_struct wire_client_handle_pool_stats)
    ["module"; "span_name"; "version"; "cloud"; "env"; "role"; "az"; "node_id";
     "kernel_version"; "agent_hostname"; "os"; "os_version"].
Definition decode_client_handle_pool_stats : decoder :=
  DynamicDecoder 635
    [("_ref", GUint 32 8); ("shard", GUint 6 2); ("client_type", GUint 56 2);
     ("time_ns", GUint 8 8); ("client_handle_pool", GUint 16 8);
     ("client_handle_pool_fraction", GUint 24 8)] 62
    [("module", 4); ("span_name", 40); ("version", 42); ("cloud", 44); ("env", 46);
     ("role", 48); ("az", 50); ("node_id", 52); ("kernel_version", 54); ("agent_hostname", 58);
     ("os", 60)]%nat
    "os_version".

(** *** agent_connection_message_stats *)

Definition wire_agent_connection_message_stats : wire :=
  mkWire
    [("_rpc_id", U 2); ("_len", U 2); ("module", U 2); ("shard", U 2); ("time_ns", U 8);
     ("count", U 8); ("_ref", U 8); ("version", U 2); ("cloud", U 2); ("env", U 2);
     ("role", U 2); ("az", U 2); ("node_id", U 2); ("kernel_version", U 2);
     ("client_type", U 2); ("agent_hostname", U 2); ("os", U 2); ("os_version", U 2);
     ("severity_", U 2)]
    (new_dynamic 636 true) 56
    [("_rpc_id", 0); ("_len", 2); ("module", 4); ("shard", 6); ("time_ns", 8); ("count", 16);
     ("_ref", 24); ("version", 32); ("cloud", 34); ("env", 36); ("role", 38); ("az", 40);
     ("node_id", 42); ("kernel_version", 44); ("client_type", 46); ("agent_hostname", 48);
     ("os", 50); ("os_version", 52); ("severity_", 54)]%nat.
Definition encode_agent_connection_message_stats : encoder :=
  DynamicEncoder 636 56
    [("_ref", PU 8); ("module", PBlob); ("shard", PU 2); ("version", PBlob); ("cloud", PBlob);
     ("env", PBlob); ("role", PBlob); ("az", PBlob); ("node_id", PBlob);
     ("kernel_version", PBlob); ("client_type", PU 2); ("agent_hostname", PBlob);
     ("os", PBlob); ("os_version", PBlob); ("time_ns", PU 8); ("message", PBlob);
     ("severity_", PU 2); ("count", PU 8)]
    (w_struct wire_agent_connection_message_stats)
    ["module"; "version"; "cloud"; "env"; "role"; "az"; "node_id"; "kernel_version";
     "agent_hostname"; "os"; "os_version"; "message"].
Definition decode_agent_connection_message_stats : decoder :=
  DynamicDecoder 636
    [("_ref", GUint 24 8); ("shard", GUint 6 2); ("client_type", GUint 46 2);
     ("time_ns", GUint 8 8); ("severity_", GUint 54 2); ("count", GUint 16 8)] 56
    [("module", 4); ("version", 32); ("cloud", 34); ("env", 36); ("role", 38); ("az", 40);
     ("node_id", 42); ("kernel_version", 44); ("agent_hostname", 48); ("os", 50);
     ("os_version", 52)]%nat
    "message".

(** *** agent_connection_message_error_stats *)

Definition wire_agent_connection_message_error_stats : wire :=
  mkWire
    [("_rpc_id", U 2); ("_len", U 2); ("module", U 2); ("shard", U 2); ("time_ns", U 8);
     ("count", U 8); ("_ref", U 8); ("version", U 2); ("cloud", U 2); ("env", U 2);
     ("role", U 2); ("az", U 2); ("node_id", U 2); ("kernel_version", U 2);
     ("client_type", U 2); ("agent_hostname", U 2); ("os", U 2); ("os_version", U 2);
     ("message", U 2)]
    (new_dynamic 637 true) 56
    [("_rpc_id", 0); ("_len", 2); ("module", 4); ("shard", 6); ("time_ns", 8); ("count", 16);
     ("_ref", 24); ("version", 32); ("cloud", 34); ("env", 36); ("role", 38); ("az", 40);
     ("node_id", 42); ("kernel_version", 44); ("client_type", 46); ("agent_hostname", 48);
     ("os", 50); ("os_version", 52); ("message", 54)]%nat.
Definition encode_agent_connection_message_error_stats : encoder :=
  DynamicEncoder 637 56
    [("_ref", PU 8); ("module", PBlob); ("shard", PU 2); ("version", PBlob); ("cloud", PBlob);
     ("env", PBlob); ("role", PBlob); ("az", PBlob); ("node_id", PBlob);
     ("kernel_version", PBlob); ("client_type", PU 2); ("agent_hostname", PBlob);
     ("os", PBlob); ("os_version", PBlob); ("time_ns", PU 8); ("message", PBlob);
     ("error", PBlob); ("count", PU 8)]
    (w_struct wire_agent_connection_message_error_stats)
    ["module"; "version"; "cloud"; "env"; "role"; "az"; "node_id"; "kernel_version";
     "agent_hostname"; "os"; "os_version"; "message"; "error"].
Definition decode_agent_connection_message_error_stats : decoder :=
  DynamicDecoder 637
    [("_ref", GUint 24 8); ("shard", GUint 6 2); ("client_type", GUint 46 2);
     ("time_ns", GUint 8 8); ("count", GUint 16 8)] 56
    [("module", 4); ("version", 32); ("cloud", 34); ("env", 36); ("role", 38); ("az", 40);
     ("node_id", 42); ("kernel_version", 44); ("agent_hostname", 48); ("os", 50);
     ("os_version", 52); ("message", 54)]%nat
    "error".

(** *** connection_stats *)

Definition wire_connection_stats : wire :=
  mkWire
    [("_rpc_id", U 2); ("_len", U 2); ("module", U 2); ("shard", U 2); ("time_ns", U 8);
     ("time_since_last_message_ns", U 8); ("clock_offset_ns", U 8); ("_ref", U 8);
     ("version", U 2); ("cloud", U 2); ("env", U 2); ("role", U 2); ("az", U 2);
     ("node_id", U 2); ("kernel_version", U 2); ("client_type", U 2); ("agent_hostname", U 2);
     ("os", U 2)]
    (new_dynamic 638 true) 60
    [("_rpc_id", 0); ("_len", 2); ("module", 4); ("shard", 6); ("time_ns", 8);
     ("time_since_last_message_ns", 16); ("clock_offset_ns", 24); ("_ref", 32);
     ("version", 40); ("cloud", 42); ("env", 44); ("role", 46); ("az", 48); ("node_id", 50);
     ("kernel_version", 52); ("client_type", 54); ("agent_hostname", 56); ("os", 58)]%nat.
Definition encode_connection_stats : encoder :=
  DynamicEncoder 638 60
    [("_ref", PU 8); ("module", PBlob); ("shard", PU 2); ("version", PBlob); ("cloud", PBlob);
     ("env", PBlob); ("role", PBlob); ("az", PBlob); ("node_id", PBlob);
     ("kernel_version", PBlob); ("client_type", PU 2); ("agent_hostname", PBlob);
     ("os", PBlob); ("os_version", PBlob); ("time_ns", PU 8);
     ("time_since_last_message_ns", PU 8); ("clock_offset_ns", PU 8)]
    (w_struct wire_connection_stats)
    ["module"; "version"; "cloud"; "env"; "role"; "az"; "node_id"; "kernel_version";
     "agent_hostname"; "os"; "os_version"].
Definition decode_connection_stats : decoder :=
  DynamicDecoder 638
    [("_ref", GUint 32 8); ("shard", GUint 6 2); ("client_type", GUint 54 2);
     ("time_ns", GUint 8 8); ("time_since_last_message_ns", GUint 16 8);
     ("clock_offset_ns", GUint 24 8)] 60
    [("module", 4); ("version", 40); ("cloud", 42); ("env", 44); ("role", 46); ("az", 48);
     ("node_id", 50); ("kernel_version", 52); ("agent_hostname", 56); ("os", 58)]%nat
    "os_version".

(** *** collector_log_stats *)

Definition wire_collector_log_stats : wire :=
  mkWire
    [("_rpc_id", U 2); ("_len", U 2); ("count", U 4); ("time_ns", U 8); ("_ref", U 8);
     ("module", U 2); ("shard", U 2); ("version", U 2); ("cloud", U 2); ("env", U 2);
     ("role", U 2); ("az", U 2); ("node_id", U 2); ("kernel_version", U 2);
     ("client_type", U 2); ("agent_hostname", U 2); ("os", U 2); ("os_version", U 2)]
    (new_dynamic 639 true) 50
    [("_rpc_id", 0); ("_len", 2); ("count", 4); ("time_ns", 8); ("_ref", 16); ("module", 24);
     ("shard", 26); ("version", 28); ("cloud", 30); ("env", 32); ("role", 34); ("az", 36);
     ("node_id", 38); ("kernel_version", 40); ("client_type", 42); ("agent_hostname", 44);
     ("os", 46); ("os_version", 48)]%nat.
Definition encode_collector_log_stats : encoder :=
  DynamicEncoder 639 50
    [("_ref", PU 8); ("module", PBlob); ("shard", PU 2); ("version", PBlob); ("cloud", PBlob);
     ("env", PBlob); ("role", PBlob); ("az", PBlob); ("node_id", PBlob);
     ("kernel_version", PBlob); ("client_type", PU 2); ("agent_hostname", PBlob);
     ("os", PBlob); ("os_version", PBlob); ("time_ns", PU 8); ("severity_", PBlob);
     ("count", PU 4)]
    (w_struct wire_collector_log_stats)
    ["module"; "version"; "cloud"; "env"; "role"; "az"; "node_id"; "kernel_version";
     "agent_hostname"; "os"; "os_version"; "severity_"].
Definition decode_collector_log_stats : decoder :=
  DynamicDecoder 639
    [("_ref", GUint 16 8); ("shard", GUint 26 2); ("client_type", GUint 42 2);
     ("time_ns", GUint 8 8); ("count", GUint 4 4)] 50
    [("module", 24); ("version", 28); ("cloud", 30); ("env", 32); ("role", 34); ("az", 36);
     ("node_id", 38); ("kernel_version", 40); ("agent_hostname", 44); ("os", 46);
     ("os_version", 48)]%nat
    "severity_".

(** *** entry_point_stats *)

Definition wire_entry_point_stats : wire :=
  mkWire
    [("_rpc_id", U 2); ("_len", U 2); ("module", U 2); ("shard", U 2); ("time_ns", U 8);
     ("_ref", U 8); ("version", U 2); ("cloud", U 2); ("env", U 2); ("role", U 2); ("az", U 2);
     ("node_id", U 2); ("kernel_version", U 2); ("client_type", U 2); ("agent_hostname", U 2);
     ("os", U 2); ("os_version", U 2); ("kernel_headers_source", U 2); ("entrypoint_info", U 1)]
    (new_dynamic 640 true) 49
    [("_rpc_id", 0); ("_len", 2); ("module", 4); ("shard", 6); ("time_ns", 8); ("_ref", 16);
     ("version", 24); ("cloud", 26); ("env", 28); ("role", 30); ("az", 32); ("node_id", 34);
     ("kernel_version", 36); ("client_type", 38); ("agent_hostname", 40); ("os", 42);
     ("os_version", 44); ("kernel_headers_source", 46); ("entrypoint_info", 48)]%nat.
Definition encode_entry_point_stats : encoder :=
  DynamicEncoder 640 49
    [("_ref", PU 8); ("module", PBlob); ("shard", PU 2); ("version", PBlob); ("cloud", PBlob);
     ("env", PBlob); ("role", PBlob); ("az", PBlob); ("node_id", PBlob);
     ("kernel_version", PBlob); ("client_type", PU 2); ("agent_hostname", PBlob);
     ("os", PBlob); ("os_version", PBlob); ("time_ns", PU 8); ("kernel_headers_source", PBlob);
     ("entrypoint_error", PBlob); ("entrypoint_info", PU 1)]
    (w_struct wire_entry_point_stats)
    ["module"; "version"; "cloud"; "env"; "role"; "az"; "node_id"; "kernel_version";
     "agent_hostname"; "os"; "os_version"; "kernel_headers_source"; "entrypoint_error"].
Definition decode_entry_point_stats : decoder :=
  DynamicDecoder 640
    [("_ref", GUint 16 8); ("shard", GUint 6 2); ("client_type", GUint 38 2);
     ("time_ns", GUint 8 8); ("entrypoint_info", GByte 48)] 49
    [("module", 4); ("version", 24); ("cloud", 26); ("env", 28); ("role", 30); ("az", 32);
     ("node_id", 34); ("kernel_version", 36); ("agent_hostname", 40); ("os", 42);
     ("os_version", 44); ("kernel_headers_source", 46)]%nat
    "entrypoint_error".

(** *** collector_health_stats *)

Definition wire_collector_health_stats : wire :=
  mkWire
    [("_rpc_id", U 2); ("_len", U 2); ("module", U 2); ("shard", U 2); ("time_ns", U 8);
     ("_ref", U 8); ("version", U 2); ("cloud", U 2); ("env", U 2); ("role", U 2); ("az", U 2);
     ("node_id", U 2); ("kernel_version", U 2); ("client_type", U 2); ("hostname", U 2);
     ("os", U 2); ("os_version", U 2); ("status", U 2)]
    (new_dynamic 641 true) 48
    [("_rpc_id", 0); ("_len", 2); ("module", 4); ("shard", 6); ("time_ns", 8); ("_ref", 16);
     ("version", 24); ("cloud", 26); ("env", 28); ("role", 30); ("az", 32); ("node_id", 34);
     ("kernel_version", 36); ("client_type", 38); ("hostname", 40); ("os", 42);
     ("os_version", 44); ("status", 46)]%nat.
Definition encode_collector_health_stats : encoder :=
  DynamicEncoder 641 48
    [("_ref", PU 8); ("module", PBlob); ("shard", PU 2); ("version", PBlob); ("cloud", PBlob);
     ("env", PBlob); ("role", PBlob); ("az", PBlob); ("node_id", PBlob);
     ("kernel_version", PBlob); ("client_type", PU 2); ("hostname", PBlob); ("os", PBlob);
     ("os_version", PBlob); ("time_ns", PU 8); ("status", PBlob); ("status_detail", PBlob)]
    (w_struct wire_collector_health_stats)
    ["module"; "version"; "cloud"; "env"; "role"; "az"; "node_id"; "kernel_version";
     "hostname"; "os"; "os_version"; "status"; "status_detail"].
Definition decode_collector_health_stats : decoder :=
  DynamicDecoder 641
    [("_ref", GUint 16 8); ("shard", GUint 6 2); ("client_type", GUint 38 2);
     ("time_ns", GUint 8 8)] 48
    [("module", 4); ("version", 24); ("cloud", 26); ("env", 28); ("role", 30); ("az", 32);
     ("node_id", 34); ("kernel_version", 36); ("hostname", 40); ("os", 42); ("os_version", 44);
     ("status", 46)]%nat
    "status_detail".

(** *** bpf_log_stats *)

Definition wire_bpf_log_stats : wire :=
  mkWire
    [("_rpc_id", U 2); ("_len", U 2); ("module", U 2); ("shard", U 2); ("time_ns", U 8);
     ("_ref", U 8); ("version", U 2); ("cloud", U 2); ("env", U 2); ("role", U 2); ("az", U 2);
     ("node_id", U 2); ("kernel_version", U 2); ("client_type", U 2); ("hostname", U 2);
     ("os", U 2); ("os_version", U 2); ("filename", U 2); ("line", U 2); ("code", U 2);
     ("arg0", U 2); ("arg1", U 2)]
    (new_dynamic 642 true) 56
    [("_rpc_id", 0); ("_len", 2); ("module", 4); ("shard", 6); ("time_ns", 8); ("_ref", 16);
     ("version", 24); ("cloud", 26); ("env", 28); ("role", 30); ("az", 32); ("node_id", 34);
     ("kernel_version", 36); ("client_type", 38); ("hostname", 40); ("os", 42);
     ("os_version", 44); ("filename", 46); ("line", 48); ("code", 50); ("arg0", 52);
     ("arg1", 54)]%nat.
Definition encode_bpf_log_stats : encoder :=
  DynamicEncoder 642 56
    [("_ref", PU 8); ("module", PBlob); ("shard", PU 2); ("version", PBlob); ("cloud", PBlob);
     ("env", PBlob); ("role", PBlob); ("az", PBlob); ("node_id", PBlob);
     ("kernel_version", PBlob); ("client_type", PU 2); ("hostname", PBlob); ("os", PBlob);
     ("os_version", PBlob); ("time_ns", PU 8); ("filename", PBlob); ("line", PBlob);
     ("code", PBlob); ("arg0", PBlob); ("arg1", PBlob); ("arg2", PBlob)]
    (w_struct wire_bpf_log_stats)
    ["module"; "version"; "cloud"; "env"; "role"; "az"; "node_id"; "kernel_version";
     "hostname"; "os"; "os_version"; "filename"; "line"; "code"; "arg0"; "arg1"; "arg2"].
Definition decode_bpf_log_stats : decoder :=
  DynamicDecoder 642
    [("_ref", GUint 16 8); ("shard", GUint 6 2); ("client_type", GUint 38 2);
     ("time_ns", GUint 8 8)] 56
    [("module", 4); ("version", 24); ("cloud", 26); ("env", 28); ("role", 30); ("az", 32);
     ("node_id", 34); ("kernel_version", 36); ("hostname", 40); ("os", 42); ("os_version", 44);
     ("filename", 46); ("line", 48); ("code", 50); ("arg0", 52); ("arg1", 54)]%nat
    "arg2".

(** *** server_stats *)

Definition wire_server_stats : wire :=
  mkWire
    [("_rpc_id", U 2); ("_len", U 2); ("connection_counter", U 8); ("disconnect_counter", U 8);
     ("time_ns", U 8); ("_ref", U 8)]
    (new_dynamic 643 true) 40
    [("_rpc_id", 0); ("_len", 2); ("connection_counter", 8); ("disconnect_counter", 16);
     ("time_ns", 24); ("_ref", 32)]%nat.
Definition encode_server_stats : encoder :=
  DynamicEncoder 643 40
    [("_ref", PU 8); ("module", PBlob); ("connection_counter", PU 8);
     ("disconnect_counter", PU 8); ("time_ns", PU 8)]
    (w_struct wire_server_stats)
    ["module"].
Definition decode_server_stats : decoder :=
  DynamicDecoder 643
    [("_ref", GUint 32 8); ("connection_counter", GUint 8 8);
     ("disconnect_counter", GUint 16 8); ("time_ns", GUint 24 8)] 40
    []
    "module".

(** *** pulse *)

Definition wire_pulse : wire :=
  mkWire
    [("_rpc_id", U 2)]
    (new_fixed 65535 2 true) 2
    [("_rpc_id", 0)]%nat.
Definition encode_pulse : encoder :=
  FixedEncoder 65535 2
    []
    (w_struct wire_pulse).
Definition decode_pulse : decoder :=
  FixedDecoder 65535 2
    [].

(** wire_messages.rs. *)

Definition wires_1 : list wire :=
  [wire_logger_start; wire_logger_end; wire_agent_lost_events].
Definition wires_2 : list wire :=
  [wire_pod_not_found; wire_cgroup_not_found; wire_rewriting_private_to_public_ip_mapping].
Definition wires_3 : list wire :=
  [wire_private_ip_in_private_to_public_ip_mapping; wire_failed_to_insert_dns_record;
   wire_tcp_socket_failed_getting_process_reference].
Definition wires_4 : list wire :=
  [wire_udp_socket_failed_getting_process_reference; wire_socket_address_already_assigned;
   wire_ingest_decompression_error].
Definition wires_5 : list wire :=
  [wire_ingest_processing_error; wire_ingest_connection_error; wire_agent_auth_success].
Definition wires_6 : list wire :=
  [wire_agent_auth_failure; wire_agent_attempting_auth_using_api_key;
   wire_k8s_container_pod_not_found].
Definition wires_7 : list wire :=
  [wire_agent_connect_success; wire_core_stats_start; wire_core_stats_end].
Definition wires_8 : list wire :=
  [wire_span_utilization_stats; wire_connection_message_stats].
Definition wires_9 : list wire :=
  [wire_connection_message_error_stats; wire_status_stats].
Definition wires_10 : list wire :=
  [wire_rpc_receive_stats; wire_rpc_write_stalls_stats].
Definition wires_11 : list wire :=
  [wire_rpc_write_utilization_stats; wire_code_timing_stats].
Definition wires_12 : list wire :=
  [wire_agg_core_stats_start; wire_agg_core_stats_end; wire_agg_root_truncation_stats].
Definition wires_13 : list wire :=
  [wire_agg_prometheus_bytes_stats; wire_agg_otlp_grpc_stats].
Definition wires_14 : list wire :=
  [wire_ingest_core_stats_start; wire_ingest_core_stats_end].
Definition wires_15 : list wire :=
  [wire_client_handle_pool_stats].
Definition wires_16 : list wire :=
  [wire_agent_connection_message_stats].
Definition wires_17 : list wire :=
  [wire_agent_connection_message_error_stats].
Definition wires_18 : list wire :=
  [wire_connection_stats].
Definition wires_19 : list wire :=
  [wire_collector_log_stats].
Definition wires_20 : list wire :=
  [wire_entry_point_stats].
Definition wires_21 : list wire :=
  [wire_collector_health_stats].
Definition wires_22 : list wire :=
  [wire_bpf_log_stats; wire_server_stats].
Definition wires_23 : list wire :=
  [wire_pulse].

(** encoder.rs. *)

Definition encoders_1 : list encoder :=
  [encode_logger_start; encode_logger_end; encode_agent_lost_events].
Definition encoders_2 : list encoder :=
  [encode_pod_not_found; encode_cgroup_not_found; encode_rewriting_private_to_public_ip_mapping].
Definition encoders_3 : list encoder :=
  [encode_private_ip_in_private_to_public_ip_mapping; encode_failed_to_insert_dns_record;
   encode_tcp_socket_failed_getting_process_reference].
Definition encoders_4 : list encoder :=
  [encode_udp_socket_failed_getting_process_reference; encode_socket_address_already_assigned;
   encode_ingest_decompression_error].
Definition encoders_5 : list encoder :=
  [encode_ingest_processing_error; encode_ingest_connection_error].
Definition encoders_6 : list encoder :=
  [encode_agent_auth_success; encode_agent_auth_failure].
Definition encoders_7 : list encoder :=
  [encode_agent_attempting_auth_using_api_key; encode_k8s_container_pod_not_found;
   encode_agent_connect_success].
Definition encoders_8 : list encoder :=
  [encode_core_stats_start; encode_core_stats_end; encode_span_utilization_stats].
Definition encoders_9 : list encoder :=
  [encode_connection_message_stats; encode_connection_message_error_stats].
Definition encoders_10 : list encoder :=
  [encode_status_stats; encode_rpc_receive_stats].
Definition encoders_11 : list encoder :=
  [encode_rpc_write_stalls_stats; encode_rpc_write_utilization_stats].
Definition encoders_12 : list encoder :=
  [encode_code_timing_stats; encode_agg_core_stats_start; encode_agg_core_stats_end].
Definition encoders_13 : list encoder :=
  [encode_agg_root_truncation_stats; encode_agg_prometheus_bytes_stats].
Definition encoders_14 : list encoder :=
  [encode_agg_otlp_grpc_stats; encode_ingest_core_stats_start; encode_ingest_core_stats_end].
Definition encoders_15 : list encoder :=
  [encode_client_handle_pool_stats].
Definition encoders_16 : list encoder :=
  [encode_agent_connection_message_stats].
Definition encoders_17 : list encoder :=
  [encode_agent_connection_message_error_stats].
Definition encoders_18 : list encoder :=
  [encode_connection_stats].
Definition encoders_19 : list encoder :=
  [encode_collector_log_stats].
Definition encoders_20 : list encoder :=
  [encode_entry_point_stats].
Definition encoders_21 : list encoder :=
  [encode_collector_health_stats].
Definition encoders_22 : list encoder :=
  [encode_bpf_log_stats].
Definition encoders_23 : list encoder :=
  [encode_server_stats; encode_pulse].

(** parsed_message.rs. *)

Definition decoders_1 : list decoder :=
  [decode_logger_start; decode_logger_end; decode_agent_lost_events].
Definition decoders_2 : list decoder :=
  [decode_pod_not_found; decode_cgroup_not_found].
Definition decoders_3 : list decoder :=
  [decode_rewriting_private_to_public_ip_mapping;
   decode_private_ip_in_private_to_public_ip_mapping].
Definition decoders_4 : list decoder :=
  [decode_failed_to_insert_dns_record; decode_tcp_socket_failed_getting_process_reference;
   decode_udp_socket_failed_getting_process_reference; decode_socket_address_already_assigned].
Definition decoders_5 : list decoder :=
  [decode_ingest_decompression_error; decode_ingest_processing_error].
Definition decoders_6 : list decoder :=
  [decode_ingest_connection_error; decode_agent_auth_success].
Definition decoders_7 : list decoder :=
  [decode_agent_auth_failure; decode_agent_attempting_auth_using_api_key].
Definition decoders_8 : list decoder :=
  [decode_k8s_container_pod_not_found; decode_agent_connect_success; decode_core_stats_start].
Definition decoders_9 : list decoder :=
  [decode_core_stats_end; decode_span_utilization_stats].
Definition decoders_10 : list decoder :=
  [decode_connection_message_stats].
Definition decoders_11 : list decoder :=
  [decode_connection_message_error_stats].
Definition decoders_12 : list decoder :=
  [decode_status_stats].
Definition decoders_13 : list decoder :=
  [decode_rpc_receive_stats; decode_rpc_write_stalls_stats].
Definition decoders_14 : list decoder :=
  [decode_rpc_write_utilization_stats].
Definition decoders_15 : list decoder :=
  [decode_code_timing_stats; decode_agg_core_stats_start].
Definition decoders_16 : list decoder :=
  [decode_agg_core_stats_end; decode_agg_root_truncation_stats].
Definition decoders_17 : list decoder :=
  [decode_agg_prometheus_bytes_stats].
Definition decoders_18 : list decoder :=
  [decode_agg_otlp_grpc_stats; decode_ingest_core_stats_start].
Definition decoders_19 : list decoder :=
  [decode_ingest_core_stats_end].
Definition decoders_20 : list decoder :=
  [decode_client_handle_pool_stats].
Definition decoders_21 : list decoder :=
  [decode_agent_connection_message_stats].
Definition decoders_22 : list decoder :=
  [decode_agent_connection_message_error_stats].
Definition decoders_23 : list decoder :=
  [decode_connection_stats].
Definition decoders_24 : list decoder :=
  [decode_collector_log_stats].
Definition decoders_25 : list decoder :=
  [decode_entry_point_stats].
Definition decoders_26 : list decoder :=
  [decode_collector_health_stats].
Definition decoders_27 : list decoder :=
  [decode_bpf_log_stats].
Definition decoders_28 : list decoder :=
  [decode_server_stats; decode_pulse].

Definition messages : list message :=
  link
    (encoders_1 ++ encoders_2 ++ encoders_3 ++ encoders_4 ++ encoders_5 ++ encoders_6 ++
       encoders_7 ++ encoders_8 ++ encoders_9 ++ encoders_10 ++ encoders_11 ++ encoders_12 ++
       encoders_13 ++ encoders_14 ++ encoders_15 ++ encoders_16 ++ encoders_17 ++
       encoders_18 ++ encoders_19 ++ encoders_20 ++ encoders_21 ++ encoders_22 ++ encoders_23)
    (decoders_1 ++ decoders_2 ++ decoders_3 ++ decoders_4 ++ decoders_5 ++ decoders_6 ++
       decoders_7 ++ decoders_8 ++ decoders_9 ++ decoders_10 ++ decoders_11 ++ decoders_12 ++
       decoders_13 ++ decoders_14 ++ decoders_15 ++ decoders_16 ++ decoders_17 ++
       decoders_18 ++ decoders_19 ++ decoders_20 ++ decoders_21 ++ decoders_22 ++
       decoders_23 ++ decoders_24 ++ decoders_25 ++ decoders_26 ++ decoders_27 ++ decoders_28)
    (wires_1 ++ wires_2 ++ wires_3 ++ wires_4 ++ wires_5 ++ wires_6 ++ wires_7 ++ wires_8 ++
       wires_9 ++ wires_10 ++ wires_11 ++ wires_12 ++ wires_13 ++ wires_14 ++ wires_15 ++
       wires_16 ++ wires_17 ++ wires_18 ++ wires_19 ++ wires_20 ++ wires_21 ++ wires_22 ++
       wires_23).
