(* ===== verification/MatchingCodec.v ===== *)
(** * The matching messages (crates/render/ebpf_net/matching)

    For each message its wire struct, metadata and layout (wire_messages.rs),
    its encoder (encoder.rs) and its decoder (parsed_message.rs), by the
    literals of the generated code; see [Codec].  The lists at the end are the
    contents of the three files, in their order. *)

From S2P Require Import Prelude RenderParser Wire Codec.

Local Open Scope string_scope.
Local Open Scope Z_scope.

(** *** flow_start *)

Definition wire_flow_start : wire :=
  mkWire
    [("_rpc_id", U 2); ("port1", U 2); ("port2", U 2); ("_ref", U 8); ("addr1", U 16);
     ("addr2", U 16)]
    (new_fixed 421 48 true) 48
    [("_rpc_id", 0); ("port1", 2); ("port2", 4); ("_ref", 8); ("addr1", 16); ("addr2", 32)]%nat.
Definition encode_flow_start : encoder :=
  FixedEncoder 421 48
    [("_ref", PU 8); ("addr1", PU 16); ("port1", PU 2); ("addr2", PU 16); ("port2", PU 2)]
    (w_struct wire_flow_start).
Definition decode_flow_start : decoder :=
  FixedDecoder 421 48
    [("_ref", GUint 8 8); ("addr1", GUint 16 16); ("port1", GUint 2 2); ("addr2", GUint 32 16);
     ("port2", GUint 4 2)].

(** *** flow_end *)

Definition wire_flow_end : wire :=
  mkWire
    [("_rpc_id", U 2); ("_ref", U 8)]
    (new_fixed 422 16 true) 16
    [("_rpc_id", 0); ("_ref", 8)]%nat.
Definition encode_flow_end : encoder :=
  FixedEncoder 422 16
    [("_ref", PU 8)]
    (w_struct wire_flow_end).
Definition decode_flow_end : decoder :=
  FixedDecoder 422 16
    [("_ref", GUint 8 8)].

(** *** agent_info *)

Definition wire_agent_info : wire :=
  mkWire
    [("_rpc_id", U 2); ("_len", U 2); ("id", U 2); ("az", U 2); ("_ref", U 8); ("env", U 2);
     ("role", U 2); ("side", U 1)]
    (new_dynamic 423 true) 21
    [("_rpc_id", 0); ("_len", 2); ("id", 4); ("az", 6); ("_ref", 8); ("env", 16); ("role", 18);
     ("side", 20)]%nat.
Definition encode_agent_info : encoder :=
  DynamicEncoder 423 21
    [("_ref", PU 8); ("side", PU 1); ("id", PBlob); ("az", PBlob); ("env", PBlob);
     ("role", PBlob); ("ns", PBlob)]
    (w_struct wire_agent_info)
    ["id"; "az"; "env"; "role"; "ns"].
Definition decode_agent_info : decoder :=
  DynamicDecoder 423
    [("_ref", GUint 8 8); ("side", GByte 20)] 21
    [("id", 4); ("az", 6); ("env", 16); ("role", 18)]%nat
    "ns".

(** *** task_info *)

Definition wire_task_info : wire :=
  mkWire
    [("_rpc_id", U 2); ("_len", U 2); ("comm", U 2); ("side", U 1); ("_ref", U 8)]
    (new_dynamic 424 true) 16
    [("_rpc_id", 0); ("_len", 2); ("comm", 4); ("side", 6); ("_ref", 8)]%nat.
Definition encode_task_info : encoder :=
  DynamicEncoder 424 16
    [("_ref", PU 8); ("side", PU 1); ("comm", PBlob); ("cgroup_name", PBlob)]
    (w_struct wire_task_info)
    ["comm"; "cgroup_name"].
Definition decode_task_info : decoder :=
  DynamicDecoder 424
    [("_ref", GUint 8 8); ("side", GByte 6)] 16
    [("comm", 4)]%nat
    "cgroup_name".

(** *** socket_info *)

Definition wire_socket_info : wire :=
  mkWire
    [("_rpc_id", U 2); ("_len", U 2); ("local_port", U 2); ("remote_port", U 2); ("_ref", U 8);
     ("side", U 1); ("local_addr", Arr 16); ("remote_addr", Arr 16); ("is_connector", U 1)]
    (new_dynamic 425 true) 50
    [("_rpc_id", 0); ("_len", 2); ("local_port", 4); ("remote_port", 6); ("_ref", 8);
     ("side", 16); ("local_addr", 17); ("remote_addr", 33); ("is_connector", 49)]%nat.
Definition encode_socket_info : encoder :=
  DynamicEncoder 425 50
    [("_ref", PU 8); ("side", PU 1); ("local_addr", PPtr); ("local_port", PU 2);
     ("remote_addr", PPtr); ("remote_port", PU 2); ("is_connector", PU 1);
     ("remote_dns_name", PBlob)]
    (w_struct wire_socket_info)
    ["remote_dns_name"].
Definition decode_socket_info : decoder :=
  DynamicDecoder 425
    [("_ref", GUint 8 8); ("side", GByte 16); ("local_addr", GArr 17 16);
     ("local_port", GUint 4 2); ("remote_addr", GArr 33 16); ("remote_port", GUint 6 2);
     ("is_connector", GByte 49)] 50
    []
    "remote_dns_name".

(** *** k8s_info *)

Definition wire_k8s_info : wire :=
  mkWire
    [("_rpc_id", U 2); ("side", U 1); ("pod_uid_suffix", Arr 64); ("pod_uid_hash", U 8);
     ("_ref", U 8)]
    (new_fixed 426 88 true) 88
    [("_rpc_id", 0); ("side", 2); ("pod_uid_suffix", 3); ("pod_uid_hash", 72); ("_ref", 80)]%nat.
Definition encode_k8s_info : encoder :=
  FixedEncoder 426 88
    [("_ref", PU 8); ("side", PU 1); ("pod_uid_suffix", PPtr); ("pod_uid_hash", PU 8)]
    (w_struct wire_k8s_info).
Definition decode_k8s_info : decoder :=
  FixedDecoder 426 88
    [("_ref", GUint 80 8); ("side", GByte 2); ("pod_uid_suffix", GArr 3 64);
     ("pod_uid_hash", GUint 72 8)].

(** *** tcp_update *)

Definition wire_tcp_update : wire :=
  mkWire
    [("_rpc_id", U 2); ("side", U 1); ("is_rx", U 1); ("active_sockets", U 4);
     ("sum_bytes", U 8); ("sum_srtt", U 8); ("sum_delivered", U 8); ("_ref", U 8);
     ("sum_retrans", U 4); ("active_rtts", U 4); ("syn_timeouts", U 4); ("new_sockets", U 4);
     ("tcp_resets", U 4)]
    (new_fixed 427 60 true) 60
    [("_rpc_id", 0); ("side", 2); ("is_rx", 3); ("active_sockets", 4); ("sum_bytes", 8);
     ("sum_srtt", 16); ("sum_delivered", 24); ("_ref", 32); ("sum_retrans", 40);
     ("active_rtts", 44); ("syn_timeouts", 48); ("new_sockets", 52); ("tcp_resets", 56)]%nat.
Definition encode_tcp_update : encoder :=
  FixedEncoder 427 60
    [("_ref", PU 8); ("side", PU 1); ("is_rx", PU 1); ("active_sockets", PU 4);
     ("sum_retrans", PU 4); ("sum_bytes", PU 8); ("sum_srtt", PU 8); ("sum_delivered", PU 8);
     ("active_rtts", PU 4); ("syn_timeouts", PU 4); ("new_sockets", PU 4); ("tcp_resets", PU 4)]
    (w_struct wire_tcp_update).
Definition decode_tcp_update : decoder :=
  FixedDecoder 427 60
    [("_ref", GUint 32 8); ("side", GByte 2); ("is_rx", GByte 3);
     ("active_sockets", GUint 4 4); ("sum_retrans", GUint 40 4); ("sum_bytes", GUint 8 8);
     ("sum_srtt", GUint 16 8); ("sum_delivered", GUint 24 8); ("active_rtts", GUint 44 4);
     ("syn_timeouts", GUint 48 4); ("new_sockets", GUint 52 4); ("tcp_resets", GUint 56 4)].

(** *** udp_update *)

Definition wire_udp_update : wire :=
  mkWire
    [("_rpc_id", U 2); ("side", U 1); ("is_rx", U 1); ("active_sockets", U 4); ("bytes", U 8);
     ("_ref", U 8); ("addr_changes", U 4); ("packets", U 4); ("drops", U 4)]
    (new_fixed 428 36 true) 36
    [("_rpc_id", 0); ("side", 2); ("is_rx", 3); ("active_sockets", 4); ("bytes", 8);
     ("_ref", 16); ("addr_changes", 24); ("packets", 28); ("drops", 32)]%nat.
Definition encode_udp_update : encoder :=
  FixedEncoder 428 36
    [("_ref", PU 8); ("side", PU 1); ("is_rx", PU 1); ("active_sockets", PU 4);
     ("addr_changes", PU 4); ("packets", PU 4); ("bytes", PU 8); ("drops", PU 4)]
    (w_struct wire_udp_update).
Definition decode_udp_update : decoder :=
  FixedDecoder 428 36
    [("_ref", GUint 16 8); ("side", GByte 2); ("is_rx", GByte 3);
     ("active_sockets", GUint 4 4); ("addr_changes", GUint 24 4); ("packets", GUint 28 4);
     ("bytes", GUint 8 8); ("drops", GUint 32 4)].

(** *** http_update *)

Definition wire_http_update : wire :=
  mkWire
    [("_rpc_id", U 2); ("side", U 1); ("client_server", U 1); ("active_sockets", U 4);
     ("sum_total_time_ns", U 8); ("sum_processing_time_ns", U 8); ("_ref", U 8);
     ("sum_code_200", U 4); ("sum_code_400", U 4); ("sum_code_500", U 4);
     ("sum_code_other", U 4)]
    (new_fixed 429 48 true) 48
    [("_rpc_id", 0); ("side", 2); ("client_server", 3); ("active_sockets", 4);
     ("sum_total_time_ns", 8); ("sum_processing_time_ns", 16); ("_ref", 24);
     ("sum_code_200", 32); ("sum_code_400", 36); ("sum_code_500", 40); ("sum_code_other", 44)]%nat.
Definition encode_http_update : encoder :=
  FixedEncoder 429 48
    [("_ref", PU 8); ("side", PU 1); ("client_server", PU 1); ("active_sockets", PU 4);
     ("sum_code_200", PU 4); ("sum_code_400", PU 4); ("sum_code_500", PU 4);
     ("sum_code_other", PU 4); ("sum_total_time_ns", PU 8); ("sum_processing_time_ns", PU 8)]
    (w_struct wire_http_update).
Definition decode_http_update : decoder :=
  FixedDecoder 429 48
    [("_ref", GUint 24 8); ("side", GByte 2); ("client_server", GByte 3);
     ("active_sockets", GUint 4 4); ("sum_code_200", GUint 32 4); ("sum_code_400", GUint 36 4);
     ("sum_code_500", GUint 40 4); ("sum_code_other", GUint 44 4);
     ("sum_total_time_ns", GUint 8 8); ("sum_processing_time_ns", GUint 16 8)].

(** *** dns_update *)

Definition wire_dns_update : wire :=
  mkWire
    [("_rpc_id", U 2); ("side", U 1); ("client_server", U 1); ("active_sockets", U 4);
     ("sum_total_time_ns", U 8); ("sum_processing_time_ns", U 8); ("_ref", U 8);
     ("requests_a", U 4); ("requests_aaaa", U 4); ("responses", U 4); ("timeouts", U 4)]
    (new_fixed 430 48 true) 48
    [("_rpc_id", 0); ("side", 2); ("client_server", 3); ("active_sockets", 4);
     ("sum_total_time_ns", 8); ("sum_processing_time_ns", 16); ("_ref", 24);
     ("requests_a", 32); ("requests_aaaa", 36); ("responses", 40); ("timeouts", 44)]%nat.
Definition encode_dns_update : encoder :=
  FixedEncoder 430 48
    [("_ref", PU 8); ("side", PU 1); ("client_server", PU 1); ("active_sockets", PU 4);
     ("requests_a", PU 4); ("requests_aaaa", PU 4); ("responses", PU 4); ("timeouts", PU 4);
     ("sum_total_time_ns", PU 8); ("sum_processing_time_ns", PU 8)]
    (w_struct wire_dns_update).
Definition decode_dns_update : decoder :=
  FixedDecoder 430 48
    [("_ref", GUint 24 8); ("side", GByte 2); ("client_server", GByte 3);
     ("active_sockets", GUint 4 4); ("requests_a", GUint 32 4); ("requests_aaaa", GUint 36 4);
     ("responses", GUint 40 4); ("timeouts", GUint 44 4); ("sum_total_time_ns", GUint 8 8);
     ("sum_processing_time_ns", GUint 16 8)].

(** *** container_info *)

Definition wire_container_info : wire :=
  mkWire
    [("_rpc_id", U 2); ("_len", U 2); ("name", U 2); ("pod", U 2); ("_ref", U 8);
     ("role", U 2); ("version", U 2); ("side", U 1); ("node_type", U 1)]
    (new_dynamic 434 true) 22
    [("_rpc_id", 0); ("_len", 2); ("name", 4); ("pod", 6); ("_ref", 8); ("role", 16);
     ("version", 18); ("side", 20); ("node_type", 21)]%nat.
Definition encode_container_info : encoder :=
  DynamicEncoder 434 22
    [("_ref", PU 8); ("side", PU 1); ("name", PBlob); ("pod", PBlob); ("role", PBlob);
     ("version", PBlob); ("ns", PBlob); ("node_type", PU 1)]
    (w_struct wire_container_info)
    ["name"; "pod"; "role"; "version"; "ns"].
Definition decode_container_info : decoder :=
  DynamicDecoder 434
    [("_ref", GUint 8 8); ("side", GByte 20); ("node_type", GByte 21)] 22
    [("name", 4); ("pod", 6); ("role", 16); ("version", 18)]%nat
    "ns".

(** *** service_info *)

Definition wire_service_info : wire :=
  mkWire
    [("_rpc_id", U 2); ("_len", U 2); ("side", U 1); ("_ref", U 8)]
    (new_dynamic 435 true) 16
    [("_rpc_id", 0); ("_len", 2); ("side", 4); ("_ref", 8)]%nat.
Definition encode_service_info : encoder :=
  DynamicEncoder 435 16
    [("_ref", PU 8); ("side", PU 1); ("name", PBlob)]
    (w_struct wire_service_info)
    ["name"].
Definition decode_service_info : decoder :=
  DynamicDecoder 435
    [("_ref", GUint 8 8); ("side", GByte 4)] 16
    []
    "name".

(** *** aws_enrichment_start *)

Definition wire_aws_enrichment_start : wire :=
  mkWire
    [("_rpc_id", U 2); ("_ref", U 8); ("ip", U 16)]
    (new_fixed 431 32 true) 32
    [("_rpc_id", 0); ("_ref", 8); ("ip", 16)]%nat.
Definition encode_aws_enrichment_start : encoder :=
  FixedEncoder 431 32
    [("_ref", PU 8); ("ip", PU 16)]
    (w_struct wire_aws_enrichment_start).
Definition decode_aws_enrichment_start : decoder :=
  FixedDecoder 431 32
    [("_ref", GUint 8 8); ("ip", GUint 16 16)].

(** *** aws_enrichment_end *)

Definition wire_aws_enrichment_end : wire :=
  mkWire
    [("_rpc_id", U 2); ("_ref", U 8)]
    (new_fixed 432 16 true) 16
    [("_rpc_id", 0); ("_ref", 8)]%nat.
Definition encode_aws_enrichment_end : encoder :=
  FixedEncoder 432 16
    [("_ref", PU 8)]
    (w_struct wire_aws_enrichment_end).
Definition decode_aws_enrichment_end : decoder :=
  FixedDecoder 432 16
    [("_ref", GUint 8 8)].

(** *** aws_enrichment *)

Definition wire_aws_enrichment : wire :=
  mkWire
    [("_rpc_id", U 2); ("_len", U 2); ("role", U 2); ("az", U 2); ("_ref", U 8)]
    (new_dynamic 433 true) 16
    [("_rpc_id", 0); ("_len", 2); ("role", 4); ("az", 6); ("_ref", 8)]%nat.
Definition encode_aws_enrichment : encoder :=
  DynamicEncoder 433 16
    [("_ref", PU 8); ("role", PBlob); ("az", PBlob); ("id", PBlob)]
    (w_struct wire_aws_enrichment)
    ["role"; "az"; "id"].
Definition decode_aws_enrichment : decoder :=
  DynamicDecoder 433
    [("_ref", GUint 8 8)] 16
    [("role", 4); ("az", 6)]%nat
    "id".

(** *** k8s_pod_start *)

Definition wire_k8s_pod_start : wire :=
  mkWire
    [("_rpc_id", U 2); ("uid_suffix", Arr 64); ("uid_hash", U 8); ("_ref", U 8)]
    (new_fixed 436 88 true) 88
    [("_rpc_id", 0); ("uid_suffix", 2); ("uid_hash", 72); ("_ref", 80)]%nat.
Definition encode_k8s_pod_start : encoder :=
  FixedEncoder 436 88
    [("_ref", PU 8); ("uid_suffix", PPtr); ("uid_hash", PU 8)]
    (w_struct wire_k8s_pod_start).
Definition decode_k8s_pod_start : decoder :=
  FixedDecoder 436 88
    [("_ref", GUint 80 8); ("uid_suffix", GArr 2 64); ("uid_hash", GUint 72 8)].

(** *** k8s_pod_end *)

Definition wire_k8s_pod_end : wire :=
  mkWire
    [("_rpc_id", U 2); ("_ref", U 8)]
    (new_fixed 437 16 true) 16
    [("_rpc_id", 0); ("_ref", 8)]%nat.
Definition encode_k8s_pod_end : encoder :=
  FixedEncoder 437 16
    [("_ref", PU 8)]
    (w_struct wire_k8s_pod_end).
Definition decode_k8s_pod_end : decoder :=
  FixedDecoder 437 16
    [("_ref", GUint 8 8)].

(** *** set_pod_detail *)

Definition wire_set_pod_detail : wire :=
  mkWire
    [("_rpc_id", U 2); ("_len", U 2); ("owner_name", U 2); ("pod_name", U 2); ("_ref", U 8);
     ("ns", U 2); ("version", U 2)]
    (new_dynamic 438 true) 20
    [("_rpc_id", 0); ("_len", 2); ("owner_name", 4); ("pod_name", 6); ("_ref", 8); ("ns", 16);
     ("version", 18)]%nat.
Definition encode_set_pod_detail : encoder :=
  DynamicEncoder 438 20
    [("_ref", PU 8); ("owner_name", PBlob); ("pod_name", PBlob); ("ns", PBlob);
     ("version", PBlob); ("owner_uid", PBlob)]
    (w_struct wire_set_pod_detail)
    ["owner_name"; "pod_name"; "ns"; "version"; "owner_uid"].
Definition decode_set_pod_detail : decoder :=
  DynamicDecoder 438
    [("_ref", GUint 8 8)] 20
    [("owner_name", 4); ("pod_name", 6); ("ns", 16); ("version", 18)]%nat
    "owner_uid".

(** *** k8s_container_start *)

Definition wire_k8s_container_start : wire :=
  mkWire
    [("_rpc_id", U 2); ("uid_suffix", Arr 64); ("uid_hash", U 8); ("_ref", U 8)]
    (new_fixed 439 88 true) 88
    [("_rpc_id", 0); ("uid_suffix", 2); ("uid_hash", 72); ("_ref", 80)]%nat.
Definition encode_k8s_container_start : encoder :=
  FixedEncoder 439 88
    [("_ref", PU 8); ("uid_suffix", PPtr); ("uid_hash", PU 8)]
    (w_struct wire_k8s_container_start).
Definition decode_k8s_container_start : decoder :=
  FixedDecoder 439 88
    [("_ref", GUint 80 8); ("uid_suffix", GArr 2 64); ("uid_hash", GUint 72 8)].

(** *** k8s_container_end *)

Definition wire_k8s_container_end : wire :=
  mkWire
    [("_rpc_id", U 2); ("_ref", U 8)]
    (new_fixed 440 16 true) 16
    [("_rpc_id", 0); ("_ref", 8)]%nat.
Definition encode_k8s_container_end : encoder :=
  FixedEncoder 440 16
    [("_ref", PU 8)]
    (w_struct wire_k8s_container_end).
Definition decode_k8s_container_end : decoder :=
  FixedDecoder 440 16
    [("_ref", GUint 8 8)].

(** *** set_container_pod *)

Definition wire_set_container_pod : wire :=
  mkWire
    [("_rpc_id", U 2); ("_len", U 2); ("name", U 2); ("pod_uid_suffix", Arr 64);
     ("pod_uid_hash", U 8); ("_ref", U 8)]
    (new_dynamic 471 true) 88
    [("_rpc_id", 0); ("_len", 2); ("name", 4); ("pod_uid_suffix", 6); ("pod_uid_hash", 72);
     ("_ref", 80)]%nat.
Definition encode_set_container_pod : encoder :=
  DynamicEncoder 471 88
    [("_ref", PU 8); ("pod_uid_suffix", PPtr); ("pod_uid_hash", PU 8); ("name", PBlob);
     ("image", PBlob)]
    (w_struct wire_set_container_pod)
    ["name"; "image"].
Definition decode_set_container_pod : decoder :=
  DynamicDecoder 471
    [("_ref", GUint 80 8); ("pod_uid_suffix", GArr 6 64); ("pod_uid_hash", GUint 72 8)] 88
    [("name", 4)]%nat
    "image".

(** *** pulse *)

Definition wire_pulse : wire :=
  mkWire
    [("_rpc_id", U 2)]
    (new_fixed 65535 2 true) 2
    [("_rpc_id", 0)]%nat.
Definition encode_pulse : encoder :=
  FixedEncoder 65535 2
    []
    (w_struct wire_pulse).
Definition decode_pulse : decoder :=
  FixedDecoder 65535 2
    [].

(** wire_messages.rs. *)

Definition wires_1 : list wire :=
  [wire_flow_start; wire_flow_end; wire_agent_info].
Definition wires_2 : list wire :=
  [wire_task_info; wire_socket_info; wire_k8s_info].
Definition wires_3 : list wire :=
  [wire_tcp_update; wire_udp_update].
Definition wires_4 : list wire :=
  [wire_http_update; wire_dns_update].
Definition wires_5 : list wire :=
  [wire_container_info; wire_service_info; wire_aws_enrichment_start].
Definition wires_6 : list wire :=
  [wire_aws_enrichment_end; wire_aws_enrichment; wire_k8s_pod_start; wire_k8s_pod_end].
Definition wires_7 : list wire :=
  [wire_set_pod_detail; wire_k8s_container_start; wire_k8s_container_end].
Definition wires_8 : list wire :=
  [wire_set_container_pod; wire_pulse].

(** encoder.rs. *)

Definition encoders_1 : list encoder :=
  [encode_flow_start; encode_flow_end; encode_agent_info].
Definition encoders_2 : list encoder :=
  [encode_task_info; encode_socket_info].
Definition encoders_3 : list encoder :=
  [encode_k8s_info; encode_tcp_update; encode_udp_update].
Definition encoders_4 : list encoder :=
  [encode_http_update; encode_dns_update].
Definition encoders_5 : list encoder :=
  [encode_container_info; encode_service_info].
Definition encoders_6 : list encoder :=
  [encode_aws_enrichment_start; encode_aws_enrichment_end; encode_aws_enrichment].
Definition encoders_7 : list encoder :=
  [encode_k8s_pod_start; encode_k8s_pod_end; encode_set_pod_detail].
Definition encoders_8 : list encoder :=
  [encode_k8s_container_start; encode_k8s_container_end; encode_set_container_pod].
Definition encoders_9 : list encoder :=
  [encode_pulse].

(** parsed_message.rs. *)

Definition decoders_1 : list decoder :=
  [decode_flow_start; decode_flow_end].
Definition decoders_2 : list decoder :=
  [decode_agent_info].
Definition decoders_3 : list decoder :=
  [decode_task_info].
Definition decoders_4 : list decoder :=
  [decode_socket_info; decode_k8s_info].
Definition decoders_5 : list decoder :=
  [decode_tcp_update; decode_udp_update].
Definition decoders_6 : list decoder :=
  [decode_http_update; decode_dns_update].
Definition decoders_7 : list decoder :=
  [decode_container_info].
Definition decoders_8 : list decoder :=
  [decode_service_info; decode_aws_enrichment_start; decode_aws_enrichment_end].
Definition decoders_9 : list decoder :=
  [decode_aws_enrichment; decode_k8s_pod_start].
Definition decoders_10 : list decoder :=
  [decode_k8s_pod_end; decode_set_pod_detail].
Definition decoders_11 : list decoder :=
  [decode_k8s_container_start; decode_k8s_container_end].
Definition decoders_12 : list decoder :=
  [decode_set_container_pod; decode_pulse].

Definition messages : list message :=
  link
    (encoders_1 ++ encoders_2 ++ encoders_3 ++ encoders_4 ++ encoders_5 ++ encoders_6 ++
       encoders_7 ++ encoders_8 ++ encoders_9)
    (decoders_1 ++ decoders_2 ++ decoders_3 ++ decoders_4 ++ decoders_5 ++ decoders_6 ++
       decoders_7 ++ decoders_8 ++ decoders_9 ++ decoders_10 ++ decoders_11 ++ decoders_12)
    (wires_1 ++ wires_2 ++ wires_3 ++ wires_4 ++ wires_5 ++ wires_6 ++ wires_7 ++ wires_8).
