(* ===== verification/AgentInternalCodec.v ===== *)
(** * The agent_internal messages (crates/render/ebpf_net/agent_internal)

    For each message its wire struct, metadata and layout (wire_messages.rs),
    its encoder (encoder.rs) and its decoder (parsed_message.rs), by the
    literals of the generated code; see [Codec].  The lists at the end are the
    contents of the three files, in their order. *)

From S2P Require Import Prelude RenderParser Wire Codec.

Local Open Scope string_scope.
Local Open Scope Z_scope.

(** *** dns_packet *)

Definition wire_dns_packet : wire :=
  mkWire
    [("_rpc_id", U 2); ("_len", U 2); ("total_len", U 2); ("is_rx", U 1); ("sk", U 8)]
    (new_dynamic 331 true) 16
    [("_rpc_id", 0); ("_len", 2); ("total_len", 4); ("is_rx", 6); ("sk", 8)]%nat.
Definition encode_dns_packet : encoder :=
  DynamicEncoder 331 16
    [("sk", PU 8); ("pkt", PBlob); ("total_len", PU 2); ("is_rx", PU 1)]
    (w_struct wire_dns_packet)
    ["pkt"].
Definition decode_dns_packet : decoder :=
  DynamicDecoder 331
    [("sk", GUint 8 8); ("total_len", GUint 4 2); ("is_rx", GByte 6)] 16
    []
    "pkt".

(** *** reset_tcp_counters *)

Definition wire_reset_tcp_counters : wire :=
  mkWire
    [("_rpc_id", U 2); ("packets_delivered", U 4); ("sk", U 8); ("bytes_acked", U 8);
     ("bytes_received", U 8); ("packets_retrans", U 4); ("pid", U 4)]
    (new_fixed 332 40 true) 40
    [("_rpc_id", 0); ("packets_delivered", 4); ("sk", 8); ("bytes_acked", 16);
     ("bytes_received", 24); ("packets_retrans", 32); ("pid", 36)]%nat.
Definition encode_reset_tcp_counters : encoder :=
  FixedEncoder 332 40
    [("sk", PU 8); ("bytes_acked", PU 8); ("packets_delivered", PU 4);
     ("packets_retrans", PU 4); ("bytes_received", PU 8); ("pid", PU 4)]
    (w_struct wire_reset_tcp_counters).
Definition decode_reset_tcp_counters : decoder :=
  FixedDecoder 332 40
    [("sk", GUint 8 8); ("bytes_acked", GUint 16 8); ("packets_delivered", GUint 4 4);
     ("packets_retrans", GUint 32 4); ("bytes_received", GUint 24 8); ("pid", GUint 36 4)].

(** *** new_sock_created *)

Definition wire_new_sock_created : wire :=
  mkWire
    [("_rpc_id", U 2); ("pid", U 4); ("sk", U 8)]
    (new_fixed 333 16 true) 16
    [("_rpc_id", 0); ("pid", 4); ("sk", 8)]%nat.
Definition encode_new_sock_created : encoder :=
  FixedEncoder 333 16
    [("pid", PU 4); ("sk", PU 8)]
    (w_struct wire_new_sock_created).
Definition decode_new_sock_created : decoder :=
  FixedDecoder 333 16
    [("pid", GUint 4 4); ("sk", GUint 8 8)].

(** *** udp_new_socket *)

Definition wire_udp_new_socket : wire :=
  mkWire
    [("_rpc_id", U 2); ("lport", U 2); ("pid", U 4); ("sk", U 8); ("laddr", Arr 16)]
    (new_fixed 334 32 true) 32
    [("_rpc_id", 0); ("lport", 2); ("pid", 4); ("sk", 8); ("laddr", 16)]%nat.
Definition encode_udp_new_socket : encoder :=
  FixedEncoder 334 32
    [("pid", PU 4); ("sk", PU 8); ("laddr", PPtr); ("lport", PU 2)]
    (w_struct wire_udp_new_socket).
Definition decode_udp_new_socket : decoder :=
  FixedDecoder 334 32
    [("pid", GUint 4 4); ("sk", GUint 8 8); ("laddr", GArr 16 16); ("lport", GUint 2 2)].

(** *** udp_destroy_socket *)

Definition wire_udp_destroy_socket : wire :=
  mkWire
    [("_rpc_id", U 2); ("sk", U 8)]
    (new_fixed 335 16 true) 16
    [("_rpc_id", 0); ("sk", 8)]%nat.
Definition encode_udp_destroy_socket : encoder :=
  FixedEncoder 335 16
    [("sk", PU 8)]
    (w_struct wire_udp_destroy_socket).
Definition decode_udp_destroy_socket : decoder :=
  FixedDecoder 335 16
    [("sk", GUint 8 8)].

(** *** udp_stats *)

Definition wire_udp_stats : wire :=
  mkWire
    [("_rpc_id", U 2); ("rport", U 2); ("packets", U 4); ("sk", U 8); ("bytes", U 4);
     ("drops", U 4); ("lport", U 2); ("raddr", Arr 16); ("changed_af", U 1); ("is_rx", U 1);
     ("laddr", Arr 16)]
    (new_fixed 336 60 true) 60
    [("_rpc_id", 0); ("rport", 2); ("packets", 4); ("sk", 8); ("bytes", 16); ("drops", 20);
     ("lport", 24); ("raddr", 26); ("changed_af", 42); ("is_rx", 43); ("laddr", 44)]%nat.
Definition encode_udp_stats : encoder :=
  FixedEncoder 336 60
    [("sk", PU 8); ("raddr", PPtr); ("packets", PU 4); ("bytes", PU 4); ("changed_af", PU 1);
     ("rport", PU 2); ("is_rx", PU 1); ("laddr", PPtr); ("lport", PU 2); ("drops", PU 4)]
    (w_struct wire_udp_stats).
Definition decode_udp_stats : decoder :=
  FixedDecoder 336 60
    [("sk", GUint 8 8); ("raddr", GArr 26 16); ("packets", GUint 4 4); ("bytes", GUint 16 4);
     ("changed_af", GByte 42); ("rport", GUint 2 2); ("is_rx", GByte 43);
     ("laddr", GArr 44 16); ("lport", GUint 24 2); ("drops", GUint 20 4)].

(** *** pid_info *)

Definition wire_pid_info : wire :=
  mkWire
    [("_rpc_id", U 2); ("comm", Arr 16); ("pid", U 4); ("cgroup", U 8); ("parent_pid", I 4)]
    (new_fixed 337 36 true) 36
    [("_rpc_id", 0); ("comm", 2); ("pid", 20); ("cgroup", 24); ("parent_pid", 32)]%nat.
Definition encode_pid_info : encoder :=
  FixedEncoder 337 36
    [("pid", PU 4); ("comm", PPtr); ("cgroup", PU 8); ("parent_pid", PI 4)]
    (w_struct wire_pid_info).
Definition decode_pid_info : decoder :=
  FixedDecoder 337 36
    [("pid", GUint 20 4); ("comm", GArr 2 16); ("cgroup", GUint 24 8); ("parent_pid", GInt 32 4)].

(** *** pid_close *)

Definition wire_pid_close : wire :=
  mkWire
    [("_rpc_id", U 2); ("comm", Arr 16); ("pid", U 4)]
    (new_fixed 338 24 true) 24
    [("_rpc_id", 0); ("comm", 2); ("pid", 20)]%nat.
Definition encode_pid_close : encoder :=
  FixedEncoder 338 24
    [("pid", PU 4); ("comm", PPtr)]
    (w_struct wire_pid_close).
Definition decode_pid_close : decoder :=
  FixedDecoder 338 24
    [("pid", GUint 20 4); ("comm", GArr 2 16)].

(** *** pid_set_comm *)

Definition wire_pid_set_comm : wire :=
  mkWire
    [("_rpc_id", U 2); ("comm", Arr 16); ("pid", U 4)]
    (new_fixed 371 24 true) 24
    [("_rpc_id", 0); ("comm", 2); ("pid", 20)]%nat.
Definition encode_pid_set_comm : encoder :=
  FixedEncoder 371 24
    [("pid", PU 4); ("comm", PPtr)]
    (w_struct wire_pid_set_comm).
Definition decode_pid_set_comm : decoder :=
  FixedDecoder 371 24
    [("pid", GUint 20 4); ("comm", GArr 2 16)].

(** *** set_state_ipv4 *)

Definition wire_set_state_ipv4 : wire :=
  mkWire
    [("_rpc_id", U 2); ("dport", U 2); ("dest", U 4); ("sk", U 8); ("src", U 4);
     ("tx_rx", U 4); ("sport", U 2)]
    (new_fixed 339 26 true) 26
    [("_rpc_id", 0); ("dport", 2); ("dest", 4); ("sk", 8); ("src", 16); ("tx_rx", 20);
     ("sport", 24)]%nat.
Definition encode_set_state_ipv4 : encoder :=
  FixedEncoder 339 26
    [("dest", PU 4); ("src", PU 4); ("dport", PU 2); ("sport", PU 2); ("sk", PU 8);
     ("tx_rx", PU 4)]
    (w_struct wire_set_state_ipv4).
Definition decode_set_state_ipv4 : decoder :=
  FixedDecoder 339 26
    [("dest", GUint 4 4); ("src", GUint 16 4); ("dport", GUint 2 2); ("sport", GUint 24 2);
     ("sk", GUint 8 8); ("tx_rx", GUint 20 4)].

(** *** set_state_ipv6 *)

Definition wire_set_state_ipv6 : wire :=
  mkWire
    [("_rpc_id", U 2); ("dport", U 2); ("tx_rx", U 4); ("sk", U 8); ("sport", U 2);
     ("dest", Arr 16); ("src", Arr 16)]
    (new_fixed 340 50 true) 50
    [("_rpc_id", 0); ("dport", 2); ("tx_rx", 4); ("sk", 8); ("sport", 16); ("dest", 18);
     ("src", 34)]%nat.
Definition encode_set_state_ipv6 : encoder :=
  FixedEncoder 340 50
    [("dest", PPtr); ("src", PPtr); ("dport", PU 2); ("sport", PU 2); ("sk", PU 8);
     ("tx_rx", PU 4)]
    (w_struct wire_set_state_ipv6).
Definition decode_set_state_ipv6 : decoder :=
  FixedDecoder 340 50
    [("dest", GArr 18 16); ("src", GArr 34 16); ("dport", GUint 2 2); ("sport", GUint 16 2);
     ("sk", GUint 8 8); ("tx_rx", GUint 4 4)].

(** *** rtt_estimator *)

Definition wire_rtt_estimator : wire :=
  mkWire
    [("_rpc_id", U 2); ("ca_state", U 1); ("srtt", U 4); ("bytes_acked", U 8); ("sk", U 8);
     ("bytes_received", U 8); ("snd_cwnd", U 4); ("packets_in_flight", U 4);
     ("packets_delivered", U 4); ("packets_retrans", U 4); ("rcv_holes", U 4);
     ("rcv_delivered", U 4); ("rcv_rtt", U 4)]
    (new_fixed 361 60 true) 60
    [("_rpc_id", 0); ("ca_state", 2); ("srtt", 4); ("bytes_acked", 8); ("sk", 16);
     ("bytes_received", 24); ("snd_cwnd", 32); ("packets_in_flight", 36);
     ("packets_delivered", 40); ("packets_retrans", 44); ("rcv_holes", 48);
     ("rcv_delivered", 52); ("rcv_rtt", 56)]%nat.
Definition encode_rtt_estimator : encoder :=
  FixedEncoder 361 60
    [("srtt", PU 4); ("snd_cwnd", PU 4); ("bytes_acked", PU 8); ("ca_state", PU 1);
     ("sk", PU 8); ("packets_in_flight", PU 4); ("packets_delivered", PU 4);
     ("packets_retrans", PU 4); ("rcv_holes", PU 4); ("bytes_received", PU 8);
     ("rcv_delivered", PU 4); ("rcv_rtt", PU 4)]
    (w_struct wire_rtt_estimator).
Definition decode_rtt_estimator : decoder :=
  FixedDecoder 361 60
    [("srtt", GUint 4 4); ("snd_cwnd", GUint 32 4); ("bytes_acked", GUint 8 8);
     ("ca_state", GByte 2); ("sk", GUint 16 8); ("packets_in_flight", GUint 36 4);
     ("packets_delivered", GUint 40 4); ("packets_retrans", GUint 44 4);
     ("rcv_holes", GUint 48 4); ("bytes_received", GUint 24 8); ("rcv_delivered", GUint 52 4);
     ("rcv_rtt", GUint 56 4)].

(** *** close_sock_info *)

Definition wire_close_sock_info : wire :=
  mkWire
    [("_rpc_id", U 2); ("sk", U 8)]
    (new_fixed 362 16 true) 16
    [("_rpc_id", 0); ("sk", 8)]%nat.
Definition encode_close_sock_info : encoder :=
  FixedEncoder 362 16
    [("sk", PU 8)]
    (w_struct wire_close_sock_info).
Definition decode_close_sock_info : decoder :=
  FixedDecoder 362 16
    [("sk", GUint 8 8)].

(** *** kill_css *)

Definition wire_kill_css : wire :=
  mkWire
    [("_rpc_id", U 2); ("name", Arr 256); ("cgroup", U 8); ("cgroup_parent", U 8)]
    (new_fixed 363 280 true) 280
    [("_rpc_id", 0); ("name", 2); ("cgroup", 264); ("cgroup_parent", 272)]%nat.
Definition encode_kill_css : encoder :=
  FixedEncoder 363 280
    [("cgroup", PU 8); ("cgroup_parent", PU 8); ("name", PPtr)]
    (w_struct wire_kill_css).
Definition decode_kill_css : decoder :=
  FixedDecoder 363 280
    [("cgroup", GUint 264 8); ("cgroup_parent", GUint 272 8); ("name", GArr 2 256)].

(** *** css_populate_dir *)

Definition wire_css_populate_dir : wire :=
  mkWire
    [("_rpc_id", U 2); ("name", Arr 256); ("cgroup", U 8); ("cgroup_parent", U 8)]
    (new_fixed 364 280 true) 280
    [("_rpc_id", 0); ("name", 2); ("cgroup", 264); ("cgroup_parent", 272)]%nat.
Definition encode_css_populate_dir : encoder :=
  FixedEncoder 364 280
    [("cgroup", PU 8); ("cgroup_parent", PU 8); ("name", PPtr)]
    (w_struct wire_css_populate_dir).
Definition decode_css_populate_dir : decoder :=
  FixedDecoder 364 280
    [("cgroup", GUint 264 8); ("cgroup_parent", GUint 272 8); ("name", GArr 2 256)].

(** *** existing_cgroup_probe *)

Definition wire_existing_cgroup_probe : wire :=
  mkWire
    [("_rpc_id", U 2); ("name", Arr 256); ("cgroup", U 8); ("cgroup_parent", U 8)]
    (new_fixed 365 280 true) 280
    [("_rpc_id", 0); ("name", 2); ("cgroup", 264); ("cgroup_parent", 272)]%nat.
Definition encode_existing_cgroup_probe : encoder :=
  FixedEncoder 365 280
    [("cgroup", PU 8); ("cgroup_parent", PU 8); ("name", PPtr)]
    (w_struct wire_existing_cgroup_probe).
Definition decode_existing_cgroup_probe : decoder :=
  FixedDecoder 365 280
    [("cgroup", GUint 264 8); ("cgroup_parent", GUint 272 8); ("name", GArr 2 256)].

(** *** cgroup_attach_task *)

Definition wire_cgroup_attach_task : wire :=
  mkWire
    [("_rpc_id", U 2); ("comm", Arr 16); ("pid", U 4); ("cgroup", U 8)]
    (new_fixed 366 32 true) 32
    [("_rpc_id", 0); ("comm", 2); ("pid", 20); ("cgroup", 24)]%nat.
Definition encode_cgroup_attach_task : encoder :=
  FixedEncoder 366 32
    [("cgroup", PU 8); ("pid", PU 4); ("comm", PPtr)]
    (w_struct wire_cgroup_attach_task).
Definition decode_cgroup_attach_task : decoder :=
  FixedDecoder 366 32
    [("cgroup", GUint 24 8); ("pid", GUint 20 4); ("comm", GArr 2 16)].

(** *** nf_conntrack_alter_reply *)

Definition wire_nf_conntrack_alter_reply : wire :=
  mkWire
    [("_rpc_id", U 2); ("src_port", U 2); ("src_ip", U 4); ("ct", U 8); ("dst_ip", U 4);
     ("nat_src_ip", U 4); ("nat_dst_ip", U 4); ("dst_port", U 2); ("nat_src_port", U 2);
     ("nat_dst_port", U 2); ("proto", U 1); ("nat_proto", U 1)]
    (new_fixed 367 36 true) 36
    [("_rpc_id", 0); ("src_port", 2); ("src_ip", 4); ("ct", 8); ("dst_ip", 16);
     ("nat_src_ip", 20); ("nat_dst_ip", 24); ("dst_port", 28); ("nat_src_port", 30);
     ("nat_dst_port", 32); ("proto", 34); ("nat_proto", 35)]%nat.
Definition encode_nf_conntrack_alter_reply : encoder :=
  FixedEncoder 367 36
    [("ct", PU 8); ("src_ip", PU 4); ("src_port", PU 2); ("dst_ip", PU 4); ("dst_port", PU 2);
     ("proto", PU 1); ("nat_src_ip", PU 4); ("nat_src_port", PU 2); ("nat_dst_ip", PU 4);
     ("nat_dst_port", PU 2); ("nat_proto", PU 1)]
    (w_struct wire_nf_conntrack_alter_reply).
Definition decode_nf_conntrack_alter_reply : decoder :=
  FixedDecoder 367 36
    [("ct", GUint 8 8); ("src_ip", GUint 4 4); ("src_port", GUint 2 2); ("dst_ip", GUint 16 4);
     ("dst_port", GUint 28 2); ("proto", GByte 34); ("nat_src_ip", GUint 20 4);
     ("nat_src_port", GUint 30 2); ("nat_dst_ip", GUint 24 4); ("nat_dst_port", GUint 32 2);
     ("nat_proto", GByte 35)].

(** *** nf_nat_cleanup_conntrack *)

Definition wire_nf_nat_cleanup_conntrack : wire :=
  mkWire
    [("_rpc_id", U 2); ("src_port", U 2); ("src_ip", U 4); ("ct", U 8); ("dst_ip", U 4);
     ("dst_port", U 2); ("proto", U 1)]
    (new_fixed 368 23 true) 23
    [("_rpc_id", 0); ("src_port", 2); ("src_ip", 4); ("ct", 8); ("dst_ip", 16);
     ("dst_port", 20); ("proto", 22)]%nat.
Definition encode_nf_nat_cleanup_conntrack : encoder :=
  FixedEncoder 368 23
    [("ct", PU 8); ("src_ip", PU 4); ("src_port", PU 2); ("dst_ip", PU 4); ("dst_port", PU 2);
     ("proto", PU 1)]
    (w_struct wire_nf_nat_cleanup_conntrack).
Definition decode_nf_nat_cleanup_conntrack : decoder :=
  FixedDecoder 368 23
    [("ct", GUint 8 8); ("src_ip", GUint 4 4); ("src_port", GUint 2 2); ("dst_ip", GUint 16 4);
     ("dst_port", GUint 20 2); ("proto", GByte 22)].

(** *** existing_conntrack_tuple *)

Definition wire_existing_conntrack_tuple : wire :=
  mkWire
    [("_rpc_id", U 2); ("src_port", U 2); ("src_ip", U 4); ("ct", U 8); ("dst_ip", U 4);
     ("dst_port", U 2); ("proto", U 1); ("dir", U 1)]
    (new_fixed 369 24 true) 24
    [("_rpc_id", 0); ("src_port", 2); ("src_ip", 4); ("ct", 8); ("dst_ip", 16);
     ("dst_port", 20); ("proto", 22); ("dir", 23)]%nat.
Definition encode_existing_conntrack_tuple : encoder :=
  FixedEncoder 369 24
    [("ct", PU 8); ("src_ip", PU 4); ("src_port", PU 2); ("dst_ip", PU 4); ("dst_port", PU 2);
     ("proto", PU 1); ("dir", PU 1)]
    (w_struct wire_existing_conntrack_tuple).
Definition decode_existing_conntrack_tuple : decoder :=
  FixedDecoder 369 24
    [("ct", GUint 8 8); ("src_ip", GUint 4 4); ("src_port", GUint 2 2); ("dst_ip", GUint 16 4);
     ("dst_port", GUint 20 2); ("proto", GByte 22); ("dir", GByte 23)].

(** *** tcp_syn_timeout *)

Definition wire_tcp_syn_timeout : wire :=
  mkWire
    [("_rpc_id", U 2); ("sk", U 8)]
    (new_fixed 370 16 true) 16
    [("_rpc_id", 0); ("sk", 8)]%nat.
Definition encode_tcp_syn_timeout : encoder :=
  FixedEncoder 370 16
    [("sk", PU 8)]
    (w_struct wire_tcp_syn_timeout).
Definition decode_tcp_syn_timeout : decoder :=
  FixedDecoder 370 16
    [("sk", GUint 8 8)].

(** *** http_response *)

Definition wire_http_response : wire :=
  mkWire
    [("_rpc_id", U 2); ("code", U 2); ("pid", U 4); ("sk", U 8); ("latency_ns", U 8);
     ("client_server", U 1)]
    (new_fixed 372 25 true) 25
    [("_rpc_id", 0); ("code", 2); ("pid", 4); ("sk", 8); ("latency_ns", 16);
     ("client_server", 24)]%nat.
Definition encode_http_response : encoder :=
  FixedEncoder 372 25
    [("sk", PU 8); ("pid", PU 4); ("code", PU 2); ("latency_ns", PU 8); ("client_server", PU 1)]
    (w_struct wire_http_response).
Definition decode_http_response : decoder :=
  FixedDecoder 372 25
    [("sk", GUint 8 8); ("pid", GUint 4 4); ("code", GUint 2 2); ("latency_ns", GUint 16 8);
     ("client_server", GByte 24)].

(** *** bpf_log *)

Definition wire_bpf_log : wire :=
  mkWire
    [("_rpc_id", U 2); ("filelineid", U 8); ("code", U 8); ("arg0", U 8); ("arg1", U 8);
     ("arg2", U 8)]
    (new_fixed 373 48 true) 48
    [("_rpc_id", 0); ("filelineid", 8); ("code", 16); ("arg0", 24); ("arg1", 32); ("arg2", 40)]%nat.
Definition encode_bpf_log : encoder :=
  FixedEncoder 373 48
    [("filelineid", PU 8); ("code", PU 8); ("arg0", PU 8); ("arg1", PU 8); ("arg2", PU 8)]
    (w_struct wire_bpf_log).
Definition decode_bpf_log : decoder :=
  FixedDecoder 373 48
    [("filelineid", GUint 8 8); ("code", GUint 16 8); ("arg0", GUint 24 8);
     ("arg1", GUint 32 8); ("arg2", GUint 40 8)].

(** *** stack_trace *)

Definition wire_stack_trace : wire :=
  mkWire
    [("_rpc_id", U 2); ("comm", Arr 16); ("kernel_stack_id", I 4); ("user_stack_id", I 4);
     ("tgid", U 4)]
    (new_fixed 374 32 true) 32
    [("_rpc_id", 0); ("comm", 2); ("kernel_stack_id", 20); ("user_stack_id", 24); ("tgid", 28)]%nat.
Definition encode_stack_trace : encoder :=
  FixedEncoder 374 32
    [("kernel_stack_id", PI 4); ("user_stack_id", PI 4); ("tgid", PU 4); ("comm", PPtr)]
    (w_struct wire_stack_trace).
Definition decode_stack_trace : decoder :=
  FixedDecoder 374 32
    [("kernel_stack_id", GInt 20 4); ("user_stack_id", GInt 24 4); ("tgid", GUint 28 4);
     ("comm", GArr 2 16)].

(** *** tcp_data *)

Definition wire_tcp_data : wire :=
  mkWire
    [("_rpc_id", U 2); ("stream_type", U 1); ("client_server", U 1); ("pid", U 4); ("sk", U 8);
     ("offset", U 8); ("length", U 4)]
    (new_fixed 375 28 true) 28
    [("_rpc_id", 0); ("stream_type", 2); ("client_server", 3); ("pid", 4); ("sk", 8);
     ("offset", 16); ("length", 24)]%nat.
Definition encode_tcp_data : encoder :=
  FixedEncoder 375 28
    [("sk", PU 8); ("pid", PU 4); ("length", PU 4); ("offset", PU 8); ("stream_type", PU 1);
     ("client_server", PU 1)]
    (w_struct wire_tcp_data).
Definition decode_tcp_data : decoder :=
  FixedDecoder 375 28
    [("sk", GUint 8 8); ("pid", GUint 4 4); ("length", GUint 24 4); ("offset", GUint 16 8);
     ("stream_type", GByte 2); ("client_server", GByte 3)].

(** *** pid_exit *)

Definition wire_pid_exit : wire :=
  mkWire
    [("_rpc_id", U 2); ("pid", U 4); ("tgid", U 8); ("exit_code", I 4)]
    (new_fixed 377 20 true) 20
    [("_rpc_id", 0); ("pid", 4); ("tgid", 8); ("exit_code", 16)]%nat.
Definition encode_pid_exit : encoder :=
  FixedEncoder 377 20
    [("tgid", PU 8); ("pid", PU 4); ("exit_code", PI 4)]
    (w_struct wire_pid_exit).
Definition decode_pid_exit : decoder :=
  FixedDecoder 377 20
    [("tgid", GUint 8 8); ("pid", GUint 4 4); ("exit_code", GInt 16 4)].

(** *** report_debug_event *)

Definition wire_report_debug_event : wire :=
  mkWire
    [("_rpc_id", U 2); ("event", U 2); ("arg1", U 8); ("arg2", U 8); ("arg3", U 8);
     ("arg4", U 8)]
    (new_fixed 378 40 true) 40
    [("_rpc_id", 0); ("event", 2); ("arg1", 8); ("arg2", 16); ("arg3", 24); ("arg4", 32)]%nat.
Definition encode_report_debug_event : encoder :=
  FixedEncoder 378 40
    [("event", PU 2); ("arg1", PU 8); ("arg2", PU 8); ("arg3", PU 8); ("arg4", PU 8)]
    (w_struct wire_report_debug_event).
Definition decode_report_debug_event : decoder :=
  FixedDecoder 378 40
    [("event", GUint 2 2); ("arg1", GUint 8 8); ("arg2", GUint 16 8); ("arg3", GUint 24 8);
     ("arg4", GUint 32 8)].

(** *** tcp_reset *)

Definition wire_tcp_reset : wire :=
  mkWire
    [("_rpc_id", U 2); ("is_rx", U 1); ("sk", U 8)]
    (new_fixed 379 16 true) 16
    [("_rpc_id", 0); ("is_rx", 2); ("sk", 8)]%nat.
Definition encode_tcp_reset : encoder :=
  FixedEncoder 379 16
    [("sk", PU 8); ("is_rx", PU 1)]
    (w_struct wire_tcp_reset).
Definition decode_tcp_reset : decoder :=
  FixedDecoder 379 16
    [("sk", GUint 8 8); ("is_rx", GByte 2)].

(** *** pulse *)

Definition wire_pulse : wire :=
  mkWire
    [("_rpc_id", U 2)]
    (new_fixed 65535 2 true) 2
    [("_rpc_id", 0)]%nat.
Definition encode_pulse : encoder :=
  FixedEncoder 65535 2
    []
    (w_struct wire_pulse).
Definition decode_pulse : decoder :=
  FixedDecoder 65535 2
    [].

(** wire_messages.rs. *)

Definition wires_1 : list wire :=
  [wire_dns_packet; wire_reset_tcp_counters; wire_new_sock_created].
Definition wires_2 : list wire :=
  [wire_udp_new_socket; wire_udp_destroy_socket; wire_udp_stats].
Definition wires_3 : list wire :=
  [wire_pid_info; wire_pid_close; wire_pid_set_comm].
Definition wires_4 : list wire :=
  [wire_set_state_ipv4; wire_set_state_ipv6].
Definition wires_5 : list wire :=
  [wire_rtt_estimator; wire_close_sock_info].
Definition wires_6 : list wire :=
  [wire_kill_css; wire_css_populate_dir; wire_existing_cgroup_probe].
Definition wires_7 : list wire :=
  [wire_cgroup_attach_task; wire_nf_conntrack_alter_reply].
Definition wires_8 : list wire :=
  [wire_nf_nat_cleanup_conntrack; wire_existing_conntrack_tuple].
Definition wires_9 : list wire :=
  [wire_tcp_syn_timeout; wire_http_response; wire_bpf_log].
Definition wires_10 : list wire :=
  [wire_stack_trace; wire_tcp_data; wire_pid_exit].
Definition wires_11 : list wire :=
  [wire_report_debug_event; wire_tcp_reset; wire_pulse].

(** encoder.rs. *)

Definition encoders_1 : list encoder :=
  [encode_dns_packet; encode_reset_tcp_counters; encode_new_sock_created].
Definition encoders_2 : list encoder :=
  [encode_udp_new_socket; encode_udp_destroy_socket; encode_udp_stats].
Definition encoders_3 : list encoder :=
  [encode_pid_info; encode_pid_close; encode_pid_set_comm; encode_set_state_ipv4].
Definition encoders_4 : list encoder :=
  [encode_set_state_ipv6; encode_rtt_estimator; encode_close_sock_info].
Definition encoders_5 : list encoder :=
  [encode_kill_css; encode_css_populate_dir; encode_existing_cgroup_probe;
   encode_cgroup_attach_task].
Definition encoders_6 : list encoder :=
  [encode_nf_conntrack_alter_reply; encode_nf_nat_cleanup_conntrack;
   encode_existing_conntrack_tuple].
Definition encoders_7 : list encoder :=
  [encode_tcp_syn_timeout; encode_http_response; encode_bpf_log; encode_stack_trace].
Definition encoders_8 : list encoder :=
  [encode_tcp_data; encode_pid_exit; encode_report_debug_event; encode_tcp_reset].
Definition encoders_9 : list encoder :=
  [encode_pulse].

(** parsed_message.rs. *)

Definition decoders_1 : list decoder :=
  [decode_dns_packet; decode_reset_tcp_counters; decode_new_sock_created].
Definition decoders_2 : list decoder :=
  [decode_udp_new_socket; decode_udp_destroy_socket].
Definition decoders_3 : list decoder :=
  [decode_udp_stats; decode_pid_info].
Definition decoders_4 : list decoder :=
  [decode_pid_close; decode_pid_set_comm; decode_set_state_ipv4].
Definition decoders_5 : list decoder :=
  [decode_set_state_ipv6; decode_rtt_estimator].
Definition decoders_6 : list decoder :=
  [decode_close_sock_info; decode_kill_css; decode_css_populate_dir].
Definition decoders_7 : list decoder :=
  [decode_existing_cgroup_probe; decode_cgroup_attach_task].
Definition decoders_8 : list decoder :=
  [decode_nf_conntrack_alter_reply; decode_nf_nat_cleanup_conntrack].
Definition decoders_9 : list decoder :=
  [decode_existing_conntrack_tuple; decode_tcp_syn_timeout; decode_http_response].
Definition decoders_10 : list decoder :=
  [decode_bpf_log; decode_stack_trace; decode_tcp_data].
Definition decoders_11 : list decoder :=
  [decode_pid_exit; decode_report_debug_event; decode_tcp_reset; decode_pulse].

Definition messages : list message :=
  link
    (encoders_1 ++ encoders_2 ++ encoders_3 ++ encoders_4 ++ encoders_5 ++ encoders_6 ++
       encoders_7 ++ encoders_8 ++ encoders_9)
    (decoders_1 ++ decoders_2 ++ decoders_3 ++ decoders_4 ++ decoders_5 ++ decoders_6 ++
       decoders_7 ++ decoders_8 ++ decoders_9 ++ decoders_10 ++ decoders_11)
    (wires_1 ++ wires_2 ++ wires_3 ++ wires_4 ++ wires_5 ++ wires_6 ++ wires_7 ++ wires_8 ++
       wires_9 ++ wires_10 ++ wires_11).
