(* ===== verification/PulseCodec.v ===== *)
(** * The pulse messages of the collectors and of the test application
      (crates/render/ebpf_net/cloud_collector, kernel_collector and
      crates/render/test/app1)

    Applications whose only message is the pulse. *)

From S2P Require Import Prelude RenderParser Wire Codec.

Local Open Scope string_scope.
Local Open Scope Z_scope.

(** *** cloud_collector_pulse *)

Definition wire_cloud_collector_pulse : wire :=
  mkWire
    [("_rpc_id", U 2)]
    (new_fixed 65535 2 true) 2
    [("_rpc_id", 0)]%nat.
Definition encode_cloud_collector_pulse : encoder :=
  FixedEncoder 65535 2
    []
    (w_struct wire_cloud_collector_pulse).
Definition decode_cloud_collector_pulse : decoder :=
  FixedDecoder 65535 2
    [].

Definition message_cloud_collector_pulse : message :=
  mkMessage encode_cloud_collector_pulse decode_cloud_collector_pulse wire_cloud_collector_pulse.

(** *** kernel_collector_pulse *)

Definition wire_kernel_collector_pulse : wire :=
  mkWire
    [("_rpc_id", U 2)]
    (new_fixed 65535 2 true) 2
    [("_rpc_id", 0)]%nat.
Definition encode_kernel_collector_pulse : encoder :=
  FixedEncoder 65535 2
    []
    (w_struct wire_kernel_collector_pulse).
Definition decode_kernel_collector_pulse : decoder :=
  FixedDecoder 65535 2
    [].

Definition message_kernel_collector_pulse : message :=
  mkMessage encode_kernel_collector_pulse decode_kernel_collector_pulse wire_kernel_collector_pulse.

(** *** app1_pulse *)

Definition wire_app1_pulse : wire :=
  mkWire
    [("_rpc_id", U 2)]
    (new_fixed 65535 2 true) 2
    [("_rpc_id", 0)]%nat.
Definition encode_app1_pulse : encoder :=
  FixedEncoder 65535 2
    []
    (w_struct wire_app1_pulse).
Definition decode_app1_pulse : decoder :=
  FixedDecoder 65535 2
    [].

Definition message_app1_pulse : message :=
  mkMessage encode_app1_pulse decode_app1_pulse wire_app1_pulse.
