(* ===== verification/AggregationCodec.v ===== *)
(** * The aggregation messages (crates/render/ebpf_net/aggregation)

    For each message its wire struct, metadata and layout (wire_messages.rs),
    its encoder (encoder.rs) and its decoder (parsed_message.rs), by the
    literals of the generated code; see [Codec].  The lists at the end are the
    contents of the three files, in their order. *)

From S2P Require Import Prelude RenderParser Wire Codec.

Local Open Scope string_scope.
Local Open Scope Z_scope.

(** *** agg_root_start *)

Definition wire_agg_root_start : wire :=
  mkWire
    [("_rpc_id", U 2); ("_ref", U 8)]
    (new_fixed 461 16 true) 16
    [("_rpc_id", 0); ("_ref", 8)]%nat.
Definition encode_agg_root_start : encoder :=
  FixedEncoder 461 16
    [("_ref", PU 8)]
    (w_struct wire_agg_root_start).
Definition decode_agg_root_start : decoder :=
  FixedDecoder 461 16
    [("_ref", GUint 8 8)].

(** *** agg_root_end *)

Definition wire_agg_root_end : wire :=
  mkWire
    [("_rpc_id", U 2); ("_ref", U 8)]
    (new_fixed 462 16 true) 16
    [("_rpc_id", 0); ("_ref", 8)]%nat.
Definition encode_agg_root_end : encoder :=
  FixedEncoder 462 16
    [("_ref", PU 8)]
    (w_struct wire_agg_root_end).
Definition decode_agg_root_end : decoder :=
  FixedDecoder 462 16
    [("_ref", GUint 8 8)].

(** *** update_node *)

Definition wire_update_node : wire :=
  mkWire
    [("_rpc_id", U 2); ("_len", U 2); ("id", U 2); ("az", U 2); ("_ref", U 8); ("role", U 2);
     ("version", U 2); ("env", U 2); ("ns", U 2); ("address", U 2); ("process", U 2);
     ("container", U 2); ("pod_name", U 2); ("side", U 1); ("node_type", U 1)]
    (new_dynamic 463 true) 34
    [("_rpc_id", 0); ("_len", 2); ("id", 4); ("az", 6); ("_ref", 8); ("role", 16);
     ("version", 18); ("env", 20); ("ns", 22); ("address", 24); ("process", 26);
     ("container", 28); ("pod_name", 30); ("side", 32); ("node_type", 33)]%nat.
Definition encode_update_node : encoder :=
  DynamicEncoder 463 34
    [("_ref", PU 8); ("side", PU 1); ("id", PBlob); ("az", PBlob); ("role", PBlob);
     ("version", PBlob); ("env", PBlob); ("ns", PBlob); ("node_type", PU 1);
     ("address", PBlob); ("process", PBlob); ("container", PBlob); ("pod_name", PBlob);
     ("role_uid", PBlob)]
    (w_struct wire_update_node)
    ["id"; "az"; "role"; "version"; "env"; "ns"; "address"; "process"; "container"; "pod_name";
     "role_uid"].
Definition decode_update_node : decoder :=
  DynamicDecoder 463
    [("_ref", GUint 8 8); ("side", GByte 32); ("node_type", GByte 33)] 34
    [("id", 4); ("az", 6); ("role", 16); ("version", 18); ("env", 20); ("ns", 22);
     ("address", 24); ("process", 26); ("container", 28); ("pod_name", 30)]%nat
    "role_uid".

(** *** update_tcp_metrics *)

Definition wire_update_tcp_metrics : wire :=
  mkWire
    [("_rpc_id", U 2); ("direction", U 1); ("active_sockets", U 4); ("sum_bytes", U 8);
     ("sum_srtt", U 8); ("sum_delivered", U 8); ("_ref", U 8); ("sum_retrans", U 4);
     ("active_rtts", U 4); ("syn_timeouts", U 4); ("new_sockets", U 4); ("tcp_resets", U 4)]
    (new_fixed 465 60 true) 60
    [("_rpc_id", 0); ("direction", 2); ("active_sockets", 4); ("sum_bytes", 8);
     ("sum_srtt", 16); ("sum_delivered", 24); ("_ref", 32); ("sum_retrans", 40);
     ("active_rtts", 44); ("syn_timeouts", 48); ("new_sockets", 52); ("tcp_resets", 56)]%nat.
Definition encode_update_tcp_metrics : encoder :=
  FixedEncoder 465 60
    [("_ref", PU 8); ("direction", PU 1); ("active_sockets", PU 4); ("sum_retrans", PU 4);
     ("sum_bytes", PU 8); ("sum_srtt", PU 8); ("sum_delivered", PU 8); ("active_rtts", PU 4);
     ("syn_timeouts", PU 4); ("new_sockets", PU 4); ("tcp_resets", PU 4)]
    (w_struct wire_update_tcp_metrics).
Definition decode_update_tcp_metrics : decoder :=
  FixedDecoder 465 60
    [("_ref", GUint 32 8); ("direction", GByte 2); ("active_sockets", GUint 4 4);
     ("sum_retrans", GUint 40 4); ("sum_bytes", GUint 8 8); ("sum_srtt", GUint 16 8);
     ("sum_delivered", GUint 24 8); ("active_rtts", GUint 44 4); ("syn_timeouts", GUint 48 4);
     ("new_sockets", GUint 52 4); ("tcp_resets", GUint 56 4)].

(** *** update_udp_metrics *)

Definition wire_update_udp_metrics : wire :=
  mkWire
    [("_rpc_id", U 2); ("direction", U 1); ("active_sockets", U 4); ("bytes", U 8);
     ("_ref", U 8); ("addr_changes", U 4); ("packets", U 4); ("drops", U 4)]
    (new_fixed 466 36 true) 36
    [("_rpc_id", 0); ("direction", 2); ("active_sockets", 4); ("bytes", 8); ("_ref", 16);
     ("addr_changes", 24); ("packets", 28); ("drops", 32)]%nat.
Definition encode_update_udp_metrics : encoder :=
  FixedEncoder 466 36
    [("_ref", PU 8); ("direction", PU 1); ("active_sockets", PU 4); ("addr_changes", PU 4);
     ("packets", PU 4); ("bytes", PU 8); ("drops", PU 4)]
    (w_struct wire_update_udp_metrics).
Definition decode_update_udp_metrics : decoder :=
  FixedDecoder 466 36
    [("_ref", GUint 16 8); ("direction", GByte 2); ("active_sockets", GUint 4 4);
     ("addr_changes", GUint 24 4); ("packets", GUint 28 4); ("bytes", GUint 8 8);
     ("drops", GUint 32 4)].

(** *** update_http_metrics *)

Definition wire_update_http_metrics : wire :=
  mkWire
    [("_rpc_id", U 2); ("direction", U 1); ("active_sockets", U 4); ("sum_total_time_ns", U 8);
     ("sum_processing_time_ns", U 8); ("_ref", U 8); ("sum_code_200", U 4);
     ("sum_code_400", U 4); ("sum_code_500", U 4); ("sum_code_other", U 4)]
    (new_fixed 467 48 true) 48
    [("_rpc_id", 0); ("direction", 2); ("active_sockets", 4); ("sum_total_time_ns", 8);
     ("sum_processing_time_ns", 16); ("_ref", 24); ("sum_code_200", 32); ("sum_code_400", 36);
     ("sum_code_500", 40); ("sum_code_other", 44)]%nat.
Definition encode_update_http_metrics : encoder :=
  FixedEncoder 467 48
    [("_ref", PU 8); ("direction", PU 1); ("active_sockets", PU 4); ("sum_code_200", PU 4);
     ("sum_code_400", PU 4); ("sum_code_500", PU 4); ("sum_code_other", PU 4);
     ("sum_total_time_ns", PU 8); ("sum_processing_time_ns", PU 8)]
    (w_struct wire_update_http_metrics).
Definition decode_update_http_metrics : decoder :=
  FixedDecoder 467 48
    [("_ref", GUint 24 8); ("direction", GByte 2); ("active_sockets", GUint 4 4);
     ("sum_code_200", GUint 32 4); ("sum_code_400", GUint 36 4); ("sum_code_500", GUint 40 4);
     ("sum_code_other", GUint 44 4); ("sum_total_time_ns", GUint 8 8);
     ("sum_processing_time_ns", GUint 16 8)].

(** *** update_dns_metrics *)

Definition wire_update_dns_metrics : wire :=
  mkWire
    [("_rpc_id", U 2); ("direction", U 1); ("active_sockets", U 4); ("sum_total_time_ns", U 8);
     ("sum_processing_time_ns", U 8); ("_ref", U 8); ("requests_a", U 4);
     ("requests_aaaa", U 4); ("responses", U 4); ("timeouts", U 4)]
    (new_fixed 468 48 true) 48
    [("_rpc_id", 0); ("direction", 2); ("active_sockets", 4); ("sum_total_time_ns", 8);
     ("sum_processing_time_ns", 16); ("_ref", 24); ("requests_a", 32); ("requests_aaaa", 36);
     ("responses", 40); ("timeouts", 44)]%nat.
Definition encode_update_dns_metrics : encoder :=
  FixedEncoder 468 48
    [("_ref", PU 8); ("direction", PU 1); ("active_sockets", PU 4); ("requests_a", PU 4);
     ("requests_aaaa", PU 4); ("responses", PU 4); ("timeouts", PU 4);
     ("sum_total_time_ns", PU 8); ("sum_processing_time_ns", PU 8)]
    (w_struct wire_update_dns_metrics).
Definition decode_update_dns_metrics : decoder :=
  FixedDecoder 468 48
    [("_ref", GUint 24 8); ("direction", GByte 2); ("active_sockets", GUint 4 4);
     ("requests_a", GUint 32 4); ("requests_aaaa", GUint 36 4); ("responses", GUint 40 4);
     ("timeouts", GUint 44 4); ("sum_total_time_ns", GUint 8 8);
     ("sum_processing_time_ns", GUint 16 8)].

(** *** pulse *)

Definition wire_pulse : wire :=
  mkWire
    [("_rpc_id", U 2)]
    (new_fixed 65535 2 true) 2
    [("_rpc_id", 0)]%nat.
Definition encode_pulse : encoder :=
  FixedEncoder 65535 2
    []
    (w_struct wire_pulse).
Definition decode_pulse : decoder :=
  FixedDecoder 65535 2
    [].

(** wire_messages.rs. *)

Definition wires_1 : list wire :=
  [wire_agg_root_start; wire_agg_root_end; wire_update_node].
Definition wires_2 : list wire :=
  [wire_update_tcp_metrics; wire_update_udp_metrics].
Definition wires_3 : list wire :=
  [wire_update_http_metrics; wire_update_dns_metrics].
Definition wires_4 : list wire :=
  [wire_pulse].

(** encoder.rs. *)

Definition encoders_1 : list encoder :=
  [encode_agg_root_start; encode_agg_root_end].
Definition encoders_2 : list encoder :=
  [encode_update_node].
Definition encoders_3 : list encoder :=
  [encode_update_tcp_metrics; encode_update_udp_metrics; encode_update_http_metrics].
Definition encoders_4 : list encoder :=
  [encode_update_dns_metrics; encode_pulse].

(** parsed_message.rs. *)

Definition decoders_1 : list decoder :=
  [decode_agg_root_start; decode_agg_root_end].
Definition decoders_2 : list decoder :=
  [decode_update_node].
Definition decoders_3 : list decoder :=
  [decode_update_tcp_metrics; decode_update_udp_metrics].
Definition decoders_4 : list decoder :=
  [decode_update_http_metrics; decode_update_dns_metrics; decode_pulse].

Definition messages : list message :=
  link
    (encoders_1 ++ encoders_2 ++ encoders_3 ++ encoders_4)
    (decoders_1 ++ decoders_2 ++ decoders_3 ++ decoders_4)
    (wires_1 ++ wires_2 ++ wires_3 ++ wires_4).
