(* ===== verification/Codecs.v ===== *)
(** * Every generated message is delivered

    The messages of the applications, their registries and their parsers put
    together: what an encoder writes, the application's parser recognises and
    the decoder reads back. *)

From S2P Require Import Prelude PerfectHashMap RenderParser Utf8 Wire Codec Hash.
From S2P Require Import AggregationCodec LoggingCodec MatchingCodec AgentInternalCodec PulseCodec IngestCodec.

Definition codecs : list (app * list message) :=
  [(aggregation_app, AggregationCodec.messages); (ingest_app, IngestCodec.messages); (logging_app, LoggingCodec.messages);
   (matching_app, MatchingCodec.messages); (agent_internal_app, AgentInternalCodec.messages);
   (cloud_collector_app, [message_cloud_collector_pulse]);
   (kernel_collector_app, [message_kernel_collector_pulse]); (app1_app, [message_app1_pulse])].

Definition app_checked (x : app * list message) : bool :=
  bool_decide (rpc_id <$> app_metadata x.1 = rpc_id ∘ m_metadata <$> x.2)
  && bool_decide (RenderParser.size <$> app_metadata x.1 = RenderParser.size ∘ m_metadata <$> x.2)
  && forallb message_ok x.2.

(** The literals of all the generated code pass the check. *)
Lemma codecs_checked : forallb app_checked codecs = true.
Proof. vm_compute. reflexivity. Qed.

Lemma codec_in_apps a ms : (a, ms) ∈ codecs -> a ∈ apps.
Proof.
  intros H. apply (list_elem_of_fmap_2 fst) in H. exact H.
Qed.

Lemma metadata_eq (l l' : list MessageMetadata) :
  rpc_id <$> l = rpc_id <$> l' -> RenderParser.size <$> l = RenderParser.size <$> l' -> l = l'.
Proof.
  revert l'. induction l as [|[i s] l IH]; intros [|[i' s'] l']; simpl; try done.
  intros [= -> H1] [= -> H2]. f_equal. by apply IH.
Qed.

Lemma codec_message a ms m :
  (a, ms) ∈ codecs -> m ∈ ms -> a ∈ apps /\ m_metadata m ∈ app_metadata a /\ message_ok m = true.
Proof.
  intros Ha Hm. split; [by eapply codec_in_apps|].
  pose proof codecs_checked as Hc. rewrite forallb_forall in Hc.
  apply list_elem_of_In in Ha. apply Hc in Ha. unfold app_checked in Ha. simpl in Ha. split_andb Ha.
  rewrite ?bool_decide_eq_true in *. rewrite forallb_forall in Hand.
  split; [|by apply Hand, list_elem_of_In].
  rewrite (metadata_eq (app_metadata a) (m_metadata <$> ms)) by (by rewrite <- list_fmap_compose).
  by apply list_elem_of_fmap_2.
Qed.

Lemma message_id m : message_ok m = true -> fits 16 (rpc_id (m_metadata m)).
Proof.
  intros [Hp _ _ _ _ _ _ _]%message_ok_spec. unfold parts_ok in Hp.
  destruct (m_encoder m), (m_decoder m); try done; split_andb Hp;
    rewrite ?bool_decide_eq_true, ?Z.eqb_eq in *; congruence.
Qed.

Lemma body_small e m args body :
  message_ok m = true -> args_ok (m_encoder m) args -> is_body e (m_metadata m) body ->
  Z.of_nat (length body) <= 65535.
Proof.
  intros [Hp _ _ _ _ _ _ _]%message_ok_spec (_ & _ & Hsz) [_ Hb]. unfold encoded_size in Hsz. unfold parts_ok in Hp.
  destruct (m_encoder m), (m_decoder m); try done; split_andb Hp; rewrite ?bool_decide_eq_true in *; simpl in *.
  - rewrite Hand in Hb. lia.
  - rewrite Hand in Hb. lia.
Qed.

(** C9: For every message of every generated crate: the application's parser
    can be built, and whatever typed arguments the encoder is given, the parser
    accepts what it writes as exactly that message with its timestamp, and the
    decoder returns every argument unchanged. *)
Theorem messages_delivered {V} p e a ms m (v : MessageMetadata -> V) :
  (a, ms) ∈ codecs -> m ∈ ms ->
  exists ps,
    add_messages p (new (app_size a) (hash_fn a)) ((fun md => (md, v md)) <$> app_metadata a) = Ok ps
    /\ names_of (m_decoder m) ≡ₚ params (m_encoder m)
    /\ forall args ts dst pad rest,
      args_ok (m_encoder m) args -> fits 64 ts -> length pad = header_size (m_encoder m) ->
      length dst = (8 + encoded_size (m_encoder m) args)%nat ->
      exists data body,
        encode (E := unit) e (m_encoder m) (Some dst) ts args pad = Ok data
        /\ handle p e ps (data ++ rest) = Ok (mkHandleOk body (v (m_metadata m)) ts)
        /\ decode e (m_decoder m) body
           = Ok (("_rpc_id"%string, VInt (rpc_id (m_metadata m)))
                 :: (returned args <$> names_of (m_decoder m))).
Proof.
  intros Ha Hm. destruct (codec_message a ms m Ha Hm) as (Happ & Hmd & Hok).
  destruct (registered_parser p a v Happ) as (ps & Hps & Hall).
  pose proof (ms_names _ (message_ok_spec m Hok)) as Hnames.
  pose proof (parts_ok_correct m (ms_parts _ (message_ok_spec m Hok))) as Hrt. exists ps. split_and!; [done..|].
  intros args ts dst pad rest Hargs Hts Hpad Hdst.
  destruct (Hrt e args dst ts pad Hargs Hpad Hdst) as (body & Henc & Hdec & Hbody).
  exists (frame e ts body), body. split_and!; [done| |done].
  rewrite Forall_forall in Hall. apply (frame_handled p e ps (m_metadata m)); try done.
  - by apply Hall.
  - by apply message_id.
  - pose proof (body_small e m args body Hok Hargs Hbody). lia.
Qed.

(** C34: For every message of every generated crate: the decoder of a fixed
    message never panics, and the decoder of a dynamic one panics on exactly
    the bodies that carry its identifier and a length they have, and are
    shorter than the header fields it reads before it checks. *)
Theorem decoders_panic a ms m e body :
  (a, ms) ∈ codecs -> m ∈ ms ->
  decode e (m_decoder m) body = Panic
  <-> (exists rpc, check_rpc e (decoder_id (m_decoder m)) body = Ok rpc)
      /\ (exists len, check_len e body = Ok len) /\ (length body < needed (m_decoder m))%nat.
Proof. intros Ha Hm. apply decoder_panics_iff, ms_parts, message_ok_spec. by eapply codec_message. Qed.



(** ** Witnesses *)

(** A pod is deleted. *)
Definition delete_args (nm : string) : value := VBytes (lit "p1").

Lemma delete_args_ok : args_ok encode_pod_delete delete_args.
Proof.
  split_and!; [|intros nm _; by exists (lit "p1")|by vm_compute].
  intros nm t Hin Hp. apply list_elem_of_In in Hin. simpl in Hin. destruct Hin as [[= <- <-]|[[= <- <-]|[]]]; done.
Qed.

Lemma ingest_in : (ingest_app, IngestCodec.messages) ∈ codecs.
Proof. by apply (list_elem_of_lookup_2 _ 1). Qed.

Lemma pod_delete_in : message_pod_delete ∈ IngestCodec.messages.
Proof. by apply (list_elem_of_lookup_2 _ 56). Qed.

Lemma messages_delivered_witness :
  exists ps data body,
    add_messages Debug (new (app_size ingest_app) (hash_fn ingest_app))
      ((fun md => (md, rpc_id md)) <$> app_metadata ingest_app) = Ok ps
    /\ handle Debug LittleEndian ps (data ++ [1; 2; 3]) = Ok (mkHandleOk body 359 1700)
    /\ decode LittleEndian decode_pod_delete body
       = Ok [("_rpc_id"%string, VInt 359); ("uid"%string, VBytes (lit "p1"))].
Proof.
  destruct (messages_delivered Debug LittleEndian ingest_app IngestCodec.messages message_pod_delete rpc_id
    ingest_in pod_delete_in) as (ps & Hps & _ & H).
  destruct (H delete_args 1700 (replicate 14 0) (replicate 4 170) [1; 2; 3] delete_args_ok)
    as (data & body & _ & Hh & Hd); [unfold fits; lia|reflexivity|reflexivity|].
  exists ps, data, body. split_and!; [exact Hps|exact Hh|exact Hd].
Defined.

(** A body of the four bytes every check reads is enough to panic a decoder
    whose first string length lies further on. *)
Lemma decoders_panic_witness :
  decode LittleEndian decode_pod_container [238; 1; 4; 0] = Panic.
Proof.
  apply (decoders_panic ingest_app IngestCodec.messages message_pod_container); [exact ingest_in| |].
  - by apply (list_elem_of_lookup_2 _ 55).
  - split_and!; [eexists; reflexivity|eexists; reflexivity|]. vm_compute. lia.
Defined.


