(* ===== verification/AggEquiv.v ===== *)
(** * The two models of the aggregation messages agree

    [AggWire] translates each function of the aggregation crate on its own;
    [AggregationCodec] gives the same functions by their literals, for the
    template that [Codec] shares among the applications.  On every input the
    template's encoder and decoder do what the direct translation does. *)

From S2P Require Import Prelude RenderParser Utf8 Wire AggWire Codec AggregationCodec.

Local Open Scope string_scope.
Local Open Scope Z_scope.

(** The parsed structs as lists of named fields. *)
Definition start_fields (m : agg_root_start) : list (string * value) :=
  [("_rpc_id", VInt (start_rpc_id m)); ("_ref", VInt (start_ref m))].

Definition end_fields (m : agg_root_end) : list (string * value) :=
  [("_rpc_id", VInt (end_rpc_id m)); ("_ref", VInt (end_ref m))].

Definition tcp_fields (m : update_tcp_metrics) : list (string * value) :=
  [("_rpc_id", VInt (tcp_rpc_id m)); ("_ref", VInt (tcp_ref m)); ("direction", VInt (tcp_direction m));
   ("active_sockets", VInt (tcp_active_sockets m)); ("sum_retrans", VInt (tcp_sum_retrans m));
   ("sum_bytes", VInt (tcp_sum_bytes m)); ("sum_srtt", VInt (tcp_sum_srtt m));
   ("sum_delivered", VInt (tcp_sum_delivered m)); ("active_rtts", VInt (tcp_active_rtts m));
   ("syn_timeouts", VInt (tcp_syn_timeouts m)); ("new_sockets", VInt (tcp_new_sockets m));
   ("tcp_resets", VInt (tcp_tcp_resets m))].

Definition udp_fields (m : update_udp_metrics) : list (string * value) :=
  [("_rpc_id", VInt (udp_rpc_id m)); ("_ref", VInt (udp_ref m)); ("direction", VInt (udp_direction m));
   ("active_sockets", VInt (udp_active_sockets m)); ("addr_changes", VInt (udp_addr_changes m));
   ("packets", VInt (udp_packets m)); ("bytes", VInt (udp_bytes m)); ("drops", VInt (udp_drops m))].

Definition http_fields (m : update_http_metrics) : list (string * value) :=
  [("_rpc_id", VInt (http_rpc_id m)); ("_ref", VInt (http_ref m)); ("direction", VInt (http_direction m));
   ("active_sockets", VInt (http_active_sockets m)); ("sum_code_200", VInt (http_sum_code_200 m));
   ("sum_code_400", VInt (http_sum_code_400 m)); ("sum_code_500", VInt (http_sum_code_500 m));
   ("sum_code_other", VInt (http_sum_code_other m)); ("sum_total_time_ns", VInt (http_sum_total_time_ns m));
   ("sum_processing_time_ns", VInt (http_sum_processing_time_ns m))].

Definition dns_fields (m : update_dns_metrics) : list (string * value) :=
  [("_rpc_id", VInt (dns_rpc_id m)); ("_ref", VInt (dns_ref m)); ("direction", VInt (dns_direction m));
   ("active_sockets", VInt (dns_active_sockets m)); ("requests_a", VInt (dns_requests_a m));
   ("requests_aaaa", VInt (dns_requests_aaaa m)); ("responses", VInt (dns_responses m));
   ("timeouts", VInt (dns_timeouts m)); ("sum_total_time_ns", VInt (dns_sum_total_time_ns m));
   ("sum_processing_time_ns", VInt (dns_sum_processing_time_ns m))].

Definition node_fields (m : update_node) : list (string * value) :=
  [("_rpc_id", VInt (node_rpc_id m)); ("_ref", VInt (node_ref m)); ("side", VInt (node_side m));
   ("node_type", VInt (node_node_type m)); ("id", VBytes (node_id m)); ("az", VBytes (node_az m));
   ("role", VBytes (node_role m)); ("version", VBytes (node_version m)); ("env", VBytes (node_env m));
   ("ns", VBytes (node_ns m)); ("address", VBytes (node_address m)); ("process", VBytes (node_process m));
   ("container", VBytes (node_container m)); ("pod_name", VBytes (node_pod_name m));
   ("role_uid", VBytes (node_role_uid m))].

(** The direct functions of a message do on every input what the template
    does with its literals: the decoder on any body, errors and panics
    included, the encoder on typed arguments and any destination. *)
Definition same_codec {M : Type} (ok : M -> Prop) (to_fields : M -> list (string * value))
    (enc : endian -> option (list Z) -> Z -> M -> list Z -> res unit (list Z))
    (dec : endian -> list Z -> res DecodeError M) (en : encoder) (de : decoder) : Prop :=
  (forall e body, decode e de body = rmap to_fields (dec e body))
  /\ (forall e dest ts m pad, ok m -> encode e en dest ts (arg (to_fields m)) pad = enc e dest ts m pad).

(** The encoders of [AggWire] on the parsed structs. *)
Definition enc_start (e : endian) (d : option (list Z)) (ts : Z) (m : agg_root_start) (pad : list Z)
    : res unit (list Z) :=
  AggWire.encode_agg_root_start e d ts (start_ref m) pad.

Definition enc_end (e : endian) (d : option (list Z)) (ts : Z) (m : agg_root_end) (pad : list Z)
    : res unit (list Z) :=
  AggWire.encode_agg_root_end e d ts (end_ref m) pad.

Definition enc_tcp (e : endian) (d : option (list Z)) (ts : Z) (m : update_tcp_metrics) (pad : list Z)
    : res unit (list Z) :=
  AggWire.encode_update_tcp_metrics e d ts (tcp_ref m) (tcp_direction m) (tcp_active_sockets
    m) (tcp_sum_retrans m) (tcp_sum_bytes m) (tcp_sum_srtt m) (tcp_sum_delivered m)
    (tcp_active_rtts m) (tcp_syn_timeouts m) (tcp_new_sockets m) (tcp_tcp_resets m) pad.

Definition enc_udp (e : endian) (d : option (list Z)) (ts : Z) (m : update_udp_metrics) (pad : list Z)
    : res unit (list Z) :=
  AggWire.encode_update_udp_metrics e d ts (udp_ref m) (udp_direction m) (udp_active_sockets
    m) (udp_addr_changes m) (udp_packets m) (udp_bytes m) (udp_drops m) pad.

Definition enc_http (e : endian) (d : option (list Z)) (ts : Z) (m : update_http_metrics) (pad : list Z)
    : res unit (list Z) :=
  AggWire.encode_update_http_metrics e d ts (http_ref m) (http_direction m)
    (http_active_sockets m) (http_sum_code_200 m) (http_sum_code_400 m) (http_sum_code_500 m)
    (http_sum_code_other m) (http_sum_total_time_ns m) (http_sum_processing_time_ns m) pad.

Definition enc_dns (e : endian) (d : option (list Z)) (ts : Z) (m : update_dns_metrics) (pad : list Z)
    : res unit (list Z) :=
  AggWire.encode_update_dns_metrics e d ts (dns_ref m) (dns_direction m) (dns_active_sockets
    m) (dns_requests_a m) (dns_requests_aaaa m) (dns_responses m) (dns_timeouts m)
    (dns_sum_total_time_ns m) (dns_sum_processing_time_ns m) pad.

Definition enc_node (e : endian) (d : option (list Z)) (ts : Z) (m : update_node) (pad : list Z)
    : res unit (list Z) :=
  AggWire.encode_update_node e d ts (node_ref m) (node_side m) (node_id m) (node_az m)
    (node_role m) (node_version m) (node_env m) (node_ns m) (node_node_type m) (node_address m)
    (node_process m) (node_container m) (node_pod_name m) (node_role_uid m) pad.

Lemma encode_dynamic_ext {E} e size dest ts f g pad strs :
  (forall c, f c = g c) -> encode_dynamic (E := E) e size dest ts f pad strs = encode_dynamic e size dest ts g pad strs.
Proof. intros H. unfold encode_dynamic. by rewrite H. Qed.

(** The reads of both decoders, one by one. *)
Ltac first_read c := lazymatch c with rbind ?d _ => first_read d | _ => c end.
Ltac same_reads :=
  intros e body; cbn -[check_rpc check_len check_size get_uint index get_str get_tail]; unfold rmap;
  repeat match goal with
  | |- rbind ?c _ = _ =>
      let d := first_read c in let v := fresh "v" in
      destruct d as [v| |]; [lazymatch type of v with (_ * _)%type => destruct v | _ => idtac end|..]; cbn [rbind]; [|reflexivity|reflexivity]
  end; reflexivity.

(** The fields of both structs, one by one. *)
Ltac same_fields :=
  repeat match goal with H : _ /\ _ |- _ => destruct H end; cbn -[wrap fits bool_decide];
  repeat match goal with
  | |- context [bool_decide (?x ∈ ?l)] =>
      let b := eval vm_compute in (bool_decide (x ∈ l)) in change (bool_decide (x ∈ l)) with b
  end; cbn -[wrap fits]; unfold len16;
  repeat match goal with |- context [8 * Z.of_nat ?n] =>
    let z := eval vm_compute in (8 * Z.of_nat n) in change (8 * Z.of_nat n) with z end;
  rewrite ?wrap_wrap;
  repeat match goal with H : fits ?w ?x |- context [wrap ?w ?x] => rewrite (wrap_small w x H) end;
  reflexivity.

Lemma start_same :
  same_codec ok_start start_fields enc_start AggWire.decode_agg_root_start encode_agg_root_start decode_agg_root_start.
Proof.
  split; [unfold AggWire.decode_agg_root_start; same_reads|].
  intros e dest ts m pad Hm. unfold ok_start in Hm. unfold enc_start, AggWire.encode_agg_root_start.
  cbn [encode encode_agg_root_start]. f_equal. same_fields.
Qed.

Lemma end_same :
  same_codec ok_end end_fields enc_end AggWire.decode_agg_root_end encode_agg_root_end decode_agg_root_end.
Proof.
  split; [unfold AggWire.decode_agg_root_end; same_reads|].
  intros e dest ts m pad Hm. unfold ok_end in Hm. unfold enc_end, AggWire.encode_agg_root_end.
  cbn [encode encode_agg_root_end]. f_equal. same_fields.
Qed.

Lemma tcp_same :
  same_codec ok_tcp tcp_fields enc_tcp AggWire.decode_update_tcp_metrics encode_update_tcp_metrics decode_update_tcp_metrics.
Proof.
  split; [unfold AggWire.decode_update_tcp_metrics; same_reads|].
  intros e dest ts m pad Hm. unfold ok_tcp in Hm. unfold enc_tcp, AggWire.encode_update_tcp_metrics.
  cbn [encode encode_update_tcp_metrics]. f_equal. same_fields.
Qed.

Lemma udp_same :
  same_codec ok_udp udp_fields enc_udp AggWire.decode_update_udp_metrics encode_update_udp_metrics decode_update_udp_metrics.
Proof.
  split; [unfold AggWire.decode_update_udp_metrics; same_reads|].
  intros e dest ts m pad Hm. unfold ok_udp in Hm. unfold enc_udp, AggWire.encode_update_udp_metrics.
  cbn [encode encode_update_udp_metrics]. f_equal. same_fields.
Qed.

Lemma http_same :
  same_codec ok_http http_fields enc_http AggWire.decode_update_http_metrics encode_update_http_metrics decode_update_http_metrics.
Proof.
  split; [unfold AggWire.decode_update_http_metrics; same_reads|].
  intros e dest ts m pad Hm. unfold ok_http in Hm. unfold enc_http, AggWire.encode_update_http_metrics.
  cbn [encode encode_update_http_metrics]. f_equal. same_fields.
Qed.

Lemma dns_same :
  same_codec ok_dns dns_fields enc_dns AggWire.decode_update_dns_metrics encode_update_dns_metrics decode_update_dns_metrics.
Proof.
  split; [unfold AggWire.decode_update_dns_metrics; same_reads|].
  intros e dest ts m pad Hm. unfold ok_dns in Hm. unfold enc_dns, AggWire.encode_update_dns_metrics.
  cbn [encode encode_update_dns_metrics]. f_equal. same_fields.
Qed.

Lemma pulse_same :
  same_codec (fun m => pulse_rpc_id m = 65535) (fun m => [("_rpc_id", VInt (pulse_rpc_id m))])
    (fun e d ts _ pad => AggWire.encode_pulse e d ts pad) AggWire.decode_pulse encode_pulse decode_pulse.
Proof.
  split; [unfold AggWire.decode_pulse; same_reads|].
  intros e dest ts m pad Hm. unfold AggWire.encode_pulse. cbn [encode encode_pulse]. f_equal.
Qed.

Lemma node_same :
  same_codec ok_node node_fields enc_node AggWire.decode_update_node encode_update_node decode_update_node.
Proof.
  split; [unfold AggWire.decode_update_node; same_reads|].
  intros e dest ts m pad Hm. unfold ok_node in Hm. unfold enc_node, AggWire.encode_update_node.
  cbn [encode encode_update_node]. apply encode_dynamic_ext. intros c. same_fields.
Qed.

