(* ===== verification/Metrics.v ===== *)
(** * Protocol metrics and counters (crates/reducer: metrics.rs,
      internal_events.rs)

    The sums a window keeps for each protocol, the combined [AllMetrics] of
    aggregator.rs, and the counters of exceptional conditions.  The source's
    [+=] on [u64] panics on overflow in a debug build and wraps in a release
    build; the metrics of a release build are a commutative monoid. *)

From S2P Require Import Prelude.

Local Open Scope rust_scope.

(** ** metrics.rs *)

Record TcpMetrics := mkTcpMetrics {
  t_active_sockets : Z;
  t_sum_bytes : Z;
  t_sum_srtt : Z;
  t_sum_delivered : Z;
  t_sum_retrans : Z;
  t_active_rtts : Z;
  t_syn_timeouts : Z;
  t_new_sockets : Z;
  t_tcp_resets : Z;
}.

Definition tcp_default : TcpMetrics := mkTcpMetrics 0 0 0 0 0 0 0 0 0.

Definition tcp_add_from {E} (p : profile) (self other : TcpMetrics) : res E TcpMetrics :=
  let? active_sockets := add_chk p 64 (t_active_sockets self) (t_active_sockets other) in
  let? sum_bytes := add_chk p 64 (t_sum_bytes self) (t_sum_bytes other) in
  let? sum_srtt := add_chk p 64 (t_sum_srtt self) (t_sum_srtt other) in
  let? sum_delivered := add_chk p 64 (t_sum_delivered self) (t_sum_delivered other) in
  let? sum_retrans := add_chk p 64 (t_sum_retrans self) (t_sum_retrans other) in
  let? active_rtts := add_chk p 64 (t_active_rtts self) (t_active_rtts other) in
  let? syn_timeouts := add_chk p 64 (t_syn_timeouts self) (t_syn_timeouts other) in
  let? new_sockets := add_chk p 64 (t_new_sockets self) (t_new_sockets other) in
  let? tcp_resets := add_chk p 64 (t_tcp_resets self) (t_tcp_resets other) in
  Ok (mkTcpMetrics active_sockets sum_bytes sum_srtt sum_delivered sum_retrans active_rtts syn_timeouts new_sockets tcp_resets).

Definition tcp_is_zero (self : TcpMetrics) : bool := t_active_sockets self =? 0.

Record UdpMetrics := mkUdpMetrics {
  u_active_sockets : Z;
  u_bytes : Z;
  u_addr_changes : Z;
  u_packets : Z;
  u_drops : Z;
}.

Definition udp_default : UdpMetrics := mkUdpMetrics 0 0 0 0 0.

Definition udp_add_from {E} (p : profile) (self other : UdpMetrics) : res E UdpMetrics :=
  let? active_sockets := add_chk p 64 (u_active_sockets self) (u_active_sockets other) in
  let? bytes := add_chk p 64 (u_bytes self) (u_bytes other) in
  let? addr_changes := add_chk p 64 (u_addr_changes self) (u_addr_changes other) in
  let? packets := add_chk p 64 (u_packets self) (u_packets other) in
  let? drops := add_chk p 64 (u_drops self) (u_drops other) in
  Ok (mkUdpMetrics active_sockets bytes addr_changes packets drops).

Definition udp_is_zero (self : UdpMetrics) : bool := u_active_sockets self =? 0.

Record HttpMetrics := mkHttpMetrics {
  h_active_sockets : Z;
  h_sum_total_time_ns : Z;
  h_sum_processing_time_ns : Z;
  h_sum_code_200 : Z;
  h_sum_code_400 : Z;
  h_sum_code_500 : Z;
  h_sum_code_other : Z;
}.

Definition http_default : HttpMetrics := mkHttpMetrics 0 0 0 0 0 0 0.

Definition http_add_from {E} (p : profile) (self other : HttpMetrics) : res E HttpMetrics :=
  let? active_sockets := add_chk p 64 (h_active_sockets self) (h_active_sockets other) in
  let? sum_total_time_ns := add_chk p 64 (h_sum_total_time_ns self) (h_sum_total_time_ns other) in
  let? sum_processing_time_ns := add_chk p 64 (h_sum_processing_time_ns self) (h_sum_processing_time_ns other) in
  let? sum_code_200 := add_chk p 64 (h_sum_code_200 self) (h_sum_code_200 other) in
  let? sum_code_400 := add_chk p 64 (h_sum_code_400 self) (h_sum_code_400 other) in
  let? sum_code_500 := add_chk p 64 (h_sum_code_500 self) (h_sum_code_500 other) in
  let? sum_code_other := add_chk p 64 (h_sum_code_other self) (h_sum_code_other other) in
  Ok (mkHttpMetrics active_sockets sum_total_time_ns sum_processing_time_ns sum_code_200 sum_code_400 sum_code_500 sum_code_other).

Definition http_is_zero (self : HttpMetrics) : bool := h_active_sockets self =? 0.

Record DnsMetrics := mkDnsMetrics {
  d_active_sockets : Z;
  d_sum_total_time_ns : Z;
  d_sum_processing_time_ns : Z;
  d_requests_a : Z;
  d_requests_aaaa : Z;
  d_responses : Z;
  d_timeouts : Z;
}.

Definition dns_default : DnsMetrics := mkDnsMetrics 0 0 0 0 0 0 0.

Definition dns_add_from {E} (p : profile) (self other : DnsMetrics) : res E DnsMetrics :=
  let? active_sockets := add_chk p 64 (d_active_sockets self) (d_active_sockets other) in
  let? sum_total_time_ns := add_chk p 64 (d_sum_total_time_ns self) (d_sum_total_time_ns other) in
  let? sum_processing_time_ns := add_chk p 64 (d_sum_processing_time_ns self) (d_sum_processing_time_ns other) in
  let? requests_a := add_chk p 64 (d_requests_a self) (d_requests_a other) in
  let? requests_aaaa := add_chk p 64 (d_requests_aaaa self) (d_requests_aaaa other) in
  let? responses := add_chk p 64 (d_responses self) (d_responses other) in
  let? timeouts := add_chk p 64 (d_timeouts self) (d_timeouts other) in
  Ok (mkDnsMetrics active_sockets sum_total_time_ns sum_processing_time_ns requests_a requests_aaaa responses timeouts).

Definition dns_is_zero (self : DnsMetrics) : bool := d_active_sockets self =? 0.

(** ** AllMetrics (aggregator.rs) *)

Record AllMetrics := mkAll {
  tcp : TcpMetrics;
  udp : UdpMetrics;
  http : HttpMetrics;
  dns : DnsMetrics;
  tcp_prev_window_had_samples : bool;
  udp_prev_window_had_samples : bool;
  http_prev_window_had_samples : bool;
  dns_prev_window_had_samples : bool;
}.

#[export] Instance TcpMetrics_eq_dec : EqDecision TcpMetrics.
Proof. solve_decision. Defined.
#[export] Instance UdpMetrics_eq_dec : EqDecision UdpMetrics.
Proof. solve_decision. Defined.
#[export] Instance HttpMetrics_eq_dec : EqDecision HttpMetrics.
Proof. solve_decision. Defined.
#[export] Instance DnsMetrics_eq_dec : EqDecision DnsMetrics.
Proof. solve_decision. Defined.
#[export] Instance AllMetrics_eq_dec : EqDecision AllMetrics.
Proof. solve_decision. Defined.

Definition all_default : AllMetrics :=
  mkAll tcp_default udp_default http_default dns_default false false false false.

Definition all_add {E} (p : profile) (self other : AllMetrics) : res E AllMetrics :=
  let? t := tcp_add_from p (tcp self) (tcp other) in
  let? u := udp_add_from p (udp self) (udp other) in
  let? h := http_add_from p (http self) (http other) in
  let? d := dns_add_from p (dns self) (dns other) in
  Ok (mkAll t u h d
        (tcp_prev_window_had_samples self || tcp_prev_window_had_samples other)
        (udp_prev_window_had_samples self || udp_prev_window_had_samples other)
        (http_prev_window_had_samples self || http_prev_window_had_samples other)
        (dns_prev_window_had_samples self || dns_prev_window_had_samples other)).

Definition should_emit_any (m : AllMetrics) : bool :=
  let tcp_emit := negb (tcp_is_zero (tcp m)) || tcp_prev_window_had_samples m in
  let udp_emit := negb (udp_is_zero (udp m)) || udp_prev_window_had_samples m in
  let http_emit := negb (http_is_zero (http m)) || http_prev_window_had_samples m in
  let dns_emit := negb (dns_is_zero (dns m)) || dns_prev_window_had_samples m in
  tcp_emit || udp_emit || http_emit || dns_emit.

(** The metrics an entry starts the next window with. *)
Definition next_window (m : AllMetrics) : AllMetrics :=
  let had_tcp := negb (tcp_is_zero (tcp m)) in
  let had_udp := negb (udp_is_zero (udp m)) in
  let had_http := negb (http_is_zero (http m)) in
  let had_dns := negb (dns_is_zero (dns m)) in
  mkAll tcp_default udp_default http_default dns_default had_tcp had_udp had_http had_dns.

(** Whether the window had samples of any protocol. *)
Definition had_samples (m : AllMetrics) : bool :=
  negb (tcp_is_zero (tcp m)) || negb (udp_is_zero (udp m))
  || negb (http_is_zero (http m)) || negb (dns_is_zero (dns m)).

(** ** internal_events.rs *)

Record Counters := mkCounters {
  decode_error_agg_root_start : Z;
  decode_error_agg_root_end : Z;
  decode_error_update_node : Z;
  decode_error_update_tcp : Z;
  decode_error_update_udp : Z;
  decode_error_update_http : Z;
  decode_error_update_dns : Z;
  decode_error_pulse : Z;
  missing_root_for_metric : Z;
  metric_before_sides_resolved : Z;
}.

Definition counters_default : Counters := mkCounters 0 0 0 0 0 0 0 0 0 0.

(** The counters by name: [inc] is the ten functions [inc_*]. *)
Inductive counter :=
| DecodeErrorAggRootStart
| DecodeErrorAggRootEnd
| DecodeErrorUpdateNode
| DecodeErrorUpdateTcp
| DecodeErrorUpdateUdp
| DecodeErrorUpdateHttp
| DecodeErrorUpdateDns
| DecodeErrorPulse
| MissingRootForMetric
| MetricBeforeSidesResolved.

Definition count (k : counter) (c : Counters) : Z :=
  match k with
  | DecodeErrorAggRootStart => decode_error_agg_root_start c
  | DecodeErrorAggRootEnd => decode_error_agg_root_end c
  | DecodeErrorUpdateNode => decode_error_update_node c
  | DecodeErrorUpdateTcp => decode_error_update_tcp c
  | DecodeErrorUpdateUdp => decode_error_update_udp c
  | DecodeErrorUpdateHttp => decode_error_update_http c
  | DecodeErrorUpdateDns => decode_error_update_dns c
  | DecodeErrorPulse => decode_error_pulse c
  | MissingRootForMetric => missing_root_for_metric c
  | MetricBeforeSidesResolved => metric_before_sides_resolved c
  end.

(** [n] for the counter [k], else the value it has. *)
Definition pick (k k' : counter) (n : Z) (c : Counters) : Z :=
  match k, k' with
  | DecodeErrorAggRootStart, DecodeErrorAggRootStart | DecodeErrorAggRootEnd, DecodeErrorAggRootEnd
  | DecodeErrorUpdateNode, DecodeErrorUpdateNode | DecodeErrorUpdateTcp, DecodeErrorUpdateTcp
  | DecodeErrorUpdateUdp, DecodeErrorUpdateUdp | DecodeErrorUpdateHttp, DecodeErrorUpdateHttp
  | DecodeErrorUpdateDns, DecodeErrorUpdateDns | DecodeErrorPulse, DecodeErrorPulse
  | MissingRootForMetric, MissingRootForMetric | MetricBeforeSidesResolved, MetricBeforeSidesResolved => n
  | _, _ => count k' c
  end.

Definition inc {E} (k : counter) (p : profile) (c : Counters) : res E Counters :=
  let? n := add_chk p 64 (count k c) 1 in
  let at_ k' := pick k k' n c in
  Ok (mkCounters
      (at_ DecodeErrorAggRootStart) (at_ DecodeErrorAggRootEnd)
      (at_ DecodeErrorUpdateNode) (at_ DecodeErrorUpdateTcp)
      (at_ DecodeErrorUpdateUdp) (at_ DecodeErrorUpdateHttp)
      (at_ DecodeErrorUpdateDns) (at_ DecodeErrorPulse)
      (at_ MissingRootForMetric) (at_ MetricBeforeSidesResolved)).

(** ** Sums of a release build *)

Definition wadd (a b : Z) : Z := wrapping_add 64 a b.

Definition tcp_plus (a b : TcpMetrics) : TcpMetrics :=
  mkTcpMetrics (wadd (t_active_sockets a) (t_active_sockets b)) (wadd (t_sum_bytes a) (t_sum_bytes b))
    (wadd (t_sum_srtt a) (t_sum_srtt b)) (wadd (t_sum_delivered a) (t_sum_delivered b))
    (wadd (t_sum_retrans a) (t_sum_retrans b)) (wadd (t_active_rtts a) (t_active_rtts b))
    (wadd (t_syn_timeouts a) (t_syn_timeouts b)) (wadd (t_new_sockets a) (t_new_sockets b))
    (wadd (t_tcp_resets a) (t_tcp_resets b)).

Definition udp_plus (a b : UdpMetrics) : UdpMetrics :=
  mkUdpMetrics (wadd (u_active_sockets a) (u_active_sockets b)) (wadd (u_bytes a) (u_bytes b))
    (wadd (u_addr_changes a) (u_addr_changes b)) (wadd (u_packets a) (u_packets b))
    (wadd (u_drops a) (u_drops b)).

Definition http_plus (a b : HttpMetrics) : HttpMetrics :=
  mkHttpMetrics (wadd (h_active_sockets a) (h_active_sockets b))
    (wadd (h_sum_total_time_ns a) (h_sum_total_time_ns b))
    (wadd (h_sum_processing_time_ns a) (h_sum_processing_time_ns b))
    (wadd (h_sum_code_200 a) (h_sum_code_200 b)) (wadd (h_sum_code_400 a) (h_sum_code_400 b))
    (wadd (h_sum_code_500 a) (h_sum_code_500 b)) (wadd (h_sum_code_other a) (h_sum_code_other b)).

Definition dns_plus (a b : DnsMetrics) : DnsMetrics :=
  mkDnsMetrics (wadd (d_active_sockets a) (d_active_sockets b))
    (wadd (d_sum_total_time_ns a) (d_sum_total_time_ns b))
    (wadd (d_sum_processing_time_ns a) (d_sum_processing_time_ns b))
    (wadd (d_requests_a a) (d_requests_a b)) (wadd (d_requests_aaaa a) (d_requests_aaaa b))
    (wadd (d_responses a) (d_responses b)) (wadd (d_timeouts a) (d_timeouts b)).

Definition all_plus (a b : AllMetrics) : AllMetrics :=
  mkAll (tcp_plus (tcp a) (tcp b)) (udp_plus (udp a) (udp b))
    (http_plus (http a) (http b)) (dns_plus (dns a) (dns b))
    (tcp_prev_window_had_samples a || tcp_prev_window_had_samples b)
    (udp_prev_window_had_samples a || udp_prev_window_had_samples b)
    (http_prev_window_had_samples a || http_prev_window_had_samples b)
    (dns_prev_window_had_samples a || dns_prev_window_had_samples b).

(** Every sum is a [u64]. *)
Definition u64 (z : Z) : Prop := fits 64 z.

Definition tcp_ok (m : TcpMetrics) : Prop :=
  u64 (t_active_sockets m) /\ u64 (t_sum_bytes m) /\ u64 (t_sum_srtt m) /\ u64 (t_sum_delivered m)
  /\ u64 (t_sum_retrans m) /\ u64 (t_active_rtts m) /\ u64 (t_syn_timeouts m)
  /\ u64 (t_new_sockets m) /\ u64 (t_tcp_resets m).
Definition udp_ok (m : UdpMetrics) : Prop :=
  u64 (u_active_sockets m) /\ u64 (u_bytes m) /\ u64 (u_addr_changes m) /\ u64 (u_packets m)
  /\ u64 (u_drops m).
Definition http_ok (m : HttpMetrics) : Prop :=
  u64 (h_active_sockets m) /\ u64 (h_sum_total_time_ns m) /\ u64 (h_sum_processing_time_ns m)
  /\ u64 (h_sum_code_200 m) /\ u64 (h_sum_code_400 m) /\ u64 (h_sum_code_500 m)
  /\ u64 (h_sum_code_other m).
Definition dns_ok (m : DnsMetrics) : Prop :=
  u64 (d_active_sockets m) /\ u64 (d_sum_total_time_ns m) /\ u64 (d_sum_processing_time_ns m)
  /\ u64 (d_requests_a m) /\ u64 (d_requests_aaaa m) /\ u64 (d_responses m) /\ u64 (d_timeouts m).
Definition all_ok (m : AllMetrics) : Prop :=
  tcp_ok (tcp m) /\ udp_ok (udp m) /\ http_ok (http m) /\ dns_ok (dns m).

Lemma add_chk_release {E} a b : u64 a -> u64 b -> add_chk (E := E) Release 64 a b = Ok (wadd a b).
Proof.
  intros Ha Hb. unfold add_chk, wadd, wrapping_add. destruct (Z.ltb_spec (a + b) (2 ^ 64)); [|done].
  rewrite wrap_small; [done|]. unfold u64, fits in *. lia.
Qed.

Lemma wadd_comm a b : wadd a b = wadd b a.
Proof. unfold wadd, wrapping_add. f_equal. lia. Qed.
Lemma wadd_assoc a b c : wadd a (wadd b c) = wadd (wadd a b) c.
Proof. unfold wadd, wrapping_add. autorewrite with wrapdb. f_equal. lia. Qed.
Lemma wadd_0_l a : u64 a -> wadd 0 a = a.
Proof. intros. unfold wadd, wrapping_add. by apply wrap_small. Qed.
Lemma wadd_ok a b : u64 (wadd a b).
Proof. apply wrap_fits. lia. Qed.

Create HintDb metrics.
#[export] Hint Resolve wadd_ok : metrics.

(** Unfold a statement about metrics into one about each of their fields. *)
Ltac by_field lem :=
  unfold all_plus, tcp_plus, udp_plus, http_plus, dns_plus; simpl; f_equal;
  try (f_equal; apply lem); auto using orb_comm, orb_assoc with metrics.

Lemma all_plus_comm a b : all_plus a b = all_plus b a.
Proof. by_field wadd_comm. Qed.

Lemma all_plus_assoc a b c : all_plus a (all_plus b c) = all_plus (all_plus a b) c.
Proof. by_field wadd_assoc. Qed.

Lemma all_plus_ok a b : all_ok (all_plus a b).
Proof.
  unfold all_ok, tcp_ok, udp_ok, http_ok, dns_ok. simpl. split_and!; auto with metrics.
Qed.

Lemma all_default_ok : all_ok all_default.
Proof. by split_and!. Qed.

Lemma all_plus_default_l m : all_ok m -> all_plus all_default m = m.
Proof.
  destruct m as [[] [] [] []]. unfold all_ok, tcp_ok, udp_ok, http_ok, dns_ok, all_plus,
    tcp_plus, udp_plus, http_plus, dns_plus. simpl. intros H. destruct_and! H.
  rewrite !wadd_0_l by done. done.
Qed.

Lemma all_plus_default_r m : all_ok m -> all_plus m all_default = m.
Proof. intros. by rewrite all_plus_comm, all_plus_default_l. Qed.

Lemma all_add_release {E} a b :
  all_ok a -> all_ok b -> all_add (E := E) Release a b = Ok (all_plus a b).
Proof.
  unfold all_ok, tcp_ok, udp_ok, http_ok, dns_ok. intros Ha Hb. destruct_and! Ha. destruct_and! Hb.
  unfold all_add, tcp_add_from, udp_add_from, http_add_from, dns_add_from.
  rewrite !add_chk_release by done. done.
Qed.

Lemma next_window_ok m : all_ok (next_window m).
Proof. by split_and!. Qed.

(** An entry without samples starts the next window with nothing. *)
Lemma next_window_default m : had_samples m = false -> next_window m = all_default.
Proof.
  unfold had_samples, next_window. intros H. rewrite !orb_false_iff in H.
  destruct H as [[[-> ->] ->] ->]. done.
Qed.
