(* ===== verification/AggFramework.v ===== *)
(** * Group-by and fold (crates/reducer/src/aggregation_framework.rs)

    [aggregate_with] folds items into a map grouped by a projected key.  A
    [HashMap] is a finite map; closures may panic, so they return a result. *)

From S2P Require Import Prelude.

Local Open Scope rust_scope.

Section framework.
Context {Er I R T : Type} `{Countable R}.

(** [dest.entry(r).or_insert_with(init)] followed by [add(entry, &item)], for
    every item in order. *)
Fixpoint aggregate_with (dest : gmap R T) (items : list I) (project : I -> res Er R)
    (init : T) (add : T -> I -> res Er T) : res Er (gmap R T) :=
  match items with
  | [] => Ok dest
  | item :: items =>
      let? r := project item in
      let entry := default init (dest !! r) in
      let? entry' := add entry item in
      aggregate_with (<[r := entry']> dest) items project init add
  end.

Definition aggregate (items : list I) (project : I -> res Er R) (init : T)
    (add : T -> I -> res Er T) : res Er (gmap R T) :=
  aggregate_with ∅ items project init add.

(** ** What the map holds *)

Section pure.
Context (pr : I -> R) (init : T) (ad : T -> I -> T).

(** The items of group [r], in order. *)
Definition group (r : R) (items : list I) : list I := filter (fun i => pr i = r) items.

(** Folding the items of group [r] into the value a map holds for it. *)
Definition folded (d : gmap R T) (r : R) (items : list I) : option T :=
  match group r items with
  | [] => d !! r
  | i :: rest => Some (fold_left ad (i :: rest) (default init (d !! r)))
  end.

Lemma group_cons_eq r i items : pr i = r -> group r (i :: items) = i :: group r items.
Proof. intros Hi. unfold group. by rewrite filter_cons_True. Qed.

Lemma group_cons_ne r i items : pr i <> r -> group r (i :: items) = group r items.
Proof. intros Hi. unfold group. by rewrite filter_cons_False. Qed.

Lemma folded_step d r i items :
  folded d r (i :: items) = folded (<[pr i := ad (default init (d !! pr i)) i]> d) r items.
Proof.
  unfold folded. destruct (decide (pr i = r)) as [<-|Hne].
  - rewrite group_cons_eq by done. rewrite lookup_insert_eq. simpl.
    by destruct (group (pr i) items).
  - rewrite group_cons_ne by done. by rewrite lookup_insert_ne.
Qed.

(** With closures that do not panic on the values they meet, described by
    [P], the aggregation succeeds and every key holds the fold of its own
    items, in order. *)
Lemma aggregate_with_spec (P : T -> Prop) d items project add :
  P init -> map_Forall (fun _ => P) d ->
  Forall (fun i => project i = Ok (pr i)) items ->
  Forall (fun i => forall t, P t -> add t i = Ok (ad t i) /\ P (ad t i)) items ->
  exists m, aggregate_with d items project init add = Ok m
    /\ map_Forall (fun _ => P) m /\ forall r, m !! r = folded d r items.
Proof.
  intros Hinit Hd Hp Ha. revert d Hd. induction items as [|i items IH]; intros d Hd.
  { by exists d. }
  inversion Hp as [|? ? Hpi Hps]; inversion Ha as [|? ? Hai Has]; subst.
  simpl. rewrite Hpi. cbn [rbind].
  assert (P (default init (d !! pr i))) as Hold.
  { destruct (d !! pr i) eqn:Hl; [by apply (Hd (pr i))|done]. }
  destruct (Hai _ Hold) as [-> Hnew]. cbn [rbind].
  destruct (IH Hps Has (<[pr i := ad (default init (d !! pr i)) i]> d)) as (m & Hm & HP & Hl).
  { by apply map_Forall_insert_2. }
  exists m. split; [done|]. split; [done|]. intros r. by rewrite Hl, folded_step.
Qed.

End pure.

End framework.

(** [aggregate] is the reference group-by: with closures that do not
    panic, the map holds exactly the keys some item projects to, each with the
    fold of the items of its group, in their order, from the default value. *)
Theorem aggregate_groups {Er I R T} `{Countable R} (items : list I)
    (pr : I -> R) (init : T) (ad : T -> I -> T) r :
  exists m, aggregate (Er := Er) items (fun i => Ok (pr i)) init (fun t i => Ok (ad t i)) = Ok m
    /\ m !! r = (if decide (r ∈ pr <$> items)
                then Some (fold_left ad (group pr r items) init) else None).
Proof.
  destruct (aggregate_with_spec (Er := Er) pr init ad (fun _ => True) ∅ items
              (fun i => Ok (pr i)) (fun t i => Ok (ad t i))) as (m & Hm & _ & Hl); try done.
  { by apply Forall_true. }
  { by apply Forall_true. }
  exists m. split; [exact Hm|]. rewrite Hl. unfold folded. rewrite lookup_empty. simpl.
  destruct (group pr r items) as [|i rest] eqn:Hg.
  - rewrite decide_False; [done|]. intros (i & -> & Hi)%list_elem_of_fmap.
    assert (i ∈ group pr (pr i) items) as Hin by (by apply list_elem_of_filter).
    rewrite Hg in Hin. by apply elem_of_nil in Hin.
  - rewrite decide_True; [done|].
    assert (i ∈ group pr r items) as Hin by (rewrite Hg; constructor).
    apply list_elem_of_filter in Hin as [<- Hin]. apply list_elem_of_fmap. by exists i.
Qed.
