(* ===== verification/OtlpExport.v ===== *)
(** * The OTLP publisher (crates/otlp_export/src/lib.rs)

    Buffers metric points and, on [flush], builds one export request, sends it
    and accounts for the answer.  The gRPC service is not part of the
    repository: it is the parameter [export], a function from the endpoint and
    the request to the outcome of the call.

    Strings are their UTF-8 bytes.  The request is the tree of protobuf
    messages the source builds, with the fields it sets. *)

From S2P Require Import Prelude Float64.

Local Open Scope rust_scope.

Record Label := mkLabel { key : list Z; value : list Z }.

Inductive MetricKind := KSum | KGauge.

Inductive PointValue := PU64 (v : Z) | PF64 (v : f64).

Record PendingMetric := mkPending {
  pm_name : list Z;
  pm_unit : list Z;
  pm_description : list Z;
  pm_kind : MetricKind;
  pm_labels : list Label;
  pm_timestamp : Z;
  pm_value : PointValue;
}.

Record PublisherStats := mkStats {
  bytes_sent : Z;
  bytes_failed : Z;
  data_points_sent : Z;
  data_points_failed : Z;
  requests_sent : Z;
  requests_failed : Z;
  unknown_response_tags : Z;
}.

(** The counters of the struct are the record that [stats] copies out. *)
Record Publisher := mkPublisher {
  endpoint : list Z;
  resource_attributes : list (list Z * list Z);
  scope_name : list Z;
  buf : list PendingMetric;
  counters : PublisherStats;
  buffered_points : Z;
  buffered_bytes : Z;
}.

(** ** The export request *)

Record KeyValue := mkKV { kv_key : list Z; kv_string : list Z }.

Inductive Value := AsInt (v : Z) | AsDouble (v : f64).

Record NumberDataPoint := mkNDP {
  attributes : list KeyValue;
  start_time_unix_nano : Z;
  time_unix_nano : Z;
  ndp_value : Value;
}.

Inductive Data :=
| DSum (data_points : list NumberDataPoint) (delta : bool) (is_monotonic : bool)
| DGauge (data_points : list NumberDataPoint).

Record Metric := mkMetric {
  m_name : list Z;
  m_description : list Z;
  m_unit : list Z;
  m_data : Data;
}.

Record Request := mkRequest {
  req_resource : list KeyValue;
  req_scope : list Z;
  req_metrics : list Metric;
}.

(** The answer of the service: the number of rejected points of a partial
    success (an [i64]), or a failed call. *)
Inductive Response := Accepted (partial_success : option Z) | Failed.

(** ** Helpers *)

Definition approx_bytes_metric {E} (p : profile) (name : list Z) (labels : list Label) : res E Z :=
  fold_left (fun acc kv =>
    let? n := acc in
    let? a := add_chk p 64 (Z.of_nat (length (key kv))) (Z.of_nat (length (value kv))) in
    let? a := add_chk p 64 a 2 in
    Ok (saturating_add 64 n a)) labels (Ok (Z.of_nat (length name))).

Definition labels_to_otlp_kv (labels : list Label) : list KeyValue :=
  (fun l => mkKV (key l) (value l)) <$> labels.

Definition is_prefix (a b : list Z) : bool := bool_decide (take (length a) b = a).

(** [input.contains(sub)]. *)
Fixpoint contains (sub input : list Z) : bool :=
  is_prefix sub input || match input with [] => false | _ :: input => contains sub input end.

Definition normalize_grpc_endpoint (input : list Z) : list Z :=
  if is_prefix (lit "http://") input || is_prefix (lit "https://") input then input
  else if contains (lit "://") input then input
  else lit "http://" ++ input.

Definition saturating_u64_to_i64 (v : Z) : Z := if 2 ^ 63 - 1 <? v then 2 ^ 63 - 1 else v.

Definition stats_default : PublisherStats := mkStats 0 0 0 0 0 0 0.

Definition otlp_publisher_new (ep : list Z) : Publisher :=
  mkPublisher (normalize_grpc_endpoint ep)
    [(lit "service.name", lit "reducer"); (lit "telemetry.sdk.language", lit "rust")]
    (lit "reducer-ffi") [] stats_default 0 0.

(** ** Publishing *)

Definition push {E} (p : profile) (pb : Publisher) (pm : PendingMetric) : res E Publisher :=
  let? approx := approx_bytes_metric p (pm_name pm) (pm_labels pm) in
  let? points := add_chk p 64 (buffered_points pb) 1 in
  Ok (mkPublisher (endpoint pb) (resource_attributes pb) (scope_name pb) (buf pb ++ [pm])
        (counters pb) points (saturating_add 64 (buffered_bytes pb) approx)).

Definition publish_metric_u64 {E} (p : profile) (pb : Publisher) (name unit_ description : list Z)
    (kind : MetricKind) (labels : list Label) (timestamp v : Z) : res E Publisher :=
  push p pb (mkPending name unit_ description kind labels timestamp (PU64 v)).

Definition publish_metric_f64 {E} (p : profile) (pb : Publisher) (name unit_ description : list Z)
    (kind : MetricKind) (labels : list Label) (timestamp : Z) (v : f64) : res E Publisher :=
  push p pb (mkPending name unit_ description kind labels timestamp (PF64 v)).

(** A flow log is only accounted for; its fields are not used. *)
Definition publish_flow_log {E} (p : profile) (pb : Publisher) : res E Publisher :=
  let? points := add_chk p 64 (buffered_points pb) 1 in
  Ok (mkPublisher (endpoint pb) (resource_attributes pb) (scope_name pb) (buf pb) (counters pb)
        points (saturating_add 64 (buffered_bytes pb) 128)).

(** [i64::saturating_sub]. *)
Definition saturating_sub_i64 (a b : Z) : Z := Z.max (- 2 ^ 63) (Z.min (2 ^ 63 - 1) (a - b)).

Definition point_value (v : PointValue) : Value :=
  match v with
  | PU64 v => AsInt (saturating_u64_to_i64 v)
  | PF64 v => AsDouble v
  end.

(** The metric [flush] builds for one pending point. *)
Definition to_metric (pm : PendingMetric) : Metric :=
  let attrs := labels_to_otlp_kv (pm_labels pm) in
  let time := wrap 64 (pm_timestamp pm) in
  let start_time := wrap 64 (saturating_sub_i64 (pm_timestamp pm) 30000000000) in
  let data :=
    match pm_kind pm with
    | KSum => DSum [mkNDP attrs start_time time (point_value (pm_value pm))] true true
    | KGauge => DGauge [mkNDP attrs 0 time (point_value (pm_value pm))]
    end in
  mkMetric (pm_name pm) (pm_description pm) (pm_unit pm) data.

Definition to_request (pb : Publisher) : Request :=
  mkRequest ((fun '(k, v) => mkKV k v) <$> resource_attributes pb) (scope_name pb)
    (to_metric <$> buf pb).

(** The counters after an answer. *)
Definition account (pb : Publisher) (r : Response) : PublisherStats :=
  let c := counters pb in
  match r with
  | Accepted ps =>
      let '(accepted, failed) :=
        match ps with
        | Some rejected =>
            if 0 <? rejected then
              let rej := wrap 64 rejected in
              (saturating_sub (buffered_points pb) rej, saturating_add 64 (data_points_failed c) rej)
            else (buffered_points pb, data_points_failed c)
        | None => (buffered_points pb, data_points_failed c)
        end in
      mkStats (saturating_add 64 (bytes_sent c) (buffered_bytes pb)) (bytes_failed c)
        (saturating_add 64 (data_points_sent c) accepted) failed
        (saturating_add 64 (requests_sent c) 1) (requests_failed c) (unknown_response_tags c)
  | Failed =>
      mkStats (bytes_sent c) (saturating_add 64 (bytes_failed c) (buffered_bytes pb))
        (data_points_sent c) (saturating_add 64 (data_points_failed c) (buffered_points pb))
        (requests_sent c) (saturating_add 64 (requests_failed c) 1) (unknown_response_tags c)
  end.

(** [flush]: the new state, and the request sent if there was anything to
    send. *)
Definition flush (export : list Z -> Request -> Response) (pb : Publisher)
  : Publisher * option Request :=
  match buf pb with
  | [] => (pb, None)
  | _ =>
      let req := to_request pb in
      let r := export (endpoint pb) req in
      (mkPublisher (endpoint pb) (resource_attributes pb) (scope_name pb) [] (account pb r) 0 0,
       Some req)
  end.

Definition shutdown (export : list Z -> Request -> Response) (pb : Publisher)
  : Publisher * option Request := flush export pb.

Definition stats (pb : Publisher) : PublisherStats := counters pb.

(** ** Sequences of calls *)

Inductive call := Publish (pm : PendingMetric) | FlowLog | Flush.

(** The state and the requests sent, in order. *)
Fixpoint run {E} (p : profile) (export : list Z -> Request -> Response) (pb : Publisher)
    (cs : list call) : res E (Publisher * list Request) :=
  match cs with
  | [] => Ok (pb, [])
  | Publish pm :: cs => let? pb' := push p pb pm in run p export pb' cs
  | FlowLog :: cs => let? pb' := publish_flow_log p pb in run p export pb' cs
  | Flush :: cs =>
      let '(pb', req) := flush export pb in
      rmap (fun '(pb'', reqs) => (pb'', option_list req ++ reqs)) (run p export pb' cs)
  end.

Definition published (cs : list call) : list PendingMetric :=
  omap (fun c => match c with Publish pm => Some pm | _ => None end) cs.

(** The points a run accounts for: metrics and flow logs. *)
Fixpoint points (cs : list call) : nat :=
  match cs with
  | [] => 0
  | Flush :: cs => points cs
  | _ :: cs => S (points cs)
  end.

(** Label and name lengths are sizes of Rust vectors. *)
Definition sized (pm : PendingMetric) : Prop :=
  Z.of_nat (length (pm_name pm)) < 2 ^ 63
  /\ Forall (fun l => Z.of_nat (length (key l)) + Z.of_nat (length (value l)) < 2 ^ 63) (pm_labels pm).

(** The service rejects no more points than the request holds. *)
Definition honest (export : list Z -> Request -> Response) : Prop :=
  forall ep req r, export ep req = Accepted (Some r) -> r <= Z.of_nat (length (req_metrics req)).

Lemma approx_bytes_Ok {E} p name labels :
  Z.of_nat (length name) < 2 ^ 63 ->
  Forall (fun l => Z.of_nat (length (key l)) + Z.of_nat (length (value l)) < 2 ^ 63) labels ->
  exists n, approx_bytes_metric (E := E) p name labels = Ok n.
Proof.
  intros _ Hl. unfold approx_bytes_metric. generalize (Z.of_nat (length name)).
  induction Hl as [|l labels Hl _ IH]; intros n; [by exists n|].
  simpl. unfold add_chk. rewrite (proj2 (Z.ltb_lt _ _)) by lia. cbn [rbind].
  rewrite (proj2 (Z.ltb_lt _ _)) by lia. cbn [rbind]. apply IH.
Qed.

(** Everything a publisher has sent, failed to send or still holds. *)
Definition accounted (pb : Publisher) : Z :=
  data_points_sent (counters pb) + data_points_failed (counters pb) + buffered_points pb.

Record pub_inv (pb : Publisher) : Prop := mkPubInv {
  pi_points : Z.of_nat (length (buf pb)) <= buffered_points pb;
  pi_sent : 0 <= data_points_sent (counters pb);
  pi_failed : 0 <= data_points_failed (counters pb);
}.

Lemma push_spec {E} p pb pm :
  pub_inv pb -> sized pm -> accounted pb + 1 < 2 ^ 64 ->
  exists pb', push (E := E) p pb pm = Ok pb' /\ pub_inv pb'
    /\ accounted pb' = accounted pb + 1 /\ buf pb' = buf pb ++ [pm].
Proof.
  intros [Hp Hs Hf] [Hn Hl] Hacc. unfold push, accounted in *.
  destruct (approx_bytes_Ok (E := E) p _ _ Hn Hl) as [n ->]. cbn [rbind].
  unfold add_chk. rewrite (proj2 (Z.ltb_lt _ _)) by lia. cbn [rbind].
  eexists. split; [done|]. simpl. split_and!; [|lia|done].
  split; simpl; [rewrite length_app; simpl; lia|done|done].
Qed.

Lemma flow_log_spec {E} p pb :
  pub_inv pb -> accounted pb + 1 < 2 ^ 64 ->
  exists pb', publish_flow_log (E := E) p pb = Ok pb' /\ pub_inv pb'
    /\ accounted pb' = accounted pb + 1 /\ buf pb' = buf pb.
Proof.
  intros [Hp Hs Hf] Hacc. unfold publish_flow_log, accounted in *.
  unfold add_chk. rewrite (proj2 (Z.ltb_lt _ _)) by lia. cbn [rbind].
  eexists. split; [done|]. simpl. split_and!; [|lia|done]. split; simpl; lia.
Qed.

Lemma flush_spec export pb :
  honest export -> pub_inv pb -> accounted pb < 2 ^ 63 ->
  let '(pb', req) := flush export pb in
  pub_inv pb' /\ accounted pb' = accounted pb /\ buf pb' = []
  /\ concat (req_metrics <$> option_list req) = to_metric <$> buf pb.
Proof.
  intros Hh [Hp Hs Hf] Hacc. unfold flush. destruct (buf pb) as [|pm rest] eqn:Hb.
  { split_and!; try done. by split; rewrite ?Hb. }
  rewrite <- Hb in *. clear Hb pm rest.
  assert (Z.of_nat (length (req_metrics (to_request pb))) = Z.of_nat (length (buf pb))) as Hreq.
  { simpl. by rewrite length_fmap. }
  destruct (export (endpoint pb) (to_request pb)) as [[rej|]|] eqn:Hex; simpl.
  - pose proof (Hh _ _ _ Hex) as Hrej. unfold accounted, account in *.
    destruct (Z.ltb_spec 0 rej); simpl; unfold saturating_add, saturating_sub, wrap in *.
    + rewrite Z.mod_small by lia. split_and!; [split; simpl; lia|lia|done|by rewrite app_nil_r].
    + split_and!; [split; simpl; lia|lia|done|by rewrite app_nil_r].
  - unfold accounted in *. unfold saturating_add.
    split_and!; [split; simpl; lia|simpl; lia|done|by rewrite app_nil_r].
  - unfold accounted in *. unfold saturating_add.
    split_and!; [split; simpl; lia|simpl; lia|done|by rewrite app_nil_r].
Qed.

Lemma run_spec {E} p export pb cs :
  honest export -> pub_inv pb -> Forall sized (published cs) ->
  accounted pb + Z.of_nat (points cs) < 2 ^ 63 ->
  exists pb' reqs, run (E := E) p export pb cs = Ok (pb', reqs)
    /\ concat (req_metrics <$> reqs) ++ (to_metric <$> buf pb')
       = (to_metric <$> buf pb) ++ (to_metric <$> published cs)
    /\ accounted pb' = accounted pb + Z.of_nat (points cs).
Proof.
  intros Hh. revert pb. induction cs as [|c cs IH]; intros pb Hi Hsz Hacc.
  { exists pb, []. simpl. rewrite app_nil_r. split_and!; [done|done|lia]. }
  destruct c as [pm| |]; unfold published in *; csimpl in *.
  - inversion Hsz as [|? ? Hpm Hsz']; subst.
    destruct (push_spec (E := E) p pb pm Hi Hpm) as (pb1 & -> & Hi1 & Ha1 & Hb1); [lia|].
    destruct (IH pb1 Hi1 Hsz') as (pb' & reqs & Hrun & Hcat & Ha); [lia|].
    exists pb', reqs. split_and!; [done| |lia].
    rewrite Hcat, Hb1, fmap_app, <- app_assoc. done.
  - destruct (flow_log_spec (E := E) p pb Hi) as (pb1 & -> & Hi1 & Ha1 & Hb1); [lia|].
    destruct (IH pb1 Hi1 Hsz) as (pb' & reqs & Hrun & Hcat & Ha); [lia|].
    exists pb', reqs. split_and!; [done|by rewrite Hcat, Hb1|lia].
  - pose proof (flush_spec export pb Hh Hi ltac:(lia)) as Hfl.
    destruct (flush export pb) as [pb1 req]. destruct Hfl as (Hi1 & Ha1 & Hb1 & Hreq).
    destruct (IH pb1 Hi1 Hsz) as (pb' & reqs & Hrun & Hcat & Ha); [lia|].
    exists pb', (option_list req ++ reqs). rewrite Hrun. split_and!; [done| |lia].
    rewrite fmap_app, concat_app, Hreq, <- app_assoc, Hcat, Hb1. done.
Qed.


(** ** Witness *)

Definition sample_point : PendingMetric :=
  mkPending (lit "tcp.bytes") (lit "By") [] KSum [mkLabel (lit "id") (lit "a")] 60000000000 (PU64 7).

(** A service that rejects one point of every request. *)
Definition picky (ep : list Z) (req : Request) : Response :=
  if (length (req_metrics req) =? 0)%nat then Failed else Accepted (Some 1).

Lemma picky_honest : honest picky.
Proof.
  intros ep req r. unfold picky. destruct (Nat.eqb_spec (length (req_metrics req)) 0); [done|].
  intros [= <-]. lia.
Qed.

