(* ===== verification/OtlpEncoding.v ===== *)
(** * Labels and metric points (crates/reducer/src/otlp_encoding.rs, with the
      identity types of aggregator.rs)

    Turns the sums of a window and the identities of its two ends into the
    labelled points handed to the publisher of [OtlpExport]. *)

From S2P Require Import Prelude Float64 OtlpExport Metrics.

Local Open Scope rust_scope.

(** ** Identities (aggregator.rs) *)

Record Az := mkAz {
  az : list Z;
  role : list Z;
  version : list Z;
  env : list Z;
  ns : list Z;
  node_type : Z;
  process : list Z;
  container : list Z;
  role_uid : list Z;
}.

Record Node := mkNode { id : list Z; address : list Z; pod_name : list Z }.

#[export] Instance Az_eq_dec : EqDecision Az.
Proof. solve_decision. Defined.
#[export] Instance Node_eq_dec : EqDecision Node.
Proof. solve_decision. Defined.

(** ** Descriptions *)

(** The constants [DESC_*], by name. *)
Inductive description :=
| TCP_BYTES | TCP_RTT_NUM | TCP_ACTIVE | TCP_RTT_AVG | TCP_PACKETS | TCP_RETRANS | TCP_SYN_TIMEOUTS | TCP_NEW_SOCKETS | TCP_RESETS
| UDP_BYTES | UDP_PACKETS | UDP_ACTIVE | UDP_DROPS
| DNS_CLIENT_AVG | DNS_SERVER_AVG | DNS_ACTIVE | DNS_RESPONSES | DNS_TIMEOUTS
| HTTP_CLIENT_AVG | HTTP_SERVER_AVG | HTTP_ACTIVE | HTTP_STATUS.

Definition DESC (d : description) : list Z := lit
  match d with
  | TCP_BYTES =>
      "The total number of TCP bytes between the source and destination measured for the prior thirty seconds."
  | TCP_RTT_NUM =>
      "The number of measurements made in calculating the current RTT average value."
  | TCP_ACTIVE =>
      "The number of TCP connections considered to be open and alive between the source and destination at the point the measurement was taken."
  | TCP_RTT_AVG =>
      "The computed average round trip time between the source and destination as measured in microseconds."
  | TCP_PACKETS =>
      "The total number of TCP packets between the source and destination measured for the prior thirty seconds."
  | TCP_RETRANS =>
      "The total number of TCP retransmission requests between the source and destination measured for the prior thirty seconds."
  | TCP_SYN_TIMEOUTS =>
      "The total number of TCP SYN timeouts between the source and destination measured for the prior thirty seconds."
  | TCP_NEW_SOCKETS =>
      "The total number of new TCP sockets opened between the source and destination measured for the prior thirty seconds."
  | TCP_RESETS =>
      "The total number of TCP resets sent between the source and destination measured for the prior thirty seconds."
  | UDP_BYTES =>
      "The total number of UDP bytes between the source and destination measured for the prior thirty seconds."
  | UDP_PACKETS =>
      "The total number of UDP packets between the source and destination measured for the prior thirty seconds."
  | UDP_ACTIVE =>
      "The number of UDP connections considered to be open and alive between the source and destination at the point the measurement was taken."
  | UDP_DROPS =>
      "The total number of UDP connections dropped between the source and destination measured for the prior thirty seconds."
  | DNS_CLIENT_AVG =>
      "This metric is the average duration in microseconds from when the client sends a DNS request, until the response is received back from the server. As such, it includes the communication round-trip times, plus the server processing latency. Computed by the summation of all times, divided by dns.responses."
  | DNS_SERVER_AVG =>
      "This metric is the average duration in microseconds for the server to respond to a request received locally. Thus, it does not include the network latency from or to the client. Computed by the summation of all times, divided by dns.responses."
  | DNS_ACTIVE =>
      "The number of DNS connections for which measurements were taken in the prior thirty seconds."
  | DNS_RESPONSES =>
      "The total number of DNS responses sent between the source and destination measured for the prior thirty seconds."
  | DNS_TIMEOUTS =>
      "The total number of DNS timeouts between the source and destination measured for the prior thirty seconds."
  | HTTP_CLIENT_AVG =>
      "This metric is the average duration in microseconds from when the client sends an HTTP request, until the response is received back from the server. As such, it includes the communication round-trip times, plus the server processing latency. Computed by summation of all times, divided by http.active_sockets."
  | HTTP_SERVER_AVG =>
      "This metric is the average duration in microseconds for the server to respond to a request received locally. Thus, it does not include the network latency from or to the client. Computed by summation of all times, divided by http.active_sockets."
  | HTTP_ACTIVE =>
      "The number of unencrypted HTTPv1 connections for which measurements were taken in the prior thirty seconds."
  | HTTP_STATUS =>
      "For a given class of response code (see 'response_code' dimension), the number of times an unencrypted server sent an HTTPv1 status code between the source and destination measured for the prior thirty seconds."
  end.

(** ** Labels *)

Abbreviation Labels := (list Label).

Definition resolution_type_string (node_type : Z) : list Z :=
  match node_type with
  | 0 => lit "NONE"
  | 1 => lit "IP"
  | 2 => lit "DNS"
  | 3 => lit "AWS"
  | 4 => lit "INSTANCE_METADATA"
  | 5 => lit "PROCESS"
  | 6 => lit "LOCALHOST"
  | 7 => lit "K8S_CONTAINER"
  | 8 => lit "CONTAINER"
  | 9 => lit "NOMAD"
  | _ => []
  end.

Definition add_node_labels (prefix : string) (node : option Node) (a : option Az) (out : Labels)
  : Labels :=
  let p k := lit prefix ++ lit k in
  let out := out ++
    match a with
    | Some a =>
        [mkLabel (p "workload.name") (role a); mkLabel (p "workload.uid") (role_uid a);
         mkLabel (p "availability_zone") (az a);
         mkLabel (p "resolution_type") (resolution_type_string (node_type a));
         mkLabel (p "image_version") (version a); mkLabel (p "environment") (env a);
         mkLabel (p "namespace.name") (ns a); mkLabel (p "process.name") (process a);
         mkLabel (p "container.name") (container a)]
    | None => []
    end in
  out ++
    match node with
    | Some n =>
        [mkLabel (p "id") (id n); mkLabel (p "ip") (address n); mkLabel (p "pod") (pod_name n)]
    | None => []
    end.

Definition LABEL_SF_PRODUCT : list Z := lit "sf_product".
Definition LABEL_SF_PRODUCT_VALUE : list Z := lit "network-explorer".
Definition LABEL_AGGREGATION : list Z := lit "aggregation".

(** ** The exporter *)

Record OtlpExporter := mkExporter {
  enable_descriptions : bool;
  ex_endpoint : list Z;
  publisher : Publisher;
}.

Definition exporter_with_endpoint (ep : list Z) (descriptions : bool) : OtlpExporter :=
  mkExporter descriptions ep (otlp_publisher_new ep).

Definition exporter_new_local (descriptions : bool) : OtlpExporter :=
  let ep := lit "http://localhost:4317" in
  mkExporter descriptions ep (otlp_publisher_new ep).

Section exporter.
Context {E : Type} (p : profile).
Implicit Types ex : OtlpExporter.

Definition with_publisher ex (pb : Publisher) : OtlpExporter :=
  mkExporter (enable_descriptions ex) (ex_endpoint ex) pb.

Definition publish_u64 ex (name unit_ desc : list Z) (kind : MetricKind) (labels : Labels) (ts v : Z)
  : res E OtlpExporter :=
  rmap (with_publisher ex)
    (publish_metric_u64 p (publisher ex) name unit_ (if enable_descriptions ex then desc else [])
       kind labels ts v).

Definition publish_f64 ex (name unit_ desc : list Z) (kind : MetricKind) (labels : Labels) (ts : Z)
    (v : f64) : res E OtlpExporter :=
  rmap (with_publisher ex)
    (publish_metric_f64 p (publisher ex) name unit_ (if enable_descriptions ex then desc else [])
       kind labels ts v).

(** [x as f64 / c / n as f64], or zero when there is nothing to average. *)
Definition average (x n : Z) (divisors : list Z) : f64 :=
  if 0 <? n
  then f64_div (fold_left (fun acc c => f64_div acc (f64_of_Z c)) divisors (f64_of_Z x)) (f64_of_Z n)
  else f64_zero.

Definition emit_tcp ex (ts : Z) (labels : Labels) (t : TcpMetrics) : res E OtlpExporter :=
  let? ex := publish_u64 ex (lit "tcp.bytes") (lit "By") (DESC TCP_BYTES) KSum labels ts (t_sum_bytes t) in
  let? ex := publish_u64 ex (lit "tcp.rtt.num_measurements") (lit "1") (DESC TCP_RTT_NUM) KGauge labels ts
               (t_active_rtts t) in
  let? ex := publish_u64 ex (lit "tcp.active") (lit "1") (DESC TCP_ACTIVE) KGauge labels ts
               (t_active_sockets t) in
  let avg_us := average (t_sum_srtt t) (t_active_rtts t) [8; 1000000] in
  let? ex := publish_f64 ex (lit "tcp.rtt.average") (lit "us") (DESC TCP_RTT_AVG) KGauge labels ts avg_us in
  let? ex := publish_u64 ex (lit "tcp.packets") (lit "1") (DESC TCP_PACKETS) KSum labels ts
               (t_sum_delivered t) in
  let? ex := publish_u64 ex (lit "tcp.retrans") (lit "1") (DESC TCP_RETRANS) KSum labels ts
               (t_sum_retrans t) in
  let? ex := publish_u64 ex (lit "tcp.syn_timeouts") (lit "1") (DESC TCP_SYN_TIMEOUTS) KSum labels ts
               (t_syn_timeouts t) in
  let? ex := publish_u64 ex (lit "tcp.new_sockets") (lit "1") (DESC TCP_NEW_SOCKETS) KSum labels ts
               (t_new_sockets t) in
  publish_u64 ex (lit "tcp.resets") (lit "1") (DESC TCP_RESETS) KSum labels ts (t_tcp_resets t).

Definition emit_udp ex (ts : Z) (labels : Labels) (u : UdpMetrics) : res E OtlpExporter :=
  let? ex := publish_u64 ex (lit "udp.bytes") (lit "By") (DESC UDP_BYTES) KSum labels ts (u_bytes u) in
  let? ex := publish_u64 ex (lit "udp.packets") (lit "1") (DESC UDP_PACKETS) KSum labels ts (u_packets u) in
  let? ex := publish_u64 ex (lit "udp.active") (lit "1") (DESC UDP_ACTIVE) KGauge labels ts
               (u_active_sockets u) in
  publish_u64 ex (lit "udp.drops") (lit "1") (DESC UDP_DROPS) KSum labels ts (u_drops u).

Definition emit_dns ex (ts : Z) (labels : Labels) (d : DnsMetrics) : res E OtlpExporter :=
  let? ex := publish_u64 ex (lit "dns.active_sockets") (lit "1") (DESC DNS_ACTIVE) KGauge labels ts
               (d_active_sockets d) in
  let? ex := publish_u64 ex (lit "dns.responses") (lit "1") (DESC DNS_RESPONSES) KSum labels ts
               (d_responses d) in
  let avg_client_us := average (d_sum_total_time_ns d) (d_responses d) [1000000000] in
  let avg_server_us := average (d_sum_processing_time_ns d) (d_responses d) [1000000000] in
  let? ex := publish_f64 ex (lit "dns.client.duration.average") (lit "us") (DESC DNS_CLIENT_AVG) KGauge
               labels ts avg_client_us in
  let? ex := publish_f64 ex (lit "dns.server.duration.average") (lit "us") (DESC DNS_SERVER_AVG) KGauge
               labels ts avg_server_us in
  publish_u64 ex (lit "dns.timeouts") (lit "1") (DESC DNS_TIMEOUTS) KSum labels ts (d_timeouts d).

Definition emit_http ex (ts : Z) (labels : Labels) (h : HttpMetrics) : res E OtlpExporter :=
  let? ex := publish_u64 ex (lit "http.active_sockets") (lit "1") (DESC HTTP_ACTIVE) KGauge labels ts
               (h_active_sockets h) in
  let? total := add_chk p 64 (h_sum_code_200 h) (h_sum_code_400 h) in
  let? total := add_chk p 64 total (h_sum_code_500 h) in
  let? total := add_chk p 64 total (h_sum_code_other h) in
  let? ex := publish_u64 ex (lit "http.requests") (lit "1") [] KSum labels ts total in
  let avg_client_us := average (h_sum_total_time_ns h) total [1000000] in
  let avg_server_us := average (h_sum_processing_time_ns h) total [1000000] in
  let? ex := publish_f64 ex (lit "http.client.duration.average") (lit "us") (DESC HTTP_CLIENT_AVG) KGauge
               labels ts avg_client_us in
  let? ex := publish_f64 ex (lit "http.server.duration.average") (lit "us") (DESC HTTP_SERVER_AVG) KGauge
               labels ts avg_server_us in
  let with_code c := labels ++ [mkLabel (lit "status_code") (lit c)] in
  let? ex := publish_u64 ex (lit "http.status_code") (lit "1") (DESC HTTP_STATUS) KSum (with_code "200") ts
               (h_sum_code_200 h) in
  let? ex := publish_u64 ex (lit "http.status_code") (lit "1") (DESC HTTP_STATUS) KSum (with_code "400") ts
               (h_sum_code_400 h) in
  let? ex := publish_u64 ex (lit "http.status_code") (lit "1") (DESC HTTP_STATUS) KSum (with_code "500") ts
               (h_sum_code_500 h) in
  publish_u64 ex (lit "http.status_code") (lit "1") (DESC HTTP_STATUS) KSum (with_code "other") ts
    (h_sum_code_other h).

Definition emit_all_metrics ex (ts : Z) (labels : Labels) (m : AllMetrics) : res E OtlpExporter :=
  let? ex := if negb (tcp_is_zero (tcp m)) || tcp_prev_window_had_samples m
             then emit_tcp ex ts labels (tcp m) else Ok ex in
  let? ex := if negb (udp_is_zero (udp m)) || udp_prev_window_had_samples m
             then emit_udp ex ts labels (udp m) else Ok ex in
  let? ex := if negb (http_is_zero (http m)) || http_prev_window_had_samples m
             then emit_http ex ts labels (http m) else Ok ex in
  if negb (dns_is_zero (dns m)) || dns_prev_window_had_samples m
  then emit_dns ex ts labels (dns m) else Ok ex.

End exporter.

(** [flush] of the exporter, with the request sent. *)
Definition exporter_flush (export : list Z -> Request -> Response) (ex : OtlpExporter)
  : OtlpExporter * option Request :=
  let '(pb, req) := flush export (publisher ex) in
  (with_publisher ex pb, req).

(** ** What a window publishes *)

(** The points of one emission, in order. *)
Definition tcp_rows (t : TcpMetrics) : list (string * PointValue) :=
  [("tcp.bytes"%string, PU64 (t_sum_bytes t)); ("tcp.rtt.num_measurements"%string, PU64 (t_active_rtts t));
   ("tcp.active"%string, PU64 (t_active_sockets t));
   ("tcp.rtt.average"%string, PF64 (average (t_sum_srtt t) (t_active_rtts t) [8; 1000000]));
   ("tcp.packets"%string, PU64 (t_sum_delivered t)); ("tcp.retrans"%string, PU64 (t_sum_retrans t));
   ("tcp.syn_timeouts"%string, PU64 (t_syn_timeouts t)); ("tcp.new_sockets"%string, PU64 (t_new_sockets t));
   ("tcp.resets"%string, PU64 (t_tcp_resets t))].

Definition udp_rows (u : UdpMetrics) : list (string * PointValue) :=
  [("udp.bytes"%string, PU64 (u_bytes u)); ("udp.packets"%string, PU64 (u_packets u));
   ("udp.active"%string, PU64 (u_active_sockets u)); ("udp.drops"%string, PU64 (u_drops u))].

Definition requests (h : HttpMetrics) : Z :=
  wadd (wadd (wadd (h_sum_code_200 h) (h_sum_code_400 h)) (h_sum_code_500 h)) (h_sum_code_other h).

Definition http_rows (h : HttpMetrics) : list (string * PointValue) :=
  [("http.active_sockets"%string, PU64 (h_active_sockets h)); ("http.requests"%string, PU64 (requests h));
   ("http.client.duration.average"%string, PF64 (average (h_sum_total_time_ns h) (requests h) [1000000]));
   ("http.server.duration.average"%string, PF64 (average (h_sum_processing_time_ns h) (requests h) [1000000]));
   ("http.status_code"%string, PU64 (h_sum_code_200 h)); ("http.status_code"%string, PU64 (h_sum_code_400 h));
   ("http.status_code"%string, PU64 (h_sum_code_500 h)); ("http.status_code"%string, PU64 (h_sum_code_other h))].

Definition dns_rows (d : DnsMetrics) : list (string * PointValue) :=
  [("dns.active_sockets"%string, PU64 (d_active_sockets d)); ("dns.responses"%string, PU64 (d_responses d));
   ("dns.client.duration.average"%string, PF64 (average (d_sum_total_time_ns d) (d_responses d) [1000000000]));
   ("dns.server.duration.average"%string,
    PF64 (average (d_sum_processing_time_ns d) (d_responses d) [1000000000]));
   ("dns.timeouts"%string, PU64 (d_timeouts d))].

Definition rows (m : AllMetrics) : list (string * PointValue) :=
  (if negb (tcp_is_zero (tcp m)) || tcp_prev_window_had_samples m then tcp_rows (tcp m) else [])
  ++ (if negb (udp_is_zero (udp m)) || udp_prev_window_had_samples m then udp_rows (udp m) else [])
  ++ (if negb (http_is_zero (http m)) || http_prev_window_had_samples m then http_rows (http m) else [])
  ++ (if negb (dns_is_zero (dns m)) || dns_prev_window_had_samples m then dns_rows (dns m) else []).

(** A point with its row: name, value, time, and labels that extend the
    given ones. *)
Definition is_row (ts : Z) (labels : Labels) (pm : PendingMetric) (r : string * PointValue) : Prop :=
  pm_name pm = lit (fst r) /\ pm_value pm = snd r /\ pm_timestamp pm = ts
  /\ (pm_labels pm = labels
      \/ exists c, pm_labels pm = labels ++ [mkLabel (lit "status_code") c]).

(** [ex'] is [ex] with the rows appended to its buffer. *)
Definition appends (ts : Z) (labels : Labels) (ex ex' : OtlpExporter) (rs : list (string * PointValue))
  : Prop :=
  exists pts, buf (publisher ex') = buf (publisher ex) ++ pts /\ Forall2 (is_row ts labels) pts rs
    /\ enable_descriptions ex' = enable_descriptions ex /\ ex_endpoint ex' = ex_endpoint ex
    /\ endpoint (publisher ex') = endpoint (publisher ex)
    /\ resource_attributes (publisher ex') = resource_attributes (publisher ex)
    /\ scope_name (publisher ex') = scope_name (publisher ex)
    /\ counters (publisher ex') = counters (publisher ex).

Lemma appends_nil ts labels ex : appends ts labels ex ex [].
Proof. exists []. by rewrite app_nil_r. Qed.

Lemma appends_trans ts labels ex1 ex2 ex3 r1 r2 :
  appends ts labels ex1 ex2 r1 -> appends ts labels ex2 ex3 r2 -> appends ts labels ex1 ex3 (r1 ++ r2).
Proof.
  intros (p1 & Hb1 & Hr1 & H1) (p2 & Hb2 & Hr2 & H2). exists (p1 ++ p2).
  rewrite Hb2, Hb1, app_assoc. split; [done|]. split; [by apply Forall2_app|]. intuition congruence.
Qed.

Lemma add_chk_release_total {E} a b : exists n, add_chk (E := E) Release 64 a b = Ok n.
Proof. unfold add_chk. destruct (_ <? _); eauto. Qed.

Lemma approx_bytes_release {E} name labels :
  exists n, approx_bytes_metric (E := E) Release name labels = Ok n.
Proof.
  unfold approx_bytes_metric. generalize (Z.of_nat (length name)).
  induction labels as [|l labels IH]; intros n; [by exists n|]. simpl.
  destruct (add_chk_release_total (E := E) (Z.of_nat (length (key l))) (Z.of_nat (length (value l))))
    as [a ->]. cbn [rbind].
  destruct (add_chk_release_total (E := E) a 2) as [b ->]. apply IH.
Qed.

Lemma push_release {E} ex pm r ts labels :
  is_row ts labels pm r ->
  exists ex', rmap (with_publisher ex) (push (E := E) Release (publisher ex) pm) = Ok ex'
    /\ appends ts labels ex ex' [r].
Proof.
  intros Hr. unfold push. destruct (approx_bytes_release (E := E) (pm_name pm) (pm_labels pm)) as [n ->].
  destruct (add_chk_release_total (E := E) (buffered_points (publisher ex)) 1) as [k ->].
  eexists. split; [reflexivity|]. exists [pm]. simpl. split_and!; try done. by constructor.
Qed.

(** A chain of emissions, one row at a time. *)
Lemma appends_bind {E} ts labels ex (c : res E OtlpExporter) k r rs :
  (exists ex', c = Ok ex' /\ appends ts labels ex ex' r) ->
  (forall ex', exists ex'', k ex' = Ok ex'' /\ appends ts labels ex' ex'' rs) ->
  exists ex'', rbind c k = Ok ex'' /\ appends ts labels ex ex'' (r ++ rs).
Proof.
  intros (ex' & -> & H1) Hk. destruct (Hk ex') as (ex'' & H & H2). exists ex''.
  split; [done|]. eapply appends_trans; eauto.
Qed.

Ltac emit_row := first
  [ eapply (appends_bind _ _ _ _ _ [_] (_ :: _));
      [apply push_release; split_and!; [reflexivity|reflexivity|reflexivity|eauto]|intros ?]
  | apply push_release; split_and!; [reflexivity|reflexivity|reflexivity|eauto] ].

Lemma emit_tcp_release {E} ex ts labels t :
  exists ex', emit_tcp (E := E) Release ex ts labels t = Ok ex' /\ appends ts labels ex ex' (tcp_rows t).
Proof. unfold emit_tcp, tcp_rows, publish_u64, publish_f64. repeat emit_row. Qed.

Lemma emit_udp_release {E} ex ts labels u :
  exists ex', emit_udp (E := E) Release ex ts labels u = Ok ex' /\ appends ts labels ex ex' (udp_rows u).
Proof. unfold emit_udp, udp_rows, publish_u64. repeat emit_row. Qed.

Lemma emit_dns_release {E} ex ts labels d :
  exists ex', emit_dns (E := E) Release ex ts labels d = Ok ex' /\ appends ts labels ex ex' (dns_rows d).
Proof. unfold emit_dns, dns_rows, publish_u64, publish_f64. repeat emit_row. Qed.

Lemma emit_http_release {E} ex ts labels h :
  http_ok h ->
  exists ex', emit_http (E := E) Release ex ts labels h = Ok ex' /\ appends ts labels ex ex' (http_rows h).
Proof.
  intros (_ & _ & _ & H2 & H4 & H5 & Ho). unfold emit_http, http_rows, publish_u64, publish_f64. emit_row.
  rewrite add_chk_release by done. cbn [rbind]. rewrite add_chk_release by auto with metrics.
  cbn [rbind]. rewrite add_chk_release by auto with metrics. cbn [rbind]. fold (requests h).
  repeat emit_row.
Qed.

Lemma emit_all_release {E} ex ts labels m :
  all_ok m ->
  exists ex', emit_all_metrics (E := E) Release ex ts labels m = Ok ex'
    /\ appends ts labels ex ex' (rows m).
Proof.
  intros (_ & _ & Hh & _). unfold emit_all_metrics, rows.
  repeat (apply appends_bind; [|intros ?]);
    match goal with |- context [if ?b then _ else _] => destruct b end;
    eauto using emit_tcp_release, emit_udp_release, emit_dns_release, emit_http_release, appends_nil.
Qed.


(** The unit of the averages.  One DNS response that took one second is
    published as [1.0] and one HTTP request that took one second as [1000.0],
    both under the unit [us]. *)
Theorem averages_are_not_microseconds :
  exists ex1 ex2 p1 p2,
    emit_dns (E := unit) Release (exporter_new_local false) 0 []
      (mkDnsMetrics 1 1000000000 0 1 0 1 0) = Ok ex1
    /\ emit_http (E := unit) Release (exporter_new_local false) 0 []
         (mkHttpMetrics 1 1000000000 0 1 0 0 0) = Ok ex2
    /\ buf (publisher ex1) !! 2%nat = Some p1 /\ buf (publisher ex2) !! 2%nat = Some p2
    /\ pm_name p1 = lit "dns.client.duration.average" /\ pm_value p1 = PF64 (f64_of_Z 1)
    /\ pm_name p2 = lit "http.client.duration.average" /\ pm_value p2 = PF64 (f64_of_Z 1000)
    /\ pm_unit p1 = lit "us" /\ pm_unit p2 = lit "us".
Proof. do 4 eexists. split_and!; vm_compute; reflexivity. Qed.

Definition sample_metrics : AllMetrics :=
  mkAll (mkTcpMetrics 1 100 8 3 0 1 0 1 0) udp_default http_default dns_default
    false true false false.

