(* ===== verification/RcHashMap.v ===== *)
(** * Reference counted hash maps

    The reducer interns identities in maps of the external crate
    [rc_hashmap].  The crate is a parameter of the model: a class of the
    operations the reducer uses and a class of what its documentation says of
    them.  An entry lives while a [Ref] to it is held; [rc_collect] stands for
    the removal of entries whose last [Ref] has been dropped. *)

From S2P Require Import Prelude.

Class RcHashMap (ref : Type) (store : Type -> Type -> Type) := {
  rc_new : forall {K V}, store K V;
  rc_find : forall {K V} `{EqDecision K}, store K V -> K -> option ref;
  (** [insert]: an error for a key that is present. *)
  rc_insert : forall {K V} `{EqDecision K}, store K V -> K -> V -> option (ref * store K V);
  rc_key : forall {K V}, store K V -> ref -> option K;
  rc_value : forall {K V}, store K V -> ref -> option V;
  (** Writing through [value_mut]. *)
  rc_set : forall {K V}, store K V -> ref -> V -> store K V;
  rc_iter : forall {K V}, store K V -> list ref;
  (** The store once only the given references are held. *)
  rc_collect : forall {K V}, store K V -> list ref -> store K V;
}.

(** What the operations promise, over the entries a store holds. *)
Class RcHashMapLaws (ref : Type) (store : Type -> Type -> Type) `{!RcHashMap ref store}
    `{Countable ref} := {
  rc_entries : forall {K V}, store K V -> gmap ref (K * V);
  rc_entries_new : forall K V, rc_entries (rc_new (K := K) (V := V)) = ∅;
  rc_find_Some : forall K V `{EqDecision K} (s : store K V) k r,
    rc_find s k = Some r -> exists v, rc_entries s !! r = Some (k, v);
  rc_find_None : forall K V `{EqDecision K} (s : store K V) k r v,
    rc_find s k = None -> rc_entries s !! r <> Some (k, v);
  rc_insert_fresh : forall K V `{EqDecision K} (s : store K V) k v,
    rc_find s k = None ->
    exists r s', rc_insert s k v = Some (r, s') /\ rc_entries s !! r = None
      /\ rc_entries s' = <[r := (k, v)]> (rc_entries s);
  rc_key_spec : forall K V (s : store K V) r, rc_key s r = fst <$> rc_entries s !! r;
  rc_value_spec : forall K V (s : store K V) r, rc_value s r = snd <$> rc_entries s !! r;
  rc_set_spec : forall K V (s : store K V) r v,
    rc_entries (rc_set s r v) = alter (fun e => (fst e, v)) r (rc_entries s);
  rc_iter_spec : forall K V (s : store K V), rc_iter s ≡ₚ (map_to_list (rc_entries s)).*1;
  rc_collect_subseteq : forall K V (s : store K V) held, rc_entries (rc_collect s held) ⊆ rc_entries s;
  rc_collect_held : forall K V (s : store K V) held r,
    r ∈ held -> rc_entries (rc_collect s held) !! r = rc_entries s !! r;
}.

(** ** An implementation *)

#[export] Instance gmap_rc : RcHashMap positive (fun K V => gmap positive (K * V)) := {
  rc_new _ _ := ∅;
  rc_find _ _ _ s k := (fun '(_, e) => fst e) <$> list_find (fun e => fst (snd e) = k) (map_to_list s);
  rc_insert _ _ _ s k v :=
    match list_find (fun e => fst (snd e) = k) (map_to_list s) with
    | Some _ => None
    | None => let r := fresh (dom s) in Some (r, <[r := (k, v)]> s)
    end;
  rc_key _ _ s r := fst <$> s !! r;
  rc_value _ _ s r := snd <$> s !! r;
  rc_set _ _ s r v := alter (fun e => (fst e, v)) r s;
  rc_iter _ _ s := (map_to_list s).*1;
  rc_collect _ _ s held := filter (fun e => fst e ∈ held) s;
}.

#[export] Instance gmap_rc_laws :
  RcHashMapLaws positive (fun K V => gmap positive (K * V)).
Proof.
  unshelve refine {| rc_entries K V s := s |}; intros; simpl in *; try done.
  - destruct (list_find _ _) as [[i [r' [k' v]]]|] eqn:Hf; [|done].
    apply list_find_Some in Hf as (Hl & Hk & _). simpl in *. simplify_eq.
    exists v. apply elem_of_map_to_list. by eapply list_elem_of_lookup_2.
  - destruct (list_find _ _) eqn:Hf; [done|]. apply list_find_None in Hf.
    intros Hr%elem_of_map_to_list. rewrite Forall_forall in Hf. by apply Hf in Hr.
  - destruct (list_find _ _) eqn:Hf; [done|]. do 2 eexists. split_and!; [done| |done].
    apply not_elem_of_dom, is_fresh.
  - apply map_filter_subseteq.
  - destruct (s !! r) as [e|] eqn:He.
    + by apply map_lookup_filter_Some.
    + apply map_lookup_filter_None. by left.
Defined.
