(* ===== verification/Aggregator.v ===== *)
(** * The aggregator (crates/reducer/src/aggregator.rs)

    Sockets are reported as roots with two sides; each side names an identity
    (an availability zone record and a node record), interned in reference
    counted stores.  A root whose sides are both known is wired to the two
    entries, one per direction, that collect its metrics; at the end of a
    window the entries are published, alone and summed by zone.  Every
    operation ends with the release of the references it dropped. *)

From S2P Require Import Prelude OtlpExport Metrics AggFramework OtlpEncoding RcHashMap.

Local Open Scope rust_scope.

(** ** Data *)

Inductive Side := SideA | SideB.
Inductive Direction := AtoB | BtoA.

Abbreviation AggRootKey := (Z * Z)%type.

Section data.
Context (ref : Type).

Record AggRoot := mkRoot {
  a_node : option ref;
  a_az : option ref;
  b_node : option ref;
  b_az : option ref;
  a_to_b : option ref;
  b_to_a : option ref;
}.

Record NodeNodeKey := mkNN { nn_src_az : ref; nn_src_node : ref; nn_dst_az : ref; nn_dst_node : ref }.
Record NodeAzKey := mkNA { na_src_az : ref; na_src_node : ref; na_dst_az : ref }.
Record AzNodeKey := mkAN { an_src_az : ref; an_dst_node : ref; an_dst_az : ref }.
Record AzAzKey := mkAA { aa_src_az : ref; aa_dst_az : ref }.

Record NodeNodeEntry := mkNNE { metrics : AllMetrics; keepalive : option ref }.

Definition root_default : AggRoot := mkRoot None None None None None None.
Definition entry_default : NodeNodeEntry := mkNNE all_default None.

End data.

Arguments mkRoot {ref}. Arguments a_node {ref}. Arguments a_az {ref}. Arguments b_node {ref}.
Arguments b_az {ref}. Arguments a_to_b {ref}. Arguments b_to_a {ref}.
Arguments mkNN {ref}. Arguments nn_src_az {ref}. Arguments nn_src_node {ref}.
Arguments nn_dst_az {ref}. Arguments nn_dst_node {ref}.
Arguments mkNA {ref}. Arguments na_src_az {ref}. Arguments na_src_node {ref}. Arguments na_dst_az {ref}.
Arguments mkAN {ref}. Arguments an_src_az {ref}. Arguments an_dst_node {ref}. Arguments an_dst_az {ref}.
Arguments mkAA {ref}. Arguments aa_src_az {ref}. Arguments aa_dst_az {ref}.
Arguments mkNNE {ref}. Arguments metrics {ref}. Arguments keepalive {ref}.
Arguments root_default {ref}. Arguments entry_default {ref}.

#[export] Instance NodeNodeKey_eq_dec `{EqDecision ref} : EqDecision (NodeNodeKey ref).
Proof. solve_decision. Defined.
#[export] Instance NodeAzKey_eq_dec `{EqDecision ref} : EqDecision (NodeAzKey ref).
Proof. solve_decision. Defined.
#[export] Instance AzNodeKey_eq_dec `{EqDecision ref} : EqDecision (AzNodeKey ref).
Proof. solve_decision. Defined.
#[export] Instance AzAzKey_eq_dec `{EqDecision ref} : EqDecision (AzAzKey ref).
Proof. solve_decision. Defined.

#[export] Instance NodeAzKey_countable `{Countable ref} : Countable (NodeAzKey ref).
Proof.
  refine (inj_countable' (fun k => (na_src_az k, na_src_node k, na_dst_az k))
            (fun '(x, y, z) => mkNA x y z) _). by intros [].
Defined.
#[export] Instance AzNodeKey_countable `{Countable ref} : Countable (AzNodeKey ref).
Proof.
  refine (inj_countable' (fun k => (an_src_az k, an_dst_node k, an_dst_az k))
            (fun '(x, y, z) => mkAN x y z) _). by intros [].
Defined.
#[export] Instance AzAzKey_countable `{Countable ref} : Countable (AzAzKey ref).
Proof.
  refine (inj_countable' (fun k => (aa_src_az k, aa_dst_az k)) (fun '(x, y) => mkAA x y) _).
  by intros [].
Defined.

Section aggregator.
Context {ref : Type} {store : Type -> Type -> Type} {ref_eq : EqDecision ref}
  {ref_countable : Countable ref} {rc : RcHashMap ref store} {order : HashOrder}
  {E : Type} (p : profile).

Record Aggregator := mkAgg {
  events : Counters;
  az_store : store Az unit;
  node_store : store Node unit;
  agg_roots : gmap AggRootKey (AggRoot ref);
  node_node_store : store (NodeNodeKey ref) (NodeNodeEntry ref);
  enable_id_id : bool;
  enable_az_id : bool;
  disable_node_ip_field : bool;
}.

(** ** Labels *)

Definition bool_string (b : bool) : list Z := if b then lit "true" else lit "false".

Definition compute_labels (azs : store Az unit) (nodes : store Node unit) (src_az dst_az : ref)
    (src_node dst_node : option ref) : Labels :=
  let labels := [mkLabel LABEL_SF_PRODUCT LABEL_SF_PRODUCT_VALUE] in
  let src_az_v := rc_key azs src_az in
  let dst_az_v := rc_key azs dst_az in
  let src_node_v := src_node ≫= rc_key nodes in
  let dst_node_v := dst_node ≫= rc_key nodes in
  let labels := add_node_labels "source." src_node_v src_az_v labels in
  let labels := add_node_labels "dest." dst_node_v dst_az_v labels in
  match src_az_v, dst_az_v with
  | Some sa, Some da =>
      if negb (bool_decide (az sa = [])) && negb (bool_decide (az da = []))
      then labels ++ [mkLabel (lit "az_equal") (bool_string (bool_decide (az sa = az da)))]
      else labels
  | _, _ => labels
  end.

Definition with_aggregation (labels : Labels) (a : string) : Labels :=
  labels ++ [mkLabel LABEL_AGGREGATION (lit a)].

Definition nn_labels (azs : store Az unit) (nodes : store Node unit) (k : NodeNodeKey ref) : Labels :=
  with_aggregation (compute_labels azs nodes (nn_src_az k) (nn_dst_az k)
    (Some (nn_src_node k)) (Some (nn_dst_node k))) "id_id".

Definition na_labels (azs : store Az unit) (nodes : store Node unit) (k : NodeAzKey ref) : Labels :=
  with_aggregation (compute_labels azs nodes (na_src_az k) (na_dst_az k)
    (Some (na_src_node k)) None) "id_az".

Definition an_labels (azs : store Az unit) (nodes : store Node unit) (k : AzNodeKey ref) : Labels :=
  with_aggregation (compute_labels azs nodes (an_src_az k) (an_dst_az k)
    None (Some (an_dst_node k))) "az_id".

Definition aa_labels (azs : store Az unit) (nodes : store Node unit) (k : AzAzKey ref) : Labels :=
  with_aggregation (compute_labels azs nodes (aa_src_az k) (aa_dst_az k) None None) "az_az".

(** ** References *)

Definition root_az_refs (r : AggRoot ref) : list ref := option_list (a_az r) ++ option_list (b_az r).
Definition root_node_refs (r : AggRoot ref) : list ref := option_list (a_node r) ++ option_list (b_node r).
Definition root_nn_refs (r : AggRoot ref) : list ref := option_list (a_to_b r) ++ option_list (b_to_a r).

Definition roots_of (rs : gmap AggRootKey (AggRoot ref)) : list (AggRoot ref) := (map_to_list rs).*2.

(** Dropping the last reference to an entry removes it: entries between nodes
    first, since their keys hold references to identities. *)
Definition collect (a : Aggregator) : Aggregator :=
  let roots := roots_of (agg_roots a) in
  let nn := node_node_store a in
  let kept := omap (fun r => rc_value nn r ≫= keepalive) (rc_iter nn) in
  let nn := rc_collect nn (concat (root_nn_refs <$> roots) ++ kept) in
  let keys := omap (rc_key nn) (rc_iter nn) in
  let azs := concat (root_az_refs <$> roots)
             ++ concat ((fun k => [nn_src_az k; nn_dst_az k]) <$> keys) in
  let nodes := concat (root_node_refs <$> roots)
               ++ concat ((fun k => [nn_src_node k; nn_dst_node k]) <$> keys) in
  mkAgg (events a) (rc_collect (az_store a) azs) (rc_collect (node_store a) nodes) (agg_roots a) nn
    (enable_id_id a) (enable_az_id a) (disable_node_ip_field a).

(** ** Operations *)

Definition aggregator_new : Aggregator :=
  mkAgg counters_default rc_new rc_new ∅ rc_new true true false.

Definition set_roots (a : Aggregator) (rs : gmap AggRootKey (AggRoot ref)) : Aggregator :=
  mkAgg (events a) (az_store a) (node_store a) rs (node_node_store a)
    (enable_id_id a) (enable_az_id a) (disable_node_ip_field a).

Definition set_nn (a : Aggregator) (nn : store (NodeNodeKey ref) (NodeNodeEntry ref)) : Aggregator :=
  mkAgg (events a) (az_store a) (node_store a) (agg_roots a) nn
    (enable_id_id a) (enable_az_id a) (disable_node_ip_field a).

Definition set_events (a : Aggregator) (ev : Counters) : Aggregator :=
  mkAgg ev (az_store a) (node_store a) (agg_roots a) (node_node_store a)
    (enable_id_id a) (enable_az_id a) (disable_node_ip_field a).

Definition agg_root_start (a : Aggregator) (key : AggRootKey) : Aggregator :=
  collect (set_roots a (<[key := root_default]> (agg_roots a))).

Definition agg_root_end (a : Aggregator) (key : AggRootKey) : Aggregator :=
  collect (set_roots a (delete key (agg_roots a))).

(** [find], or [insert] with [expect]. *)
Definition upsert {K V} `{EqDecision K} (s : store K V) (k : K) (v : V) : res E (ref * store K V) :=
  match rc_find s k with
  | Some r => Ok (r, s)
  | None => unwrap (rc_insert s k v)
  end.

Definition attach (root : AggRoot ref) (side : Side) (az_ref node_ref : ref) : AggRoot ref :=
  match side with
  | SideA => mkRoot (Some node_ref) (Some az_ref) (b_node root) (b_az root) (a_to_b root) (b_to_a root)
  | SideB => mkRoot (a_node root) (a_az root) (Some node_ref) (Some az_ref) (a_to_b root) (b_to_a root)
  end.

(** Wire a root whose sides are both known. *)
Definition wire (root : AggRoot ref) (nn : store (NodeNodeKey ref) (NodeNodeEntry ref))
  : res E (AggRoot ref * store (NodeNodeKey ref) (NodeNodeEntry ref)) :=
  match a_to_b root, b_to_a root with
  | None, None =>
      match a_node root, a_az root, b_node root, b_az root with
      | Some an, Some aa, Some bn, Some ba =>
          let? '(a2b, nn) := upsert nn (mkNN aa an ba bn) entry_default in
          let? '(b2a, nn) := upsert nn (mkNN ba bn aa an) entry_default in
          Ok (mkRoot (a_node root) (a_az root) (b_node root) (b_az root) (Some a2b) (Some b2a), nn)
      | _, _, _, _ => Ok (root, nn)
      end
  | _, _ => Ok (root, nn)
  end.

Definition update_node (a : Aggregator) (key : AggRootKey) (side : Side) (z : Az) (node : Node)
  : res E Aggregator :=
  let node := if disable_node_ip_field a then mkNode (id node) [] (pod_name node) else node in
  let? '(az_ref, azs) := upsert (az_store a) z tt in
  let? '(node_ref, nodes) := upsert (node_store a) node tt in
  let root := default root_default (agg_roots a !! key) in
  let? '(root, nn) := wire (attach root side az_ref node_ref) (node_node_store a) in
  Ok (collect (mkAgg (events a) azs nodes (<[key := root]> (agg_roots a)) nn
        (enable_id_id a) (enable_az_id a) (disable_node_ip_field a))).

Definition find_node_node_ref (a : Aggregator) (key : AggRootKey) (dir : Direction)
  : res E (option ref * Aggregator) :=
  match agg_roots a !! key with
  | None => rmap (fun ev => (None, set_events a ev)) (inc MissingRootForMetric p (events a))
  | Some root => Ok (match dir with AtoB => a_to_b root | BtoA => b_to_a root end, a)
  end.

(** The common shape of [add_tcp], [add_udp], [add_http] and [add_dns]. *)
Definition add_metrics (add_from : AllMetrics -> res E AllMetrics) (a : Aggregator)
    (key : AggRootKey) (dir : Direction) : res E Aggregator :=
  let? '(found, a) := find_node_node_ref a key dir in
  match found with
  | Some r =>
      match rc_value (node_node_store a) r with
      | Some e =>
          let keep := match keepalive e with None => Some r | Some k => Some k end in
          let? m := add_from (metrics e) in
          Ok (set_nn a (rc_set (node_node_store a) r (mkNNE m keep)))
      | None => Ok a
      end
  | None => rmap (set_events a) (inc MetricBeforeSidesResolved p (events a))
  end.

Definition set_tcp (m : AllMetrics) (t : TcpMetrics) : AllMetrics :=
  mkAll t (udp m) (http m) (dns m) (tcp_prev_window_had_samples m) (udp_prev_window_had_samples m)
    (http_prev_window_had_samples m) (dns_prev_window_had_samples m).
Definition set_udp (m : AllMetrics) (u : UdpMetrics) : AllMetrics :=
  mkAll (tcp m) u (http m) (dns m) (tcp_prev_window_had_samples m) (udp_prev_window_had_samples m)
    (http_prev_window_had_samples m) (dns_prev_window_had_samples m).
Definition set_http (m : AllMetrics) (h : HttpMetrics) : AllMetrics :=
  mkAll (tcp m) (udp m) h (dns m) (tcp_prev_window_had_samples m) (udp_prev_window_had_samples m)
    (http_prev_window_had_samples m) (dns_prev_window_had_samples m).
Definition set_dns (m : AllMetrics) (d : DnsMetrics) : AllMetrics :=
  mkAll (tcp m) (udp m) (http m) d (tcp_prev_window_had_samples m) (udp_prev_window_had_samples m)
    (http_prev_window_had_samples m) (dns_prev_window_had_samples m).

Definition add_tcp a key dir (m : TcpMetrics) : res E Aggregator :=
  add_metrics (fun x => rmap (set_tcp x) (tcp_add_from p (tcp x) m)) a key dir.
Definition add_udp a key dir (m : UdpMetrics) : res E Aggregator :=
  add_metrics (fun x => rmap (set_udp x) (udp_add_from p (udp x) m)) a key dir.
Definition add_http a key dir (m : HttpMetrics) : res E Aggregator :=
  add_metrics (fun x => rmap (set_http x) (http_add_from p (http x) m)) a key dir.
Definition add_dns a key dir (m : DnsMetrics) : res E Aggregator :=
  add_metrics (fun x => rmap (set_dns x) (dns_add_from p (dns x) m)) a key dir.

(** ** The end of a window *)

Definition entry_key (nn : store (NodeNodeKey ref) (NodeNodeEntry ref)) (r : ref)
  : res E (NodeNodeKey ref) := unwrap (rc_key nn r).
Definition entry_metrics (nn : store (NodeNodeKey ref) (NodeNodeEntry ref)) (r : ref)
  : res E AllMetrics := rmap metrics (unwrap (rc_value nn r)).

Definition node_az_map (a : Aggregator) : res E (gmap (NodeAzKey ref) AllMetrics) :=
  let nn := node_node_store a in
  aggregate (rc_iter nn)
    (fun it => rmap (fun k => mkNA (nn_src_az k) (nn_src_node k) (nn_dst_az k)) (entry_key nn it))
    all_default
    (fun t it => let? m := entry_metrics nn it in all_add p t m).

Definition az_node_map (a : Aggregator) : res E (gmap (AzNodeKey ref) AllMetrics) :=
  let nn := node_node_store a in
  aggregate (rc_iter nn)
    (fun it => rmap (fun k => mkAN (nn_src_az k) (nn_dst_node k) (nn_dst_az k)) (entry_key nn it))
    all_default
    (fun t it => let? m := entry_metrics nn it in all_add p t m).

Definition az_az_map (na : gmap (NodeAzKey ref) AllMetrics) : res E (gmap (AzAzKey ref) AllMetrics) :=
  aggregate (hm_iter na)
    (fun it => Ok (mkAA (na_src_az (fst it)) (na_dst_az (fst it)))) all_default
    (fun t it => all_add p t (snd it)).

(** [for (k, m) in ...]: emit the pairs that have something to emit. *)
Fixpoint emit_group {K} (ts : Z) (labels_of : K -> Labels) (l : list (K * AllMetrics))
    (ex : OtlpExporter) : res E OtlpExporter :=
  match l with
  | [] => Ok ex
  | (k, m) :: l =>
      if negb (should_emit_any m) then emit_group ts labels_of l ex
      else let? ex := emit_all_metrics p ex ts (labels_of k) m in emit_group ts labels_of l ex
  end.

Fixpoint emit_entries (ts : Z) (a : Aggregator) (its : list ref) (ex : OtlpExporter)
  : res E OtlpExporter :=
  match its with
  | [] => Ok ex
  | it :: its =>
      let? k := entry_key (node_node_store a) it in
      let? m := entry_metrics (node_node_store a) it in
      if negb (should_emit_any m) then emit_entries ts a its ex
      else let? ex := emit_all_metrics p ex ts (nn_labels (az_store a) (node_store a) k) m in
           emit_entries ts a its ex
  end.

(** The body of the cleanup loop. *)
Definition roll (nn : store (NodeNodeKey ref) (NodeNodeEntry ref)) (r : ref)
  : store (NodeNodeKey ref) (NodeNodeEntry ref) :=
  match rc_value nn r with
  | Some e =>
      let keep := if negb (had_samples (metrics e)) then None else keepalive e in
      rc_set nn r (mkNNE (next_window (metrics e)) keep)
  | None => nn
  end.

Definition emit_all (a : Aggregator) (ts : Z) (ex : OtlpExporter) : res E OtlpExporter :=
  let? maps :=
    if enable_az_id a then
      let? na := node_az_map a in
      let? an := az_node_map a in
      let? aa := az_az_map na in
      Ok (Some (na, an, aa))
    else Ok None in
  let? ex := if enable_id_id a then emit_entries ts a (rc_iter (node_node_store a)) ex else Ok ex in
  match maps with
  | Some (na, an, aa) =>
      let? ex := emit_group ts (na_labels (az_store a) (node_store a)) (hm_iter na) ex in
      let? ex := emit_group ts (an_labels (az_store a) (node_store a)) (hm_iter an) ex in
      emit_group ts (aa_labels (az_store a) (node_store a)) (hm_iter aa) ex
  | None => Ok ex
  end.

(** The new state, the exporter, and the request it sent. *)
Definition output_metrics (export : list Z -> Request -> Response) (a : Aggregator)
    (window_end_ns : Z) (ex : OtlpExporter) : res E (Aggregator * OtlpExporter * option Request) :=
  let? ex := emit_all a (as_signed 64 window_end_ns) ex in
  let '(ex, req) := exporter_flush export ex in
  let nn := node_node_store a in
  Ok (collect (set_nn a (fold_left roll (rc_iter nn) nn)), ex, req).

End aggregator.
