(* ===== verification/Sums.v ===== *)
(** * Sums of metrics by group

    Lists of keyed metrics that stand for the same function from keys to
    metrics (absent keys have no samples) have the same sums by group and
    emit the same groups, in some order. *)

From S2P Require Import Prelude Metrics AggFramework.

Lemma filter_fmap {A B} (f : A -> B) (P : B -> Prop) `{!forall x, Decision (P x)} (l : list A) :
  filter P (f <$> l) = f <$> filter (fun x => P (f x)) l.
Proof.
  induction l as [|x l IH]; [done|]. rewrite fmap_cons. destruct (decide (P (f x))).
  - rewrite !filter_cons_True by done. by rewrite fmap_cons, IH.
  - by rewrite !filter_cons_False by done.
Qed.

Lemma filter_filter_and {A} (P R : A -> Prop) `{!forall x, Decision (P x)} `{!forall x, Decision (R x)}
    (l : list A) :
  filter P (filter R l) = filter (fun x => P x /\ R x) l.
Proof.
  induction l as [|x l IH]; [done|]. destruct (decide (R x)).
  - rewrite (filter_cons_True R) by done. destruct (decide (P x)).
    + rewrite !filter_cons_True by done. by rewrite IH.
    + by rewrite !filter_cons_False by tauto.
  - by rewrite (filter_cons_False R), (filter_cons_False (fun x => P x /\ R x)) by tauto.
Qed.

Lemma filter_none {A} (P : A -> Prop) `{!forall x, Decision (P x)} (l : list A) :
  (forall x, x ∈ l -> ~ P x) -> filter P l = [].
Proof.
  intros Hl. destruct (filter P l) as [|x l'] eqn:Hf; [done|].
  assert (x ∈ filter P l) as [Hp Hin]%list_elem_of_filter by (rewrite Hf; constructor).
  by apply Hl in Hin.
Qed.

Lemma filter_ext_in {A} (P R : A -> Prop) `{!forall x, Decision (P x)} `{!forall x, Decision (R x)}
    (l : list A) :
  (forall x, x ∈ l -> P x <-> R x) -> filter P l = filter R l.
Proof.
  induction l as [|x l IH]; intros Hl; [done|].
  assert (P x <-> R x) as Hx by (apply Hl; constructor).
  specialize (IH (fun y Hy => Hl y (list_elem_of_further _ _ _ Hy))). destruct (decide (P x)).
  - rewrite !filter_cons_True by tauto. by rewrite IH.
  - by rewrite !filter_cons_False by tauto.
Qed.

Lemma Forall_choose {A B} (R : A -> B -> Prop) (l : list A) :
  Forall (fun x => exists y, R x y) l -> exists l', Forall2 R l l'.
Proof. induction 1 as [|x l [y Hy] _ [l' IH]]; [by exists []|]. exists (y :: l'). by constructor. Qed.

Lemma Forall2_elem_r {A B} (R : A -> B -> Prop) l l' y :
  Forall2 R l l' -> y ∈ l' -> exists x, x ∈ l /\ R x y.
Proof.
  intros Hl (i & Hi)%list_elem_of_lookup. destruct (Forall2_lookup_r _ _ _ _ _ Hl Hi) as (x & Hx & ?).
  exists x. split; [by eapply list_elem_of_lookup_2|done].
Qed.

Definition sum (l : list AllMetrics) : AllMetrics := foldr all_plus all_default l.

Lemma sum_ok l : all_ok (sum l).
Proof. destruct l; [apply all_default_ok|apply all_plus_ok]. Qed.

#[export] Instance sum_proper : Proper ((≡ₚ) ==> (=)) sum.
Proof.
  intros l1 l2 Hl. induction Hl as [|x l1 l2 _ IH|x y l|]; simpl; try congruence.
  by rewrite !all_plus_assoc, (all_plus_comm y x).
Qed.

Lemma sum_drop l : sum l = sum (filter (fun m => m <> all_default) l).
Proof.
  induction l as [|m l IH]; [done|]. destruct (decide (m = all_default)) as [->|Hm].
  - rewrite filter_cons_False by naive_solver. simpl. rewrite <- IH. apply all_plus_default_l, sum_ok.
  - rewrite filter_cons_True by done. simpl. by rewrite IH.
Qed.

(** A left fold of [all_plus], as a loop accumulates it. *)
Lemma fold_left_sum {A} (f : A -> AllMetrics) l t :
  all_ok t -> fold_left (fun t x => all_plus t (f x)) l t = all_plus t (sum (f <$> l)).
Proof.
  revert t. induction l as [|x l IH]; intros t Ht; simpl.
  - by rewrite all_plus_default_r.
  - rewrite IH by apply all_plus_ok. by rewrite all_plus_assoc.
Qed.

Section represents.
Context {Q : Type} `{EqDecision Q}.

(** [l] has each key at most once, with the value [f] gives it, and has every
    key for which that is not the default. *)
Record represents (f : Q -> AllMetrics) (l : list (Q * AllMetrics)) : Prop := mkRep {
  rep_NoDup : NoDup l.*1;
  rep_value : forall q m, (q, m) ∈ l -> m = f q;
  rep_all : forall q, f q <> all_default -> q ∈ l.*1;
}.

Lemma rep_elem f l q : represents f l -> f q <> all_default -> (q, f q) ∈ l.
Proof.
  intros [_ Hv Ha] Hq. destruct (proj1 (list_elem_of_fmap _ _ _) (Ha q Hq)) as ([q' m] & -> & Hin).
  simpl in *. by rewrite <- (Hv _ _ Hin).
Qed.

Lemma represents_ext (f g : Q -> AllMetrics) l :
  (forall q, f q = g q) -> represents f l -> represents g l.
Proof. intros Hfg [Hn Hv Ha]. split; [done| |]; intros; rewrite <- ?Hfg in *; eauto. Qed.

(** Entries that satisfy a predicate default values fail are the same. *)
Lemma rep_perm f l1 l2 (P : Q * AllMetrics -> Prop) `{!forall e, Decision (P e)} :
  represents f l1 -> represents f l2 -> (forall q, ~ P (q, all_default)) ->
  filter P l1 ≡ₚ filter P l2.
Proof.
  intros H1 H2 HP.
  assert (forall l, represents f l -> forall e, e ∈ filter P l <-> P e /\ snd e = f (fst e)) as Helem.
  { intros l Hl [q m]. rewrite list_elem_of_filter. simpl. split.
    - intros [Hp Hin]. split; [done|]. by apply Hl.
    - intros [Hp ->]. split; [done|]. apply rep_elem; [done|]. intros Hd. apply (HP q).
      by rewrite <- Hd. }
  assert (forall l, represents f l -> NoDup (filter P l)) as Hnd.
  { intros l [Hl _ _]. apply NoDup_filter. by eapply NoDup_fmap_1. }
  apply NoDup_Permutation; [by apply Hnd|by apply Hnd|].
  intros e. by rewrite !Helem.
Qed.

End represents.

Section groups.
Context {Q G : Type} `{EqDecision Q} `{EqDecision G} (proj : Q -> G).

Definition group_sum (l : list (Q * AllMetrics)) (g : G) : AllMetrics :=
  sum (snd <$> filter (fun e => proj (fst e) = g) l).

Lemma group_sum_rep f l1 l2 g :
  represents f l1 -> represents f l2 -> group_sum l1 g = group_sum l2 g.
Proof.
  intros H1 H2. unfold group_sum. rewrite sum_drop, (sum_drop (snd <$> filter _ l2)).
  rewrite !filter_fmap, !filter_filter_and. apply sum_proper. apply fmap_Permutation.
  eapply rep_perm; [done|done|]. intros q [Hq _]. by apply Hq.
Qed.

Lemma group_sum_absent l g : g ∉ proj <$> l.*1 -> group_sum l g = all_default.
Proof.
  intros Hg. unfold group_sum. rewrite filter_none; [done|].
  intros e He Hp. apply Hg. rewrite <- Hp. by do 2 apply list_elem_of_fmap_2.
Qed.

(** Summing by group, the groups listed once. *)
Lemma group_sum_represents l :
  represents (group_sum l) ((fun g => (g, group_sum l g)) <$> remove_dups (proj <$> l.*1)).
Proof.
  split.
  - rewrite <- list_fmap_compose. unfold compose. simpl. rewrite list_fmap_id. apply NoDup_remove_dups.
  - intros g m (g' & [= -> ->] & _)%list_elem_of_fmap. done.
  - intros g Hg. rewrite <- list_fmap_compose. unfold compose. simpl. rewrite list_fmap_id.
    apply elem_of_remove_dups. destruct (decide (g ∈ proj <$> l.*1)); [done|].
    destruct Hg. by apply group_sum_absent.
Qed.

End groups.

(** ** Sums of sums *)

Section nested.
Context {Q G X : Type} `{EqDecision Q} `{EqDecision G} `{EqDecision X} (proj : Q -> G) (proj2 : G -> X).

Lemma sum_fmap_update (F : G -> AllMetrics) g0 m (hs : list G) :
  NoDup hs ->
  sum ((fun g => if decide (g0 = g) then all_plus m (F g) else F g) <$> hs)
  = if decide (g0 ∈ hs) then all_plus m (sum (F <$> hs)) else sum (F <$> hs).
Proof.
  induction 1 as [|h hs Hh _ IH]; [done|]. rewrite !fmap_cons. cbn [sum foldr]. fold sum.
  change (foldr all_plus all_default ?l) with (sum l). rewrite IH. destruct (decide (g0 = h)) as [->|Hne].
  - rewrite decide_False by done. rewrite decide_True by constructor. by rewrite all_plus_assoc.
  - destruct (decide (g0 ∈ hs)) as [Hin|Hin].
    + rewrite decide_True by (by constructor). by rewrite all_plus_assoc, (all_plus_comm (F h)), all_plus_assoc.
    + rewrite decide_False; [done|]. by intros [|]%elem_of_cons.
Qed.

Lemma group_sum_cons {Q' G'} `{EqDecision G'} (pr : Q' -> G') q m l g :
  group_sum pr ((q, m) :: l) g
  = if decide (pr q = g) then all_plus m (group_sum pr l g) else group_sum pr l g.
Proof.
  unfold group_sum. destruct (decide (pr q = g)).
  - by rewrite filter_cons_True.
  - by rewrite filter_cons_False.
Qed.

Lemma group_sum_nested l gs x :
  NoDup gs -> (forall e, e ∈ l -> proj (fst e) ∈ gs) ->
  group_sum proj2 ((fun g => (g, group_sum proj l g)) <$> gs) x
  = group_sum (fun q => proj2 (proj q)) l x.
Proof.
  intros Hnd. unfold group_sum at 1. rewrite filter_fmap, <- list_fmap_compose. unfold compose. simpl.
  set (hs := filter (fun g => proj2 g = x) gs).
  assert (NoDup hs) as Hhs by (by apply NoDup_filter).
  induction l as [|[q m] l IH]; intros Hall.
  - rewrite sum_drop, filter_fmap, filter_none; [done|]. intros g _ Hg. by apply Hg.
  - rewrite group_sum_cons.
    rewrite (list_fmap_ext _ (fun g => if decide (proj q = g) then all_plus m (group_sum proj l g)
                                       else group_sum proj l g))
      by (intros; apply group_sum_cons).
    assert (sum (group_sum proj l <$> hs) = group_sum (fun q => proj2 (proj q)) l x) as IH'
      by (apply IH; intros e He; apply Hall; by constructor).
    rewrite sum_fmap_update, IH' by done.
    assert (proj q ∈ gs) as Hq by (apply (Hall (q, m)); constructor).
    destruct (decide (proj2 (proj q) = x)) as [Hx|Hx].
    + rewrite decide_True; [done|]. by apply list_elem_of_filter.
    + rewrite decide_False; [done|]. by intros [? _]%list_elem_of_filter.
Qed.

(** Summing the groups of a representing list gives the coarser sums. *)
Lemma group_sum_compose l gl x :
  represents (group_sum proj l) gl ->
  group_sum proj2 gl x = group_sum (fun q => proj2 (proj q)) l x.
Proof.
  intros Hgl. rewrite (group_sum_rep proj2 _ _ _ x Hgl (group_sum_represents proj l)).
  apply group_sum_nested; [apply NoDup_remove_dups|]. intros e He. apply elem_of_remove_dups.
  by do 2 apply list_elem_of_fmap_2.
Qed.

End nested.

(** ** The maps [aggregate] builds *)

Section aggregated.
Context {X R Q G : Type} `{Countable R} `{EqDecision Q} `{EqDecision G}.
Context (q : X -> Q) (m : X -> AllMetrics) (pr : X -> R) (proj : Q -> G) (resolve : R -> option G).
Context (its : list X) (na : gmap R AllMetrics).

Hypothesis na_folded : forall r, na !! r = folded pr all_default (fun t x => all_plus t (m x)) ∅ r its.
Hypothesis resolves : forall x, x ∈ its -> resolve (pr x) = Some (proj (q x)).
Hypothesis same_key : forall x y, x ∈ its -> y ∈ its -> proj (q x) = proj (q y) -> pr x = pr y.

Lemma aggregated_value r v :
  na !! r = Some v ->
  exists x, x ∈ its /\ pr x = r
    /\ v = group_sum proj ((fun x => (q x, m x)) <$> its) (proj (q x)).
Proof.
  rewrite na_folded. unfold folded. rewrite lookup_empty. simpl.
  destruct (group pr r its) as [|x rest] eqn:Hg; [done|]. intros [= <-].
  assert (x ∈ group pr r its) as Hx by (rewrite Hg; constructor).
  apply list_elem_of_filter in Hx as [<- Hx]. exists x. split_and!; [done|done|].
  change (all_plus all_default (m x)) with ((fun t x => all_plus t (m x)) all_default x).
  change (fold_left ?f rest (?f all_default x)) with (fold_left f (x :: rest) all_default).
  rewrite <- Hg, fold_left_sum by apply all_default_ok. rewrite all_plus_default_l by apply sum_ok.
  unfold group_sum. rewrite filter_fmap, <- list_fmap_compose. f_equal.
  change (m <$> group pr (pr x) its = m <$> filter (fun y => proj (q y) = proj (q x)) its). f_equal.
  apply filter_ext_in. intros y Hy. split; [|by apply same_key].
  intros Hxy. pose proof (resolves y Hy) as H1. rewrite Hxy, (resolves x Hx) in H1. congruence.
Qed.

Lemma aggregated_key x : x ∈ its -> is_Some (na !! pr x).
Proof.
  intros Hx. rewrite na_folded. unfold folded. destruct (group pr (pr x) its) eqn:Hg; [|done].
  assert (x ∈ group pr (pr x) its) as Hin by (by apply list_elem_of_filter).
  rewrite Hg in Hin. by apply elem_of_nil in Hin.
Qed.

(** In any order, the map is a list of group sums once its keys are
    resolved. *)
Lemma aggregated_represents l :
  l ≡ₚ map_to_list na ->
  exists gl, Forall2 (fun rv gv => resolve (fst rv) = Some (fst gv) /\ snd rv = snd gv) l gl
    /\ represents (group_sum proj ((fun x => (q x, m x)) <$> its)) gl.
Proof.
  intros Hl.
  assert (forall rv, rv ∈ l <-> na !! fst rv = Some (snd rv)) as Hin.
  { intros [r v]. by rewrite Hl, elem_of_map_to_list. }
  destruct (Forall_choose (fun rv gv => resolve (fst rv) = Some (fst gv) /\ snd rv = snd gv) l)
    as [gl Hgl].
  { apply Forall_forall. intros [r v] Hrv%Hin.
    destruct (aggregated_value r v Hrv) as (x & Hx & <- & _). exists (proj (q x), v). split; [by apply resolves|done]. }
  exists gl. split; [done|].
  assert (Some <$> gl.*1 = resolve <$> l.*1) as Hfst.
  { clear -Hgl. induction Hgl as [|? ? ? ? [H1 _] _ IH]; [done|]. csimpl. by rewrite H1, IH. }
  split.
  - apply (NoDup_fmap_1 Some). rewrite Hfst. apply NoDup_fmap_2_strong.
    + intros r1 r2 ([r1' v1] & -> & H1%Hin)%list_elem_of_fmap ([r2' v2] & -> & H2%Hin)%list_elem_of_fmap.
      simpl in *. destruct (aggregated_value _ _ H1) as (x & Hx & <- & _).
      destruct (aggregated_value _ _ H2) as (y & Hy & <- & _). rewrite !resolves by done.
      intros [= Heq]. by apply same_key.
    + rewrite Hl. apply NoDup_fst_map_to_list.
  - intros g v Hgv. destruct (Forall2_elem_r _ _ _ _ Hgl Hgv) as ([r v'] & Hrv%Hin & Hres & Hv).
    simpl in *. subst v'. destruct (aggregated_value r v Hrv) as (x & Hx & <- & ->).
    rewrite resolves in Hres by done. congruence.
  - intros g Hg. destruct (decide (g ∈ proj <$> ((fun x => (q x, m x)) <$> its).*1)) as [Hi|Hi].
    2:{ destruct Hg. by apply group_sum_absent. }
    apply list_elem_of_fmap in Hi as (q' & -> & Hq'). rewrite <- list_fmap_compose in Hq'.
    apply list_elem_of_fmap in Hq' as (x & -> & Hx). simpl. destruct (aggregated_key x Hx) as [v Hv].
    assert (Some (proj (q x)) ∈ Some <$> gl.*1) as Hs.
    { rewrite Hfst. apply list_elem_of_fmap. exists (pr x). split; [by rewrite resolves|].
      apply list_elem_of_fmap. exists (pr x, v). split; [done|]. by apply Hin. }
    apply list_elem_of_fmap in Hs as (g & Hs & Hin'). by injection Hs as ->.
Qed.

End aggregated.
