(* ===== verification/AggregatorSpec.v ===== *)
(** * What the aggregator promises

    A ledger over identities: which sides a root has, and the sums of every
    ordered pair of identities.  It has no references, no interning, no
    keepalive and no collection.  The aggregator refines it: after any sequence
    of operations, each window publishes what the ledger publishes. *)

From S2P Require Import Prelude OtlpExport Metrics AggFramework OtlpEncoding RcHashMap Aggregator Sums.

Local Open Scope rust_scope.

#[export] Instance Az_countable : Countable Az.
Proof.
  refine (inj_countable'
    (fun a => (az a, role a, version a, env a, ns a, node_type a, process a, container a, role_uid a))
    (fun '(x1, x2, x3, x4, x5, x6, x7, x8, x9) => mkAz x1 x2 x3 x4 x5 x6 x7 x8 x9) _).
  by intros [].
Defined.
#[export] Instance Node_countable : Countable Node.
Proof.
  refine (inj_countable' (fun n => (id n, address n, pod_name n)) (fun '(x, y, z) => mkNode x y z) _).
  by intros [].
Defined.

(** ** The ledger *)

(** One end of a flow. *)
Abbreviation End := (Az * Node)%type.
Abbreviation Pair := (End * End)%type.

Record SRoot := mkSRoot { s_a : option End; s_b : option End; s_wired : option Pair }.

Record Ledger := mkLedger {
  l_missing : Z;
  l_unresolved : Z;
  l_roots : gmap AggRootKey SRoot;
  l_pairs : gmap Pair AllMetrics;
  l_id_id : bool;
  l_az_id : bool;
  l_no_ip : bool;
}.

Inductive sample :=
| STcp (m : TcpMetrics) | SUdp (m : UdpMetrics) | SHttp (m : HttpMetrics) | SDns (m : DnsMetrics).

(** A sample as the sums of all protocols. *)
Definition only (s : sample) : AllMetrics :=
  match s with
  | STcp m => set_tcp all_default m
  | SUdp m => set_udp all_default m
  | SHttp m => set_http all_default m
  | SDns m => set_dns all_default m
  end.

Definition sample_ok (s : sample) : Prop := all_ok (only s).

Inductive op :=
| Start (key : AggRootKey)
| Finish (key : AggRootKey)
| SetSide (key : AggRootKey) (side : Side) (a : Az) (node : Node)
| Add (key : AggRootKey) (dir : Direction) (s : sample)
| Output (window_end_ns : Z).

(** ** What a window publishes *)

Definition id_labels (sa da : Az) (sn dn : option Node) (kind : string) : Labels :=
  let labels := [mkLabel LABEL_SF_PRODUCT LABEL_SF_PRODUCT_VALUE] in
  let labels := add_node_labels "source." sn (Some sa) labels in
  let labels := add_node_labels "dest." dn (Some da) labels in
  let labels :=
    if negb (bool_decide (az sa = [])) && negb (bool_decide (az da = []))
    then labels ++ [mkLabel (lit "az_equal") (bool_string (bool_decide (az sa = az da)))]
    else labels in
  with_aggregation labels kind.

Section totals.
Context {G : Type} `{EqDecision G} (proj : Pair -> G).

(** The sum of the pairs that project to [g]. *)
Definition total (l : gmap Pair AllMetrics) (g : G) : AllMetrics :=
  group_sum proj (map_to_list l) g.

(** The groups with something to emit, and their sums. *)
Definition summed (l : gmap Pair AllMetrics) : list (G * AllMetrics) :=
  (fun g => (g, total l g)) <$>
    filter (fun g => should_emit_any (total l g) = true)
      (remove_dups (proj <$> (map_to_list l).*1)).

End totals.

Definition node_az (q : Pair) : End * Az := (fst q, fst (snd q)).
Definition az_node (q : Pair) : Az * End := (fst (fst q), snd q).
Definition az_az (q : Pair) : Az * Az := (fst (fst q), fst (snd q)).

Definition id_id_labels (q : Pair) : Labels :=
  id_labels (fst (fst q)) (fst (snd q)) (Some (snd (fst q))) (Some (snd (snd q))) "id_id".
Definition id_az_labels (g : End * Az) : Labels :=
  id_labels (fst (fst g)) (snd g) (Some (snd (fst g))) None "id_az".
Definition az_id_labels (g : Az * End) : Labels :=
  id_labels (fst g) (fst (snd g)) None (Some (snd (snd g))) "az_id".
Definition az_az_labels (g : Az * Az) : Labels := id_labels (fst g) (snd g) None None "az_az".

Definition relabel {G} (f : G -> Labels) (l : list (G * AllMetrics)) : list (Labels * AllMetrics) :=
  (fun e => (f (fst e), snd e)) <$> l.

Definition emissions (l : Ledger) : list (Labels * AllMetrics) :=
  (if l_id_id l then relabel id_id_labels (summed (fun q => q) (l_pairs l)) else [])
  ++ (if l_az_id l then
        relabel id_az_labels (summed node_az (l_pairs l))
        ++ relabel az_id_labels (summed az_node (l_pairs l))
        ++ relabel az_az_labels (summed az_az (l_pairs l))
      else []).

(** ** Steps of the ledger *)

Definition s_attach (r : SRoot) (side : Side) (e : End) : SRoot :=
  let a := match side with SideA => Some e | SideB => s_a r end in
  let b := match side with SideA => s_b r | SideB => Some e end in
  mkSRoot a b (match s_wired r, a, b with
               | None, Some ea, Some eb => Some (ea, eb)
               | w, _, _ => w
               end).

Definition set_l_roots (l : Ledger) (rs : gmap AggRootKey SRoot) : Ledger :=
  mkLedger (l_missing l) (l_unresolved l) rs (l_pairs l) (l_id_id l) (l_az_id l) (l_no_ip l).
Definition set_l_pairs (l : Ledger) (ps : gmap Pair AllMetrics) : Ledger :=
  mkLedger (l_missing l) (l_unresolved l) (l_roots l) ps (l_id_id l) (l_az_id l) (l_no_ip l).
Definition set_l_counts (l : Ledger) (missing unresolved : Z) : Ledger :=
  mkLedger missing unresolved (l_roots l) (l_pairs l) (l_id_id l) (l_az_id l) (l_no_ip l).

Definition directed (dir : Direction) (w : Pair) : Pair :=
  match dir with AtoB => w | BtoA => (snd w, fst w) end.

Definition ledger_step (l : Ledger) (o : op) : Ledger * list (Z * list (Labels * AllMetrics)) :=
  match o with
  | Start key => (set_l_roots l (<[key := mkSRoot None None None]> (l_roots l)), [])
  | Finish key => (set_l_roots l (delete key (l_roots l)), [])
  | SetSide key side z node =>
      let node := if l_no_ip l then mkNode (id node) [] (pod_name node) else node in
      let root := default (mkSRoot None None None) (l_roots l !! key) in
      (set_l_roots l (<[key := s_attach root side (z, node)]> (l_roots l)), [])
  | Add key dir s =>
      match l_roots l !! key with
      | None => (set_l_counts l (l_missing l + 1) (l_unresolved l + 1), [])
      | Some r =>
          match s_wired r with
          | None => (set_l_counts l (l_missing l) (l_unresolved l + 1), [])
          | Some w =>
              let q := directed dir w in
              let m := default all_default (l_pairs l !! q) in
              (set_l_pairs l (<[q := all_plus m (only s)]> (l_pairs l)), [])
          end
      end
  | Output ts => (set_l_pairs l (next_window <$> l_pairs l), [(ts, emissions l)])
  end.

Definition ledger_new (id_id az_id no_ip : bool) : Ledger := mkLedger 0 0 ∅ ∅ id_id az_id no_ip.

Fixpoint ledger_run (l : Ledger) (os : list op) : Ledger * list (Z * list (Labels * AllMetrics)) :=
  match os with
  | [] => (l, [])
  | o :: os =>
      let '(l, out) := ledger_step l o in
      let '(l, outs) := ledger_run l os in
      (l, out ++ outs)
  end.

Lemma ledger_run_app l os1 os2 :
  fst (ledger_run l (os1 ++ os2)) = fst (ledger_run (fst (ledger_run l os1)) os2).
Proof.
  revert l. induction os1 as [|o os1 IH]; intros l; [done|]. simpl.
  destruct (ledger_step l o) as [l1 out]. specialize (IH l1).
  destruct (ledger_run l1 (os1 ++ os2)), (ledger_run l1 os1). simpl in *. done.
Qed.

(** ** Published points *)

Definition flat (ems : list (Labels * AllMetrics)) : list (Labels * (string * PointValue)) :=
  ems ≫= fun em => pair (fst em) <$> rows (snd em).

(** The points are the rows of the emissions, with their labels. *)
Definition points_of (ts : Z) (pts : list PendingMetric) (ems : list (Labels * AllMetrics)) : Prop :=
  Forall2 (fun pm lr => is_row ts (fst lr) pm (snd lr)) pts (flat ems).

Definition op_ok (o : op) : Prop := match o with Add _ _ s => sample_ok s | _ => True end.

(** ** Steps of the aggregator *)

Section refinement.
Context {ref : Type} {store : Type -> Type -> Type} {ref_eq : EqDecision ref}
  {ref_countable : Countable ref} {rc : RcHashMap ref store} {rc_laws : RcHashMapLaws ref store}
  {order : HashOrder} {order_laws : HashOrderLaws} {E : Type}.

Implicit Types a : Aggregator (ref := ref) (store := store).
Implicit Types l : Ledger.

Definition agg_step (p : profile) (export : list Z -> Request -> Response) a (ex : OtlpExporter) (o : op)
  : res E (Aggregator (ref := ref) (store := store) * OtlpExporter * list (option Request)) :=
  match o with
  | Start key => Ok (agg_root_start a key, ex, [])
  | Finish key => Ok (agg_root_end a key, ex, [])
  | SetSide key side z node => rmap (fun a => (a, ex, [])) (update_node a key side z node)
  | Add key dir (STcp m) => rmap (fun a => (a, ex, [])) (add_tcp p a key dir m)
  | Add key dir (SUdp m) => rmap (fun a => (a, ex, [])) (add_udp p a key dir m)
  | Add key dir (SHttp m) => rmap (fun a => (a, ex, [])) (add_http p a key dir m)
  | Add key dir (SDns m) => rmap (fun a => (a, ex, [])) (add_dns p a key dir m)
  | Output ts => rmap (fun '(a, ex, req) => (a, ex, [req])) (output_metrics p export a ts ex)
  end.

(** A new aggregator with its public flags set. *)
Definition configured (id_id az_id no_ip : bool) : Aggregator (ref := ref) (store := store) :=
  let a := aggregator_new in
  mkAgg (events a) (az_store a) (node_store a) (agg_roots a) (node_node_store a) id_id az_id no_ip.

Fixpoint agg_run (p : profile) (export : list Z -> Request -> Response) a (ex : OtlpExporter)
    (os : list op)
  : res E (Aggregator (ref := ref) (store := store) * OtlpExporter * list (option Request)) :=
  match os with
  | [] => Ok (a, ex, [])
  | o :: os =>
      let? '(a, ex, out) := agg_step p export a ex o in
      let? '(a, ex, outs) := agg_run p export a ex os in
      Ok (a, ex, out ++ outs)
  end.

(** ** Identities behind references *)

Definition az_at a (r : ref) : option Az := fst <$> rc_entries (az_store a) !! r.
Definition node_at a (r : ref) : option Node := fst <$> rc_entries (node_store a) !! r.
Definition nn_entries a : gmap ref (NodeNodeKey ref * NodeNodeEntry ref) := rc_entries (node_node_store a).

Definition end_at a (z n : ref) : option End := x ← az_at a z; y ← node_at a n; Some (x, y).
Definition pair_at a (k : NodeNodeKey ref) : option Pair :=
  x ← end_at a (nn_src_az k) (nn_src_node k); y ← end_at a (nn_dst_az k) (nn_dst_node k); Some (x, y).
Definition entry_at a (r : ref) : option Pair := k ← fst <$> nn_entries a !! r; pair_at a k.

(** No two entries have the same key. *)
Definition uniq {K V} (m : gmap ref (K * V)) : Prop :=
  forall r1 r2 k v1 v2, m !! r1 = Some (k, v1) -> m !! r2 = Some (k, v2) -> r1 = r2.

Definition end_rel a (z n : option ref) (e : option End) : Prop :=
  match z, n, e with
  | None, None, None => True
  | Some z, Some n, Some e => end_at a z n = Some e
  | _, _, _ => False
  end.

Definition wired_rel a (x y : option ref) (w : option Pair) : Prop :=
  match x, y, w with
  | None, None, None => True
  | Some x, Some y, Some w => entry_at a x = Some w /\ entry_at a y = Some (snd w, fst w)
  | _, _, _ => False
  end.

Definition root_rel a (r : AggRoot ref) (s : SRoot) : Prop :=
  end_rel a (a_az r) (a_node r) (s_a s) /\ end_rel a (b_az r) (b_node r) (s_b s)
  /\ wired_rel a (a_to_b r) (b_to_a r) (s_wired s).

Definition roots_rel a (rs : gmap AggRootKey (AggRoot ref)) (ss : gmap AggRootKey SRoot) : Prop :=
  forall key, option_Forall2 (root_rel a) (rs !! key) (ss !! key).

(** An entry resolves to a pair, and is kept alive unless it holds nothing. *)
Definition entry_inv a (r : ref) (e : NodeNodeKey ref * NodeNodeEntry ref) : Prop :=
  is_Some (pair_at a (fst e)) /\ all_ok (metrics (snd e))
  /\ (keepalive (snd e) = None -> metrics (snd e) = all_default)
  /\ (forall r', keepalive (snd e) = Some r' -> r' = r).

Definition at_pair (ps : gmap Pair AllMetrics) (q : Pair) : AllMetrics := default all_default (ps !! q).

Record inv a l : Prop := mkInv {
  inv_az : uniq (rc_entries (az_store a));
  inv_node : uniq (rc_entries (node_store a));
  inv_nn : uniq (nn_entries a);
  inv_entries : map_Forall (entry_inv a) (nn_entries a);
  inv_roots : roots_rel a (agg_roots a) (l_roots l);
  inv_sums : forall r k e q, nn_entries a !! r = Some (k, e) -> pair_at a k = Some q ->
    at_pair (l_pairs l) q = metrics e;
  inv_present : forall q, at_pair (l_pairs l) q <> all_default -> exists r, entry_at a r = Some q;
  inv_pairs_ok : map_Forall (fun _ => all_ok) (l_pairs l);
  inv_missing : missing_root_for_metric (events a) = wrap 64 (l_missing l);
  inv_unresolved : metric_before_sides_resolved (events a) = wrap 64 (l_unresolved l);
  inv_id_id : enable_id_id a = l_id_id l;
  inv_az_id : enable_az_id a = l_az_id l;
  inv_no_ip : disable_node_ip_field a = l_no_ip l;
}.

(** [a'] resolves whatever [a] resolves. *)
Definition extends a a' : Prop :=
  rc_entries (az_store a) ⊆ rc_entries (az_store a')
  /\ rc_entries (node_store a) ⊆ rc_entries (node_store a').

Lemma fst_mono {K V} (m m' : gmap ref (K * V)) r k :
  m ⊆ m' -> fst <$> m !! r = Some k -> fst <$> m' !! r = Some k.
Proof.
  intros Hm Hr. destruct (m !! r) as [e|] eqn:He; [|done].
  by rewrite (lookup_weaken _ _ _ _ He Hm).
Qed.

Lemma end_at_mono a a' z n e : extends a a' -> end_at a z n = Some e -> end_at a' z n = Some e.
Proof.
  intros [Ha Hn] He. unfold end_at, az_at, node_at in *.
  destruct (fst <$> rc_entries (az_store a) !! z) eqn:Hz; [|done].
  destruct (fst <$> rc_entries (node_store a) !! n) eqn:Hnn; [|done].
  by rewrite (fst_mono _ _ _ _ Ha Hz), (fst_mono _ _ _ _ Hn Hnn).
Qed.

Lemma pair_at_mono a a' k q : extends a a' -> pair_at a k = Some q -> pair_at a' k = Some q.
Proof.
  intros He Hp. unfold pair_at in *.
  destruct (end_at a (nn_src_az k) _) eqn:Hs; [|done].
  destruct (end_at a (nn_dst_az k) _) eqn:Hd; [|done].
  by rewrite (end_at_mono _ _ _ _ _ He Hs), (end_at_mono _ _ _ _ _ He Hd).
Qed.

Lemma fst_uniq {K V} (m : gmap ref (K * V)) r1 r2 k :
  uniq m -> fst <$> m !! r1 = Some k -> fst <$> m !! r2 = Some k -> r1 = r2.
Proof.
  intros Hu H1 H2. destruct (m !! r1) as [[k1 v1]|] eqn:E1; [|done].
  destruct (m !! r2) as [[k2 v2]|] eqn:E2; [|done]. simpl in *. simplify_eq. by eapply Hu.
Qed.

Lemma end_at_inj a z1 n1 z2 n2 e :
  uniq (rc_entries (az_store a)) -> uniq (rc_entries (node_store a)) ->
  end_at a z1 n1 = Some e -> end_at a z2 n2 = Some e -> z1 = z2 /\ n1 = n2.
Proof.
  unfold end_at. intros Ha Hn H1 H2.
  destruct (az_at a z1) eqn:Hz1; [|done]. destruct (node_at a n1) eqn:Hn1; [|done].
  destruct (az_at a z2) eqn:Hz2; [|done]. destruct (node_at a n2) eqn:Hn2; [|done].
  simpl in *. simplify_eq. unfold az_at, node_at in *. eauto using fst_uniq.
Qed.

Lemma pair_at_inj a k1 k2 q :
  uniq (rc_entries (az_store a)) -> uniq (rc_entries (node_store a)) ->
  pair_at a k1 = Some q -> pair_at a k2 = Some q -> k1 = k2.
Proof.
  unfold pair_at. intros Ha Hn H1 H2. destruct k1 as [a1 b1 c1 d1], k2 as [a2 b2 c2 d2]; simpl in *.
  destruct (end_at a a1 b1) eqn:E1; [|done]. destruct (end_at a c1 d1) eqn:E2; [|done].
  destruct (end_at a a2 b2) eqn:E3; [|done]. destruct (end_at a c2 d2) eqn:E4; [|done].
  simpl in *. simplify_eq.
  destruct (end_at_inj a a1 b1 a2 b2 _ Ha Hn E1 E3) as [-> ->].
  by destruct (end_at_inj a c1 d1 c2 d2 _ Ha Hn E2 E4) as [-> ->].
Qed.

(** ** Collection *)

Lemma elem_of_roots rs key (r : AggRoot ref) : rs !! key = Some r -> r ∈ roots_of rs.
Proof.
  intros Hr. apply list_elem_of_fmap. exists (key, r). split; [done|]. by apply elem_of_map_to_list.
Qed.

Lemma elem_of_concat_fmap {A B} (f : A -> list B) (l : list A) x y :
  x ∈ l -> y ∈ f x -> y ∈ concat (f <$> l).
Proof.
  intros Hx Hy. apply list_elem_of_In, in_concat. exists (f x). split.
  - apply in_map. by apply list_elem_of_In.
  - by apply list_elem_of_In.
Qed.

Lemma elem_of_iter {K V} (s : store K V) r e : rc_entries s !! r = Some e -> r ∈ rc_iter s.
Proof.
  intros He. rewrite rc_iter_spec. apply list_elem_of_fmap. exists (r, e). split; [done|].
  by apply elem_of_map_to_list.
Qed.

Lemma collect_nn_sub a : nn_entries (collect a) ⊆ nn_entries a.
Proof. apply rc_collect_subseteq. Qed.

Lemma collect_extends a : extends (collect a) a.
Proof. split; apply rc_collect_subseteq. Qed.

Lemma collect_root_entry a key root r :
  agg_roots a !! key = Some root -> r ∈ root_nn_refs root ->
  nn_entries (collect a) !! r = nn_entries a !! r.
Proof.
  intros Hroot Hr. apply rc_collect_held, elem_of_app. left.
  eapply elem_of_concat_fmap; [by eapply elem_of_roots|done].
Qed.

Lemma collect_kept_entry a r e :
  nn_entries a !! r = Some e -> keepalive (snd e) = Some r ->
  nn_entries (collect a) !! r = Some e.
Proof.
  intros Hr Hk. rewrite <- Hr. apply rc_collect_held, elem_of_app. right.
  apply list_elem_of_omap. exists r. split; [by eapply elem_of_iter|].
  rewrite rc_value_spec. unfold nn_entries in Hr. by rewrite Hr.
Qed.

Lemma collect_root_end a key root z n :
  agg_roots a !! key = Some root -> z ∈ root_az_refs root -> n ∈ root_node_refs root ->
  end_at (collect a) z n = end_at a z n.
Proof.
  intros Hroot Hz Hn. unfold end_at, az_at, node_at. simpl.
  rewrite !rc_collect_held; [done| |]; apply elem_of_app; left;
    (eapply elem_of_concat_fmap; [by eapply elem_of_roots|done]).
Qed.

Lemma collect_key_refs a r k e :
  nn_entries (collect a) !! r = Some (k, e) -> pair_at (collect a) k = pair_at a k.
Proof.
  intros Hr.
  assert (k ∈ omap (rc_key (node_node_store (collect a))) (rc_iter (node_node_store (collect a)))) as Hk.
  { apply list_elem_of_omap. exists r. split; [by eapply elem_of_iter|].
    rewrite rc_key_spec. unfold nn_entries in Hr. by rewrite Hr. }
  unfold pair_at, end_at, az_at, node_at. simpl in *.
  rewrite !rc_collect_held; [done|..]; apply elem_of_app; right;
    (eapply elem_of_concat_fmap; [done|]; simpl; set_solver).
Qed.

Lemma uniq_subseteq {K V} (m m' : gmap ref (K * V)) : m ⊆ m' -> uniq m' -> uniq m.
Proof. intros Hm Hu r1 r2 k v1 v2 Hr1 Hr2. eapply Hu; eapply lookup_weaken; eauto. Qed.

Lemma collect_root_rel a key root s :
  agg_roots a !! key = Some root -> root_rel a root s -> root_rel (collect a) root s.
Proof.
  intros Hroot (Ha & Hb & Hw). split_and!.
  - unfold end_rel in *. destruct (a_az root) eqn:Ez, (a_node root) eqn:En, (s_a s); try done.
    rewrite <- Ha. eapply collect_root_end; [done| |]; unfold root_az_refs, root_node_refs;
      rewrite ?Ez, ?En; set_solver.
  - unfold end_rel in *. destruct (b_az root) eqn:Ez, (b_node root) eqn:En, (s_b s); try done.
    rewrite <- Hb. eapply collect_root_end; [done| |]; unfold root_az_refs, root_node_refs;
      rewrite ?Ez, ?En; set_solver.
  - unfold wired_rel in *. destruct (a_to_b root) as [x|] eqn:Ex, (b_to_a root) as [y|] eqn:Ey,
      (s_wired s) as [w|]; try done.
    assert (forall r, r ∈ root_nn_refs root -> entry_at (collect a) r = entry_at a r) as Hsame.
    { intros r Hr. unfold entry_at. rewrite (collect_root_entry a key root r Hroot Hr).
      destruct (nn_entries a !! r) as [[k e]|] eqn:He; [|done]. simpl.
      eapply collect_key_refs. by rewrite (collect_root_entry a key root r Hroot Hr). }
    rewrite !Hsame by (unfold root_nn_refs; rewrite Ex, Ey; simpl; rewrite !elem_of_cons; auto).
    done.
Qed.

Lemma inv_collect a l : inv a l -> inv (collect a) l.
Proof.
  intros [Haz Hnode Hnn Hent Hroots Hsums Hpres Hok Hm Hu Hf1 Hf2 Hf3].
  pose proof (collect_nn_sub a) as Hsub. destruct (collect_extends a) as [Hsa Hsn].
  split; try done; eauto using uniq_subseteq.
  - intros r [k e] Hr. destruct (Hent r (k, e) (lookup_weaken _ _ _ _ Hr Hsub)) as (Hp & Hrest).
    split; [|done]. simpl in *. by rewrite (collect_key_refs _ _ _ _ Hr).
  - intros key. specialize (Hroots key). simpl.
    destruct (agg_roots a !! key) as [root|] eqn:Er; inversion Hroots as [? s Hrel|]; subst; constructor.
    by eapply collect_root_rel.
  - intros r k e q Hr Hq. eapply Hsums; [by eapply lookup_weaken|]. eapply pair_at_mono; [|done].
    apply collect_extends.
  - intros q Hq. destruct (Hpres q Hq) as [r Hr]. exists r. unfold entry_at in *.
    destruct (nn_entries a !! r) as [[k e]|] eqn:He; [|done]. simpl in Hr.
    destruct (Hent r (k, e) He) as (_ & _ & Hnone & Hself). simpl in *.
    destruct (keepalive e) as [r'|] eqn:Hk.
    + rewrite (Hself r' eq_refl) in Hk. pose proof (collect_kept_entry a r (k, e) He Hk) as Hr'.
      rewrite Hr'. simpl. by rewrite (collect_key_refs _ _ _ _ Hr').
    + destruct Hq. by rewrite (Hsums r k e q He Hr), Hnone.
Qed.

(** ** Interning *)

Lemma upsert_spec {K V} `{EqDecision K} (s : store K V) k v :
  uniq (rc_entries s) ->
  exists r s', upsert (E := E) s k v = Ok (r, s') /\ fst <$> rc_entries s' !! r = Some k
    /\ rc_entries s ⊆ rc_entries s' /\ uniq (rc_entries s')
    /\ forall r' e, rc_entries s' !! r' = Some e ->
         rc_entries s !! r' = Some e
         \/ r' = r /\ e = (k, v) /\ forall r0 v0, rc_entries s !! r0 <> Some (k, v0).
Proof.
  intros Hu. unfold upsert. destruct (rc_find s k) as [r|] eqn:Hf.
  { destruct (rc_find_Some _ _ s k r Hf) as [v' Hr]. exists r, s. rewrite Hr. split_and!; eauto. }
  destruct (rc_insert_fresh _ _ s k v Hf) as (r & s' & -> & Hr & Hs'). exists r, s'.
  assert (forall r0 v0, rc_entries s !! r0 <> Some (k, v0)) as Hnew by (intros; by eapply rc_find_None).
  rewrite Hs', lookup_insert_eq. split_and!; [done|done|by apply insert_subseteq| |].
  - intros r1 r2 k' v1 v2. rewrite !lookup_insert_Some. intros [[<- ?]|[? Hr1]] [[<- ?]|[? Hr2]];
      simplify_eq; [done|by apply Hnew in Hr2|by apply Hnew in Hr1|by eapply Hu].
  - intros r' e. rewrite lookup_insert_Some. intros [[<- <-]|[? ?]]; auto.
Qed.

Lemma pair_at_back a a' k q :
  extends a a' -> is_Some (pair_at a k) -> pair_at a' k = Some q -> pair_at a k = Some q.
Proof.
  intros He [q' Hq'] Hq. pose proof (pair_at_mono _ _ _ _ He Hq') as Hq''. congruence.
Qed.

Lemma entry_at_mono a a' r q :
  extends a a' -> nn_entries a' = nn_entries a -> entry_at a r = Some q -> entry_at a' r = Some q.
Proof.
  intros He Hnn. unfold entry_at. rewrite Hnn. destruct (fst <$> nn_entries a !! r); [|done].
  simpl. by apply pair_at_mono.
Qed.

Lemma root_rel_mono a a' root s :
  extends a a' -> (forall r q, entry_at a r = Some q -> entry_at a' r = Some q) ->
  root_rel a root s -> root_rel a' root s.
Proof.
  intros He Hen (Ha & Hb & Hw).
  assert (forall z n e, end_rel a z n e -> end_rel a' z n e) as Hend.
  { intros [z|] [n|] [e|]; simpl; eauto using end_at_mono. }
  split_and!; auto. unfold wired_rel in *.
  destruct (a_to_b root), (b_to_a root), (s_wired s); try done. destruct Hw. split; auto.
Qed.

Lemma roots_rel_mono a a' rs ss :
  extends a a' -> (forall r q, entry_at a r = Some q -> entry_at a' r = Some q) ->
  roots_rel a rs ss -> roots_rel a' rs ss.
Proof.
  intros He Hen Hr key. specialize (Hr key). inversion Hr; constructor. by eapply root_rel_mono.
Qed.

(** Interning identities keeps the invariant. *)
Lemma inv_intern a azs nodes l :
  let a' := mkAgg (events a) azs nodes (agg_roots a) (node_node_store a)
              (enable_id_id a) (enable_az_id a) (disable_node_ip_field a) in
  extends a a' -> uniq (rc_entries azs) -> uniq (rc_entries nodes) -> inv a l -> inv a' l.
Proof.
  intros a' He Ha Hn [Haz Hnode Hnn Hent Hroots Hsums Hpres Hok Hm Hu Hf1 Hf2 Hf3].
  split; try done.
  - intros r e Hr. destruct (Hent r e Hr) as ([q Hq] & Hrest). split; [|done].
    exists q. by apply (pair_at_mono a a').
  - eapply roots_rel_mono; [done| |done]. intros r q. by apply entry_at_mono.
  - intros r k e q Hr Hq. eapply Hsums; [done|]. eapply pair_at_back; [done| |done].
    apply (Hent r (k, e) Hr).
  - intros q Hq. destruct (Hpres q Hq) as [r Hr]. exists r. by apply (entry_at_mono a a').
Qed.

(** So does interning a pair of identities. *)
Lemma inv_upsert_nn a l k q :
  inv a l -> pair_at a k = Some q ->
  exists r nn, upsert (E := E) (node_node_store a) k entry_default = Ok (r, nn)
    /\ inv (set_nn a nn) l /\ entry_at (set_nn a nn) r = Some q
    /\ forall r' q', entry_at a r' = Some q' -> entry_at (set_nn a nn) r' = Some q'.
Proof.
  intros [Haz Hnode Hnn Hent Hroots Hsums Hpres Hok Hm Hu Hf1 Hf2 Hf3] Hq.
  destruct (upsert_spec (node_node_store a) k entry_default Hnn)
    as (r & nn & Hup & Hr & Hsub & Huniq & Hnew).
  assert (forall r' q', entry_at a r' = Some q' -> entry_at (set_nn a nn) r' = Some q') as Hmono.
  { intros r' q'. unfold entry_at, nn_entries. simpl.
    destruct (fst <$> rc_entries (node_node_store a) !! r') eqn:Hk; [|done].
    by rewrite (fst_mono _ _ _ _ Hsub Hk). }
  exists r, nn. split_and!; [done| |by unfold entry_at, nn_entries; simpl; rewrite Hr|done].
  split; try done.
  - intros r' e' Hr'. destruct (Hnew r' e' Hr') as [Hold|(-> & -> & _)]; [by apply Hent|].
    split_and!; [by exists q|apply all_default_ok|done|done].
  - apply (roots_rel_mono a); [by split|done|done].
  - intros r' k' e' q' Hr' Hq'. destruct (Hnew r' (k', e') Hr') as [Hold|(-> & Heq & Hfresh)].
    { by eapply Hsums. }
    injection Heq as -> ->. simpl. destruct (decide (at_pair (l_pairs l) q' = all_default)) as [|Hne].
    { done. }
    destruct (Hpres q' Hne) as [r0 Hr0]. unfold entry_at, nn_entries in Hr0.
    destruct (rc_entries (node_node_store a) !! r0) as [[k0 e0]|] eqn:E0; [|done]. simpl in Hr0.
    rewrite (pair_at_inj a k0 k q' Haz Hnode Hr0 Hq') in E0. by apply Hfresh in E0.
  - intros q' Hne. destruct (Hpres q' Hne) as [r0 Hr0]. eauto.
Qed.

(** ** Roots *)

Lemma inv_set_roots a l rs ss :
  inv a l -> roots_rel a rs ss -> inv (set_roots a rs) (set_l_roots l ss).
Proof. intros [] Hr. by split. Qed.

Lemma roots_rel_insert a rs ss key r s :
  roots_rel a rs ss -> root_rel a r s -> roots_rel a (<[key := r]> rs) (<[key := s]> ss).
Proof.
  intros Hr Hrel k. destruct (decide (key = k)) as [<-|Hne].
  - rewrite !lookup_insert_eq. by constructor.
  - by rewrite !lookup_insert_ne.
Qed.

Lemma inv_start a l key :
  inv a l -> inv (agg_root_start a key) (fst (ledger_step l (Start key))).
Proof.
  intros Hi. apply inv_collect, inv_set_roots; [done|]. apply roots_rel_insert; [apply Hi|by split_and!].
Qed.

Lemma inv_finish a l key :
  inv a l -> inv (agg_root_end a key) (fst (ledger_step l (Finish key))).
Proof.
  intros Hi. apply inv_collect, inv_set_roots; [done|]. intros k.
  destruct (decide (key = k)) as [<-|Hne].
  - rewrite !lookup_delete_eq. constructor.
  - rewrite !lookup_delete_ne by done. apply Hi.
Qed.

(** Wiring keeps the invariant and relates the root to its wired
    counterpart. *)
Lemma inv_wire a l root s :
  inv a l -> root_rel a root s ->
  exists root' nn, wire (E := E) root (node_node_store a) = Ok (root', nn)
    /\ inv (set_nn a nn) l
    /\ root_rel (set_nn a nn) root'
         (mkSRoot (s_a s) (s_b s)
            (match s_wired s, s_a s, s_b s with None, Some x, Some y => Some (x, y) | w, _, _ => w end)).
Proof.
  intros Hi Hrel. pose proof Hrel as (Ha & Hb & Hw). unfold wire, end_rel, wired_rel in *.
  destruct s as [sa sb sw]. simpl in *.
  assert (set_nn a (node_node_store a) = a) as Hsame by (by destruct a).
  destruct (a_to_b root) eqn:Eab, (b_to_a root) eqn:Eba, sw as [w|]; try done.
  { exists root, (node_node_store a). by rewrite Hsame. }
  destruct (a_node root) as [an|] eqn:Ean, (a_az root) as [aa|] eqn:Eaa, sa as [ea|]; try done.
  2:{ exists root, (node_node_store a). by rewrite Hsame. }
  destruct (b_node root) as [bn|] eqn:Ebn, (b_az root) as [ba|] eqn:Ebaz, sb as [eb|]; try done.
  2:{ exists root, (node_node_store a). by rewrite Hsame. }
  destruct (inv_upsert_nn a l (mkNN aa an ba bn) (ea, eb)) as (r1 & nn1 & Hu1 & Hi1 & Hr1 & Hm1).
  { done. }
  { unfold pair_at. simpl. by rewrite Ha, Hb. }
  rewrite Hu1. cbn [rbind].
  destruct (inv_upsert_nn (set_nn a nn1) l (mkNN ba bn aa an) (eb, ea))
    as (r2 & nn2 & Hu2 & Hi2 & Hr2 & Hm2).
  { done. }
  { change (pair_at a (mkNN ba bn aa an) = Some (eb, ea)). unfold pair_at. simpl. by rewrite Ha, Hb. }
  simpl in Hu2. rewrite Hu2. cbn [rbind]. eexists _, nn2. split; [reflexivity|]. split; [exact Hi2|].
  split_and!; simpl; try done. split; [|done]. by apply Hm2.
Qed.

Lemma root_rel_attach a root s side z n e :
  root_rel a root s -> end_at a z n = Some e ->
  root_rel a (attach root side z n)
    (mkSRoot (match side with SideA => Some e | SideB => s_a s end)
       (match side with SideA => s_b s | SideB => Some e end) (s_wired s)).
Proof. intros (Ha & Hb & Hw) He. by destruct side; split_and!. Qed.

Lemma inv_set_side a l key side z node :
  inv a l ->
  exists a', update_node (E := E) a key side z node = Ok a'
    /\ inv a' (fst (ledger_step l (SetSide key side z node))).
Proof.
  intros Hi. unfold update_node.
  rewrite (inv_no_ip _ _ Hi).
  set (node' := if l_no_ip l then _ else _).
  destruct (upsert_spec (az_store a) z tt (inv_az _ _ Hi)) as (zr & azs & -> & Hz & Hsz & Huz & _).
  cbn [rbind].
  destruct (upsert_spec (node_store a) node' tt (inv_node _ _ Hi))
    as (nr & nodes & -> & Hn & Hsn & Hun & _). cbn [rbind].
  set (a1 := mkAgg (events a) azs nodes (agg_roots a) (node_node_store a)
               (enable_id_id a) (enable_az_id a) (disable_node_ip_field a)).
  assert (inv a1 l) as Hi1 by (apply inv_intern; [by split|done|done|done]).
  set (root := default root_default (agg_roots a !! key)).
  set (s := default (mkSRoot None None None) (l_roots l !! key)).
  assert (root_rel a1 root s) as Hroot.
  { pose proof (inv_roots _ _ Hi1 key) as Hk. unfold root, s. change (agg_roots a1) with (agg_roots a) in Hk.
    inversion Hk as [? ? Hrel Hx Hy|Hx Hy]; simpl; [done|by split_and!]. }
  assert (end_at a1 zr nr = Some (z, node')) as Hend.
  { unfold end_at, az_at, node_at. simpl. by rewrite Hz, Hn. }
  pose proof (root_rel_attach a1 root s side zr nr (z, node') Hroot Hend) as Hatt.
  destruct (inv_wire a1 l _ _ Hi1 Hatt) as (root' & nn & Hwire & Hi2 & Hrel).
  change (node_node_store a1) with (node_node_store a) in Hwire. rewrite Hwire. cbn [rbind].
  eexists. split; [reflexivity|]. apply inv_collect.
  pose proof (inv_set_roots (set_nn a1 nn) l _ _ Hi2
                (roots_rel_insert _ _ _ key _ _ (inv_roots _ _ Hi2) Hrel)) as Hfin.
  unfold set_roots, set_nn in Hfin. simpl in Hfin. rewrite (inv_no_ip _ _ Hi) in Hfin. exact Hfin.
Qed.

(** ** Samples *)

Definition sample_add (p : profile) (s : sample) (x : AllMetrics) : res E AllMetrics :=
  match s with
  | STcp m => rmap (set_tcp x) (tcp_add_from p (tcp x) m)
  | SUdp m => rmap (set_udp x) (udp_add_from p (udp x) m)
  | SHttp m => rmap (set_http x) (http_add_from p (http x) m)
  | SDns m => rmap (set_dns x) (dns_add_from p (dns x) m)
  end.

Lemma agg_step_add p export a ex key dir s :
  agg_step p export a ex (Add key dir s)
  = rmap (fun a => (a, ex, [])) (add_metrics p (sample_add p s) a key dir).
Proof. by destruct s. Qed.

Lemma sample_add_release s x :
  sample_ok s -> all_ok x -> sample_add Release s x = Ok (all_plus x (only s)).
Proof.
  intros Hs Hx. pose proof (all_add_release (E := E) x (only s) Hx Hs) as Hadd.
  pose proof (all_plus_default_r x Hx) as Hid. destruct x as [t u h d ft fu fh fd].
  unfold all_plus in Hid. simpl in Hid. rewrite !orb_false_r in Hid. injection Hid as Ht Hu Hh Hd.
  unfold all_add in Hadd. destruct s; simpl in *; inv_res; unfold all_plus; simpl;
    rewrite ?Ht, ?Hu, ?Hh, ?Hd, !orb_false_r.
  all: match goal with Hf : ?x = Ok _ |- rmap _ ?x = _ => rewrite Hf end; by subst.
Qed.

Lemma count_release x : add_chk (E := E) Release 64 (wrap 64 x) 1 = Ok (wrap 64 (x + 1)).
Proof.
  rewrite add_chk_release; [|apply wrap_fits; lia|done]. unfold wadd, wrapping_add. by rewrite wrap_add_l.
Qed.

Lemma find_release a l key dir :
  inv a l ->
  match l_roots l !! key with
  | None => exists ev, find_node_node_ref (E := E) Release a key dir = Ok (None, set_events a ev)
      /\ missing_root_for_metric ev = wrap 64 (l_missing l + 1)
      /\ metric_before_sides_resolved ev = wrap 64 (l_unresolved l)
  | Some s => exists o, find_node_node_ref (E := E) Release a key dir = Ok (o, a)
      /\ match o, s_wired s with
         | None, None => True
         | Some r, Some w => entry_at a r = Some (directed dir w)
         | _, _ => False
         end
  end.
Proof.
  intros Hi. unfold find_node_node_ref. pose proof (inv_roots _ _ Hi key) as Hk.
  inversion Hk as [root s (_ & _ & Hw) Hx Hy|Hx Hy].
  - eexists. split; [reflexivity|]. unfold wired_rel in Hw.
    destruct dir; repeat case_match; simplify_eq; try done; by destruct Hw.
  - unfold inc. cbn [count]. rewrite (inv_missing _ _ Hi), count_release. simpl.
    eexists. split_and!; [reflexivity|done|apply Hi].
Qed.

Lemma inv_counts a l ev missing unresolved :
  inv a l -> missing_root_for_metric ev = wrap 64 missing ->
  metric_before_sides_resolved ev = wrap 64 unresolved ->
  inv (set_events a ev) (set_l_counts l missing unresolved).
Proof. intros [] Hm Hu. by split. Qed.

(** Replacing the value of an entry and the sum of its pair. *)
Lemma inv_set_entry a l r k e q e' :
  inv a l -> nn_entries a !! r = Some (k, e) -> pair_at a k = Some q ->
  all_ok (metrics e') -> keepalive e' = Some r ->
  inv (set_nn a (rc_set (node_node_store a) r e')) (set_l_pairs l (<[q := metrics e']> (l_pairs l))).
Proof.
  intros Hi Hr Hq Hok Hkeep. pose proof Hi as [Haz Hnode Hnn Hent Hroots Hsums Hpres Hpok Hm Hu Hf1 Hf2 Hf3].
  set (a' := set_nn a _).
  assert (forall r', nn_entries a' !! r'
            = if decide (r = r') then Some (k, e') else nn_entries a !! r') as Hlook.
  { intros r'. unfold a', nn_entries. simpl. rewrite rc_set_spec. case_decide as Hd.
    - subst r'. rewrite lookup_alter_eq. unfold nn_entries in Hr. by rewrite Hr.
    - by rewrite lookup_alter_ne. }
  assert (forall r', fst <$> nn_entries a' !! r' = fst <$> nn_entries a !! r') as Hkeys.
  { intros r'. rewrite Hlook. case_decide as Hd; [subst; by rewrite Hr|done]. }
  assert (forall r', entry_at a' r' = entry_at a r') as Hentry.
  { intros r'. unfold entry_at. by rewrite Hkeys. }
  split; try done.
  - intros r1 r2 k0 v1 v2 H1 H2. apply (fst_uniq (nn_entries a) r1 r2 k0 Hnn);
      rewrite <- Hkeys; [by rewrite H1|by rewrite H2].
  - intros r' [k' x]. rewrite Hlook. case_decide as Hd; [|apply Hent].
    intros [= <- <-]. subst r'. split_and!; [by exists q|done| |]; simpl; congruence.
  - apply (roots_rel_mono a); [by split| |done]. intros r' q' <-. apply Hentry.
  - intros r' k' x q'. rewrite Hlook. change (pair_at a' k') with (pair_at a k'). unfold at_pair.
    simpl. case_decide as Hd.
    + intros [= <- <-] Hq'. rewrite Hq in Hq'. injection Hq' as <-. by rewrite lookup_insert_eq.
    + intros Hr' Hq'. rewrite lookup_insert_ne; [by eapply Hsums|]. intros <-. apply Hd.
      rewrite (pair_at_inj a k' k q Haz Hnode Hq' Hq) in Hr'. by eapply Hnn.
  - intros q' Hne. setoid_rewrite Hentry. unfold at_pair in Hne. simpl in Hne.
    destruct (decide (q = q')) as [<-|Hqq].
    + exists r. unfold entry_at. by rewrite Hr.
    + rewrite lookup_insert_ne in Hne by done. by apply Hpres.
  - simpl. by apply map_Forall_insert_2.
Qed.

Lemma inv_add a l key dir s :
  inv a l -> sample_ok s ->
  exists a', add_metrics (E := E) Release (sample_add Release s) a key dir = Ok a'
    /\ inv a' (fst (ledger_step l (Add key dir s))).
Proof.
  intros Hi Hs. unfold add_metrics. pose proof (find_release a l key dir Hi) as Hf. simpl.
  destruct (l_roots l !! key) as [sr|].
  - destruct Hf as ([r|] & -> & Hw); cbn [rbind]; destruct (s_wired sr) as [w|]; try done.
    + unfold entry_at in Hw. destruct (nn_entries a !! r) as [[k e]|] eqn:Hr; [|done]. simpl in Hw.
      rewrite rc_value_spec. unfold nn_entries in Hr. rewrite Hr. simpl.
      destruct (inv_entries _ _ Hi r (k, e) Hr) as (_ & Hok & _ & Hself). simpl in *.
      rewrite sample_add_release by done. simpl. eexists. split; [reflexivity|].
      fold (at_pair (l_pairs l) (directed dir w)). rewrite (inv_sums _ _ Hi r k e _ Hr Hw).
      eapply (inv_set_entry a l r k e (directed dir w) (mkNNE _ _)); simpl; try done.
      { apply all_plus_ok. }
      destruct (keepalive e) as [r'|]; [|done]. by rewrite (Hself r').
    + unfold inc. cbn [count]. rewrite (inv_unresolved _ _ Hi), count_release. simpl.
      eexists. split; [reflexivity|]. apply inv_counts; [done|apply Hi|done].
  - destruct Hf as (ev & -> & Hm & Hu). cbn [rbind]. unfold inc. simpl.
    rewrite Hu, count_release. simpl. eexists. split; [reflexivity|].
    change (set_events (set_events a ev) ?x) with (set_events a x). apply inv_counts; done.
Qed.

End refinement.
