(* ===== verification/AggregatorRefine.v ===== *)
(** * The aggregator refines its ledger

    The sums and labels of a window, the end of a window, and the refinement
    theorem over whole runs. *)

From S2P Require Import Prelude OtlpExport Metrics AggFramework OtlpEncoding RcHashMap Aggregator.
From S2P Require Import Sums AggregatorSpec.

Local Open Scope rust_scope.

(** A request holds the points of a window, in some order of the emissions;
    no request is sent when there are none. *)
Definition sent (req : option Request) (out : Z * list (Labels * AllMetrics)) : Prop :=
  exists ems pts, ems ≡ₚ snd out /\ points_of (as_signed 64 (fst out)) pts ems
    /\ match req with
       | Some r => pts <> [] /\ req_metrics r = to_metric <$> pts
       | None => pts = []
       end.

Section refinement.
Context {ref : Type} {store : Type -> Type -> Type} {ref_eq : EqDecision ref}
  {ref_countable : Countable ref} {rc : RcHashMap ref store} {rc_laws : RcHashMapLaws ref store}
  {order : HashOrder} {order_laws : HashOrderLaws} {E : Type}.

Implicit Types a : Aggregator (ref := ref) (store := store).
Implicit Types l : Ledger.

(** ** Sums of a window *)

Lemma summed_perm {G} `{EqDecision G} (proj : Pair -> G) ps gl :
  represents (total proj ps) gl ->
  filter (fun e => should_emit_any (snd e) = true) gl ≡ₚ summed proj ps.
Proof.
  intros Hgl. unfold summed.
  trans (filter (fun e => should_emit_any (snd e) = true)
           ((fun g => (g, total proj ps g)) <$> remove_dups (proj <$> (map_to_list ps).*1))).
  - apply (rep_perm (total proj ps)); [done|apply group_sum_represents|]. by intros q.
  - by rewrite filter_fmap.
Qed.

Lemma pairs_represent ps : represents (at_pair ps) (map_to_list ps).
Proof.
  split.
  - apply NoDup_fst_map_to_list.
  - intros q m Hq%elem_of_map_to_list. unfold at_pair. by rewrite Hq.
  - intros q Hq. unfold at_pair in Hq. destruct (ps !! q) as [m|] eqn:Hm; [|done].
    apply list_elem_of_fmap. exists (q, m). split; [done|]. by apply elem_of_map_to_list.
Qed.

#[local] Instance Az_inhabited : Inhabited Az := populate (mkAz [] [] [] [] [] 0 [] [] []).
#[local] Instance Node_inhabited : Inhabited Node := populate (mkNode [] [] []).

Abbreviation Item := (ref * (NodeNodeKey ref * NodeNodeEntry ref))%type.

Definition pair_of a (x : Item) : Pair := default inhabitant (pair_at a (fst (snd x))).
Definition metrics_of (x : Item) : AllMetrics := metrics (snd (snd x)).
Definition keyed a (es : list Item) : list (Pair * AllMetrics) :=
  (fun x => (pair_of a x, metrics_of x)) <$> es.

Lemma iter_items a :
  exists es : list Item, rc_iter (node_node_store a) = es.*1 /\ es ≡ₚ map_to_list (nn_entries a).
Proof.
  destruct (Permutation_map_inv fst (map_to_list (nn_entries a)) (rc_iter_spec _ _ (node_node_store a)))
    as (es & Hes & Hp). exists es. split; [done|]. by symmetry.
Qed.

Lemma item_entry a l (es : list Item) r k e :
  inv a l -> es ≡ₚ map_to_list (nn_entries a) -> (r, (k, e)) ∈ es ->
  nn_entries a !! r = Some (k, e) /\ pair_at a k = Some (pair_of a (r, (k, e))) /\ all_ok (metrics e).
Proof.
  intros Hi Hes Hin. rewrite Hes, elem_of_map_to_list in Hin.
  destruct (inv_entries _ _ Hi r (k, e) Hin) as ([q Hq] & Hok & _). simpl in *.
  split_and!; [done| |done]. unfold pair_of. simpl. by rewrite Hq.
Qed.

Lemma items_represent a l (es : list Item) :
  inv a l -> es ≡ₚ map_to_list (nn_entries a) -> represents (at_pair (l_pairs l)) (keyed a es).
Proof.
  intros Hi Hes. split.
  - unfold keyed. rewrite <- list_fmap_compose. apply NoDup_fmap_2_strong.
    + intros [r1 [k1 e1]] [r2 [k2 e2]] Hx1 Hx2 Heq. simpl in Heq.
      destruct (item_entry a l es _ _ _ Hi Hes Hx1) as (Hr1 & Hp1 & _).
      destruct (item_entry a l es _ _ _ Hi Hes Hx2) as (Hr2 & Hp2 & _).
      rewrite Heq in Hp1.
      pose proof (pair_at_inj a k1 k2 _ (inv_az _ _ Hi) (inv_node _ _ Hi) Hp1 Hp2) as <-.
      pose proof (inv_nn _ _ Hi _ _ _ _ _ Hr1 Hr2) as <-. congruence.
    + rewrite Hes. apply NoDup_map_to_list.
  - intros q m ([r [k e]] & Heq & Hin)%list_elem_of_fmap. injection Heq as -> ->.
    destruct (item_entry a l es _ _ _ Hi Hes Hin) as (Hr & Hp & _). symmetry.
    by apply (inv_sums _ _ Hi r k e).
  - intros q Hq. destruct (inv_present _ _ Hi q Hq) as [r Hr]. unfold entry_at in Hr.
    destruct (nn_entries a !! r) as [[k e]|] eqn:He; [|done]. simpl in Hr.
    unfold keyed. rewrite <- list_fmap_compose. apply list_elem_of_fmap. exists (r, (k, e)). split.
    + simpl. unfold pair_of. simpl. by rewrite Hr.
    + rewrite Hes. by apply elem_of_map_to_list.
Qed.

(** The sums by group of the entries are those of the ledger. *)
Lemma items_total {G} `{EqDecision G} (proj : Pair -> G) a l (es : list Item) g :
  inv a l -> es ≡ₚ map_to_list (nn_entries a) ->
  group_sum proj (keyed a es) g = total proj (l_pairs l) g.
Proof.
  intros Hi Hes. eapply group_sum_rep; [by apply items_represent|apply pairs_represent].
Qed.

Lemma aggregate_with_items {R T} `{Countable R} (d : gmap R T) (es : list Item)
    (project : ref -> res E R) init add :
  aggregate_with d (es.*1) project init add
  = aggregate_with d es (fun x => project (fst x)) init (fun t x => add t (fst x)).
Proof.
  revert d. induction es as [|x es IH]; intros d; [done|]. csimpl.
  destruct (project (fst x)); [|done|done]. cbn [rbind].
  destruct (add _ _); [|done|done]. cbn [rbind]. apply IH.
Qed.

(** What the two aggregations over the entries build. *)
Lemma aggregate_entries {R G} `{Countable R} `{EqDecision G} a l (es : list Item)
    (pr : NodeNodeKey ref -> R) (proj : Pair -> G) (resolve : R -> option G) :
  inv a l -> rc_iter (node_node_store a) = es.*1 -> es ≡ₚ map_to_list (nn_entries a) ->
  (forall k q, pair_at a k = Some q -> resolve (pr k) = Some (proj q)) ->
  (forall k1 k2 q1 q2, pair_at a k1 = Some q1 -> pair_at a k2 = Some q2 ->
     proj q1 = proj q2 -> pr k1 = pr k2) ->
  exists na, aggregate (Er := E) (rc_iter (node_node_store a))
      (fun it => rmap pr (entry_key (node_node_store a) it)) all_default
      (fun t it => let? m := entry_metrics (node_node_store a) it in all_add Release t m) = Ok na
    /\ map_Forall (fun _ => all_ok) na
    /\ forall ls, ls ≡ₚ map_to_list na -> exists gl,
         Forall2 (fun rv gv => resolve (fst rv) = Some (fst gv) /\ snd rv = snd gv) ls gl
         /\ represents (total proj (l_pairs l)) gl.
Proof.
  intros Hi Hit Hes Hres Hkey.
  assert (forall x, x ∈ es -> rc_entries (node_node_store a) !! fst x = Some (snd x)) as Hlook.
  { intros [r [k e]] Hx. by destruct (item_entry a l es _ _ _ Hi Hes Hx) as (? & _). }
  assert (forall x, x ∈ es -> pair_at a (fst (snd x)) = Some (pair_of a x) /\ all_ok (metrics_of x)) as Hpair.
  { intros [r [k e]] Hx. by destruct (item_entry a l es _ _ _ Hi Hes Hx) as (_ & ? & ?). }
  unfold aggregate. rewrite Hit, aggregate_with_items.
  destruct (aggregate_with_spec (Er := E) (fun x => pr (fst (snd x))) all_default
              (fun t (x : Item) => all_plus t (metrics_of x)) all_ok ∅ es
              (fun x => rmap pr (entry_key (node_node_store a) (fst x)))
              (fun t x => let? m := entry_metrics (node_node_store a) (fst x) in all_add Release t m))
    as (na & Hna & Hok & Hfold).
  - apply all_default_ok.
  - apply map_Forall_empty.
  - apply Forall_forall. intros x Hx. unfold entry_key. rewrite rc_key_spec, Hlook by done. done.
  - apply Forall_forall. intros x Hx t Ht. unfold entry_metrics. rewrite rc_value_spec, Hlook by done.
    simpl. rewrite all_add_release; [|done|by apply Hpair]. split; [done|]. apply all_plus_ok.
  - exists na. split_and!; [done|done|]. intros ls Hls.
    destruct (aggregated_represents (pair_of a) metrics_of (fun x => pr (fst (snd x))) proj resolve es na
                Hfold) with (l := ls) as (gl & Hgl & Hrep).
    { intros x Hx. apply Hres. by apply Hpair. }
    { intros x y Hx Hy. apply Hkey; by apply Hpair. }
    { done. }
    exists gl. split; [done|]. eapply represents_ext; [|done]. intros g.
    by apply (items_total proj a l es g).
Qed.

(** ** Emission *)

Definition emitted (ts : Z) (ex ex' : OtlpExporter) (ems : list (Labels * AllMetrics)) : Prop :=
  exists pts, buf (publisher ex') = buf (publisher ex) ++ pts /\ points_of ts pts ems.

Lemma emitted_nil ts ex : emitted ts ex ex [].
Proof. exists []. rewrite app_nil_r. split; [done|constructor]. Qed.

Lemma emitted_app ts ex1 ex2 ex3 ems1 ems2 :
  emitted ts ex1 ex2 ems1 -> emitted ts ex2 ex3 ems2 -> emitted ts ex1 ex3 (ems1 ++ ems2).
Proof.
  intros (p1 & Hb1 & Hp1) (p2 & Hb2 & Hp2). exists (p1 ++ p2).
  rewrite Hb2, Hb1, app_assoc. split; [done|]. unfold points_of, flat. rewrite bind_app.
  by apply Forall2_app.
Qed.

Lemma emit_one ts ex labels m :
  all_ok m ->
  exists ex', emit_all_metrics (E := E) Release ex ts labels m = Ok ex'
    /\ emitted ts ex ex' [(labels, m)].
Proof.
  intros Hm. destruct (emit_all_release (E := E) ex ts labels m Hm) as (ex' & Hex & pts & Hb & Hr & _).
  exists ex'. split; [done|]. exists pts. split; [done|]. unfold points_of, flat. simpl.
  rewrite app_nil_r. apply Forall2_fmap_r. exact Hr.
Qed.

Abbreviation emitting := (fun e => should_emit_any (snd e) = true).

Lemma emit_group_release {K} ts (labels_of : K -> Labels) (ls : list (K * AllMetrics)) ex :
  Forall (fun e => all_ok (snd e)) ls ->
  exists ex', emit_group (E := E) Release ts labels_of ls ex = Ok ex'
    /\ emitted ts ex ex' (relabel labels_of (filter emitting ls)).
Proof.
  intros Hls. revert ex. induction Hls as [|[k m] ls Hm _ IH]; intros ex.
  { exists ex. split; [done|apply emitted_nil]. }
  simpl. destruct (should_emit_any m) eqn:Hs; simpl.
  - destruct (emit_one ts ex (labels_of k) m Hm) as (ex1 & -> & H1). cbn [rbind].
    destruct (IH ex1) as (ex2 & -> & H2). exists ex2. split; [done|].
    rewrite filter_cons_True by done. exact (emitted_app _ _ _ _ _ _ H1 H2).
  - destruct (IH ex) as (ex2 & -> & H2). exists ex2. split; [done|].
    by rewrite filter_cons_False by (simpl; congruence).
Qed.

Lemma emit_entries_group ts a (es : list Item) ex :
  (forall x, x ∈ es -> nn_entries a !! fst x = Some (snd x)) ->
  emit_entries (E := E) Release ts a es.*1 ex
  = emit_group Release ts (nn_labels (az_store a) (node_store a))
      ((fun x => (fst (snd x), metrics_of x)) <$> es) ex.
Proof.
  revert ex. induction es as [|x es IH]; intros ex Hes; [done|]. csimpl.
  unfold entry_key, entry_metrics. rewrite rc_key_spec, rc_value_spec.
  pose proof (Hes x (list_elem_of_here _ _)) as Hx. unfold nn_entries in Hx. rewrite Hx. simpl.
  assert (forall y, y ∈ es -> nn_entries a !! fst y = Some (snd y)) as Hrest
    by (intros y Hy; apply Hes; by constructor).
  change (metrics (snd (snd x))) with (metrics_of x).
  destruct (should_emit_any (metrics_of x)); simpl; [|by apply IH].
  destruct (emit_all_metrics _ _ _ _ _); [|done|done]. cbn [rbind]. by apply IH.
Qed.

Lemma relabel_resolved {K G} (resolve : K -> option G) (lab : K -> Labels) (lab' : G -> Labels) ls gl :
  (forall k g, resolve k = Some g -> lab k = lab' g) ->
  Forall2 (fun kv gv => resolve (fst kv) = Some (fst gv) /\ snd kv = snd gv) ls gl ->
  relabel lab (filter emitting ls) = relabel lab' (filter emitting gl).
Proof.
  intros Hlab Hls. induction Hls as [|[k m] [g m'] ls gl [Hk Hm] _ IH]; [done|]. simpl in *. subst m'.
  destruct (should_emit_any m) eqn:Hs.
  - rewrite !filter_cons_True by done. unfold relabel in *. rewrite !fmap_cons, IH. simpl.
    by rewrite (Hlab k g Hk).
  - by rewrite !filter_cons_False by (simpl; congruence).
Qed.

Lemma relabel_perm {G} (lab : G -> Labels) (l1 l2 : list (G * AllMetrics)) :
  l1 ≡ₚ l2 -> relabel lab l1 ≡ₚ relabel lab l2.
Proof. apply fmap_Permutation. Qed.

(** ** Labels of identities *)

Lemma compute_labels_eq a sa da sz dz sn dn sn' dn' kind :
  az_at a sa = Some sz -> az_at a da = Some dz ->
  sn ≫= node_at a = sn' -> dn ≫= node_at a = dn' ->
  with_aggregation (compute_labels (az_store a) (node_store a) sa da sn dn) kind
  = id_labels sz dz sn' dn' kind.
Proof.
  intros Hs Hd Hsn Hdn. unfold compute_labels, id_labels. rewrite !rc_key_spec.
  unfold az_at in *. rewrite Hs, Hd.
  assert (forall o, o ≫= rc_key (node_store a) = o ≫= node_at a) as Hn.
  { intros [r|]; [|done]. simpl. by rewrite rc_key_spec. }
  by rewrite !Hn, Hsn, Hdn.
Qed.

Lemma end_at_Some a z n e : end_at a z n = Some e -> az_at a z = Some (fst e) /\ node_at a n = Some (snd e).
Proof.
  unfold end_at. destruct (az_at a z), (node_at a n); try done. intros [= <-]. done.
Qed.

Lemma pair_at_Some a k q :
  pair_at a k = Some q ->
  end_at a (nn_src_az k) (nn_src_node k) = Some (fst q)
  /\ end_at a (nn_dst_az k) (nn_dst_node k) = Some (snd q).
Proof.
  unfold pair_at. destruct (end_at a (nn_src_az k) _), (end_at a (nn_dst_az k) _); try done.
  intros [= <-]. done.
Qed.

(** ** The group keys *)

Definition na_at a (k : NodeAzKey ref) : option (End * Az) :=
  x ← end_at a (na_src_az k) (na_src_node k); y ← az_at a (na_dst_az k); Some (x, y).
Definition an_at a (k : AzNodeKey ref) : option (Az * End) :=
  x ← az_at a (an_src_az k); y ← end_at a (an_dst_az k) (an_dst_node k); Some (x, y).
Definition aa_at a (k : AzAzKey ref) : option (Az * Az) :=
  x ← az_at a (aa_src_az k); y ← az_at a (aa_dst_az k); Some (x, y).

Lemma az_at_inj a l z1 z2 x : inv a l -> az_at a z1 = Some x -> az_at a z2 = Some x -> z1 = z2.
Proof. intros Hi. apply fst_uniq, Hi. Qed.

Lemma ends_inj a l z1 n1 z2 n2 e :
  inv a l -> end_at a z1 n1 = Some e -> end_at a z2 n2 = Some e -> z1 = z2 /\ n1 = n2.
Proof. intros Hi. apply end_at_inj; apply Hi. Qed.

(** The identities a key of entries resolves to. *)
Ltac resolve_pair Hq :=
  let Hs := fresh "Hs" in let Hd := fresh "Hd" in
  pose proof (pair_at_Some _ _ _ Hq) as [Hs Hd];
  let H1 := fresh "Hsz" in let H2 := fresh "Hsn" in pose proof (end_at_Some _ _ _ _ Hs) as [H1 H2];
  let H3 := fresh "Hdz" in let H4 := fresh "Hdn" in pose proof (end_at_Some _ _ _ _ Hd) as [H3 H4].

Lemma na_map a l :
  inv a l ->
  exists na, node_az_map (E := E) Release a = Ok na /\ map_Forall (fun _ => all_ok) na
    /\ forall ls, ls ≡ₚ map_to_list na -> exists gl,
         Forall2 (fun rv gv => na_at a (fst rv) = Some (fst gv) /\ snd rv = snd gv) ls gl
         /\ represents (total node_az (l_pairs l)) gl.
Proof.
  intros Hi. destruct (iter_items a) as (es & Hit & Hes).
  apply (aggregate_entries a l es (fun k => mkNA (nn_src_az k) (nn_src_node k) (nn_dst_az k))
           node_az (na_at a) Hi Hit Hes).
  - intros k q Hq. resolve_pair Hq. unfold na_at. simpl. by rewrite Hs, Hdz.
  - intros k1 k2 q1 q2 Hq1 Hq2 [= H1 H2]. resolve_pair Hq1. resolve_pair Hq2.
    rewrite H1 in Hs. rewrite H2 in Hdz. destruct (ends_inj a l _ _ _ _ _ Hi Hs Hs0) as [-> ->].
    by rewrite (az_at_inj a l _ _ _ Hi Hdz Hdz0).
Qed.

Lemma an_map a l :
  inv a l ->
  exists an, az_node_map (E := E) Release a = Ok an /\ map_Forall (fun _ => all_ok) an
    /\ forall ls, ls ≡ₚ map_to_list an -> exists gl,
         Forall2 (fun rv gv => an_at a (fst rv) = Some (fst gv) /\ snd rv = snd gv) ls gl
         /\ represents (total az_node (l_pairs l)) gl.
Proof.
  intros Hi. destruct (iter_items a) as (es & Hit & Hes).
  apply (aggregate_entries a l es (fun k => mkAN (nn_src_az k) (nn_dst_node k) (nn_dst_az k))
           az_node (an_at a) Hi Hit Hes).
  - intros k q Hq. resolve_pair Hq. unfold an_at. simpl. by rewrite Hsz, Hd.
  - intros k1 k2 q1 q2 Hq1 Hq2 [= H1 H2]. resolve_pair Hq1. resolve_pair Hq2.
    rewrite H1 in Hsz. rewrite H2 in Hd. destruct (ends_inj a l _ _ _ _ _ Hi Hd Hd0) as [-> ->].
    by rewrite (az_at_inj a l _ _ _ Hi Hsz Hsz0).
Qed.

Lemma na_at_Some a k g :
  na_at a k = Some g -> end_at a (na_src_az k) (na_src_node k) = Some (fst g)
    /\ az_at a (na_dst_az k) = Some (snd g).
Proof.
  unfold na_at. destruct (end_at a (na_src_az k) _), (az_at a (na_dst_az k)); try done.
  by intros [= <-].
Qed.

(** The sums by zone derived from those by node and zone. *)
Lemma aa_map a l na gl :
  inv a l -> map_Forall (fun _ => all_ok) na ->
  Forall2 (fun rv gv => na_at a (fst rv) = Some (fst gv) /\ snd rv = snd gv) (hm_iter na) gl ->
  represents (total node_az (l_pairs l)) gl ->
  exists aa, az_az_map (E := E) Release na = Ok aa /\ map_Forall (fun _ => all_ok) aa
    /\ forall ls, ls ≡ₚ map_to_list aa -> exists gl',
         Forall2 (fun rv gv => aa_at a (fst rv) = Some (fst gv) /\ snd rv = snd gv) ls gl'
         /\ represents (total az_az (l_pairs l)) gl'.
Proof.
  intros Hi Hok Hgl Hrep. unfold az_az_map.
  set (q := fun x : NodeAzKey ref * AllMetrics => default inhabitant (na_at a (fst x)) : End * Az).
  assert ((fun x => (q x, snd x)) <$> hm_iter na = gl) as Hlist.
  { clear -Hgl. induction Hgl as [|x [g m] ls gl [Hk Hm] _ IH]; [done|]. csimpl. rewrite IH.
    unfold q. by rewrite Hk, Hm. }
  assert (forall x, x ∈ hm_iter na -> na_at a (fst x) = Some (q x) /\ all_ok (snd x)) as Hx.
  { intros x Hx. destruct (proj1 (list_elem_of_lookup _ _) Hx) as [i Hxi].
    destruct (Forall2_lookup_l _ _ _ _ _ Hgl Hxi) as (g & _ & Hk & _). split.
    - unfold q. by rewrite Hk.
    - rewrite hm_iter_perm in Hx. destruct x as [k m]. apply elem_of_map_to_list in Hx. by eapply Hok. }
  destruct (aggregate_with_spec (Er := E) (fun it : NodeAzKey ref * AllMetrics =>
              mkAA (na_src_az (fst it)) (na_dst_az (fst it))) all_default
              (fun t it => all_plus t (snd it)) all_ok ∅ (hm_iter na)
              (fun it => Ok (mkAA (na_src_az (fst it)) (na_dst_az (fst it))))
              (fun t it => all_add Release t (snd it))) as (aa & Haa & Hok' & Hfold).
  - apply all_default_ok.
  - apply map_Forall_empty.
  - by apply Forall_true.
  - apply Forall_forall. intros x Hin t Ht. rewrite all_add_release by (try done; by apply Hx).
    split; [done|apply all_plus_ok].
  - exists aa. split_and!; [done|done|]. intros ls Hls.
    destruct (aggregated_represents q snd (fun it => mkAA (na_src_az (fst it)) (na_dst_az (fst it)))
                (fun g => (fst (fst g), snd g)) (aa_at a) (hm_iter na) aa Hfold)
      with (l := ls) as (gl' & Hgl' & Hrep').
    + intros x Hin. destruct (na_at_Some _ _ _ (proj1 (Hx x Hin))) as [He Hz].
      destruct (end_at_Some _ _ _ _ He) as [Hsz _]. unfold aa_at. simpl. by rewrite Hsz, Hz.
    + intros x y Hin1 Hin2 [= H1 H2].
      destruct (na_at_Some _ _ _ (proj1 (Hx x Hin1))) as [He1 Hz1].
      destruct (na_at_Some _ _ _ (proj1 (Hx y Hin2))) as [He2 Hz2].
      destruct (end_at_Some _ _ _ _ He1) as [Hs1 _]. destruct (end_at_Some _ _ _ _ He2) as [Hs2 _].
      rewrite H1 in Hs1. rewrite H2 in Hz1.
      by rewrite (az_at_inj a l _ _ _ Hi Hs1 Hs2), (az_at_inj a l _ _ _ Hi Hz1 Hz2).
    + done.
    + exists gl'. split; [done|]. eapply represents_ext; [|done]. intros g. simpl. rewrite Hlist.
      apply (group_sum_compose node_az (fun g => (fst (fst g), snd g)) (map_to_list (l_pairs l)) gl g Hrep).
Qed.

(** ** The end of a window *)

(** The sum of a pair alone. *)
Lemma total_id ps q : map_Forall (fun _ => all_ok) ps -> total (fun q => q) ps q = at_pair ps q.
Proof.
  intros Hok. unfold total, group_sum, at_pair. destruct (ps !! q) as [m|] eqn:Hm.
  - rewrite (filter_ext_in _ (fun e => e = (q, m))).
    2:{ intros [q' m'] Hin%elem_of_map_to_list. simpl. split; [intros ->; congruence|congruence]. }
    assert (filter (fun e => e = (q, m)) (map_to_list ps) ≡ₚ [(q, m)]) as ->.
    { apply NoDup_Permutation; [apply NoDup_filter, NoDup_map_to_list|apply NoDup_singleton|].
      intros e. rewrite list_elem_of_filter, list_elem_of_singleton. split; [by intros [? _]|].
      intros ->. split; [done|]. by apply elem_of_map_to_list. }
    simpl. apply all_plus_default_r. by eapply Hok.
  - rewrite filter_none; [done|]. intros [q' m'] Hin%elem_of_map_to_list. simpl. congruence.
Qed.

Lemma map_ok_list {K} `{Countable K} (m : gmap K AllMetrics) :
  map_Forall (fun _ => all_ok) m -> Forall (fun e => all_ok (snd e)) (hm_iter m).
Proof.
  intros Hm. apply Forall_forall. intros [k x] Hx. rewrite hm_iter_perm in Hx.
  apply elem_of_map_to_list in Hx. by eapply Hm.
Qed.

Lemma emit_ids a l ts ex :
  inv a l ->
  exists ex' ems, emit_entries (E := E) Release ts a (rc_iter (node_node_store a)) ex = Ok ex'
    /\ emitted ts ex ex' ems
    /\ ems ≡ₚ relabel id_id_labels (summed (fun q => q) (l_pairs l)).
Proof.
  intros Hi. destruct (iter_items a) as (es & Hit & Hes).
  rewrite Hit, emit_entries_group.
  2:{ intros [r [k e]] Hx. by destruct (item_entry a l es _ _ _ Hi Hes Hx). }
  destruct (emit_group_release ts (nn_labels (az_store a) (node_store a))
              ((fun x => (fst (snd x), metrics_of x)) <$> es) ex) as (ex' & Hex & Hem).
  { apply Forall_fmap, Forall_forall. intros [r [k e]] Hx.
    by destruct (item_entry a l es _ _ _ Hi Hes Hx) as (_ & _ & ?). }
  eexists ex', _. split_and!; [done|exact Hem|].
  rewrite (relabel_resolved (pair_at a) _ id_id_labels _ (keyed a es)).
  - apply relabel_perm, summed_perm. eapply represents_ext; [|by apply (items_represent a l)].
    intros q. symmetry. apply total_id, Hi.
  - intros k q Hq. resolve_pair Hq. unfold nn_labels, id_id_labels.
    apply compute_labels_eq; simpl; [done|done|by rewrite Hsn|by rewrite Hdn].
  - unfold keyed. apply Forall2_fmap, Forall_Forall2_diag, Forall_forall. intros [r [k e]] Hx.
    by destruct (item_entry a l es _ _ _ Hi Hes Hx) as (_ & ? & _).
Qed.

(** Emission of one of the summed maps. *)
Lemma emit_map {K G} `{Countable K} `{EqDecision G} (m : gmap K AllMetrics) (resolve : K -> option G)
    lab (lab' : G -> Labels) (proj : Pair -> G) ps ts ex :
  map_Forall (fun _ => all_ok) m ->
  (forall k g, resolve k = Some g -> lab k = lab' g) ->
  (forall ls, ls ≡ₚ map_to_list m -> exists gl,
     Forall2 (fun rv gv => resolve (fst rv) = Some (fst gv) /\ snd rv = snd gv) ls gl
     /\ represents (total proj ps) gl) ->
  exists ex' ems, emit_group (E := E) Release ts lab (hm_iter m) ex = Ok ex'
    /\ emitted ts ex ex' ems /\ ems ≡ₚ relabel lab' (summed proj ps).
Proof.
  intros Hok Hlab Hrep. destruct (emit_group_release ts lab (hm_iter m) ex) as (ex' & Hex & Hem).
  { by apply map_ok_list. }
  destruct (Hrep (hm_iter m)) as (gl & Hgl & Hr); [apply hm_iter_perm|].
  eexists ex', _. split_and!; [done|exact Hem|].
  rewrite (relabel_resolved resolve lab lab' _ gl Hlab Hgl). by apply relabel_perm, summed_perm.
Qed.

Lemma emit_all_spec a l ts ex :
  inv a l ->
  exists ex' ems, emit_all (E := E) Release a ts ex = Ok ex'
    /\ emitted ts ex ex' ems /\ ems ≡ₚ emissions l.
Proof.
  intros Hi. unfold emit_all, emissions. rewrite (inv_id_id _ _ Hi), (inv_az_id _ _ Hi).
  assert (exists ex' ems, (if l_id_id l then emit_entries (E := E) Release ts a
            (rc_iter (node_node_store a)) ex else Ok ex) = Ok ex' /\ emitted ts ex ex' ems
            /\ ems ≡ₚ (if l_id_id l then relabel id_id_labels (summed (fun q => q) (l_pairs l)) else []))
    as (ex1 & em1 & Hex1 & Hem1 & Hp1).
  { destruct (l_id_id l); [by apply emit_ids|]. exists ex, []. split_and!; [done|apply emitted_nil|done]. }
  destruct (l_az_id l).
  2:{ cbn [rbind]. rewrite Hex1. exists ex1, em1. rewrite app_nil_r. done. }
  destruct (na_map a l Hi) as (na & -> & Hnaok & Hna). cbn [rbind].
  destruct (an_map a l Hi) as (an & -> & Hanok & Han). cbn [rbind].
  destruct (Hna (hm_iter na)) as (gl & Hgl & Hrep); [apply hm_iter_perm|].
  destruct (aa_map a l na gl Hi Hnaok Hgl Hrep) as (aa & -> & Haaok & Haa). cbn [rbind].
  rewrite Hex1. cbn [rbind].
  destruct (emit_map na (na_at a) (na_labels (az_store a) (node_store a)) id_az_labels node_az
              (l_pairs l) ts ex1 Hnaok) as (ex2 & em2 & -> & Hem2 & Hp2).
  { intros k g [He Hz]%na_at_Some. destruct (end_at_Some _ _ _ _ He) as [Hs Hn].
    unfold na_labels, id_az_labels. apply compute_labels_eq; simpl; [done|done|by rewrite Hn|done]. }
  { done. }
  cbn [rbind].
  destruct (emit_map an (an_at a) (an_labels (az_store a) (node_store a)) az_id_labels az_node
              (l_pairs l) ts ex2 Hanok) as (ex3 & em3 & -> & Hem3 & Hp3).
  { intros k g Hg. unfold an_at in Hg. destruct (az_at a (an_src_az k)) eqn:Hs; [|done].
    destruct (end_at a (an_dst_az k) _) eqn:He; [|done]. injection Hg as <-.
    destruct (end_at_Some _ _ _ _ He) as [Hd Hn].
    unfold an_labels, az_id_labels. apply compute_labels_eq; simpl; [done|done|done|by rewrite Hn]. }
  { done. }
  cbn [rbind].
  destruct (emit_map aa (aa_at a) (aa_labels (az_store a) (node_store a)) az_az_labels az_az
              (l_pairs l) ts ex3 Haaok) as (ex4 & em4 & -> & Hem4 & Hp4).
  { intros k g Hg. unfold aa_at in Hg. destruct (az_at a (aa_src_az k)) eqn:Hs; [|done].
    destruct (az_at a (aa_dst_az k)) eqn:Hd; [|done]. injection Hg as <-.
    unfold aa_labels, az_az_labels. by apply compute_labels_eq. }
  { done. }
  exists ex4, (em1 ++ em2 ++ em3 ++ em4). split_and!; [done| |by rewrite Hp1, Hp2, Hp3, Hp4].
  eauto using emitted_app.
Qed.

(** The cleanup loop gives every entry its next window. *)
Definition rolled (e : NodeNodeEntry ref) : NodeNodeEntry ref :=
  mkNNE (next_window (metrics e)) (if negb (had_samples (metrics e)) then None else keepalive e).

Lemma roll_fold its (nn : store (NodeNodeKey ref) (NodeNodeEntry ref)) r :
  NoDup its ->
  rc_entries (fold_left roll its nn) !! r
  = if decide (r ∈ its) then (fun e => (fst e, rolled (snd e))) <$> rc_entries nn !! r
    else rc_entries nn !! r.
Proof.
  intros Hnd. revert nn. induction Hnd as [|x its Hx _ IH]; intros nn; [done|]. simpl. rewrite IH.
  assert (rc_entries (roll nn x) !! r
    = if decide (x = r) then (fun e => (fst e, rolled (snd e))) <$> rc_entries nn !! r
      else rc_entries nn !! r) as Hroll.
  { unfold roll. rewrite rc_value_spec. destruct (rc_entries nn !! x) as [[k e]|] eqn:He; simpl.
    - rewrite rc_set_spec. destruct (decide (x = r)) as [->|Hd].
      + by rewrite lookup_alter_eq, He.
      + by rewrite lookup_alter_ne.
    - destruct (decide (x = r)) as [->|Hd]; [by rewrite He|done]. }
  rewrite Hroll. destruct (decide (x = r)) as [->|Hne].
  - rewrite decide_False by done. by rewrite decide_True by constructor.
  - destruct (decide (r ∈ its)).
    + by rewrite decide_True by (by constructor).
    + rewrite decide_False; [done|]. by intros [|]%elem_of_cons.
Qed.

Lemma roll_entries a r :
  nn_entries (set_nn a (fold_left roll (rc_iter (node_node_store a)) (node_node_store a))) !! r
  = (fun e => (fst e, rolled (snd e))) <$> nn_entries a !! r.
Proof.
  unfold nn_entries. simpl. rewrite roll_fold.
  - case_decide as Hd; [done|]. destruct (rc_entries (node_node_store a) !! r) eqn:He; [|done].
    destruct Hd. by eapply elem_of_iter.
  - rewrite rc_iter_spec. apply NoDup_fst_map_to_list.
Qed.

Lemma inv_roll a l :
  inv a l ->
  inv (set_nn a (fold_left roll (rc_iter (node_node_store a)) (node_node_store a)))
    (set_l_pairs l (next_window <$> l_pairs l)).
Proof.
  intros Hi. pose proof (roll_entries a) as Hlook. set (a' := set_nn a _) in *.
  pose proof Hi as [Haz Hnode Hnn Hent Hroots Hsums Hpres Hpok Hm Hu Hf1 Hf2 Hf3].
  assert (forall r, fst <$> nn_entries a' !! r = fst <$> nn_entries a !! r) as Hkeys.
  { intros r. rewrite Hlook. by destruct (nn_entries a !! r). }
  assert (forall r, entry_at a' r = entry_at a r) as Hentry.
  { intros r. unfold entry_at. by rewrite Hkeys. }
  assert (forall q, at_pair (next_window <$> l_pairs l) q = next_window (at_pair (l_pairs l) q)) as Hat.
  { intros q. unfold at_pair. rewrite lookup_fmap. by destruct (l_pairs l !! q). }
  split; try done.
  - intros r1 r2 k v1 v2 H1 H2. apply (fst_uniq (nn_entries a) r1 r2 k Hnn); rewrite <- Hkeys;
      [by rewrite H1|by rewrite H2].
  - intros r e'. rewrite Hlook. intros ([k e] & Hr & ->)%fmap_Some.
    destruct (Hent r (k, e) Hr) as (Hp & Hok & Hnone & Hself). simpl in *.
    split_and!; [done|apply next_window_ok| |]; simpl.
    + destruct (had_samples (metrics e)) eqn:Hs; simpl; [|by rewrite next_window_default].
      intros Hk. by rewrite (Hnone Hk).
    + destruct (had_samples (metrics e)); [apply Hself|done].
  - apply (roots_rel_mono a); [by split| |done]. intros r q <-. apply Hentry.
  - intros r k e' q. rewrite Hlook. intros ([k0 e] & Hr & [= -> ->])%fmap_Some Hq. simpl.
    rewrite Hat. f_equal. by eapply Hsums.
  - intros q Hq. simpl in Hq. rewrite Hat in Hq. setoid_rewrite Hentry. apply Hpres. intros Hd.
    by rewrite Hd in Hq.
  - simpl. intros q m. rewrite lookup_fmap. intros (m0 & _ & ->)%fmap_Some. apply next_window_ok.
Qed.

Lemma flush_request export ex :
  let '(ex', req) := exporter_flush export ex in
  buf (publisher ex') = []
  /\ match req with
     | Some r => buf (publisher ex) <> [] /\ req_metrics r = to_metric <$> buf (publisher ex)
     | None => buf (publisher ex) = []
     end.
Proof.
  unfold exporter_flush, flush. destruct (buf (publisher ex)) eqn:Hb; simpl; [done|].
  split_and!; [done|done|]. by rewrite Hb.
Qed.

Lemma inv_output export a l ts ex :
  inv a l -> buf (publisher ex) = [] ->
  exists a' ex' req, output_metrics (E := E) Release export a ts ex = Ok (a', ex', req)
    /\ inv a' (fst (ledger_step l (Output ts))) /\ buf (publisher ex') = []
    /\ sent req (ts, emissions l).
Proof.
  intros Hi Hb. unfold output_metrics.
  destruct (emit_all_spec a l (as_signed 64 ts) ex Hi) as (ex1 & ems & -> & (pts & Hb1 & Hpts) & Hp).
  cbn [rbind]. pose proof (flush_request export ex1) as Hfl.
  destruct (exporter_flush export ex1) as [ex2 req]. destruct Hfl as [Hb2 Hreq].
  eexists _, ex2, req. split_and!; [reflexivity|by apply inv_collect, inv_roll|done|].
  rewrite Hb in Hb1. simpl in Hb1. rewrite Hb1 in Hreq. by exists ems, pts.
Qed.

(** ** Runs *)

Lemma step_refines export a l ex o :
  inv a l -> op_ok o -> buf (publisher ex) = [] ->
  exists a' ex' out, agg_step (E := E) Release export a ex o = Ok (a', ex', out)
    /\ inv a' (fst (ledger_step l o)) /\ buf (publisher ex') = []
    /\ Forall2 sent out (snd (ledger_step l o)).
Proof.
  intros Hi Ho Hb. destruct o as [key|key|key side z node|key dir s|ts].
  - eexists _, _, _. split_and!; [reflexivity|by apply inv_start|done|constructor].
  - eexists _, _, _. split_and!; [reflexivity|by apply inv_finish|done|constructor].
  - destruct (inv_set_side (E := E) a l key side z node Hi) as (a' & Ha & Hi'). simpl. rewrite Ha.
    eexists _, _, _. split_and!; [reflexivity|exact Hi'|done|constructor].
  - destruct (inv_add (E := E) a l key dir s Hi Ho) as (a' & Ha & Hi'). rewrite agg_step_add, Ha.
    eexists _, _, _. split_and!; [reflexivity|exact Hi'|done|].
    simpl. repeat case_match; constructor.
  - destruct (inv_output export a l ts ex Hi Hb) as (a' & ex' & req & Ha & Hi' & Hb' & Hs). simpl.
    rewrite Ha. eexists _, _, _. split_and!; [reflexivity|exact Hi'|done|]. by repeat constructor.
Qed.

Lemma run_refines export a l ex os :
  inv a l -> Forall op_ok os -> buf (publisher ex) = [] ->
  exists a' ex' outs, agg_run (E := E) Release export a ex os = Ok (a', ex', outs)
    /\ inv a' (fst (ledger_run l os)) /\ Forall2 sent outs (snd (ledger_run l os)).
Proof.
  intros Hi Hos. revert a l ex Hi. induction Hos as [|o os Ho _ IH]; intros a l ex Hi Hb.
  { exists a, ex, []. split_and!; [done|done|constructor]. }
  destruct (step_refines export a l ex o Hi Ho Hb) as (a1 & ex1 & out & Hs & Hi1 & Hb1 & Ho1).
  simpl. rewrite Hs. cbn [rbind]. destruct (ledger_step l o) as [l1 lout]. simpl in *.
  destruct (IH a1 l1 ex1 Hi1 Hb1) as (a2 & ex2 & outs & Hr & Hi2 & Ho2). rewrite Hr. cbn [rbind].
  destruct (ledger_run l1 os) as [l2 louts]. simpl in *.
  eexists _, _, _. split_and!; [reflexivity|done|by apply Forall2_app].
Qed.

Lemma inv_new id_id az_id no_ip : inv (configured id_id az_id no_ip) (ledger_new id_id az_id no_ip).
Proof.
  assert (forall K V, uniq (rc_entries (rc_new (K := K) (V := V)))) as Hu.
  { intros K V r1 r2 k v1 v2. by rewrite rc_entries_new, lookup_empty. }
  assert (nn_entries (configured id_id az_id no_ip) = ∅) as Hnn by apply rc_entries_new.
  split; try done; try apply Hu.
  - rewrite Hnn. apply map_Forall_empty.
  - intros key. simpl. rewrite !lookup_empty. constructor.
  - intros r k e q. by rewrite Hnn, lookup_empty.
Qed.

End refinement.

(** C6: the aggregator implements its ledger.  For every sequence of roots
    started and ended, sides set, samples added and windows ended, whatever
    the reference counted maps collect once it is unreferenced and whatever
    the order of hash maps, a release build never panics and each window sends
    exactly the points of the ledger: the sums of every pair of identities
    and, by node and zone, by zone and node, and by zone, their totals, each
    under its labels.  The counters of lost samples agree. *)
Theorem aggregator_refines_ledger {ref : Type} {store : Type -> Type -> Type} {ref_eq : EqDecision ref}
    {ref_countable : Countable ref} {rc : RcHashMap ref store} {rc_laws : RcHashMapLaws ref store}
    {order : HashOrder} {order_laws : HashOrderLaws} {E : Type}
    export id_id az_id no_ip ex os :
  Forall op_ok os -> buf (publisher ex) = [] ->
  exists (a : Aggregator (ref := ref) (store := store)) ex' reqs,
    agg_run (E := E) Release export (configured id_id az_id no_ip) ex os = Ok (a, ex', reqs)
    /\ Forall2 sent reqs (snd (ledger_run (ledger_new id_id az_id no_ip) os))
    /\ missing_root_for_metric (events a)
       = wrap 64 (l_missing (fst (ledger_run (ledger_new id_id az_id no_ip) os)))
    /\ metric_before_sides_resolved (events a)
       = wrap 64 (l_unresolved (fst (ledger_run (ledger_new id_id az_id no_ip) os))).
Proof.
  intros Hos Hb.
  destruct (run_refines (E := E) export _ _ ex os (inv_new id_id az_id no_ip) Hos Hb)
    as (a & ex' & reqs & Hr & Hi & Hs).
  exists a, ex', reqs. split_and!; [done|done|apply Hi|apply Hi].
Qed.

(** ** Witness *)

Definition az_east : Az := mkAz (lit "east") (lit "web") [] [] [] 1 [] [] [].
Definition az_west : Az := mkAz (lit "west") (lit "db") [] [] [] 1 [] [] [].
Definition node1 : Node := mkNode (lit "n1") (lit "10.0.0.1") [].
Definition node2 : Node := mkNode (lit "n2") (lit "10.0.0.2") [].

Definition sample_ops : list op :=
  [Start (0, 7); SetSide (0, 7) SideA az_east node1; SetSide (0, 7) SideB az_west node2;
   Add (0, 7) AtoB (STcp (mkTcpMetrics 1 100 8 3 0 1 0 1 0)); Add (1, 7) AtoB (SUdp udp_default);
   Finish (0, 7); Output 30000000000; Output 60000000000; Output 90000000000].

Lemma aggregator_refines_ledger_witness :
  exists (a : Aggregator (ref := positive) (store := fun K V => gmap positive (K * V))) ex' reqs,
    agg_run (E := unit) Release picky (configured true true false) (exporter_new_local false) sample_ops
    = Ok (a, ex', reqs)
    /\ Forall2 sent reqs (snd (ledger_run (ledger_new true true false) sample_ops))
    /\ missing_root_for_metric (events a)
       = wrap 64 (l_missing (fst (ledger_run (ledger_new true true false) sample_ops)))
    /\ metric_before_sides_resolved (events a)
       = wrap 64 (l_unresolved (fst (ledger_run (ledger_new true true false) sample_ops))).
Proof.
  apply (aggregator_refines_ledger (E := unit) picky true true false (exporter_new_local false) sample_ops).
  - repeat first [apply Forall_nil_2 | apply Forall_cons_2]; try exact I; by split_and!.
  - reflexivity.
Defined.
