(* ===== verification/MessageHandler.v ===== *)
(** * Decoding and dispatch (crates/reducer: aggregation_message_handler.rs
      and the callbacks of aggregation_core.rs)

    The closures registered with the parser are the constructors of
    [Handler]; [dispatch] runs one on the shared aggregator.  An encoded
    message reaches the aggregator as the operation it stands for. *)

From S2P Require Import Prelude PerfectHashMap RenderParser Utf8 Wire AggWire Hash Metrics.
From S2P Require Import OtlpExport OtlpEncoding AggFramework RcHashMap Aggregator Sums AggregatorSpec.
From S2P Require Import AggregatorRefine.

Local Open Scope rust_scope.

Inductive Handler :=
| OnAggRootStart | OnAggRootEnd | OnUpdateNode | OnUpdateTcp | OnUpdateUdp | OnUpdateHttp
| OnUpdateDns | OnPulse.

(** [let _ = parser.add_message(..)]: a collision is ignored. *)
Definition register {E} (p : profile) (ps : Parser Handler) (md : MessageMetadata) (h : Handler)
  : res E (Parser Handler) :=
  match add_message p ps md h with
  | Ok (_, ps) => Ok ps
  | Err _ => Ok ps
  | Panic => Panic
  end.

(** [AggregationMessageHandler::new]. *)
Definition handler_new {E} (p : profile) (ps : Parser Handler) : res E (Parser Handler) :=
  let? ps := register p ps metadata_agg_root_start OnAggRootStart in
  let? ps := register p ps metadata_agg_root_end OnAggRootEnd in
  let? ps := register p ps metadata_update_node OnUpdateNode in
  let? ps := register p ps metadata_update_tcp_metrics OnUpdateTcp in
  let? ps := register p ps metadata_update_udp_metrics OnUpdateUdp in
  let? ps := register p ps metadata_update_http_metrics OnUpdateHttp in
  let? ps := register p ps metadata_update_dns_metrics OnUpdateDns in
  register p ps metadata_pulse OnPulse.

Section handler.
Context {ref : Type} {store : Type -> Type -> Type} {ref_eq : EqDecision ref}
  {ref_countable : Countable ref} {rc : RcHashMap ref store} {order : HashOrder}
  {E : Type} (p : profile) (e : endian).

Abbreviation Agg := (Aggregator (ref := ref) (store := store)).

(** [match decode(buf) { Ok(msg) => .., Err(_) => count the error }]. *)
Definition on_decoded {M} (msg : res DecodeError M) (ok : M -> res E Agg)
    (inc : Counters -> res E Counters) (a : Agg) : res E Agg :=
  match msg with
  | Ok m => ok m
  | Err _ => rmap (set_events a) (inc (events a))
  | Panic => Panic
  end.

Definition on_agg_root_start (a : Agg) (q : Z) (buf : list Z) : res E Agg :=
  on_decoded (decode_agg_root_start e buf)
    (fun msg => Ok (Aggregator.agg_root_start a (q, start_ref msg)))
    (inc DecodeErrorAggRootStart p) a.

Definition on_agg_root_end (a : Agg) (q : Z) (buf : list Z) : res E Agg :=
  on_decoded (decode_agg_root_end e buf)
    (fun msg => Ok (Aggregator.agg_root_end a (q, end_ref msg)))
    (inc DecodeErrorAggRootEnd p) a.

Definition on_update_node (a : Agg) (q : Z) (buf : list Z) : res E Agg :=
  on_decoded (decode_update_node e buf)
    (fun msg =>
       let z := mkAz (AggWire.node_az msg) (node_role msg) (node_version msg) (node_env msg) (node_ns msg)
                  (wrap 8 (node_node_type msg)) (node_process msg) (node_container msg)
                  (node_role_uid msg) in
       let node := mkNode (node_id msg) (node_address msg) (node_pod_name msg) in
       Aggregator.update_node a (q, node_ref msg) (if node_side msg =? 0 then SideA else SideB) z node)
    (inc DecodeErrorUpdateNode p) a.

Definition direction (d : Z) : Direction := if d =? 0 then AtoB else BtoA.

Definition on_update_tcp (a : Agg) (q : Z) (buf : list Z) : res E Agg :=
  on_decoded (decode_update_tcp_metrics e buf)
    (fun msg =>
       let m := mkTcpMetrics (tcp_active_sockets msg) (tcp_sum_bytes msg) (tcp_sum_srtt msg)
                  (tcp_sum_delivered msg) (tcp_sum_retrans msg) (tcp_active_rtts msg)
                  (tcp_syn_timeouts msg) (tcp_new_sockets msg) (tcp_tcp_resets msg) in
       add_tcp p a (q, tcp_ref msg) (direction (tcp_direction msg)) m)
    (inc DecodeErrorUpdateTcp p) a.

Definition on_update_udp (a : Agg) (q : Z) (buf : list Z) : res E Agg :=
  on_decoded (decode_update_udp_metrics e buf)
    (fun msg =>
       let m := mkUdpMetrics (udp_active_sockets msg) (udp_bytes msg) (udp_addr_changes msg)
                  (udp_packets msg) (udp_drops msg) in
       add_udp p a (q, udp_ref msg) (direction (udp_direction msg)) m)
    (inc DecodeErrorUpdateUdp p) a.

Definition on_update_http (a : Agg) (q : Z) (buf : list Z) : res E Agg :=
  on_decoded (decode_update_http_metrics e buf)
    (fun msg =>
       let m := mkHttpMetrics (http_active_sockets msg) (http_sum_total_time_ns msg)
                  (http_sum_processing_time_ns msg) (http_sum_code_200 msg) (http_sum_code_400 msg)
                  (http_sum_code_500 msg) (http_sum_code_other msg) in
       add_http p a (q, http_ref msg) (direction (http_direction msg)) m)
    (inc DecodeErrorUpdateHttp p) a.

Definition on_update_dns (a : Agg) (q : Z) (buf : list Z) : res E Agg :=
  on_decoded (decode_update_dns_metrics e buf)
    (fun msg =>
       let m := mkDnsMetrics (dns_active_sockets msg) (dns_sum_total_time_ns msg)
                  (dns_sum_processing_time_ns msg) (dns_requests_a msg) (dns_requests_aaaa msg)
                  (dns_responses msg) (dns_timeouts msg) in
       add_dns p a (q, dns_ref msg) (direction (dns_direction msg)) m)
    (inc DecodeErrorUpdateDns p) a.

Definition on_pulse (a : Agg) (buf : list Z) : res E Agg :=
  on_decoded (decode_pulse e buf) (fun _ => Ok a) (inc DecodeErrorPulse p) a.

Definition dispatch (h : Handler) (a : Agg) (q : Z) (buf : list Z) : res E Agg :=
  match h with
  | OnAggRootStart => on_agg_root_start a q buf
  | OnAggRootEnd => on_agg_root_end a q buf
  | OnUpdateNode => on_update_node a q buf
  | OnUpdateTcp => on_update_tcp a q buf
  | OnUpdateUdp => on_update_udp a q buf
  | OnUpdateHttp => on_update_http a q buf
  | OnUpdateDns => on_update_dns a q buf
  | OnPulse => on_pulse a buf
  end.

(** The message callback of [AggregationCore::run]; a parse error is only
    printed. *)
Definition handle_message (ps : Parser Handler) (a : Agg) (q : Z) (bytes : list Z) : res E Agg :=
  match handle p e ps bytes with
  | Ok ok => dispatch (h_value ok) a q (message ok)
  | Err _ => Ok a
  | Panic => Panic
  end.

End handler.

(** ** The callbacks of the core *)

(** [AggregationCore::new]: the parser over the generated hash. *)
Definition core_parser {E} (p : profile) : res E (Parser Handler) :=
  handler_new p (RenderParser.new (HASH_SIZE aggregation_tables) (hash_fn aggregation_app)).

Inductive callback := Message (queue_idx : Z) (bytes : list Z) | TimeslotEnd (window_end_ns : Z).

Section core.
Context {ref : Type} {store : Type -> Type -> Type} {ref_eq : EqDecision ref}
  {ref_countable : Countable ref} {rc : RcHashMap ref store} {order : HashOrder}
  {E : Type} (p : profile) (e : endian) (export : list Z -> Request -> Response).

Abbreviation Agg := (Aggregator (ref := ref) (store := store)).

(** The two closures of [AggregationCore::run]. *)
Definition core_callback (ps : Parser Handler) (a : Agg) (ex : OtlpExporter) (c : callback)
  : res E (Agg * OtlpExporter * list (option Request)) :=
  match c with
  | Message q bytes => rmap (fun a => (a, ex, [])) (handle_message p e ps a q bytes)
  | TimeslotEnd w => rmap (fun '(a, ex, req) => (a, ex, [req])) (output_metrics p export a w ex)
  end.

Fixpoint core_callbacks (ps : Parser Handler) (a : Agg) (ex : OtlpExporter) (cs : list callback)
  : res E (Agg * OtlpExporter * list (option Request)) :=
  match cs with
  | [] => Ok (a, ex, [])
  | c :: cs =>
      let? '(a, ex, out) := core_callback ps a ex c in
      let? '(a, ex, outs) := core_callbacks ps a ex cs in
      Ok (a, ex, out ++ outs)
  end.

End core.

(** ** Messages and the operations they stand for *)

Inductive AggMsg :=
| MStart (m : AggWire.agg_root_start) | MEnd (m : AggWire.agg_root_end) | MNode (m : AggWire.update_node)
| MTcp (m : update_tcp_metrics) | MUdp (m : update_udp_metrics) | MHttp (m : update_http_metrics)
| MDns (m : update_dns_metrics) | MPulse (m : pulse).

Definition msg_ok (m : AggMsg) : Prop :=
  match m with
  | MStart m => ok_start m | MEnd m => ok_end m | MNode m => ok_node m
  | MTcp m => ok_tcp m | MUdp m => ok_udp m | MHttp m => ok_http m | MDns m => ok_dns m
  | MPulse m => pulse_rpc_id m = 65535
  end.

(** The size of the fixed part, and of the whole message. *)
Definition msg_header (m : AggMsg) : nat :=
  match m with
  | MStart _ | MEnd _ => 16 | MNode _ => 34 | MTcp _ => 60 | MUdp _ => 36 | MHttp _ => 48
  | MDns _ => 48 | MPulse _ => 2
  end.
Definition msg_size (m : AggMsg) : nat := match m with MNode m => node_size m | _ => msg_header m end.

Definition encode_msg (e : endian) (dest : option (list Z)) (ts : Z) (m : AggMsg) (pad : list Z)
  : res unit (list Z) :=
  match m with
  | MStart m => encode_agg_root_start e dest ts (start_ref m) pad
  | MEnd m => encode_agg_root_end e dest ts (end_ref m) pad
  | MNode m => encode_update_node e dest ts (node_ref m) (node_side m) (node_id m)
      (AggWire.node_az m) (node_role m) (node_version m) (node_env m) (node_ns m) (node_node_type m)
      (node_address m) (node_process m) (node_container m) (node_pod_name m) (node_role_uid m) pad
  | MTcp m => encode_update_tcp_metrics e dest ts (tcp_ref m) (tcp_direction m)
      (tcp_active_sockets m) (tcp_sum_retrans m) (tcp_sum_bytes m) (tcp_sum_srtt m)
      (tcp_sum_delivered m) (tcp_active_rtts m) (tcp_syn_timeouts m) (tcp_new_sockets m)
      (tcp_tcp_resets m) pad
  | MUdp m => encode_update_udp_metrics e dest ts (udp_ref m) (udp_direction m)
      (udp_active_sockets m) (udp_addr_changes m) (udp_packets m) (udp_bytes m) (udp_drops m) pad
  | MHttp m => encode_update_http_metrics e dest ts (http_ref m) (http_direction m)
      (http_active_sockets m) (http_sum_code_200 m) (http_sum_code_400 m) (http_sum_code_500 m)
      (http_sum_code_other m) (http_sum_total_time_ns m) (http_sum_processing_time_ns m) pad
  | MDns m => encode_update_dns_metrics e dest ts (dns_ref m) (dns_direction m)
      (dns_active_sockets m) (dns_requests_a m) (dns_requests_aaaa m) (dns_responses m)
      (dns_timeouts m) (dns_sum_total_time_ns m) (dns_sum_processing_time_ns m) pad
  | MPulse _ => encode_pulse e dest ts pad
  end.

(** The operation of the aggregator a message from queue [q] asks for. *)
Definition op_of (q : Z) (m : AggMsg) : list op :=
  match m with
  | MStart m => [Start (q, start_ref m)]
  | MEnd m => [Finish (q, end_ref m)]
  | MNode m =>
      [SetSide (q, node_ref m) (if node_side m =? 0 then SideA else SideB)
         (mkAz (AggWire.node_az m) (node_role m) (node_version m) (node_env m) (node_ns m)
            (node_node_type m) (node_process m) (node_container m) (node_role_uid m))
         (mkNode (node_id m) (node_address m) (node_pod_name m))]
  | MTcp m =>
      [Add (q, tcp_ref m) (if tcp_direction m =? 0 then AtoB else BtoA)
         (STcp (mkTcpMetrics (tcp_active_sockets m) (tcp_sum_bytes m) (tcp_sum_srtt m)
            (tcp_sum_delivered m) (tcp_sum_retrans m) (tcp_active_rtts m) (tcp_syn_timeouts m)
            (tcp_new_sockets m) (tcp_tcp_resets m)))]
  | MUdp m =>
      [Add (q, udp_ref m) (if udp_direction m =? 0 then AtoB else BtoA)
         (SUdp (mkUdpMetrics (udp_active_sockets m) (udp_bytes m) (udp_addr_changes m)
            (udp_packets m) (udp_drops m)))]
  | MHttp m =>
      [Add (q, http_ref m) (if http_direction m =? 0 then AtoB else BtoA)
         (SHttp (mkHttpMetrics (http_active_sockets m) (http_sum_total_time_ns m)
            (http_sum_processing_time_ns m) (http_sum_code_200 m) (http_sum_code_400 m)
            (http_sum_code_500 m) (http_sum_code_other m)))]
  | MDns m =>
      [Add (q, dns_ref m) (if dns_direction m =? 0 then AtoB else BtoA)
         (SDns (mkDnsMetrics (dns_active_sockets m) (dns_sum_total_time_ns m)
            (dns_sum_processing_time_ns m) (dns_requests_a m) (dns_requests_aaaa m)
            (dns_responses m) (dns_timeouts m)))]
  | MPulse _ => []
  end.

(** A callback made by the queues: an encoded message, possibly followed by
    other bytes of its element, or the end of a timeslot. *)
Inductive stands_for (e : endian) : callback -> list op -> Prop :=
| stands_message q ts m dst pad bytes rest :
    msg_ok m -> fits 64 ts -> length pad = msg_header m -> length dst = (8 + msg_size m)%nat ->
    encode_msg e (Some dst) ts m pad = Ok bytes ->
    stands_for e (Message q (bytes ++ rest)) (op_of q m)
| stands_window w : stands_for e (TimeslotEnd w) [Output w].

(** ** Registration *)

Definition handler_of (md : MessageMetadata) : Handler :=
  match rpc_id md with
  | 461 => OnAggRootStart | 462 => OnAggRootEnd | 463 => OnUpdateNode | 465 => OnUpdateTcp
  | 466 => OnUpdateUdp | 467 => OnUpdateHttp | 468 => OnUpdateDns | _ => OnPulse
  end.

Lemma register_Ok {E} p (ps : Parser Handler) md h old ps' :
  add_message p ps md h = Ok (old, ps') -> register (E := E) p ps md h = Ok ps'.
Proof. unfold register. by intros ->. Qed.

Lemma core_parser_complete {E} p :
  exists ps, core_parser (E := E) p = Ok ps
    /\ Forall (fun md => get (map ps) (rpc_id md) = Some (mkPEntry md (handler_of md)))
         all_message_metadata.
Proof.
  destruct (registered_parser p aggregation_app handler_of) as (ps & Hps & Hall);
    [apply list_elem_of_here|].
  exists ps. split; [|done]. unfold core_parser, handler_new. cbn in Hps.
  repeat (apply rbind_Ok in Hps as ([? ?] & Hadd & Hps); erewrite register_Ok by exact Hadd; cbn [rbind];
          clear Hadd).
  injection Hps as ->. done.
Qed.

Lemma body_length e md body : is_body e md body -> md ∈ all_message_metadata ->
  Z.of_nat (length body) + 8 < 2 ^ 64.
Proof.
  intros [_ Hs] Hmd. unfold all_message_metadata in Hmd.
  repeat (apply elem_of_cons in Hmd as [->|Hmd]; [simpl in Hs; lia|]). by apply elem_of_nil in Hmd.
Qed.

Lemma ids_fit md : md ∈ all_message_metadata -> fits 16 (rpc_id md).
Proof.
  intros Hmd. unfold all_message_metadata in Hmd.
  repeat (apply elem_of_cons in Hmd as [->|Hmd]; [by vm_compute|]). by apply elem_of_nil in Hmd.
Qed.

(** ** An encoded message is its operation *)

Definition msg_metadata (m : AggMsg) : MessageMetadata :=
  match m with
  | MStart _ => metadata_agg_root_start | MEnd _ => metadata_agg_root_end
  | MNode _ => metadata_update_node | MTcp _ => metadata_update_tcp_metrics
  | MUdp _ => metadata_update_udp_metrics | MHttp _ => metadata_update_http_metrics
  | MDns _ => metadata_update_dns_metrics | MPulse _ => metadata_pulse
  end.

Lemma msg_registered m : msg_metadata m ∈ all_message_metadata.
Proof.
  destruct m; unfold all_message_metadata, msg_metadata;
    repeat first [apply list_elem_of_here | apply list_elem_of_further].
Qed.

Section messages.
Context {ref : Type} {store : Type -> Type -> Type} {ref_eq : EqDecision ref}
  {ref_countable : Countable ref} {rc : RcHashMap ref store} {rc_laws : RcHashMapLaws ref store}
  {order : HashOrder} {order_laws : HashOrderLaws} {E : Type}
  (p : profile) (e : endian) (export : list Z -> Request -> Response).

Implicit Types a : Aggregator (ref := ref) (store := store).

Lemma agg_run_one a ex o :
  agg_run (E := E) p export a ex [o] = agg_step p export a ex o.
Proof.
  simpl. destruct (agg_step p export a ex o) as [[[a' ex'] out]| |]; [|done|done]. simpl.
  by rewrite app_nil_r.
Qed.

Lemma msg_dispatched m q ts dst pad a ex :
  msg_ok m -> length pad = msg_header m -> length dst = (8 + msg_size m)%nat ->
  exists body, encode_msg e (Some dst) ts m pad = Ok (frame e ts body) /\ is_body e (msg_metadata m) body
    /\ rmap (fun a => (a, ex, [])) (dispatch (E := E) p e (handler_of (msg_metadata m)) a q body)
       = agg_run p export a ex (op_of q m).
Proof.
  intros Hm Hp Hd. destruct m as [m|m|m|m|m|m|m|m]; simpl in Hm, Hp, Hd.
  - destruct (start_roundtrip e dst ts m pad Hm Hp Hd) as (body & He & Hdec & Hb). exists body.
    split_and!; [done|done|]. cbn [op_of]. rewrite agg_run_one. simpl. unfold on_agg_root_start. by rewrite Hdec.
  - destruct (end_roundtrip e dst ts m pad Hm Hp Hd) as (body & He & Hdec & Hb). exists body.
    split_and!; [done|done|]. cbn [op_of]. rewrite agg_run_one. simpl. unfold on_agg_root_end. by rewrite Hdec.
  - destruct (node_roundtrip e dst ts m pad Hm Hp Hd) as (body & He & Hdec & Hb). exists body.
    split_and!; [done|done|]. cbn [op_of]. rewrite agg_run_one. simpl. unfold on_update_node. rewrite Hdec. simpl.
    rewrite wrap_small; [done|]. apply Hm.
  - destruct (tcp_roundtrip e dst ts m pad Hm Hp Hd) as (body & He & Hdec & Hb). exists body.
    split_and!; [done|done|]. cbn [op_of]. rewrite agg_run_one. simpl. unfold on_update_tcp. by rewrite Hdec.
  - destruct (udp_roundtrip e dst ts m pad Hm Hp Hd) as (body & He & Hdec & Hb). exists body.
    split_and!; [done|done|]. cbn [op_of]. rewrite agg_run_one. simpl. unfold on_update_udp. by rewrite Hdec.
  - destruct (http_roundtrip e dst ts m pad Hm Hp Hd) as (body & He & Hdec & Hb). exists body.
    split_and!; [done|done|]. cbn [op_of]. rewrite agg_run_one. simpl. unfold on_update_http. by rewrite Hdec.
  - destruct (dns_roundtrip e dst ts m pad Hm Hp Hd) as (body & He & Hdec & Hb). exists body.
    split_and!; [done|done|]. cbn [op_of]. rewrite agg_run_one. simpl. unfold on_update_dns. by rewrite Hdec.
  - destruct (pulse_roundtrip e dst ts m pad Hm Hp Hd) as (body & He & Hdec & Hb). exists body.
    split_and!; [done|done|]. simpl. unfold on_pulse. by rewrite Hdec.
Qed.

Lemma callback_is_ops ps a ex c os :
  Forall (fun md => get (map ps) (rpc_id md) = Some (mkPEntry md (handler_of md))) all_message_metadata ->
  stands_for e c os ->
  core_callback (E := E) p e export ps a ex c = agg_run p export a ex os.
Proof.
  intros Hps Hc. destruct Hc as [q ts m dst pad bytes rest Hm Hts Hp Hd Hen|w].
  - destruct (msg_dispatched m q ts dst pad a ex Hm Hp Hd) as (body & Hen' & Hbody & Hrun).
    rewrite Hen in Hen'. injection Hen' as ->. pose proof (msg_registered m) as Hreg.
    simpl. unfold handle_message. rewrite Forall_forall in Hps.
    rewrite (frame_handled p e ps _ _ ts body rest (Hps _ Hreg)); [done|..].
    + by apply ids_fit.
    + done.
    + by eapply body_length.
    + done.
  - rewrite agg_run_one. done.
Qed.

Lemma agg_run_app a ex os1 os2 :
  agg_run (E := E) p export a ex (os1 ++ os2)
  = let? '(a, ex, out) := agg_run p export a ex os1 in
    let? '(a, ex, outs) := agg_run p export a ex os2 in Ok (a, ex, out ++ outs).
Proof.
  revert a ex. induction os1 as [|o os1 IH]; intros a ex.
  - simpl. by destruct (agg_run p export a ex os2) as [[[] ?]| |].
  - simpl. destruct (agg_step p export a ex o) as [[[a1 ex1] out1]| |]; [|done|done]. cbn [rbind].
    rewrite IH. destruct (agg_run p export a1 ex1 os1) as [[[a2 ex2] out2]| |]; [|done|done].
    cbn [rbind]. destruct (agg_run p export a2 ex2 os2) as [[[a3 ex3] out3]| |]; [|done|done].
    cbn [rbind]. by rewrite app_assoc.
Qed.

Lemma callbacks_are_ops ps a ex cs oss :
  Forall (fun md => get (map ps) (rpc_id md) = Some (mkPEntry md (handler_of md))) all_message_metadata ->
  Forall2 (stands_for e) cs oss ->
  core_callbacks (E := E) p e export ps a ex cs = agg_run p export a ex (concat oss).
Proof.
  intros Hps Hcs. revert a ex. induction Hcs as [|c os cs oss Hc _ IH]; intros a ex; [done|].
  simpl. rewrite agg_run_app, (callback_is_ops ps a ex c os Hps Hc).
  destruct (agg_run p export a ex os) as [[[a1 ex1] out1]| |]; [|done|done]. cbn [rbind]. by rewrite IH.
Qed.

End messages.

Lemma fits_64 z : fits 32 z -> u64 z.
Proof. unfold u64, fits. lia. Qed.

Lemma sample_ok_parts s :
  match s with
  | STcp m => tcp_ok m | SUdp m => udp_ok m | SHttp m => http_ok m | SDns m => dns_ok m
  end -> sample_ok s.
Proof.
  destruct all_default_ok as (Ht & Hu & Hh & Hd). intros Hs. destruct s; by split_and!.
Qed.

Lemma op_of_ok q m : msg_ok m -> Forall op_ok (op_of q m).
Proof.
  intros Hm. destruct m; cbn [op_of msg_ok] in *; try apply Forall_nil_2;
    (apply Forall_cons_2; [|apply Forall_nil_2]); try exact I; apply sample_ok_parts;
    unfold tcp_ok, udp_ok, http_ok, dns_ok, ok_tcp, ok_udp, ok_http, ok_dns in *; cbn;
    destruct_and? Hm; split_and!; auto using fits_64.
Qed.

Lemma stands_for_ok e c os : stands_for e c os -> Forall op_ok os.
Proof. intros [q ts m dst pad bytes rest Hm|w]; [by apply op_of_ok|]. by apply Forall_singleton. Qed.

(** C5: from the encoder to the published points.  Whatever messages the
    encoders of the aggregation application write into elements, and however
    timeslots end in between, the core built in a release configuration never
    panics on them: its parser is complete, every element reaches the
    aggregator as the operation its message stands for, and each window sends
    exactly the points of the ledger of those operations. *)
Theorem core_publishes_ledger {ref : Type} {store : Type -> Type -> Type} {ref_eq : EqDecision ref}
    {ref_countable : Countable ref} {rc : RcHashMap ref store} {rc_laws : RcHashMapLaws ref store}
    {order : HashOrder} {order_laws : HashOrderLaws} {E : Type}
    e export id_id az_id no_ip ex cs oss :
  Forall2 (stands_for e) cs oss -> buf (publisher ex) = [] ->
  exists ps (a : Aggregator (ref := ref) (store := store)) ex' reqs,
    core_parser (E := E) Release = Ok ps
    /\ core_callbacks (E := E) Release e export ps (configured id_id az_id no_ip) ex cs
       = Ok (a, ex', reqs)
    /\ Forall2 sent reqs (snd (ledger_run (ledger_new id_id az_id no_ip) (concat oss))).
Proof.
  intros Hcs Hb. destruct (core_parser_complete (E := E) Release) as (ps & Hps & Hall).
  destruct (run_refines (E := E) export _ _ ex (concat oss) (inv_new id_id az_id no_ip))
    as (a & ex' & reqs & Hr & _ & Hs).
  { clear -Hcs. induction Hcs as [|c os cs oss Hc _ IH]; [by constructor|].
    apply Forall_app. split; [by eapply stands_for_ok|done]. }
  { done. }
  exists ps, a, ex', reqs. split_and!; [done| |done].
  by rewrite (callbacks_are_ops Release e export ps _ ex cs oss Hall Hcs).
Qed.

(** ** Witness *)

Definition tcp_sample : AggMsg := MTcp (mk_update_tcp_metrics 465 7 0 1 0 100 8 3 1 0 1 0).
Definition node_sample (side : Z) : AggMsg :=
  MNode (mk_update_node 463 7 side [110; 48 + side] [122] [] [49] [] [] 3 [49; 48] [] [] [] []).

Definition encoded (m : AggMsg) : list Z :=
  match encode_msg LittleEndian (Some (repeat 0 (8 + msg_size m))) 5 m (repeat 0 (msg_header m)) with
  | Ok bytes => bytes
  | _ => []
  end.

Lemma encoded_stands m q :
  msg_ok m ->
  encode_msg LittleEndian (Some (repeat 0 (8 + msg_size m))) 5 m (repeat 0 (msg_header m))
  = Ok (encoded m) ->
  stands_for LittleEndian (Message q (encoded m ++ [])) (op_of q m).
Proof.
  intros Hm He. eapply stands_message; [done| | | |exact He]; [done|by rewrite repeat_length..].
Qed.

Lemma sample_msgs_ok m :
  m ∈ [MStart (mk_agg_root_start 461 7); node_sample 0; node_sample 1; tcp_sample] -> msg_ok m.
Proof.
  assert (forall side, side = 0 \/ side = 1 -> msg_ok (node_sample side)) as Hnode.
  { intros side [-> | ->]; (split_and!; [done..| |done]); by repeat constructor. }
  intros Hm. apply elem_of_cons in Hm as [->|Hm]; [by split_and!|].
  apply elem_of_cons in Hm as [->|Hm]; [by apply Hnode; left|].
  apply elem_of_cons in Hm as [->|Hm]; [by apply Hnode; right|].
  apply list_elem_of_singleton in Hm as ->. by split_and!.
Qed.

Definition sample_callbacks : list callback :=
  [Message 0 (encoded (MStart (mk_agg_root_start 461 7)) ++ []); Message 0 (encoded (node_sample 0) ++ []);
   Message 0 (encoded (node_sample 1) ++ []); Message 0 (encoded tcp_sample ++ []);
   TimeslotEnd 30000000000].

Lemma core_publishes_ledger_witness :
  exists ps (a : Aggregator (ref := positive) (store := fun K V => gmap positive (K * V))) ex' reqs,
    core_parser (E := unit) Release = Ok ps
    /\ core_callbacks (E := unit) Release LittleEndian picky ps (configured true true false)
         (exporter_new_local false) sample_callbacks = Ok (a, ex', reqs)
    /\ Forall2 sent reqs (snd (ledger_run (ledger_new true true false)
         (concat [op_of 0 (MStart (mk_agg_root_start 461 7)); op_of 0 (node_sample 0);
                  op_of 0 (node_sample 1); op_of 0 tcp_sample; [Output 30000000000]]))).
Proof.
  apply (core_publishes_ledger (E := unit) LittleEndian picky true true false (exporter_new_local false)
           sample_callbacks
           [op_of 0 (MStart (mk_agg_root_start 461 7)); op_of 0 (node_sample 0);
            op_of 0 (node_sample 1); op_of 0 tcp_sample; [Output 30000000000]]).
  - unfold sample_callbacks.
    repeat apply Forall2_cons_2; try apply Forall2_nil_2; try apply stands_window;
      apply encoded_stands; try (vm_compute; reflexivity); apply sample_msgs_ok; set_solver.
  - reflexivity.
Defined.
