(* ===== verification/QueueHandler.v ===== *)
(** * The queue loop (crates/reducer/src/queue_handler.rs)

    Reads the element queues in turn, lets the virtual clock decide which
    elements belong to the current timeslot, and ends the slot when every
    queue has moved on.  The reader of a queue is an interface that
    [ElementQueue] implements; the callbacks are parameters, and so are the
    stop flag and the time budget, which the loop only samples. *)

From S2P Require Import Prelude Float64 FastDiv VirtualClock ElementQueue.

Local Open Scope rust_scope.

Definition K_MAX_RPC_BATCH_PER_QUEUE : Z := 10000.

(** ** The reader of a queue *)

Class BatchReader (R : Type) := {
  br_peek_len : R -> res EqError Z;
  br_peek_u64 : R -> res EqError Z;
  br_read : R -> res EqError (list Z * R);
}.

(** What the loop relies on: a reader holds the elements visible to its
    batch, and hands them out in order. *)
Class BatchReaderLaws (R : Type) `{BatchReader R} (e : endian) := {
  br_holds : R -> list (list Z) -> Prop;
  br_empty : forall r, br_holds r [] -> br_peek_len r = Err NoEntry;
  br_next : forall r x xs, br_holds r (x :: xs) ->
    exists r', br_peek_len r = Ok (Z.of_nat (length x)) /\ br_read r = Ok (x, r') /\ br_holds r' xs
      /\ br_peek_u64 r = if (length x <? 8)%nat then Err InvalidArg
                         else Ok (from_ne_bytes e (take 8 x));
}.

Record QueueHandler := mkQH {
  queues : list ElementQueue;
  clock : VirtualClock;
  timeslot_div : FastDiv;
  last_processed_ts : Z;
}.

(** The queue over the storage a view names by address and sizes; [space]
    gives the storage at an address. *)
Definition queue_of_view (space : Z -> mem) (view : Z * Z * Z) : res EqError ElementQueue :=
  let '(data, n_elems, buf_len) := view in
  new_from_contiguous n_elems buf_len (data =? 0) (space data).

(** [expect] on every queue. *)
Fixpoint expect_queues {E} (qs : list (res EqError ElementQueue)) : res E (list ElementQueue) :=
  match qs with
  | [] => Ok []
  | Ok q :: qs => rmap (cons q) (expect_queues qs)
  | _ => Panic
  end.

(** [new_from_views], given the queues over the storage. *)
Definition new_from_views {E} (p : profile) (log2 : f64 -> f64) (qs : list (res EqError ElementQueue))
  : res E QueueHandler :=
  let? qs := expect_queues qs in
  let? d := FastDiv.new p log2 (f64_of_Z 30000000000) 16 in
  let? c := VirtualClock.new p d in
  Ok (mkQH qs (add_inputs c (length qs)) d 0).

Section loop.
Context {R : Type} {reader : BatchReader R} {St E : Type} (p : profile).
Context (hm : St -> nat -> list Z -> res E St) (ht : St -> Z -> res E St).

(** The inner [while]: read a batch from queue [i].  [late n] tells whether
    the budget is exceeded when [n] units of fuel are left; the result is
    [None] if the fuel runs out. *)
Fixpoint drain (fuel : nat) (late : nat -> bool) (i : nat) (c : VirtualClock) (r : R) (last : Z)
    (s : St) (handled : Z) : res E (option (VirtualClock * R * Z * St)) :=
  match fuel with
  | O => Ok None
  | S fuel =>
      if negb (handled <? K_MAX_RPC_BATCH_PER_QUEUE) then Ok (Some (c, r, last, s))
      else
        let? can := can_update c i in
        if negb can then Ok (Some (c, r, last, s))
        else
          match br_peek_len r with
          | Panic => Panic
          | Err _ => Ok (Some (c, r, last, s))
          | Ok _ =>
              let skip :=
                match br_read r with
                | Ok (_, r) => drain fuel late i c r last s handled
                | Err _ => drain fuel late i c r last s handled
                | Panic => Panic
                end in
              match br_peek_u64 r with
              | Panic => Panic
              | Err _ => skip
              | Ok ts =>
                  match update p c i ts with
                  | Panic => Panic
                  | Err PastTimeslot => skip
                  | Err NotPermitted => Ok (Some (c, r, last, s))
                  | Ok c =>
                      let? cur := is_current c i in
                      if cur then
                        match br_read r with
                        | Panic => Panic
                        | Err _ => Ok (Some (c, r, last, s))
                        | Ok (bytes, r) =>
                            let? s := hm s i bytes in
                            if late fuel then Ok (Some (c, r, ts, s))
                            else drain fuel late i c r ts s (handled + 1)
                        end
                      else if late fuel then Ok (Some (c, r, last, s))
                      else drain fuel late i c r last s handled
                  end
              end
          end
  end.

(** The end of the window that holds the last processed timestamp. *)
Definition window_end (d : FastDiv) (last : Z) : res E Z :=
  let? rec := estimated_reciprocal p d in
  let slot_ns := f64_to_uint 64 (f64_round rec) in
  let? rem := remainder p d last slot_ns in
  Ok (saturating_add 64 (saturating_sub last rem) slot_ns).

End loop.

(** ** One batch *)

Section batch.
Context {R : Type} {reader : BatchReader R} {e : endian} {laws : BatchReaderLaws R e}
  {St E : Type} (p : profile) (hm : St -> nat -> list Z -> res E St).

Definition stamp (x : list Z) : Z := from_ne_bytes e (take 8 x).

(** The timeslot of an element, as the clock computes it. *)
Definition slot16 (d : FastDiv) (x : list Z) : Z := wrap 16 (slot d (stamp x)).

Definition malformed (x : list Z) : Prop := (length x < 8)%nat.
Definition past (c : VirtualClock) (x : list Z) : Prop :=
  exists t, current_timeslot c = Some t /\ signed_delta_u16 (slot16 (divider c) x) t < 0.
Definition present (c : VirtualClock) (x : list Z) : Prop :=
  (8 <= length x)%nat /\ current_timeslot c = Some (slot16 (divider c) x).
(** Neither: the element starts a later timeslot, or sets an unset clock. *)
Definition future (c : VirtualClock) (x : list Z) : Prop :=
  (8 <= length x)%nat
  /\ match current_timeslot c with
     | Some t => 0 < signed_delta_u16 (slot16 (divider c) x) t
     | None => True
     end.

#[export] Instance present_dec c x : Decision (present c x).
Proof. unfold present. apply _. Defined.

(** The callbacks, in order. *)
Fixpoint handle_all (i : nat) (s : St) (xs : list (list Z)) : res E St :=
  match xs with
  | [] => Ok s
  | x :: xs => let? s := hm s i x in handle_all i s xs
  end.

Definition last_stamp (ts : Z) (xs : list (list Z)) : Z :=
  match last xs with Some x => stamp x | None => ts end.

(** An input that may be updated, of a clock that keeps 16 bits. *)
Definition ready (c : VirtualClock) (i : nat) : Prop :=
  inputs c !! i = Some (mkInput (current_timeslot c)) /\ 0 <= shift (divider c) <= 48
  /\ (forall t, current_timeslot c = Some t -> fits 16 t).

(** The clock once input [i] has reported slot [t]. *)
Definition report (c : VirtualClock) (i : nat) (t : Z) : VirtualClock :=
  set_inputs c (<[i := mkInput (Some t)]> (inputs c)).

Lemma map_timestamp_slot16 {E'} c x :
  0 <= shift (divider c) <= 48 -> map_timestamp (E := E') p c (stamp x) = Ok (slot16 (divider c) x).
Proof.
  intros Hs. by apply map_timestamp_slot.
Qed.

Lemma slot16_fits d x : fits 16 (slot16 d x).
Proof. apply wrap_fits. lia. Qed.

Lemma add_delta new old :
  fits 16 new -> fits 16 old -> wrapping_add 16 old (as_u16 (signed_delta_u16 new old)) = new.
Proof.
  intros Hn Ho. unfold as_u16, signed_delta_u16, wrapping_sub.
  rewrite as_signed_mod by (try apply wrap_fits; lia). unfold wrapping_add. rewrite wrap_add_r.
  rewrite <- (wrap_small 16 new) at 2 by done. f_equal. lia.
Qed.

Lemma delta_zero new old : fits 16 new -> fits 16 old -> signed_delta_u16 new old = 0 -> new = old.
Proof.
  intros Hn Ho Hd. rewrite <- (add_delta new old Hn Ho), Hd. unfold wrapping_add, as_u16.
  change (wrap 16 0) with 0. rewrite Z.add_0_r. by apply wrap_small.
Qed.

(** What [update] does with an element of a ready input. *)
Lemma update_ready c i x :
  ready c i ->
  update p c i (stamp x)
  = match current_timeslot c with
    | Some t => if 0 <=? signed_delta_u16 (slot16 (divider c) x) t
                then Ok (report c i (slot16 (divider c) x)) else Err PastTimeslot
    | None => Ok (report c i (slot16 (divider c) x))
    end.
Proof.
  intros (Hi & Hs & Ht). unfold update. rewrite map_timestamp_slot16 by done. cbn [rbind].
  unfold index. rewrite Hi. cbn [rbind unwrap timeslot]. rewrite bool_decide_true by done.
  destruct (current_timeslot c) as [t|] eqn:Hc; [|done].
  rewrite add_delta; [done|apply slot16_fits|by apply Ht].
Qed.

Lemma report_same c i t :
  ready c i -> current_timeslot c = Some t -> report c i t = c.
Proof.
  intros (Hi & _) Hc. unfold report, set_inputs. rewrite Hc in Hi. rewrite list_insert_id by done.
  by destruct c.
Qed.

Lemma can_update_ready {E'} c i : ready c i -> can_update (E := E') c i = Ok true.
Proof.
  intros (Hi & _). unfold can_update, index. rewrite Hi. simpl. by rewrite bool_decide_true.
Qed.

Lemma is_current_ready {E'} c i :
  ready c i -> is_current (E := E') c i = Ok (bool_decide (is_Some (current_timeslot c))).
Proof.
  intros (Hi & _). unfold is_current, index. rewrite Hi. simpl. case_bool_decide; [|done].
  by rewrite bool_decide_true.
Qed.

(** After a report of another slot the input must wait. *)
Lemma reported_waits {E'} c i t :
  ready c i -> current_timeslot c <> Some t ->
  can_update (E := E') (report c i t) i = Ok false /\ is_current (E := E') (report c i t) i = Ok false.
Proof.
  intros (Hi & _) Ht. unfold can_update, is_current, index, report, set_inputs. simpl.
  rewrite list_lookup_insert_eq by (by eapply lookup_lt_Some). simpl.
  rewrite bool_decide_false by congruence. split; [done|]. by case_bool_decide.
Qed.

Lemma last_stamp_cons ts x xs : last_stamp ts (x :: xs) = last_stamp (stamp x) xs.
Proof. unfold last_stamp. rewrite last_cons. by destruct (last xs). Qed.

Definition ended (late : nat -> bool) (handled : Z) i c c' (xs : list (list Z)) (k : nat) : Prop :=
  (c' = c \/ exists x, xs !! k = Some x /\ future c x /\ c' = report c i (slot16 (divider c) x))
  /\ ((forall n, late n = false) -> handled + Z.of_nat (length xs) <= K_MAX_RPC_BATCH_PER_QUEUE ->
      k = length xs
      \/ exists x, xs !! k = Some x /\ future c x /\ c' = report c i (slot16 (divider c) x)).

(** A batch that finds elements reads one, unless the first is of a later slot;
    the input has then reported that slot. *)
Definition moves (handled : Z) i c c' (xs : list (list Z)) (k : nat) : Prop :=
  xs <> [] -> handled < K_MAX_RPC_BATCH_PER_QUEUE -> k = 0%nat ->
  exists x, head xs = Some x /\ future c x /\ c' = report c i (slot16 (divider c) x).

(** The elements [take k xs] are consumed; those of the current slot are
    handled. *)
Definition batch_outcome (run : Z -> St -> res E (option (VirtualClock * R * Z * St))) late handled
    i c xs (k : nat) c' (r' : R) : Prop :=
  (k <= length xs)%nat
  /\ (forall ts s, run ts s
       = let msgs := filter (present c) (take k xs) in
         let? s' := handle_all i s msgs in Ok (Some (c', r', last_stamp ts msgs, s')))
  /\ br_holds r' (drop k xs)
  /\ Forall (fun x => malformed x \/ past c x \/ present c x) (take k xs)
  /\ ended late handled i c c' xs k.

(** Nothing read. *)
Lemma outcome_stop run late handled i c c' xs r :
  (forall ts s, run ts s = Ok (Some (c', r, ts, s))) -> br_holds r xs ->
  ended late handled i c c' xs 0 ->
  batch_outcome run late handled i c xs 0 c' r.
Proof. intros Hrun Hr Hend. split_and!; [lia|by intros; rewrite Hrun|done|by constructor|done]. Qed.

Lemma ended_cons late handled handled' i c c' x xs k :
  handled' <= handled + 1 ->
  ended late handled' i c c' xs k -> ended late handled i c c' (x :: xs) (S k).
Proof.
  intros Hle [H1 H2]. split; [exact H1|]. intros Hl Hh.
  destruct H2 as [->|H2]; [done| |by left|by right]. simpl in Hh. lia.
Qed.

(** One element consumed without effect. *)
Lemma outcome_skip run run' late handled i c x xs k c' r' :
  (forall ts s, run ts s = run' ts s) -> malformed x \/ past c x -> ~ present c x ->
  batch_outcome run' late handled i c xs k c' r' ->
  batch_outcome run late handled i c (x :: xs) (S k) c' r'.
Proof.
  intros Hrun Hx Hnp (Hk & Hr' & Hh & Hf & He). split_and!.
  - simpl. lia.
  - intros ts s. rewrite Hrun, Hr'. simpl. by rewrite filter_cons_False.
  - done.
  - simpl. constructor; [tauto|done].
  - eapply ended_cons; [|done]. lia.
Qed.

(** One element of the current slot handled. *)
Lemma outcome_handle run run' late handled i c x xs k c' r' :
  (forall ts s, run ts s = let? s := hm s i x in run' (stamp x) s) -> present c x ->
  batch_outcome run' late (handled + 1) i c xs k c' r' ->
  batch_outcome run late handled i c (x :: xs) (S k) c' r'.
Proof.
  intros Hrun Hx (Hk & Hr' & Hh & Hf & He). split_and!.
  - simpl. lia.
  - intros ts s. rewrite Hrun. simpl. rewrite filter_cons_True by done. simpl.
    destruct (hm s i x); [|done|done]. simpl. rewrite Hr'. simpl. by rewrite last_stamp_cons.
  - done.
  - simpl. constructor; [tauto|done].
  - by eapply ended_cons.
Qed.

(** The batch ends at an element of a later slot. *)
Lemma drain_future fuel late i c r x xs handled :
  ready c i -> br_holds r (x :: xs) -> future c x -> handled < K_MAX_RPC_BATCH_PER_QUEUE ->
  batch_outcome (fun ts s => drain p hm (S (S fuel)) late i c r ts s handled) late handled i c
    (x :: xs) 0 (report c i (slot16 (divider c) x)) r.
Proof.
  intros Hready Hr [Hlen Hfut] Hh. destruct (br_next r x xs Hr) as (r1 & Hpl & _ & _ & Hu).
  assert (current_timeslot c <> Some (slot16 (divider c) x)) as Hne.
  { intros Hc. rewrite Hc in Hfut. unfold signed_delta_u16, wrapping_sub in Hfut.
    rewrite Z.sub_diag in Hfut. by vm_compute in Hfut. }
  destruct (reported_waits (E' := E) c i _ Hready Hne) as [Hcan Hcur].
  apply outcome_stop; [|done|split; [right|intros _ _; right]; by exists x].
  intros ts s. cbn [drain]. rewrite (proj2 (Z.ltb_lt _ _)) by done. simpl negb. cbv iota.
  rewrite can_update_ready by done. cbn [rbind]. simpl negb. cbv iota.
  rewrite Hpl, Hu, (proj2 (Nat.ltb_ge _ _)) by done. fold (stamp x). rewrite update_ready by done.
  assert (match current_timeslot c with
          | Some t => if 0 <=? signed_delta_u16 (slot16 (divider c) x) t
                      then Ok (report c i (slot16 (divider c) x)) else Err PastTimeslot
          | None => Ok (report c i (slot16 (divider c) x))
          end = Ok (report c i (slot16 (divider c) x))) as ->.
  { destruct (current_timeslot c); [|done]. by rewrite (proj2 (Z.leb_le _ _)) by lia. }
  rewrite Hcur. cbn [rbind]. rewrite Hcan. cbn [rbind]. by destruct (late (S fuel)).
Qed.

(** An element without a timestamp is drained. *)
Lemma drain_malformed fuel late i c r r1 x xs handled ts s :
  ready c i -> br_holds r (x :: xs) -> br_read r = Ok (x, r1) -> malformed x ->
  handled < K_MAX_RPC_BATCH_PER_QUEUE ->
  drain p hm (S fuel) late i c r ts s handled = drain p hm fuel late i c r1 ts s handled.
Proof.
  intros Hready Hr Hrd Hx Hh. destruct (br_next r x xs Hr) as (r' & Hpl & _ & _ & Hu).
  cbn [drain]. rewrite (proj2 (Z.ltb_lt _ _)) by done. rewrite can_update_ready by done.
  simpl rbind. simpl negb. cbv iota. by rewrite Hpl, Hu, (proj2 (Nat.ltb_lt _ _)), Hrd by done.
Qed.

(** So is one of a past slot. *)
Lemma drain_past fuel late i c r r1 x xs handled ts s :
  ready c i -> br_holds r (x :: xs) -> br_read r = Ok (x, r1) -> (8 <= length x)%nat -> past c x ->
  handled < K_MAX_RPC_BATCH_PER_QUEUE ->
  drain p hm (S fuel) late i c r ts s handled = drain p hm fuel late i c r1 ts s handled.
Proof.
  intros Hready Hr Hrd Hlen (t & Hc & Hd) Hh. destruct (br_next r x xs Hr) as (r' & Hpl & _ & _ & Hu).
  cbn [drain]. rewrite (proj2 (Z.ltb_lt _ _)) by done. rewrite can_update_ready by done.
  simpl rbind. simpl negb. cbv iota. rewrite Hpl, Hu, (proj2 (Nat.ltb_ge _ _)), Hrd by lia.
  fold (stamp x). rewrite update_ready by done. by rewrite Hc, (proj2 (Z.leb_gt _ _)) by lia.
Qed.

(** One of the current slot is handled. *)
Lemma drain_present fuel late i c r r1 x xs handled ts s :
  ready c i -> br_holds r (x :: xs) -> br_read r = Ok (x, r1) -> present c x ->
  handled < K_MAX_RPC_BATCH_PER_QUEUE ->
  drain p hm (S fuel) late i c r ts s handled
  = let? s := hm s i x in
    if late fuel then Ok (Some (c, r1, stamp x, s))
    else drain p hm fuel late i c r1 (stamp x) s (handled + 1).
Proof.
  intros Hready Hr Hrd [Hlen Hc] Hh. destruct (br_next r x xs Hr) as (r' & Hpl & _ & _ & Hu).
  cbn [drain]. rewrite (proj2 (Z.ltb_lt _ _)) by done. rewrite can_update_ready by done.
  simpl rbind at 1. simpl negb. cbv iota. rewrite Hpl, Hu, (proj2 (Nat.ltb_ge _ _)), Hrd by lia.
  fold (stamp x). rewrite update_ready by done. rewrite Hc.
  unfold signed_delta_u16 at 1, wrapping_sub at 1. rewrite Z.sub_diag.
  change (0 <=? as_signed 16 (wrap 16 0)) with true. cbv iota.
  rewrite report_same, is_current_ready by done. by rewrite Hc, bool_decide_true.
Qed.

(** An element is without a timestamp, or past, present or future. *)
Lemma element_cases c i x :
  ready c i -> malformed x \/ ((8 <= length x)%nat /\ past c x /\ ~ present c x) \/ present c x \/ future c x.
Proof.
  intros (_ & _ & Hfit). destruct (decide (8 <= length x)%nat) as [Hlen|Hlen]; [|left; unfold malformed; lia].
  right. pose proof (slot16_fits (divider c) x) as Hsx. unfold past, present, future.
  destruct (current_timeslot c) as [t|]; [|by right; right].
  pose proof (Hfit t eq_refl) as Ht.
  destruct (Z.lt_trichotomy (signed_delta_u16 (slot16 (divider c) x) t) 0) as [Hd|[Hd|Hd]].
  - left. split_and!; [done|by exists t|]. intros [_ Hpc]. injection Hpc as ->.
    unfold signed_delta_u16, wrapping_sub in Hd. rewrite Z.sub_diag in Hd. by vm_compute in Hd.
  - apply delta_zero in Hd; [|done|done]. right. left. by rewrite Hd.
  - by right; right.
Qed.

Lemma drain_spec fuel late i c r xs handled :
  ready c i -> br_holds r xs -> (length xs + 2 <= fuel)%nat ->
  exists k c' r',
    batch_outcome (fun ts s => drain p hm fuel late i c r ts s handled) late handled i c xs k c' r'
    /\ moves handled i c c' xs k.
Proof.
  intros Hready. revert fuel r handled. induction xs as [|x xs IH]; intros fuel r handled Hr Hf.
  { exists 0%nat, c, r. split; [|by intros ?]. apply outcome_stop; [|done|by split; [left|intros _ _; left]].
    intros ts s. destruct fuel as [|fuel]; [simpl in Hf; lia|]. cbn [drain].
    destruct (handled <? _); [|done]. rewrite can_update_ready by done. simpl. by rewrite br_empty. }
  destruct fuel as [|fuel]; [simpl in Hf; lia|]. simpl in Hf.
  destruct (Z.ltb_spec handled K_MAX_RPC_BATCH_PER_QUEUE) as [Hh|Hh].
  2:{ exists 0%nat, c, r. split; [|intros _ ?; exfalso; lia]. apply outcome_stop; [|done|].
      - intros ts s. cbn [drain]. by rewrite (proj2 (Z.ltb_ge _ _)) by done.
      - split; [by left|]. intros _ Hn. simpl in Hn. lia. }
  destruct (br_next r x xs Hr) as (r1 & _ & Hrd & Hr1 & _).
  destruct (element_cases c i x Hready) as [Hm|[(Hlen & Hpast & Hnp)|[Hpx|Hfut]]].
  - destruct (IH fuel r1 handled Hr1 ltac:(lia)) as (k & c' & r' & Ho & _). exists (S k), c', r'. split; [|by intros _ _].
    eapply outcome_skip; [|by left| |exact Ho]; [|intros [? _]; unfold malformed in Hm; lia].
    intros ts s. by apply (drain_malformed fuel late i c r r1 x xs).
  - destruct (IH fuel r1 handled Hr1 ltac:(lia)) as (k & c' & r' & Ho & _). exists (S k), c', r'. split; [|by intros _ _].
    eapply outcome_skip; [|by right|done|exact Ho]. intros ts s. by apply (drain_past fuel late i c r r1 x xs).
  - pose proof (fun ts s => drain_present fuel late i c r r1 x xs handled ts s Hready Hr Hrd Hpx Hh) as Hstep.
    destruct (late fuel) eqn:Hlate.
    + exists 1%nat, c, r1. split; [|by intros _ _]. eapply (outcome_handle _ (fun ts s => Ok (Some (c, r1, ts, s)))); [done|done|].
      apply outcome_stop; [done|done|]. split; [by left|]. intros Hl. by rewrite Hl in Hlate.
    + destruct (IH fuel r1 (handled + 1) Hr1 ltac:(lia)) as (k & c' & r' & Ho & _). exists (S k), c', r'. split; [|by intros _ _].
      exact (outcome_handle _ (fun ts s => drain p hm fuel late i c r1 ts s (handled + 1))
               _ _ _ _ _ _ _ _ _ Hstep Hpx Ho).
  - exists 0%nat, (report c i (slot16 (divider c) x)), r. destruct fuel as [|fuel]; [lia|].
    split; [by apply drain_future|]. intros _ _ _. by exists x.
Qed.

End batch.

(** ** The reader over the ring *)

#[export] Instance ring_reader (p : profile) (e : endian) : BatchReader (mem * ReadBatch) := {
  br_peek_len r := peek_len (fst r) (snd r);
  br_peek_u64 r := rmap (from_ne_bytes e) (peek_value p (fst r) (snd r) 8);
  br_read r := rmap (fun '(bs, r') => (bs, (fst r, r'))) (read p (fst r) (snd r));
}.

(** The elements a batch still has to read, in a state of the two processes
    that satisfies the invariant of the queue. *)
Definition ring_holds (r : mem * ReadBatch) (xs : list (list Z)) : Prop :=
  exists a b g h s, 0 <= a <= 31 /\ 0 <= b <= 30 /\ inv_at a b g h s /\ smem s = fst r
    /\ rs s = RBatch (snd r) /\ take (snap g) (com g) = (don g ++ bat g) ++ xs.

Lemma ring_snap a b g h s rb :
  inv_at a b g h s -> rs s = RBatch rb ->
  (length (don g ++ bat g) <= snap g <= length (com g))%nat.
Proof. intros Hi Hrs. destruct (inv_reader _ _ _ _ _ Hi) as [_ _ _ Hph]. rewrite Hrs in Hph. apply Hph. Qed.

Lemma ring_next p e r x xs :
  ring_holds r (x :: xs) ->
  exists r', peek_len (fst r) (snd r) = Ok (Z.of_nat (length x))
    /\ rmap (fun '(bs, r') => (bs, (fst r, r'))) (read p (fst r) (snd r)) = Ok (x, r')
    /\ ring_holds r' xs
    /\ rmap (from_ne_bytes e) (peek_value p (fst r) (snd r) 8)
       = if (length x <? 8)%nat then Err InvalidArg else Ok (from_ne_bytes e (take 8 x)).
Proof.
  intros (a & b & g & h & s & Ha & Hb & Hi & Hm & Hrs & Htake).
  pose proof (ring_snap _ _ _ _ _ _ Hi Hrs) as Hsn.
  assert (length (take (snap g) (com g)) = snap g) as Hlt by (rewrite length_take; lia).
  assert (length (don g ++ bat g) < snap g)%nat as Hlt'.
  { rewrite Htake, (length_app _ (x :: xs)) in Hlt. simpl in Hlt. lia. }
  destruct (head_stored a b Ha g h s (snd r) Hi Hrs Hlt') as (x0 & Hx0 & _ & _ & Hpl).
  destruct (read_eq a b Ha Hb p g h s (snd r) Hi Hrs Hlt') as (x' & Hx' & Hpk & Hrd).
  rewrite Hx' in Hx0. injection Hx0 as <-.
  assert (x' = x) as ->.
  { rewrite <- (take_drop (snap g) (com g)), Htake in Hx'.
    rewrite lookup_app_l in Hx' by (rewrite (length_app _ (x :: xs)); simpl; lia).
    rewrite lookup_app_r, Nat.sub_diag in Hx' by lia. by injection Hx'. }
  rewrite Hm in Hpl, Hpk, Hrd. eexists (fst r, _). rewrite Hpl, Hrd. split_and!; [done|done| |].
  - destruct s as [m wq0 ws0 rq0 rs0]. simpl in *. subst m rs0.
    eexists a, b, _, h, _. split_and!; [lia..|exact (inv_read a b Ha Hb p _ _ _ _ _ _ _ _ _ Hi Hrd)|done|done|].
    simpl. by rewrite Htake, <- !app_assoc.
  - unfold peek_value. rewrite Hpk. cbn [rbind rmap]. by destruct (length x <? 8)%nat.
Qed.

#[export] Instance ring_reader_laws (p : profile) (e : endian) :
  BatchReaderLaws (mem * ReadBatch) (H := ring_reader p e) e.
Proof.
  refine {| br_holds := ring_holds; br_empty := _; br_next := _ |}.
  - intros r (a & b & g & h & s & Ha & Hb & Hi & Hm & Hrs & Htake). simpl. rewrite <- Hm.
    eapply peek_len_empty; [done|done|]. rewrite app_nil_r in Htake.
    pose proof (ring_snap _ _ _ _ _ _ Hi Hrs). rewrite <- Htake, length_take. lia.
  - intros r x xs Hr. apply (ring_next p e r x xs Hr).
Defined.

(** A batch that starts on a reachable queue sees what is committed and not
    yet consumed. *)
Lemma ring_starts a b p s0 t s :
  0 <= a <= 31 -> 0 <= b <= 30 -> boots a b s0 -> steps p s0 t s -> rs s = RIdle ->
  ring_holds (smem s, start_read (rq s) (smem s)) (drop (length (don (log_of t))) (com (log_of t))).
Proof.
  intros Ha Hb Hboot Hst Hrs. destruct (inv_reachable a b Ha Hb p s0 t s Hboot Hst) as [h Hi].
  destruct s as [m wq0 ws0 rq0 rs0]. simpl in *. subst rs0.
  pose proof (inv_start_read _ _ _ _ _ _ _ _ Hi) as Hi'.
  destruct (inv_reader _ _ _ _ _ Hi) as [_ _ Hpre [Hbat _]].
  eexists a, b, _, h, _. split_and!; [lia..|exact Hi'|done|done|]. simpl.
  rewrite firstn_all, app_nil_r. rewrite Hbat, app_nil_r in Hpre. destruct Hpre as [k Hk].
  rewrite Hk, drop_app_length. done.
Qed.

(** ** One turn of the outer loop *)

Section cycle.
Context {St E : Type} (p : profile) (e : endian).
Context (hm : St -> nat -> list Z -> res E St) (ht : St -> Z -> res E St).

(** Visit queue [i], whose memory is [m]; the heads are published in the
    returned memory. *)
Definition visit (fuel : nat) (late : nat -> bool) (h : QueueHandler) (s : St) (i : nat) (m : mem)
  : res E (option (QueueHandler * mem * St)) :=
  let? can := can_update (clock h) i in
  if negb can then Ok (Some (h, m, s))
  else
    let? q := index (queues h) i in
    let? out := drain (reader := ring_reader p e) p hm fuel late i (clock h) (m, start_read q m)
                  (last_processed_ts h) s 0 in
    match out with
    | None => Ok None
    | Some (c, (m, r), last, s) =>
        let '(m, q) := finish_read m r in
        Ok (Some (mkQH (<[i := q]> (queues h)) c (timeslot_div h) last, m, s))
    end.

(** The [for] over the queues, from [next_idx]; [mems] gives the memory of
    each queue when it is visited. *)
Fixpoint visits (n : nat) (fuel : nat) (late : nat -> bool) (h : QueueHandler) (s : St)
    (next_idx : nat) (mems : nat -> mem) (published : list (nat * mem))
  : res E (option (QueueHandler * St * nat * list (nat * mem))) :=
  match n with
  | O => Ok (Some (h, s, next_idx, published))
  | S n =>
      let i := next_idx in
      let next_idx := ((next_idx + 1) mod length (queues h))%nat in
      let? out := visit fuel late h s i (mems i) in
      match out with
      | None => Ok None
      | Some (h, m, s) => visits n fuel late h s next_idx mems (published ++ [(i, m)])
      end
  end.

(** The end of the turn: advance the clock, and report the end of the slot. *)
Definition end_turn (h : QueueHandler) (s : St) : res E (QueueHandler * St) :=
  let? '(advanced, c) := advance (clock h) in
  let h := mkQH (queues h) c (timeslot_div h) (last_processed_ts h) in
  if advanced then
    let? w := window_end p (timeslot_div h) (last_processed_ts h) in
    let? s := ht s w in
    Ok (h, s)
  else Ok (h, s).

(** The body of the outer [while]. *)
Definition turn (fuel : nat) (late : nat -> bool) (h : QueueHandler) (s : St) (next_idx : nat)
    (mems : nat -> mem) : res E (option (QueueHandler * St * nat * list (nat * mem))) :=
  let? out := visits (length (queues h)) fuel late h s next_idx mems [] in
  match out with
  | None => Ok None
  | Some (h, s, next_idx, published) =>
      let? '(h, s) := end_turn h s in
      Ok (Some (h, s, next_idx, published))
  end.

End cycle.

(** ** Properties *)

(** C17: a batch handles the current timeslot and nothing else.  On a queue in
    any state its producer and consumer can reach, with enough fuel for the
    elements committed and not yet read, a batch terminates and consumes a
    prefix of them in order: the elements whose timestamp lies in the clock's
    current slot go to the message callback, once each; malformed elements and
    those of past slots are dropped; the batch stops before the first element
    of a later slot, which is the slot its input then reports.  Without a time
    limit nothing else stops it; even with one, a batch that finds elements
    reads the first of them, unless it is of a later slot. *)
Theorem queue_batch_in_slot {St E} p e (hm : St -> nat -> list Z -> res E St) a b s0 t s c i late fuel :
  0 <= a <= 31 -> 0 <= b <= 30 -> boots a b s0 -> steps p s0 t s -> rs s = RIdle -> ready c i ->
  let xs := drop (length (don (log_of t))) (com (log_of t)) in
  (length xs + 2 <= fuel)%nat ->
  exists k c' r', (k <= length xs)%nat
    /\ (forall ts st,
         drain (reader := ring_reader p e) p hm fuel late i c (smem s, start_read (rq s) (smem s)) ts st 0
         = let msgs := filter (present (e := e) c) (take k xs) in
           let? st' := handle_all hm i st msgs in Ok (Some (c', r', last_stamp (e := e) ts msgs, st')))
    /\ Forall (fun x => malformed x \/ past (e := e) c x \/ present (e := e) c x) (take k xs)
    /\ ended (e := e) late 0 i c c' xs k /\ moves (e := e) 0 i c c' xs k.
Proof.
  intros Ha Hb Hboot Hst Hrs Hc xs Hf.
  destruct (drain_spec (laws := ring_reader_laws p e) (E := E) p hm fuel late i c
              (smem s, start_read (rq s) (smem s)) xs 0 Hc) as (k & c' & r' & (Hk & Hrun & _ & Hall & He) & Hmv).
  - by eapply ring_starts.
  - done.
  - exists k, c', r'. done.
Qed.

(** C31: the reported end of a window is the end of the clock's slot.  With the
    divider the handler is built with, for every last timestamp whose window
    fits 64 bits, the reported time lies in the slot after that of the last
    message, and two nanoseconds before it is still in that slot. *)
Theorem window_end_in_slot {E} p log2 qs h last :
  log2_law log2 -> new_from_views (E := E) p log2 qs = Ok h ->
  0 <= last < 2 ^ 64 - 30001596324 ->
  exists w, window_end (E := E) p (timeslot_div h) last = Ok w
    /\ slot (timeslot_div h) w = slot (timeslot_div h) last + 1
    /\ slot (timeslot_div h) (w - 2) = slot (timeslot_div h) last.
Proof.
  intros Hlog Hnew Hlast. unfold new_from_views in Hnew. inv_res.
  rewrite (proj1 (new_values p log2 Hlog)) in Ha0. injection Ha0 as <-.
  rewrite <- Hnew. simpl. clear Hnew Ha1 Ha. unfold window_end.
  assert (estimated_reciprocal (E := E) p (mkFastDiv 9382 48)
          = Ok (f64_div (f64_of_Z (2 ^ 48)) (f64_of_Z 9382))) as ->.
  { unfold estimated_reciprocal. rewrite debug_assert_true by done. done. }
  cbn [rbind]. replace (f64_to_uint 64 (f64_round (f64_div (f64_of_Z (2 ^ 48)) (f64_of_Z 9382))))
    with 30001596324 by (vm_compute; reflexivity).
  rewrite remainder_eq by (simpl; lia). cbn [rbind mul shift]. eexists. split; [reflexivity|].
  unfold slot. cbn [mul shift].
  set (P := 2 ^ 48). set (f := (last * 9382) `mod` P). set (q := last * 9382 / P).
  set (r := 30001596324 * f / P).
  assert (P = 281474976710656) as HP by done.
  assert (last * 9382 = P * q + f) as Hdm by (apply Z.div_mod; lia).
  assert (0 <= f < P) as Hfr by (apply Z.mod_pos_bound; lia).
  assert (P * r <= 30001596324 * f < P * r + P) as Hr.
  { pose proof (Z.div_mod (30001596324 * f) P ltac:(lia)).
    pose proof (Z.mod_pos_bound (30001596324 * f) P ltac:(lia)). unfold r. lia. }
  assert (0 <= q) by (apply Z.div_pos; lia).
  rewrite wrap_small by (unfold fits; lia).
  assert (r <= last) by lia.
  unfold saturating_add, saturating_sub. rewrite Z.max_l by lia. rewrite Z.min_l by lia.
  set (w := last - r + 30001596324). split; symmetry.
  - apply (Z.div_unique_pos _ P _ (w * 9382 - P * (q + 1))); unfold w; lia.
  - apply (Z.div_unique_pos _ P _ ((w - 2) * 9382 - P * q)); unfold w; lia.
Qed.

(** ** Witnesses *)

(** A malformed element, one of slot 0 and one of slot 1. *)
Definition slot0_element : list Z := to_ne_bytes LittleEndian 8 5 ++ [1; 2].
Definition slot1_element : list Z := to_ne_bytes LittleEndian 8 40000000000 ++ [3].
Definition three_elements : list action :=
  [AWriter; AWriter; AWrite [9]; AWrite slot0_element; AWrite slot1_element; AFinishWrite; AWriter; AWriter].

Definition clock0 : VirtualClock := mkClock [mkInput (Some 0)] (mkFastDiv 9382 48) f64_zero (Some 0).

Lemma clock0_ready : ready clock0 0.
Proof. split_and!; [done|simpl; lia|simpl; lia|]. intros t [= <-]. done. Qed.

Definition collecting (st : list (list Z)) (i : nat) (x : list Z) : res unit (list (list Z)) := Ok (st ++ [x]).

Lemma queue_batch_in_slot_witness :
  exists t s, play Release boot64 [] three_elements = Some (t, s)
    /\ com (log_of t) = [[9]; slot0_element; slot1_element]
    /\ exists k c' r', (k <= 3)%nat
      /\ (forall ts st,
           drain (reader := ring_reader Release LittleEndian) Release collecting 5 (fun _ => false) 0
             clock0 (smem s, start_read (rq s) (smem s)) ts st 0
           = let msgs := filter (present (e := LittleEndian) clock0)
                           (take k [[9]; slot0_element; slot1_element]) in
             let? st' := handle_all collecting 0 st msgs in
             Ok (Some (c', r', last_stamp (e := LittleEndian) ts msgs, st')))
      /\ Forall (fun x => malformed x \/ past (e := LittleEndian) clock0 x
                          \/ present (e := LittleEndian) clock0 x)
           (take k [[9]; slot0_element; slot1_element])
      /\ ended (e := LittleEndian) (fun _ => false) 0 0 clock0 c' [[9]; slot0_element; slot1_element] k
      /\ moves (e := LittleEndian) 0 0 clock0 c' [[9]; slot0_element; slot1_element] k.
Proof.
  destruct (play Release boot64 [] three_elements) as [[t s]|] eqn:Hp; [|by vm_compute in Hp].
  pose proof (played Hp) as Hst. vm_compute in Hp. injection Hp as <- <-.
  eexists _, _. split; [reflexivity|]. split; [vm_compute; reflexivity|].
  apply (queue_batch_in_slot Release LittleEndian collecting 2 6 boot64 _ _ clock0 0 (fun _ => false) 5
           ltac:(lia) ltac:(lia) boot64_boots Hst eq_refl clock0_ready).
  vm_compute. lia.
Defined.

Lemma window_end_in_slot_witness :
  exists w, window_end (E := unit) Debug (mkFastDiv 9382 48) 1700000000000000000 = Ok w
    /\ slot (mkFastDiv 9382 48) w = slot (mkFastDiv 9382 48) 1700000000000000000 + 1
    /\ slot (mkFastDiv 9382 48) (w - 2) = slot (mkFastDiv 9382 48) 1700000000000000000.
Proof.
  apply (window_end_in_slot (E := unit) Debug log2_int []
           (mkQH [] (mkClock [] (mkFastDiv 9382 48)
              (f64_div (f64_of_Z (2 ^ 48)) (f64_of_Z 9382)) None) (mkFastDiv 9382 48) 0)).
  - exact log2_int_law.
  - vm_compute. reflexivity.
  - lia.
Defined.
