(* ===== verification/CppCore.v ===== *)
(** * The message loop of the C++ cores (reducer/core.cc)

    The ingest, matching and logging cores read their queues with
    [Core::handle_rpc], the function the Rust loop of the aggregation core
    replaces.  It visits the clients in turn, updates the clock with the
    timestamp of the next message, hands messages of the current slot to the
    client's handler together with the core's timestamp, and ends the slot
    when the clock advances.  Unlike the Rust loop, it throws when a message
    lies in the past.

    [handler] is the handler of a client, [late n] tells whether the time is
    up when [n] messages of the batch are left, [complete] is
    [on_timeslot_complete]. *)

From S2P Require Import Prelude Float64 FastDiv VirtualClock ElementQueue CElementQueue CppClock QueueHandler.

Local Open Scope rust_scope.

Definition kMaxRpcBatchPerQueue : nat := Z.to_nat (10 * 1000).

Record CppCore := mkCppCore {
  rpc_clients_ : list ElementQueue;
  virtual_clock_ : VirtualClock;
  current_timestamp_ : Z;
  next_rpc_client_ : nat;
}.

Section loop.
Context {St : Type} (p : profile) (e : endian).
Context (handler : St -> nat -> Z -> list Z -> res exn St) (complete : St -> res exn St).

(** The inner [for]; [remaining] is [kMaxRpcBatchPerQueue - msg_i].  The last
    component is [timed_out]. *)
Fixpoint rpc_batch (remaining : nat) (late : nat -> bool) (i : nat) (c : VirtualClock) (m : mem) (q : ElementQueue)
    (ts : Z) (st : St) (any_handled : bool) : res exn (VirtualClock * ElementQueue * Z * St * bool * bool) :=
  match remaining with
  | O => Ok (c, q, ts, st, any_handled, false)
  | S remaining =>
      let? can := clock_can_update c i in
      if negb can then Ok (c, q, ts, st, any_handled, false)
      else
        let? len := eq_peek m q in
        if len <=? 0 then Ok (c, q, ts, st, any_handled, false)
        else
          let? '(r, v) := cpp_peek_value m q 8 in
          if r <? 0 then
            let? '(_, _, q) := cpp_read_ptr p m q in
            rpc_batch remaining late i c m q ts st any_handled
          else
            let? bytes := unwrap v in
            let msg_timestamp := from_ne_bytes e bytes in
            let? '(r, c) := clock_update c i msg_timestamp in
            if r <? 0 then Err runtime_error
            else
              let? cur := clock_is_current c i in
              if cur then
                let ts := Z.max ts msg_timestamp in
                let? '(msg_len, msg_buf, q) := cpp_read_ptr p m q in
                let? start := unwrap msg_buf in
                let? msg := index_range (data m) start (start + Z.to_nat msg_len) in
                let? st := handler st i ts msg in
                if late remaining then Ok (c, q, ts, st, true, true)
                else rpc_batch remaining late i c m q ts st true
              else if late remaining then Ok (c, q, ts, st, any_handled, true)
              else rpc_batch remaining late i c m q ts st any_handled
  end.

(** One client, whose memory is [m]; the heads are published in the memory. *)
Definition rpc_visit (late : nat -> bool) (k : CppCore) (st : St) (any_handled : bool) (i : nat) (m : mem)
  : res exn (CppCore * mem * St * bool * bool) :=
  let? can := clock_can_update (virtual_clock_ k) i in
  if negb can then Ok (k, m, st, any_handled, false)
  else
    let? q := index (rpc_clients_ k) i in
    let? q := eq_start_read_batch p m q in
    let? '(c, q, ts, st, any_handled, timed_out) :=
      rpc_batch kMaxRpcBatchPerQueue late i (virtual_clock_ k) m q (current_timestamp_ k) st any_handled in
    let? m := eq_finish_read_batch p m q in
    Ok (mkCppCore (<[i := q]> (rpc_clients_ k)) c ts (next_rpc_client_ k), m, st, any_handled, timed_out).

(** The outer [for]; [mems] gives the memory of a client when it is visited,
    the result the memories the visits left. *)
Fixpoint rpc_visits (n : nat) (late : nat -> nat -> bool) (k : CppCore) (st : St) (any_handled : bool)
    (mems : nat -> mem) (left_ : list (nat * mem)) : res exn (CppCore * St * bool * list (nat * mem)) :=
  match n with
  | O => Ok (k, st, any_handled, left_)
  | S n =>
      let i := next_rpc_client_ k in
      let k := mkCppCore (rpc_clients_ k) (virtual_clock_ k) (current_timestamp_ k)
                 ((i + 1) mod length (rpc_clients_ k)) in
      let? '(k, m, st, any_handled, timed_out) := rpc_visit (late n) k st any_handled i (mems i) in
      if (timed_out : bool) then Ok (k, st, any_handled, left_ ++ [(i, m)])
      else rpc_visits n late k st any_handled mems (left_ ++ [(i, m)])
  end.

Definition handle_rpc (late : nat -> nat -> bool) (k : CppCore) (st : St) (mems : nat -> mem)
  : res exn (CppCore * St * bool * list (nat * mem)) :=
  let? '(k, st, any_handled, left_) := rpc_visits (length (rpc_clients_ k)) late k st false mems [] in
  let? '(advanced, c) := clock_advance (virtual_clock_ k) in
  let k := mkCppCore (rpc_clients_ k) c (current_timestamp_ k) (next_rpc_client_ k) in
  if (advanced : bool) then let? st := complete st in Ok (k, st, any_handled, left_)
  else Ok (k, st, any_handled, left_).

End loop.

(** ** The queue as the loop sees it *)

(** A C handle in a read batch that has still to read [xs]. *)
Definition c_holds (m : mem) (q : ElementQueue) (xs : list (list Z)) : Prop :=
  exists rb, ring_holds (m, rb) xs /\ commit_read rb = q.

Lemma c_empty {E} m q : c_holds m q [] -> eq_peek (E := E) m q = Ok ENOENT.
Proof.
  intros (rb & Hr & <-). pose proof (br_empty (BatchReaderLaws := ring_reader_laws Release LittleEndian) _ Hr) as Hp.
  simpl in Hp. unfold peek_len in Hp. unfold eq_peek. simpl.
  destruct (elem_tail (r_q rb) =? r_elem_head rb); [done|]. unfold index in Hp. by destruct (elems m !! _).
Qed.

Lemma as_signed_small z : 0 <= z < 2 ^ 31 -> as_signed 32 z = z.
Proof. intros Hz. unfold as_signed. destruct (Z.ltb_spec z (2 ^ (32 - 1))); lia. Qed.

Lemma ring_sizes m rb x xs :
  ring_holds (m, rb) (x :: xs) ->
  exists b, 0 <= b <= 30 /\ buf_mask (r_q rb) = 2 ^ b - 1 /\ Z.of_nat (length x) < 2 ^ 31.
Proof.
  intros (a & b & g & h & s & Ha & Hb & Hi & Hm & Hrs & Htake). exists b. split; [done|]. simpl in *.
  destruct (reader_masks a b g h s rb Hi Hrs) as (_ & _ & Hbm). split; [done|].
  pose proof (ring_snap _ _ _ _ _ _ Hi Hrs) as Hsn. pose proof (N_bounds b Hb).
  assert (length (take (snap g) (com g)) = snap g) as Hlt by (rewrite length_take; lia).
  rewrite Htake, (length_app _ (x :: xs)) in Hlt. simpl in Hlt.
  destruct (head_stored a b Ha g h s rb Hi Hrs) as (y & Hy & Hfit & _ & _); [lia|].
  assert (y = x) as ->.
  { rewrite <- (take_drop (snap g) (com g)), Htake in Hy.
    rewrite lookup_app_l in Hy by (rewrite (length_app _ (x :: xs)); simpl; lia).
    rewrite lookup_app_r, Nat.sub_diag in Hy by lia. by injection Hy. }
  pose proof (align8_bounds (len x)). unfold len in *. lia.
Qed.

Lemma c_next {E} p m q x xs :
  c_holds m q (x :: xs) ->
  eq_peek (E := E) m q = Ok (Z.of_nat (length x))
  /\ cpp_peek_value (E := E) m q 8
     = Ok (if (length x <? 8)%nat then (EINVAL, None) else (Z.of_nat (length x), Some (take 8 x)))
  /\ exists start q', cpp_read_ptr (E := E) p m q = Ok (Z.of_nat (length x), Some start, q')
     /\ index_range (E := E) (data m) start (start + length x) = Ok x /\ c_holds m q' xs.
Proof.
  intros (rb & Hr & <-). destruct (ring_sizes m rb x xs Hr) as (b & Hb & Hbm & Hlen).
  destruct (br_next (BatchReaderLaws := ring_reader_laws Release LittleEndian) _ _ _ Hr) as (r' & Hpl & Hrd & Hr' & _).
  simpl in Hpl, Hrd, Hr'. destruct (read Release m rb) as [[bs rb']| |] eqn:Hread; simplify_eq/=.
  unfold read in Hread. rewrite Hpl in Hread. cbn [rbind] in Hread.
  rewrite aligned_release in Hread by (split; lia). cbn [rbind] in Hread. rewrite Nat2Z.id in Hread.
  set (off := next_offset_by_len _ _ _) in *.
  destruct (index_range (E := EqError) (data m) _ _) as [bs| |] eqn:Hix; simplify_eq/=.
  assert (index_range (E := E) (data m) (Z.to_nat (Z.land off (buf_mask (r_q rb))))
    (Z.to_nat (Z.land off (buf_mask (r_q rb))) + length x) = Ok x) as Hix'.
  { unfold index_range in *. destruct (decide _); [|done]. destruct (sublist_lookup _ _ _); by simplify_eq/=. }
  unfold peek_len in Hpl. destruct (Z.eqb_spec (elem_tail (r_q rb)) (r_elem_head rb)) as [|Hne]; [done|].
  assert (index (E := E) (elems m) (Z.to_nat (Z.land (r_elem_head rb) (elem_mask (r_q rb)))) = Ok (Z.of_nat (length x))) as Hel.
  { unfold index in *. destruct (elems m !! _); by simplify_eq/=. }
  unfold eq_peek, cpp_peek_value, eq_peek_offset, cpp_read_ptr, eq_read. simpl.
  rewrite (proj2 (Z.eqb_neq _ _)) by done. rewrite Hel. cbn [rbind].
  change eq_next_offset_by_len with next_offset_by_len. fold off. rewrite Hbm in *.
  rewrite as_signed_offset by lia. rewrite as_signed_small by lia.
  pose proof (land_mask_bounds off b ltac:(lia)). rewrite (proj2 (Z.ltb_ge _ _)) by lia. cbn [from_option rbind].
  split_and!; [done| |].
  - destruct (Nat.ltb_spec (length x) 8); [by rewrite (proj2 (Z.ltb_lt _ _)) by lia|].
    rewrite (proj2 (Z.ltb_ge _ _)) by lia.
    apply index_range_inv in Hix' as [Hle Hx]. rewrite index_range_Ok by lia. cbn [rbind].
    rewrite as_signed_small by lia.
    assert (take 8 x = take 8 (drop (Z.to_nat (Z.land off (2 ^ b - 1))) (data m))) as ->; [|done].
    rewrite Hx at 1. by rewrite take_take, Nat.min_l by lia.
  - rewrite !as_signed_small, (wrap_small 32 (Z.of_nat (length x))) by (lia || split; lia).
    rewrite debug_assert_true by (by apply Z.eqb_eq). cbn [rbind].
    eexists _, _. split; [done|]. split; [done|]. eexists. split; [done|]. unfold commit_read. simpl. by rewrite Hbm.
Qed.

(** ** One batch *)

Section batch.
Context {St : Type} (p : profile) (e : endian).
Context (handler : St -> nat -> Z -> list Z -> res exn St).

(** The calls of the handler for [xs], with the core's timestamp. *)
Fixpoint handle_msgs (i : nat) (ts : Z) (st : St) (xs : list (list Z)) : res exn (Z * St) :=
  match xs with
  | [] => Ok (ts, st)
  | x :: xs =>
      let ts := Z.max ts (stamp (e := e) x) in
      let? st := handler st i ts x in handle_msgs i ts st xs
  end.

Lemma clock_update_ready c i x :
  ready c i ->
  clock_update c i (stamp (e := e) x)
  = match current_timeslot c with
    | Some t => if 0 <=? signed_delta_u16 (slot16 (e := e) (divider c) x) t
                then Ok (0, report c i (slot16 (e := e) (divider c) x)) else Ok (EINVAL, c)
    | None => Ok (0, report c i (slot16 (e := e) (divider c) x))
    end.
Proof.
  intros (Hi & Hs & Ht). unfold clock_update, at_input. rewrite Hi. cbn [rbind timeslot].
  rewrite bool_decide_true by done. cbn [negb].
  destruct (cpp_divide_same (E := exn) p (stamp (e := e) x) (divider c)) as (q & -> & Hq); [lia|]. cbn [rbind].
  assert (wrap 16 q = slot16 (e := e) (divider c) x) as ->.
  { pose proof (map_timestamp_slot16 (e := e) (E' := exn) p c x Hs) as Hm. unfold map_timestamp in Hm. rewrite Hq in Hm.
    cbn [rbind] in Hm. by injection Hm. }
  destruct (current_timeslot c) as [t|] eqn:Hc; [|done]. rewrite slot_diff_delta by apply slot16_fits.
  rewrite slot_add_delta, add_delta; [done|apply slot16_fits|by apply Ht].
Qed.

Lemma clock_can_update_same c i x : inputs c !! i = Some x -> clock_can_update c i = can_update c i.
Proof. intros Hx. unfold clock_can_update, can_update, at_input, index. by rewrite Hx. Qed.

Lemma clock_is_current_same c i x : inputs c !! i = Some x -> clock_is_current c i = is_current c i.
Proof. intros Hx. unfold clock_is_current, is_current, at_input, index. by rewrite Hx. Qed.

(** Too short for a timestamp, but not empty. *)
Definition runt (x : list Z) : Prop := (0 < length x < 8)%nat.

(** Why a batch of at most [n] messages ends after [k]. *)
Definition batch_end (late : nat -> bool) (n : nat) i c c' (xs : list (list Z)) (k : nat) : Prop :=
  (c' = c \/ exists x, xs !! k = Some x /\ future (e := e) c x /\ c' = report c i (slot16 (e := e) (divider c) x))
  /\ ((forall j, late j = false) ->
      k = n \/ k = length xs \/ xs !! k = Some []
      \/ exists x, xs !! k = Some x /\ future (e := e) c x /\ c' = report c i (slot16 (e := e) (divider c) x)).

(** The first [k] elements are consumed; those of the current slot are
    handled.  Then the batch ends, or throws at an element of a past slot. *)
Definition rpc_outcome (run : Z -> St -> bool -> res exn (VirtualClock * ElementQueue * Z * St * bool * bool))
    late (n : nat) i c m xs (k : nat) : Prop :=
  let msgs := filter (present (e := e) c) (take k xs) in
  (k <= length xs)%nat /\ (k <= n)%nat
  /\ Forall (fun x => runt x \/ present (e := e) c x) (take k xs)
  /\ ((exists c' q' timed_out,
         (forall ts st any, run ts st any
           = let? '(ts', st') := handle_msgs i ts st msgs in
             Ok (c', q', ts', st', any || negb (bool_decide (msgs = [])), timed_out))
         /\ c_holds m q' (drop k xs) /\ batch_end late n i c c' xs k)
      \/ (exists x, xs !! k = Some x /\ (8 <= length x)%nat /\ past (e := e) c x
         /\ forall ts st any, run ts st any = let? _ := handle_msgs i ts st msgs in Err runtime_error)).

(** Nothing read. *)
Lemma rpc_stop run late n i c c' m q xs t :
  (forall ts st any, run ts st any = Ok (c', q, ts, st, any, t)) -> c_holds m q xs -> batch_end late n i c c' xs 0 ->
  rpc_outcome run late n i c m xs 0.
Proof.
  intros Hrun Hq He. split_and!; [lia|lia|constructor|]. left. exists c', q, t. split_and!; [|done|apply He..].
  intros ts st any. rewrite Hrun. simpl. by rewrite orb_false_r.
Qed.

Lemma batch_end_cons late n i c c' x xs k :
  batch_end late n i c c' xs k -> batch_end late (S n) i c c' (x :: xs) (S k).
Proof. intros [H1 H2]. split; [done|]. intros Hl. destruct (H2 Hl) as [->|[->|H]]; auto. Qed.

(** An element without a timestamp. *)
Lemma rpc_skip run run' late n i c m x xs k :
  (forall ts st any, run ts st any = run' ts st any) -> runt x ->
  rpc_outcome run' late n i c m xs k -> rpc_outcome run late (S n) i c m (x :: xs) (S k).
Proof.
  intros Hrun Hx (H1 & H2 & H3 & H4).
  assert (~ present (e := e) c x) as Hnp by (intros [? _]; unfold runt in Hx; lia).
  split_and!; [simpl; lia|lia|constructor; [by left|done]|]. simpl. rewrite filter_cons_False by done.
  destruct H4 as [(c' & q' & t & Hr & Hq & He)|(y & Hy & Hl & Hp & Hr)].
  - left. exists c', q', t. split_and!; [|done|by apply batch_end_cons..]. intros. by rewrite Hrun, Hr.
  - right. exists y. split_and!; [done..|]. intros. by rewrite Hrun, Hr.
Qed.

(** An element of the current slot. *)
Lemma rpc_handle run run' late n i c m x xs k :
  (forall ts st any, run ts st any
     = let ts := Z.max ts (stamp (e := e) x) in let? st := handler st i ts x in run' ts st true) ->
  present (e := e) c x ->
  rpc_outcome run' late n i c m xs k -> rpc_outcome run late (S n) i c m (x :: xs) (S k).
Proof.
  intros Hrun Hx (H1 & H2 & H3 & H4). split_and!; [simpl; lia|lia|constructor; [by right|done]|].
  simpl. rewrite filter_cons_True by done. cbn [handle_msgs].
  destruct H4 as [(c' & q' & t & Hr & Hq & He)|(y & Hy & Hl & Hp & Hr)].
  - left. exists c', q', t. split_and!; [|done|by apply batch_end_cons..]. intros ts st any. rewrite Hrun. cbv zeta.
    destruct (handler st i _ x) as [st'| |]; [|done..]. cbn [rbind]. rewrite Hr. by rewrite orb_true_r.
  - right. exists y. split_and!; [done..|]. intros ts st any. rewrite Hrun. cbv zeta.
    destruct (handler st i _ x) as [st'| |]; [|done..]. cbn [rbind]. by rewrite Hr.
Qed.

Local Abbreviation batch n late i c m q := (fun ts st any => rpc_batch p e handler n late i c m q ts st any).

(** After the report of a later slot nothing more is read. *)
Lemma batch_waits n late i c m q t ts st any :
  ready c i -> current_timeslot c <> Some t ->
  rpc_batch p e handler n late i (report c i t) m q ts st any = Ok (report c i t, q, ts, st, any, false).
Proof.
  intros Hready Ht. destruct n as [|n]; [done|]. cbn [rpc_batch].
  destruct (reported_waits (E' := exn) c i t Hready Ht) as [Hcan _].
  rewrite (clock_can_update_same _ _ (mkInput (Some t))), Hcan; [done|].
  destruct Hready as (Hi & _). simpl. apply list_lookup_insert_eq. by eapply lookup_lt_Some.
Qed.

Lemma batch_future n late i c m q x xs :
  ready c i -> c_holds m q (x :: xs) -> future (e := e) c x ->
  rpc_outcome (batch (S n) late i c m q) late (S n) i c m (x :: xs) 0.
Proof.
  intros Hready Hq Hfut. pose proof Hready as (Hi & _). destruct (c_next (E := exn) p m q x xs Hq) as (Hpk & Hpv & _).
  pose proof Hfut as [Hlen Hf].
  assert (current_timeslot c <> Some (slot16 (e := e) (divider c) x)) as Hne.
  { intros Hc. rewrite Hc in Hf. unfold signed_delta_u16, wrapping_sub in Hf. rewrite Z.sub_diag in Hf. by vm_compute in Hf. }
  destruct (reported_waits (E' := exn) c i _ Hready Hne) as [_ Hcur].
  apply (rpc_stop _ _ _ _ _ (report c i (slot16 (e := e) (divider c) x)) _ q _ (late n)); [|done|].
  - intros ts st any. cbn [rpc_batch]. rewrite (clock_can_update_same _ _ _ Hi), can_update_ready by done. cbn [rbind negb].
    rewrite Hpk. cbn [rbind]. rewrite (proj2 (Z.leb_gt _ _)) by lia. rewrite Hpv, (proj2 (Nat.ltb_ge _ _)) by done. cbn [rbind].
    rewrite (proj2 (Z.ltb_ge _ _)) by lia. cbn [unwrap rbind]. fold (stamp (e := e) x). rewrite clock_update_ready by done.
    assert (match current_timeslot c with
            | Some t => if 0 <=? signed_delta_u16 (slot16 (e := e) (divider c) x) t
                        then Ok (0, report c i (slot16 (e := e) (divider c) x)) else Ok (EINVAL, c)
            | None => Ok (0, report c i (slot16 (e := e) (divider c) x))
            end = Ok (E := exn) (0, report c i (slot16 (e := e) (divider c) x))) as ->.
    { destruct (current_timeslot c); [|done]. by rewrite (proj2 (Z.leb_le _ _)) by lia. }
    cbn [rbind]. change (0 <? 0) with false. cbv iota.
    rewrite (clock_is_current_same _ _ (mkInput (Some (slot16 (e := e) (divider c) x)))), Hcur.
    2:{ simpl. apply list_lookup_insert_eq. by eapply lookup_lt_Some. }
    cbn [rbind]. destruct (late n); [done|]. by apply batch_waits.
  - split; [right; by exists x|]. intros _. do 3 right. by exists x.
Qed.

Lemma batch_past n late i c m q x xs :
  ready c i -> c_holds m q (x :: xs) -> (8 <= length x)%nat -> past (e := e) c x ->
  rpc_outcome (batch (S n) late i c m q) late (S n) i c m (x :: xs) 0.
Proof.
  intros Hready Hq Hlen Hpast. pose proof Hready as (Hi & _). destruct (c_next (E := exn) p m q x xs Hq) as (Hpk & Hpv & _).
  split_and!; [simpl; lia|lia|constructor|]. right. exists x. split_and!; [done..|].
  intros ts st any. cbn [rpc_batch]. rewrite (clock_can_update_same _ _ _ Hi), can_update_ready by done. cbn [rbind negb].
  rewrite Hpk. cbn [rbind]. rewrite (proj2 (Z.leb_gt _ _)) by lia. rewrite Hpv, (proj2 (Nat.ltb_ge _ _)) by done. cbn [rbind].
  rewrite (proj2 (Z.ltb_ge _ _)) by lia. cbn [unwrap rbind]. fold (stamp (e := e) x). rewrite clock_update_ready by done.
  destruct Hpast as (t & -> & Hd). by rewrite (proj2 (Z.leb_gt _ _)) by lia.
Qed.

Lemma batch_present n late i c m q q' x xs start :
  ready c i -> c_holds m q (x :: xs) -> present (e := e) c x ->
  cpp_read_ptr (E := exn) p m q = Ok (Z.of_nat (length x), Some start, q') ->
  index_range (E := exn) (data m) start (start + length x) = Ok x ->
  forall ts st any, batch (S n) late i c m q ts st any
    = let ts := Z.max ts (stamp (e := e) x) in
      let? st := handler st i ts x in
      if late n then Ok (c, q', ts, st, true, true) else batch n late i c m q' ts st true.
Proof.
  intros Hready Hq [Hlen Hc] Hrd Hix ts st any. pose proof Hready as (Hi & _).
  destruct (c_next (E := exn) p m q x xs Hq) as (Hpk & Hpv & _).
  cbn [rpc_batch]. rewrite (clock_can_update_same _ _ _ Hi), can_update_ready by done. cbn [rbind negb].
  rewrite Hpk. cbn [rbind]. rewrite (proj2 (Z.leb_gt _ _)) by lia. rewrite Hpv, (proj2 (Nat.ltb_ge _ _)) by done. cbn [rbind].
  rewrite (proj2 (Z.ltb_ge _ _)) by lia. cbn [unwrap rbind]. fold (stamp (e := e) x). rewrite clock_update_ready, Hc by done.
  unfold signed_delta_u16 at 1, wrapping_sub. rewrite Z.sub_diag. change (0 <=? as_signed 16 (wrap 16 0)) with true. cbv iota.
  rewrite report_same by done. cbn [rbind]. change (0 <? 0) with false. cbv iota.
  rewrite (clock_is_current_same _ _ _ Hi), is_current_ready by done. rewrite Hc, bool_decide_true by done. cbn [rbind].
  rewrite Hrd. cbn [rbind unwrap]. rewrite Nat2Z.id, Hix. done.
Qed.

Lemma rpc_batch_spec n late i c m q xs :
  ready c i -> c_holds m q xs -> exists k, rpc_outcome (batch n late i c m q) late n i c m xs k.
Proof.
  intros Hready. pose proof Hready as (Hi & _). revert q xs. induction n as [|n IH]; intros q xs Hq.
  { exists 0%nat. apply (rpc_stop _ _ _ _ _ c _ q _ false); [done|done|]. split; [by left|]. by left. }
  destruct xs as [|x xs].
  { exists 0%nat. apply (rpc_stop _ _ _ _ _ c _ q _ false); [|done|split; [by left|]; by auto].
    intros ts st any. cbn [rpc_batch]. rewrite (clock_can_update_same _ _ _ Hi), can_update_ready by done. cbn [rbind negb].
    by rewrite c_empty. }
  destruct (c_next (E := exn) p m q x xs Hq) as (Hpk & Hpv & start & q' & Hrd & Hix & Hq').
  destruct (decide (length x = 0)%nat) as [Hz|Hz].
  { exists 0%nat. apply (rpc_stop _ _ _ _ _ c _ q _ false); [|done|split; [by left|]; by destruct x; auto].
    intros ts st any. cbn [rpc_batch]. rewrite (clock_can_update_same _ _ _ Hi), can_update_ready by done. cbn [rbind negb].
    by rewrite Hpk, Hz. }
  destruct (element_cases (e := e) c i x Hready) as [Hm|[(Hlen & Hpast & _)|[Hpx|Hfut]]].
  - destruct (IH q' xs Hq') as [k Hk]. exists (S k). eapply rpc_skip; [|unfold runt, malformed in *; lia|exact Hk].
    intros ts st any. cbn [rpc_batch]. rewrite (clock_can_update_same _ _ _ Hi), can_update_ready by done. cbn [rbind negb].
    rewrite Hpk. cbn [rbind]. rewrite (proj2 (Z.leb_gt _ _)) by lia.
    unfold malformed in Hm. rewrite Hpv, (proj2 (Nat.ltb_lt _ _)) by lia. cbn [rbind]. by rewrite Hrd.
  - exists 0%nat. by apply batch_past.
  - pose proof (batch_present n late i c m q q' x xs start Hready Hq Hpx Hrd Hix) as Hstep.
    destruct (late n) eqn:Hlate.
    + exists 1%nat. eapply (rpc_handle _ (fun ts st any => Ok (c, q', ts, st, any, true))); [exact Hstep|done|].
      apply (rpc_stop _ _ _ _ _ c _ q' _ true); [done|done|]. split; [by left|]. intros Hl. by rewrite Hl in Hlate.
    + destruct (IH q' xs Hq') as [k Hk]. exists (S k). by eapply rpc_handle.
  - exists 0%nat. by apply batch_future.
Qed.

End batch.

(** C18: a batch of a C++ core handles the current slot in order, and nothing
    else.  In every state that a C producer and the core can reach between two
    batches, on an input that may be updated: the batch starts and consumes a
    prefix of the elements published and not yet read, at most 10000; those of
    the clock's current slot go to the handler, once each and in order, with
    the larger of their timestamp and the core's; elements too short for a
    timestamp are dropped.  Then the batch ends, or it throws at an element of
    a past slot.  Without the time limit it ends only after 10000 elements, at
    the end of the queue, at an empty element or before an element of a later
    slot, which its input then reports.  The storage has a size that fits 32
    bits. *)
Theorem cpp_batch_in_slot {St} p e (handler : St -> nat -> Z -> list Z -> res exn St) a b c0 t s q c i late :
  0 <= a <= 31 -> 0 <= b <= 30 -> 16 + 2 ^ a * 4 + 2 ^ b < 2 ^ 32 -> cboots a b c0 -> csteps p c0 t s -> crd s = CReader q CRIdle -> ready c i ->
  let xs := drop (length (don (log_of t))) (com (log_of t)) in
  exists q' k, eq_start_read_batch (E := exn) p (cmem s) q = Ok q'
    /\ rpc_outcome e handler
         (fun ts st any => rpc_batch p e handler kMaxRpcBatchPerQueue late i c (cmem s) q' ts st any)
         late kMaxRpcBatchPerQueue i c (cmem s) xs k.
Proof.
  intros Ha Hb Hsize Hb0 Hst Hrd Hready xs.
  destruct (csim_run a b Ha Hb Hsize p c0 t s Hb0 Hst) as (s0 & t' & s1 & h & Hs0 & Hst' & Hlog & (Hm & _ & Hr) & _).
  rewrite Hrd in Hr. destruct Hr as [Hrs Hrq].
  pose proof (ring_starts a b Release s0 t' s1 Ha Hb Hs0 Hst' Hrs) as Hring. rewrite Hlog, Hrq in Hring. fold xs in Hring.
  unfold eq_start_read_batch. rewrite assert_order_Ok. cbn [rbind].
  destruct (rpc_batch_spec p e handler kMaxRpcBatchPerQueue late i c (cmem s) (load_elem_tail (cmem s) q) xs Hready)
    as [k Hk]; [|by eexists _, k].
  rewrite Hm. eexists. split; [exact Hring|]. done.
Qed.

(** Two elements are published, one of the current slot and one of the next;
    the queue holds 4 elements and 64 bytes. *)
Definition slot_elements : list action :=
  [AWriter; AWriter; AWrite [7]; AWrite slot0_element; AWrite slot1_element; AFinishWrite; AWriter].

Definition logging (st : list (Z * list Z)) (i : nat) (ts : Z) (x : list Z) : res exn (list (Z * list Z)) :=
  Ok (st ++ [(ts, x)]).

Lemma cpp_batch_in_slot_witness :
  exists t s q q' k, cplay Debug cboot64 [] slot_elements = Some (t, s)
    /\ eq_start_read_batch (E := exn) Debug (cmem s) q = Ok q'
    /\ rpc_outcome LittleEndian logging
         (fun ts st any => rpc_batch Debug LittleEndian logging kMaxRpcBatchPerQueue (fun _ => false) 0 clock0 (cmem s) q' ts st any)
         (fun _ => false) kMaxRpcBatchPerQueue 0 clock0 (cmem s) [[7]; slot0_element; slot1_element] k.
Proof.
  destruct (cplay Debug cboot64 [] slot_elements) as [[t s]|] eqn:Hp; [|by vm_compute in Hp].
  assert (csteps Debug cboot64 t s) as Hst by (eapply cplay_steps; [constructor|exact Hp]).
  vm_compute in Hp. injection Hp as <- <-.
  destruct (cpp_batch_in_slot Debug LittleEndian logging 2 6 cboot64 _ _ _ clock0 0 (fun _ => false)
    ltac:(lia) ltac:(lia) ltac:(lia) cboot64_boots Hst eq_refl clock0_ready) as (q' & k & Hq & Hk).
  eexists _, _, _, q', k. split; [reflexivity|]. split; [exact Hq|exact Hk].
Defined.
