(* ===== verification/Core.v ===== *)
(** * The aggregation core (crates/reducer/src/aggregation_core.rs)

    Wires the queue loop to the parser, the aggregator and the exporter, and
    composes the theorems of the parts: what the producers commit to a ring
    reaches the ledger. *)

From S2P Require Import Prelude Float64 FastDiv VirtualClock ElementQueue RenderParser QueueHandler.
From S2P Require Import AggWire OtlpExport OtlpEncoding AggFramework RcHashMap Aggregator Sums.
From S2P Require Import AggregatorSpec AggregatorRefine MessageHandler.

Local Open Scope rust_scope.

Section core.
Context {ref : Type} {store : Type -> Type -> Type} {ref_eq : EqDecision ref}
  {ref_countable : Countable ref} {rc : RcHashMap ref store} {order : HashOrder}
  {E : Type} (p : profile) (e : endian) (export : list Z -> Request -> Response).

Abbreviation Agg := (Aggregator (ref := ref) (store := store)).

Record AggregationCore := mkCore {
  queue_handler : QueueHandler;
  parser : Parser Handler;
  shard : Z;
  aggregator : Agg;
  exporter : OtlpExporter;
}.

Definition core_new (log2 : f64 -> f64) (eq_views : list (res EqError ElementQueue)) (sh : Z)
    (enable_id_id enable_az_id : bool) (ep : list Z) (disable_node_ip_field descriptions : bool)
  : res E AggregationCore :=
  let? h := new_from_views p log2 eq_views in
  let? ps := core_parser p in
  Ok (mkCore h ps sh (configured enable_id_id enable_az_id disable_node_ip_field)
        (if negb (bool_decide (ep = [])) then exporter_with_endpoint ep descriptions
         else exporter_new_local descriptions)).

(** The state the callbacks share, with the requests sent so far. *)
Abbreviation Shared := (Agg * OtlpExporter * list (option Request))%type.

Definition on_message (ps : Parser Handler) (s : Shared) (i : nat) (bytes : list Z) : res E Shared :=
  let '(a, ex, reqs) := s in
  rmap (fun a => (a, ex, reqs)) (handle_message p e ps a (Z.of_nat i) bytes).

Definition on_timeslot_end (s : Shared) (w : Z) : res E Shared :=
  let '(a, ex, reqs) := s in
  rmap (fun '(a, ex, req) => (a, ex, reqs ++ [req])) (output_metrics p export a w ex).

(** One turn of [run]. *)
Definition core_turn (fuel : nat) (late : nat -> bool) (c : AggregationCore) (reqs : list (option Request))
    (next_idx : nat) (mems : nat -> mem)
  : res E (option (AggregationCore * list (option Request) * nat * list (nat * mem))) :=
  let? out := turn p e (on_message (parser c)) on_timeslot_end fuel late (queue_handler c)
                (aggregator c, exporter c, reqs) next_idx mems in
  match out with
  | None => Ok None
  | Some (h, (a, ex, reqs), next_idx, published) =>
      Ok (Some (mkCore h (parser c) (shard c) a ex, reqs, next_idx, published))
  end.

(** A batch reads at most as many elements as the ring has places. *)
Definition turn_fuel (c : AggregationCore) : nat :=
  (2 + list_max (Z.to_nat ∘ elem_capacity <$> queues (queue_handler c)))%nat.

(** The rings after a turn: each was visited in the state [world i], and holds
    the heads the core published. *)
Definition rings_after (world : nat -> sys) (qs : list ElementQueue) (published : list (nat * mem))
  : list sys :=
  imap (fun i q =>
    mkSys match (list_to_map published : gmap nat mem) !! i with Some m => m | None => smem (world i) end
      (wq (world i)) (ws (world i)) q RIdle) qs.

(** The [while] of [run].  [stop k] is what the [k]-th load of the flag gives;
    [env k rings i] is the state in which ring [i] is visited in turn [k], the
    producers having worked on [rings] since the last turn; [late k] are the
    samples of the time budget in turn [k]. *)
Fixpoint run_loop (turns k : nat) (stop : nat -> bool) (late : nat -> nat -> bool)
    (env : nat -> list sys -> nat -> sys) (c : AggregationCore) (reqs : list (option Request))
    (next_idx : nat) (rings : list sys)
  : res E (option (AggregationCore * list (option Request) * list sys)) :=
  if stop k then Ok (Some (c, reqs, rings))
  else
    match turns with
    | O => Ok None
    | S turns =>
        let world := env k rings in
        let? out := core_turn (turn_fuel c) (late k) c reqs next_idx (fun i => smem (world i)) in
        match out with
        | None => Ok None
        | Some (c, reqs, next_idx, published) =>
            run_loop turns (S k) stop late env c reqs next_idx
              (rings_after world (queues (queue_handler c)) published)
        end
    end.

Definition core_run (turns : nat) (stop : nat -> bool) (late : nat -> nat -> bool)
    (env : nat -> list sys -> nat -> sys) (c : AggregationCore) (rings : list sys)
  : res E (option (AggregationCore * list (option Request) * list sys)) :=
  if bool_decide (queues (queue_handler c) = []) then Ok (Some (c, [], rings))
  else run_loop turns 0 stop late env c [] 0 rings.

End core.

(** ** From the ring to the ledger *)

Section pipeline.
Context {ref : Type} {store : Type -> Type -> Type} {ref_eq : EqDecision ref}
  {ref_countable : Countable ref} {rc : RcHashMap ref store} {rc_laws : RcHashMapLaws ref store}
  {order : HashOrder} {order_laws : HashOrderLaws} {E : Type}
  (e : endian) (export : list Z -> Request -> Response).

Implicit Types a : Aggregator (ref := ref) (store := store).

(** The messages of a batch, handled in order, are their operations. *)
Lemma handled_are_ops ps i a l ex reqs xs oss :
  Forall (fun md => PerfectHashMap.get (map ps) (rpc_id md) = Some (mkPEntry md (handler_of md)))
    all_message_metadata ->
  Forall2 (fun x os => stands_for e (Message (Z.of_nat i) x) os) xs oss ->
  inv a l -> buf (publisher ex) = [] ->
  exists a', handle_all (on_message (E := E) Release e ps) i (a, ex, reqs) xs = Ok (a', ex, reqs)
    /\ inv a' (fst (ledger_run l (concat oss))).
Proof.
  intros Hps Hxs. revert a l. induction Hxs as [|x os xs oss Hx _ IH]; intros a l Hi Hb.
  { by exists a. }
  pose proof (callback_is_ops (E := E) Release e export ps a ex _ _ Hps Hx) as Hcb. simpl in Hcb.
  destruct (run_refines (E := E) export a l ex os Hi) as (a1 & ex1 & outs & Hrun & Hi1 & _).
  { by eapply stands_for_ok. }
  { done. }
  rewrite Hrun in Hcb. simpl.
  destruct (handle_message Release e ps a (Z.of_nat i) x) as [a1'| |]; try done.
  simpl in *. injection Hcb as <- <- <-.
  destruct (IH a1' (fst (ledger_run l os)) Hi1 Hb) as (a2 & Ha2 & Hi2). exists a2.
  rewrite Ha2. split; [done|]. by rewrite ledger_run_app.
Qed.

End pipeline.

(** The operations of the consumed elements that lie in the current slot. *)
Definition slot_ops (e : endian) (c : VirtualClock) (k : nat) (xs : list (list Z)) (oss : list (list op))
  : list op :=
  concat (snd <$> filter (fun xo => present (e := e) c (fst xo)) (take k (zip xs oss))).

Lemma present_zip e c k xs (oss : list (list op)) :
  length xs = length oss ->
  filter (present (e := e) c) (take k xs)
  = fst <$> filter (fun xo => present (e := e) c (fst xo)) (take k (zip xs oss)).
Proof.
  intros Hl. rewrite <- (filter_fmap fst (present (e := e) c)), fmap_take, fst_zip by lia. done.
Qed.

(** What the producers of a ring commit reaches the aggregation.  On a
    queue in any reachable state whose unread elements were written by the
    encoders, with a clock input that may be read, a batch of the core runs
    without panic and without running out of fuel: it consumes a prefix of the
    elements, and the aggregator it leaves is related to the ledger after
    exactly the operations of the consumed elements of the current slot, in
    order; the batch stops early only before an element of a later slot. *)
Theorem core_batch_feeds_ledger {ref : Type} {store : Type -> Type -> Type} {ref_eq : EqDecision ref}
    {ref_countable : Countable ref} {rc : RcHashMap ref store} {rc_laws : RcHashMapLaws ref store}
    {order : HashOrder} {order_laws : HashOrderLaws} {E : Type}
    e na nb s0 t s c i late fuel oss (a : Aggregator (ref := ref) (store := store)) l ex reqs ts :
  0 <= na <= 31 -> 0 <= nb <= 30 -> boots na nb s0 -> steps Release s0 t s -> rs s = RIdle ->
  ready c i -> inv a l -> buf (publisher ex) = [] ->
  let xs := drop (length (don (log_of t))) (com (log_of t)) in
  Forall2 (fun x os => stands_for e (Message (Z.of_nat i) x) os) xs oss ->
  (length xs + 2 <= fuel)%nat ->
  exists ps k c' r' ts' a',
    core_parser (E := E) Release = Ok ps
    /\ drain (reader := ring_reader Release e) Release (on_message (E := E) Release e ps) fuel late i c
         (smem s, start_read (rq s) (smem s)) ts (a, ex, reqs) 0
       = Ok (Some (c', r', ts', (a', ex, reqs)))
    /\ (k <= length xs)%nat
    /\ inv a' (fst (ledger_run l (slot_ops e c k xs oss)))
    /\ ended (e := e) late 0 i c c' xs k.
Proof.
  intros Ha Hb Hboot Hst Hrs Hc Hi Hbuf xs Hxs Hf.
  destruct (core_parser_complete (E := E) Release) as (ps & Hps & Hall).
  destruct (drain_spec (laws := ring_reader_laws Release e) (E := E) Release
              (on_message (E := E) Release e ps) fuel late i c
              (smem s, start_read (rq s) (smem s)) xs 0 Hc) as (k & c' & r' & (Hk & Hrun & _ & _ & He) & _).
  { by eapply ring_starts. }
  { done. }
  destruct (handled_are_ops (E := E) e picky ps i a l ex reqs
              (filter (present (e := e) c) (take k xs))
              (snd <$> filter (fun xo => present (e := e) c (fst xo)) (take k (zip xs oss))))
    as (a' & Ha' & Hi').
  { done. }
  { rewrite (present_zip e c k xs oss) by (by eapply Forall2_length).
    apply Forall2_fmap, Forall_Forall2_diag, Forall_forall. intros [x os] Hin.
    apply list_elem_of_filter in Hin as [_ Hin]. apply elem_of_take in Hin as (j & Hj & _).
    apply lookup_zip_with_Some in Hj as (x' & os' & [= <- <-] & Hx & Ho).
    by eapply (Forall2_lookup_lr _ _ _ _ _ _ Hxs). }
  { done. }
  { done. }
  exists ps, k, c', r', (last_stamp (e := e) ts (filter (present (e := e) c) (take k xs))), a'.
  split; [done|]. split; [rewrite Hrun; cbv zeta; by rewrite Ha'|]. split; [exact Hk|]. split; [exact Hi'|exact He].
Qed.

(** ** Witness *)

(** A start message of slot 0 and a pulse of slot 1, in a queue of 4 elements
    and 64 bytes. *)
Definition start_msg : AggMsg := MStart (mk_agg_root_start 461 7).
Definition encoded_at (ts : Z) (m : AggMsg) : list Z :=
  match encode_msg LittleEndian (Some (repeat 0 (8 + msg_size m))) ts m (repeat 0 (msg_header m)) with
  | Ok bytes => bytes
  | _ => []
  end.
Definition two_messages : list (list Z) := Eval vm_compute in
  [encoded_at 5 start_msg ++ []; encoded_at 40000000000 (MPulse (mk_pulse 65535)) ++ []].
Definition two_written : list action :=
  [AWriter; AWriter] ++ (AWrite <$> two_messages) ++ [AFinishWrite; AWriter; AWriter].

Lemma two_messages_stand :
  Forall2 (fun x os => stands_for LittleEndian (Message (Z.of_nat 0) x) os) two_messages
    [op_of 0 start_msg; op_of 0 (MPulse (mk_pulse 65535))].
Proof.
  replace two_messages
    with [encoded_at 5 start_msg ++ []; encoded_at 40000000000 (MPulse (mk_pulse 65535)) ++ []]
    by (vm_compute; reflexivity).
  repeat apply Forall2_cons_2; [..|apply Forall2_nil_2].
  - apply (stands_message LittleEndian 0 5 start_msg (repeat 0 24) (repeat 0 16)); by vm_compute.
  - apply (stands_message LittleEndian 0 40000000000 (MPulse (mk_pulse 65535)) (repeat 0 10) (repeat 0 2));
      by vm_compute.
Qed.

Lemma core_batch_feeds_ledger_witness :
  exists t s, play Release boot64 [] two_written = Some (t, s)
    /\ com (log_of t) = two_messages
    /\ exists ps k c' r' ts' (a' : Aggregator (ref := positive) (store := fun K V => gmap positive (K * V))),
      core_parser (E := unit) Release = Ok ps
      /\ drain (reader := ring_reader Release LittleEndian) Release
           (on_message (E := unit) Release LittleEndian ps) 4 (fun _ => false) 0 clock0
           (smem s, start_read (rq s) (smem s)) 0
           (configured true true false, exporter_new_local false, []) 0
         = Ok (Some (c', r', ts', (a', exporter_new_local false, [])))
      /\ (k <= 2)%nat
      /\ inv a' (fst (ledger_run (ledger_new true true false)
           (slot_ops LittleEndian clock0 k two_messages [op_of 0 start_msg; op_of 0 (MPulse (mk_pulse 65535))])))
      /\ ended (e := LittleEndian) (fun _ => false) 0 0 clock0 c' two_messages k.
Proof.
  destruct (play Release boot64 [] two_written) as [[t s]|] eqn:Hp; [|by vm_compute in Hp].
  pose proof (played Hp) as Hst. vm_compute in Hp. injection Hp as <- <-.
  eexists _, _. split; [reflexivity|]. split; [vm_compute; reflexivity|].
  apply (core_batch_feeds_ledger (E := unit) LittleEndian 2 6 boot64 _ _ clock0 0 (fun _ => false) 4
           [op_of 0 start_msg; op_of 0 (MPulse (mk_pulse 65535))] (configured true true false)
           (ledger_new true true false) (exporter_new_local false) [] 0
           ltac:(lia) ltac:(lia) boot64_boots Hst eq_refl clock0_ready (inv_new true true false) eq_refl
           two_messages_stand).
  vm_compute. lia.
Defined.
