(* ===== verification/Windows.v ===== *)
(** * Which elements are handled, and in which window
      (crates/reducer/src/queue_handler.rs)

    The loop drops an element whose slot lies before the slot of the last
    element it handled from the same queue, and handles every other element
    that has a timestamp.  So what is handled of a queue is a function [kept]
    of what was consumed from it, whatever the other queues hold and wherever
    the batches are cut.  The callbacks of all queues together form windows:
    messages of one slot, then the end of that slot. *)

From S2P Require Import Prelude Float64 FastDiv VirtualClock ElementQueue QueueHandler MessageHandler.

Local Open Scope rust_scope.

Section kept.
Context {e : endian} (d : FastDiv).

(** Is element [x] handled after the elements of slot [cur]? *)
Definition accepts (cur : option Z) (x : list Z) : bool :=
  (8 <=? length x)%nat
  && match cur with Some t => 0 <=? signed_delta_u16 (slot16 (e := e) d x) t | None => true end.

Fixpoint kept (cur : option Z) (xs : list (list Z)) : list (list Z) :=
  match xs with
  | [] => []
  | x :: xs => if accepts cur x then x :: kept (Some (slot16 (e := e) d x)) xs else kept cur xs
  end.

(** The slot of the last element handled. *)
Fixpoint kept_slot (cur : option Z) (xs : list (list Z)) : option Z :=
  match xs with
  | [] => cur
  | x :: xs => kept_slot (if accepts cur x then Some (slot16 (e := e) d x) else cur) xs
  end.

Lemma kept_app cur xs ys : kept cur (xs ++ ys) = kept cur xs ++ kept (kept_slot cur xs) ys.
Proof.
  revert cur. induction xs as [|x xs IH]; intros cur; [done|]. simpl.
  destruct (accepts cur x); simpl; by rewrite IH.
Qed.

Lemma kept_slot_app cur xs ys : kept_slot cur (xs ++ ys) = kept_slot (kept_slot cur xs) ys.
Proof. revert cur. induction xs as [|x xs IH]; intros cur; [done|]. apply IH. Qed.

(** A queue whose slots never go back loses nothing. *)
Fixpoint in_order (cur : option Z) (xs : list (list Z)) : Prop :=
  match xs with
  | [] => True
  | x :: xs => accepts cur x = true /\ in_order (Some (slot16 (e := e) d x)) xs
  end.

Lemma kept_in_order cur xs : in_order cur xs -> kept cur xs = xs.
Proof. revert cur. induction xs as [|x xs IH]; intros cur; [done|]. simpl. intros [-> H]. f_equal. by apply IH. Qed.

Lemma delta_self t : signed_delta_u16 t t = 0.
Proof. unfold signed_delta_u16, wrapping_sub. by rewrite Z.sub_diag. Qed.

(** What a batch of the current slot handles is what is kept. *)
Lemma batch_kept c xs :
  divider c = d ->
  Forall (fun x => malformed x \/ past (e := e) c x \/ present (e := e) c x) xs ->
  kept (current_timeslot c) xs = filter (present (e := e) c) xs
  /\ kept_slot (current_timeslot c) xs = current_timeslot c.
Proof.
  intros Hd. induction 1 as [|x xs Hx _ [IH1 IH2]]; [done|]. simpl.
  destruct (decide (present (e := e) c x)) as [Hp|Hp].
  - pose proof Hp as [Hlen Hc]. rewrite Hd in Hc. rewrite filter_cons_True by done.
    assert (accepts (current_timeslot c) x = true) as ->.
    { unfold accepts. rewrite (proj2 (Nat.leb_le _ _)) by done. rewrite Hc. cbv iota. by rewrite delta_self. }
    rewrite <- Hc. by rewrite IH1.
  - rewrite filter_cons_False by done.
    assert (accepts (current_timeslot c) x = false) as ->; [|done].
    unfold accepts. destruct Hx as [Hm|[(t & Hc & Hlt)|]]; [| |done].
    + unfold malformed in Hm. by rewrite (proj2 (Nat.leb_gt _ _)) by lia.
    + rewrite Hd in Hlt. rewrite Hc, (proj2 (Z.leb_gt _ _)) by lia. by destruct (8 <=? length x)%nat.
Qed.

(** ** The state of one queue

    [cur] is the slot of the last element handled from the queue; [xs] is what
    it still holds.  The input has reported the clock's slot and that is the
    last slot handled, or it has reported the slot of the next element. *)

Definition pending (cur : option Z) (xs : list (list Z)) (t : Z) : Prop :=
  exists x xs', xs = x :: xs' /\ (8 <= length x)%nat /\ slot16 (e := e) d x = t
    /\ match cur with Some t0 => 0 < signed_delta_u16 t t0 | None => True end.

Definition queue_state (now : option Z) (inp : option Z) (cur : option Z) (xs : list (list Z)) : Prop :=
  match inp with
  | None => now = None /\ cur = None
  | Some t => (now = Some t /\ cur = Some t) \/ pending cur xs t
  end.

Lemma pending_accepts cur x xs t : pending cur (x :: xs) t -> accepts cur x = true /\ slot16 (e := e) d x = t.
Proof.
  intros (? & ? & [= <- <-] & Hl & <- & Hc). split; [|done]. unfold accepts.
  rewrite (proj2 (Nat.leb_le _ _)) by done. destruct cur as [t0|]; [|done]. by rewrite (proj2 (Z.leb_le _ _)) by lia.
Qed.

(** Elements that arrive do not disturb it. *)
Lemma queue_state_app now inp cur xs ys : queue_state now inp cur xs -> queue_state now inp cur (xs ++ ys).
Proof.
  destruct inp as [t|]; [|done]. intros [H|(x & xs' & -> & H)]; [by left|]. right. by exists x, (xs' ++ ys).
Qed.

(** A batch on a ready input: [k] elements consumed, then either nothing more,
    or the slot of the next one is reported. *)
Lemma queue_state_batch c cur xs k inp' :
  divider c = d -> queue_state (current_timeslot c) (current_timeslot c) cur xs ->
  Forall (fun x => malformed x \/ past (e := e) c x \/ present (e := e) c x) (take k xs) ->
  inp' = current_timeslot c \/ (exists x, xs !! k = Some x /\ future (e := e) c x /\ inp' = Some (slot16 (e := e) d x)) ->
  kept cur (take k xs) = filter (present (e := e) c) (take k xs)
  /\ queue_state (current_timeslot c) inp' (kept_slot cur (take k xs)) (drop k xs).
Proof.
  intros Hd Hq Hall Hinp.
  assert (cur = current_timeslot c \/ exists t, current_timeslot c = Some t /\ pending cur xs t) as Hcur.
  { destruct (current_timeslot c) as [t|]; [|by destruct Hq; left].
    destruct Hq as [[_ ->]|Hp]; [by left|right; by exists t]. }
  assert (kept cur (take k xs) = filter (present (e := e) c) (take k xs)
    /\ (kept_slot cur (take k xs) = current_timeslot c
        \/ (take k xs = [] /\ exists t, current_timeslot c = Some t /\ pending cur xs t))) as [Hk Hs].
  { destruct Hcur as [->|(t & Ht & Hp)].
    - destruct (batch_kept c (take k xs) Hd Hall) as [H1 H2]. split; [done|by left].
    - pose proof Hp as (x & xs' & -> & Hl & Hx & _). destruct k as [|k]; [split; [done|right; by eauto]|].
      simpl in *. apply Forall_cons in Hall as [_ Hall]. destruct (pending_accepts _ _ _ _ Hp) as [-> _].
      destruct (batch_kept c (take k xs') Hd Hall) as [H1 H2].
      rewrite filter_cons_True by (split; [done|by rewrite Hd, Hx, Ht]).
      rewrite Hx, <- Ht, H1. split; [done|by left]. }
  split; [done|]. destruct Hinp as [->|(x & Hx & Hf & ->)].
  - destruct Hs as [->|(Htk & t & Ht & Hp)]; [destruct (current_timeslot c); [by left|done]|].
    rewrite Ht, Htk. right. simpl. destruct Hp as (x & xs' & -> & Hp). destruct k; [|done]. by exists x, xs'.
  - right. exists x, (drop (S k) xs). split; [by apply drop_S|]. destruct Hf as [Hl Hf]. split; [done|].
    split; [done|]. rewrite Hd in Hf. destruct Hs as [->|(Htk & t & Ht & Hp)]; [by destruct (current_timeslot c)|].
    destruct Hp as (y & xs' & -> & _ & Hy & _). destruct k; [|done]. injection Hx as <-.
    rewrite Ht, Hy, delta_self in Hf. lia.
Qed.

(** ** Windows

    [windows cs prev open]: the callbacks [cs] are windows in order; [prev] is
    the slot of the last window that ended, [open] the slot and the last
    timestamp of the one under way. *)

Inductive windows {E} (p : profile) : list callback -> option Z -> option (Z * Z) -> Prop :=
| windows_nil : windows p [] None None
| windows_first cs prev q x :
    windows p cs prev None ->
    match prev with Some t0 => 0 < signed_delta_u16 (slot16 (e := e) d x) t0 | None => True end ->
    windows p (cs ++ [Message q x]) prev (Some (slot16 (e := e) d x, stamp (e := e) x))
| windows_more cs prev t ts q x :
    windows p cs prev (Some (t, ts)) -> slot16 (e := e) d x = t ->
    windows p (cs ++ [Message q x]) prev (Some (t, stamp (e := e) x))
| windows_end cs prev t ts w :
    windows p cs prev (Some (t, ts)) -> window_end (E := E) p d ts = Ok w ->
    windows p (cs ++ [TimeslotEnd w]) (Some t) None.

(** Messages of one slot, from one queue. *)
Lemma windows_messages {E} p cs prev open q t xs :
  windows (E := E) p cs prev open ->
  match open with Some (t', _) => t' = t | None => True end ->
  match prev with Some t0 => 0 < signed_delta_u16 t t0 | None => True end ->
  Forall (fun x => slot16 (e := e) d x = t) xs ->
  windows (E := E) p (cs ++ (Message q <$> xs)) prev
    match last xs with Some x => Some (t, stamp (e := e) x) | None => open end.
Proof.
  intros Hw Ho Hp Hxs. induction xs as [|x xs IH] using rev_ind; [by rewrite app_nil_r|].
  apply Forall_app in Hxs as [Hxs Hx]. apply Forall_cons in Hx as [Hx _].
  rewrite fmap_app, app_assoc, last_snoc. specialize (IH Hxs). cbn [fmap list_fmap].
  destruct (last xs) as [y|]; [by eapply windows_more|].
  destruct open as [[t' ts]|]; [subst t'; by eapply windows_more|].
  pose proof (windows_first p _ prev q x IH) as H. rewrite Hx in H. by apply H.
Qed.

End kept.
