(* ===== verification/System.v ===== *)
(** * The aggregation of the reducer as a whole

    Producers write the rings while the core visits them in turn: the loop of
    [QueueHandler::run] with the callbacks of [AggregationCore::run], as steps
    of one system.  A step is an access of a producer to its ring, the visit
    of one queue by the core, or the end of a turn.  The composition of the
    theorems on the ring, the batch, the clock and the aggregator shows that
    what the producers commit is what the reducer publishes. *)

From S2P Require Import Prelude Float64 FastDiv VirtualClock ElementQueue RenderParser QueueHandler.
From S2P Require Import AggWire OtlpExport OtlpEncoding AggFramework RcHashMap Aggregator Sums.
From S2P Require Import AggregatorSpec AggregatorRefine MessageHandler Core Windows.

Local Open Scope rust_scope.

(** ** One visit of a ring *)

(** What is committed and not yet consumed. *)
Definition unread (g : log) : list (list Z) := drop (length (don g)) (com g).

(** A ring between two visits, and its history. *)
Definition ring_ok (p : profile) (s : sys) (g : log) : Prop :=
  exists a b s0 t, 0 <= a <= 31 /\ 0 <= b <= 30 /\ boots a b s0 /\ steps p s0 t s /\ log_of t = g
    /\ rs s = RIdle.

(** A ring holds at most as many elements as it has places. *)
Lemma unread_bound p s g : ring_ok p s g -> Z.of_nat (length (unread g)) <= elem_capacity (rq s).
Proof.
  intros (a & b & s0 & t & Ha & Hb & Hboot & Hst & <- & Hrs).
  destruct (inv_reachable a b Ha Hb p s0 t s Hboot Hst) as [h [_ Hw Hr Hs]].
  pose proof (wi_eroom _ _ _ _ _ _ Hw). pose proof (si_eorder _ _ _ _ _ Hs). rewrite Hrs in *. simpl in *.
  rewrite len_all in *. unfold elem_capacity. rewrite (ri_emask _ _ _ _ _ Hr). unfold unread. rewrite length_drop. lia.
Qed.

(** What was consumed was committed. *)
Lemma ring_prefix p s g : ring_ok p s g -> don g `prefix_of` com g.
Proof.
  intros (a & b & s0 & t & Ha & Hb & Hboot & Hst & <- & Hrs).
  destruct (inv_reachable a b Ha Hb p s0 t s Hboot Hst) as [h [_ _ Hr _]].
  eapply prefix_app_l, (ri_prefix _ _ _ _ _ Hr).
Qed.

(** The log after a batch that read [k] elements. *)
Definition log_read (g : log) (k : nat) : log :=
  mkLog (com g) (pend g) (don g ++ take k (unread g)) [] (length (com g)).

Section batch.
Context (p : profile) (e : endian) (a b : Z) (s0 : sys).
Context (Ha : 0 <= a <= 31) (Hb : 0 <= b <= 30) (Hboot : boots a b s0).

(** A batch under way, on a ring whose writer stands still: [g] is the log at
    its start and [xs] what it has still to read. *)
Definition follows (g : log) (w : ElementQueue * wphase) (m : mem) (r : mem * ReadBatch)
    (xs : list (list Z)) : Prop :=
  exists t s, steps p s0 t s /\ smem s = fst r /\ fst r = m /\ rs s = RBatch (snd r)
    /\ (wq s, ws s) = w
    /\ exists B, log_of t = mkLog (com g) (pend g) (don g) B (length (com g)) /\ don g ++ B ++ xs = com g.

Lemma follows_holds g w m r xs : follows g w m r xs -> ring_holds r xs.
Proof.
  intros (t & s & Hst & Hm & _ & Hrs & _ & B & Hg & HB).
  destruct (inv_reachable a b Ha Hb p s0 t s Hboot Hst) as [h Hi].
  eexists a, b, _, h, s. split_and!; [lia..|exact Hi|done|done|]. rewrite Hg. simpl.
  by rewrite firstn_all, <- HB, app_assoc.
Qed.

Lemma follows_next g w m r x xs :
  follows g w m r (x :: xs) ->
  exists r', br_peek_len (BatchReader := ring_reader p e) r = Ok (Z.of_nat (length x))
    /\ br_read (BatchReader := ring_reader p e) r = Ok (x, r') /\ follows g w m r' xs
    /\ br_peek_u64 (BatchReader := ring_reader p e) r
       = if (length x <? 8)%nat then Err InvalidArg else Ok (from_ne_bytes e (take 8 x)).
Proof.
  intros Hf. destruct (ring_next p e r x xs (follows_holds _ _ _ _ _ Hf)) as (r' & Hpl & Hrd & _ & Hu).
  exists r'. split_and!; [exact Hpl|exact Hrd| |exact Hu].
  destruct Hf as (t & s & Hst & Hm & Hm' & Hrs & Hw & B & Hg & HB).
  destruct (read p (fst r) (snd r)) as [[bs rb]| |] eqn:Hread; simplify_eq/=.
  destruct s as [m0 q0 w0 rq0 rs0]. simpl in *. subst.
  eexists (t ++ [ReadOk x]), _. split_and!.
  - eapply steps_snoc; [exact Hst|]. by apply step_read.
  - done.
  - done.
  - done.
  - done.
  - exists (B ++ [x]). rewrite log_of_snoc, Hg. split; [done|]. by rewrite <- HB, <- app_assoc.
Qed.

#[local] Instance follows_laws (g : log) (w : ElementQueue * wphase) (m : mem) :
  BatchReaderLaws (mem * ReadBatch) (H := ring_reader p e) e.
Proof.
  refine {| br_holds := follows g w m; br_empty := _; br_next := _ |}.
  - intros r Hf. apply (br_empty (BatchReaderLaws := ring_reader_laws p e)). by eapply follows_holds.
  - intros r x xs. apply follows_next.
Defined.

(** The batch over the idle ring [s]. *)
Lemma follows_start t s g :
  steps p s0 t s -> log_of t = g -> rs s = RIdle ->
  follows g (wq s, ws s) (smem s) (smem s, start_read (rq s) (smem s)) (unread g).
Proof.
  intros Hst Hg Hrs. destruct (inv_reachable a b Ha Hb p s0 t s Hboot Hst) as [h Hi].
  destruct (inv_reader _ _ _ _ _ Hi) as [_ _ Hpre Hph]. rewrite Hrs in Hph. destruct Hph as [Hbat _].
  rewrite Hbat, app_nil_r in Hpre. destruct s as [m q0 w0 rq0 rs0]. simpl in *. subst rs0.
  eexists (t ++ [ReadStart]), _. split_and!.
  - eapply steps_snoc; [exact Hst|]. apply step_start_read.
  - done.
  - done.
  - done.
  - done.
  - exists []. rewrite log_of_snoc, Hg. split; [done|]. simpl. unfold unread. rewrite Hg in Hpre.
    destruct Hpre as [k Hk]. by rewrite Hk, drop_app_length.
Qed.

(** [finish] after [k] elements. *)
Lemma follows_finish g w m r k :
  (k <= length (unread g))%nat -> follows g w m r (drop k (unread g)) ->
  exists m' q', finish_read (fst r) (snd r) = (m', q')
    /\ ring_ok p (mkSys m' (fst w) (snd w) q' RIdle) (log_read g k).
Proof.
  intros Hk (t & s & Hst & Hm & _ & Hrs & Hw & B & Hg & HB).
  assert (B = take k (unread g)) as ->.
  { assert (B ++ drop k (unread g) = unread g) as HBu.
    { unfold unread at 2. rewrite <- HB at 1. by rewrite drop_app_length. }
    assert (length B = k) as Hl.
    { apply (f_equal length) in HBu. rewrite length_app, length_drop in HBu. lia. }
    rewrite <- HBu, <- Hl. by rewrite take_app_length. }
  eexists _, _. split; [reflexivity|]. destruct s as [m0 q0 w0 rq0 rs0]. simpl in *. subst.
  eexists a, b, s0, (((t ++ [Tau]) ++ [Tau]) ++ [ReadCommit]). split_and!; [lia..|done| | |done].
  - eapply steps_snoc; [eapply steps_snoc; [eapply steps_snoc; [exact Hst|]|]|].
    + apply step_commit_read.
    + apply step_publish_buf_head.
    + apply step_publish_elem_head.
  - rewrite !log_of_snoc, Hg. done.
Qed.

End batch.

(** The elements a ring holds, as a batch without limits would read them. *)
Fixpoint read_all {R} {reader : BatchReader R} (fuel : nat) (r : R) : list (list Z) :=
  match fuel with
  | O => []
  | S fuel =>
      match br_peek_len r, br_read r with
      | Ok _, Ok (x, r) => x :: read_all fuel r
      | _, _ => []
      end
  end.

Definition held (s : sys) : list (list Z) :=
  read_all (reader := ring_reader Release LittleEndian) (Z.to_nat (elem_capacity (rq s)))
    (smem s, start_read (rq s) (smem s)).

Lemma read_all_spec {R e} {reader : BatchReader R} {laws : BatchReaderLaws R e} fuel r xs :
  br_holds r xs -> (length xs <= fuel)%nat -> read_all fuel r = xs.
Proof.
  revert r xs. induction fuel as [|fuel IH]; intros r xs Hr Hl; [by destruct xs; [|simpl in Hl; lia]|].
  cbn [read_all]. destruct xs as [|x xs]; [by rewrite br_empty|].
  destruct (br_next r x xs Hr) as (r' & -> & -> & Hr' & _). f_equal. apply IH; [done|]. simpl in Hl. lia.
Qed.

Lemma held_unread p s g : ring_ok p s g -> held s = unread g.
Proof.
  intros Hok. pose proof (unread_bound p s g Hok) as Hub. destruct Hok as (a & b & s0 & t & Ha & Hb & Hboot & Hst & Hlog & Hrs).
  apply (read_all_spec (laws := ring_reader_laws Release LittleEndian)); [|lia].
  apply (follows_holds p a b s0 Ha Hb Hboot g (wq s, ws s) (smem s)). by eapply (follows_start p a b s0 Ha Hb Hboot t).
Qed.

(** ** The handler and its rings *)

Definition slots_fit (c : VirtualClock) : Prop :=
  (forall t, current_timeslot c = Some t -> fits 16 t)
  /\ Forall (fun i => forall t, timeslot i = Some t -> fits 16 t) (inputs c).

(** The divider of 30 s that [new_from_views] builds. *)
Definition div30 : FastDiv := mkFastDiv 9382 48.

Record wired (p : profile) (h : QueueHandler) (rings : list sys) (gs : list log) : Prop := {
  wired_rings : Forall2 (ring_ok p) rings gs;
  wired_queues : queues h = rq <$> rings;
  wired_inputs : length (inputs (clock h)) = length rings;
  wired_div : timeslot_div h = div30 /\ divider (clock h) = div30;
  wired_slots : slots_fit (clock h);
}.

Lemma report_fits e c i x : slots_fit c -> slots_fit (report c i (slot16 (e := e) (divider c) x)).
Proof.
  intros [Hc Hi]. split; [exact Hc|]. unfold report. simpl. apply Forall_insert; [done|].
  intros t [= <-]. apply slot16_fits.
Qed.

(** A ring whose visit is over, in its place. *)
Definition put_ring (rings : list sys) (i : nat) (m : mem) (q : ElementQueue) : list sys :=
  alter (fun s => mkSys m (wq s) (ws s) q RIdle) i rings.

Lemma put_ring_insert rings i m s q :
  rings !! i = Some s -> put_ring rings i m q = <[i := mkSys m (wq s) (ws s) q RIdle]> rings.
Proof.
  intros Hi. unfold put_ring. apply list_eq. intros j. rewrite list_lookup_alter.
  destruct (decide (i = j)) as [<-|Hne]; [|by rewrite list_lookup_insert_ne].
  rewrite Hi. simpl. symmetry. apply list_lookup_insert_eq. by eapply lookup_lt_Some.
Qed.

(** The clock after a visit of queue [i] that read [k] elements: untouched if
    the input had to wait; otherwise the input may have reported the slot of
    the next element. *)
Definition visited_clock (e : endian) (h h' : QueueHandler) (i k : nat) (xs : list (list Z)) : Prop :=
  let c := clock h in
  (inputs c !! i <> Some (mkInput (current_timeslot c)) /\ k = 0%nat /\ h' = h)
  \/ (inputs c !! i = Some (mkInput (current_timeslot c))
      /\ Forall (fun x => malformed x \/ past (e := e) c x \/ present (e := e) c x) (take k xs)
      /\ last_processed_ts h'
         = last_stamp (e := e) (last_processed_ts h) (filter (present (e := e) c) (take k xs))
      /\ moves (e := e) 0 i c (clock h') xs k
      /\ exists inp, clock h' = set_inputs c (<[i := mkInput inp]> (inputs c))
         /\ (inp = current_timeslot c
             \/ exists x, xs !! k = Some x /\ future (e := e) c x
                /\ inp = Some (slot16 (e := e) (divider c) x))).

Section visit.
Context {St E : Type} (p : profile) (e : endian).
Context (hm : St -> nat -> list Z -> res E St).

Lemma visit_spec fuel late h rings gs i s g :
  wired p h rings gs -> rings !! i = Some s -> gs !! i = Some g ->
  (length (unread g) + 2 <= fuel)%nat ->
  exists k h' m' q' g',
    (k <= length (unread g))%nat
    /\ (forall st, visit p e hm fuel late h st i (smem s)
         = let? st' := handle_all hm i st (filter (present (e := e) (clock h)) (take k (unread g))) in
           Ok (Some (h', m', st')))
    /\ queues h' !! i = Some q'
    /\ wired p h' (put_ring rings i m' q') (<[i := g']> gs)
    /\ com g' = com g /\ pend g' = pend g /\ don g' = don g ++ take k (unread g)
    /\ visited_clock e h h' i k (unread g).
Proof.
  intros [Hr Hq Hin [Hd1 Hd2] Hs] Hi Hg Hf.
  pose proof (Forall2_lookup_lr _ _ _ _ _ _ Hr Hi Hg) as Hok.
  assert (queues h !! i = Some (rq s)) as Hqi by (rewrite Hq; by rewrite list_lookup_fmap, Hi).
  destruct (lookup_lt_is_Some_2 (inputs (clock h)) i) as [inp Hinp].
  { rewrite Hin. by eapply lookup_lt_Some. }
  destruct (decide (timeslot inp = current_timeslot (clock h))) as [Hcur|Hcur].
  - assert (ready (clock h) i) as Hready.
    { split_and!; [|rewrite Hd2; simpl; lia..|apply Hs]. rewrite Hinp. destruct inp. simpl in *. by subst. }
    destruct Hok as (a & b & s0 & t & Ha & Hb & Hboot & Hst & Hlog & Hrs).
    destruct (drain_spec (laws := follows_laws p e a b s0 Ha Hb Hboot g (wq s, ws s) (smem s)) (E := E) p hm fuel
      late i (clock h) (smem s, start_read (rq s) (smem s)) (unread g) 0 Hready)
      as (k & c' & r' & (Hk & Hrun & Hh & Hall & Hend) & Hmv).
    { by eapply (follows_start p a b s0 Ha Hb Hboot t). }
    { done. }
    destruct (follows_finish p a b s0 Ha Hb Hboot _ _ _ _ _ Hk Hh) as (m' & q' & Hfin & Hok'). simpl in Hok'.
    exists k, (mkQH (<[i := q']> (queues h)) c' (timeslot_div h)
      (last_stamp (e := e) (last_processed_ts h) (filter (present (e := e) (clock h)) (take k (unread g))))),
      m', q', (log_read g k).
    split_and!; [done| | | |done..|].
    + intros st. unfold visit. rewrite can_update_ready by done. cbn [rbind negb].
      unfold index. rewrite Hqi. cbn [rbind unwrap]. rewrite Hrun. cbv zeta.
      destruct (handle_all hm i st _) as [st'| |]; [|done..]. cbn [rbind]. destruct r' as [m1 rb]. simpl in Hfin.
      by rewrite Hfin.
    + simpl. apply list_lookup_insert_eq. by eapply lookup_lt_Some.
    + rewrite (put_ring_insert _ _ _ s) by done.
      destruct Hend as [[->|(x & _ & _ & ->)] _].
      * split; simpl; [by apply Forall2_insert|by rewrite Hq, list_fmap_insert|by rewrite length_insert|done|done].
      * split; simpl; [by apply Forall2_insert|by rewrite Hq, list_fmap_insert|by rewrite !length_insert|done|].
        by apply report_fits.
    + right. split; [by destruct Hready|]. split; [done|]. split; [done|]. split; [done|].
      destruct Hend as [[->|(x & Hx & Hfut & ->)] _]; [|eexists; split; [reflexivity|right; by exists x]].
      exists (current_timeslot (clock h)). split; [|by left]. destruct Hready as [Hinp' _].
      cbn [clock]. unfold set_inputs. rewrite list_insert_id by done. by destruct (clock h).
  - exists 0%nat, h, (smem s), (rq s), g. rewrite app_nil_r.
    split_and!; [lia| |done| |done..|left; split; [|done]].
    3:{ rewrite Hinp. intros [= ->]. by apply Hcur. }
    + intros st. unfold visit, can_update, index. rewrite Hinp. cbn [rbind unwrap].
      by rewrite bool_decide_false by done.
    + rewrite (put_ring_insert _ _ _ s) by done. destruct Hok as (_ & _ & _ & _ & _ & _ & _ & _ & _ & Hrs).
      destruct s as [m wq0 ws0 rq0 rs0]. simpl in *. subst rs0. by rewrite !list_insert_id.
Qed.

End visit.

(** ** The end of a turn *)

Lemma min_loop_set {E} f acc l :
  Forall (fun i => is_Some (timeslot i)) l -> is_Some acc \/ l <> [] ->
  exists n, min_loop (E := E) f acc l = Ok (Some n)
    /\ (acc = Some n \/ exists t, mkInput (Some t) ∈ l /\ n = f t).
Proof.
  intros Hl. revert acc. induction Hl as [|[ts] l [t Ht] _ IH]; intros acc Ha; simpl in *.
  { destruct Ha as [[n ->]|]; [exists n; by auto|done]. }
  subst ts. cbn [rbind unwrap]. destruct (IH (Some (match acc with Some m => Z.min m (f t) | None => f t end))) as (n & -> & Hn);
    [by left; eexists|].
  exists n. split; [done|]. destruct Hn as [[= <-]|(t' & Hin & ->)]; [|right; exists t'; split; [by right|done]].
  destruct acc as [m|]; [|right; exists t; split; [by left|done]].
  destruct (Z.min_spec m (f t)) as [[_ ->]|[_ ->]]; [by left|right; exists t; split; [by left|done]].
Qed.

(** What [advance] does to a clock: nothing, or it moves to the slot of an
    input; it then moves only away from a slot that every input has left. *)
Definition advanced_clock (c : VirtualClock) (adv : bool) (c' : VirtualClock) : Prop :=
  inputs c' = inputs c /\ divider c' = divider c
  /\ ((current_timeslot c' = current_timeslot c /\ adv = false)
      \/ exists t, current_timeslot c' = Some t /\ mkInput (Some t) ∈ inputs c
         /\ Forall (fun i => is_Some (timeslot i)) (inputs c)
         /\ match current_timeslot c with
            | None => adv = false
            | Some cur => adv = true /\ 0 < signed_delta_u16 t cur
                /\ Forall (fun i => timeslot i <> Some cur) (inputs c)
            end).

(** Where the clock goes from a slot. *)
Lemma advance_from c cur n :
  slots_fit c -> current_timeslot c = Some cur -> min_input_advance c = Some n -> 0 < n ->
  advanced_clock c true (set_current c (Some (wrapping_add 16 cur (as_u16 n)))).
Proof.
  intros [Hc Hi] Hcur Hn Hpos. unfold min_input_advance in Hn. rewrite Hcur in Hn.
  destruct (min_advance_spec cur _ n Hn) as [([ts] & Hin & t & Ht & Hd) Hall]. simpl in Ht. subst ts n.
  rewrite Forall_forall in Hi. pose proof (Hi _ Hin t eq_refl) as Hfit.
  rewrite add_delta by (done || by apply Hc). split; [done|]. split; [done|]. right. exists t.
  split; [done|]. split; [done|]. rewrite Hcur. split_and!; [|done|done|].
  - eapply Forall_impl; [exact Hall|]. by intros i (t' & -> & _).
  - eapply Forall_impl; [exact Hall|]. intros i (t' & -> & Hle) [= ->]. rewrite delta_self in Hle. lia.
Qed.

(** The first slot of a clock. *)
Lemma advance_first {E} c :
  slots_fit c -> inputs c <> [] -> current_timeslot c = None ->
  exists o, earliest_input_timeslot (E := E) c = Ok o /\ advanced_clock c false (set_current c o).
Proof.
  intros [Hc Hi] Hne Hcur. unfold earliest_input_timeslot. destruct (existsb _ _) eqn:He.
  { exists None. split; [done|]. split; [done|]. split; [done|]. left. by rewrite Hcur. }
  assert (Forall (fun i => is_Some (timeslot i)) (inputs c)) as Hset.
  { apply Forall_forall. intros i Hin. destruct (timeslot i) eqn:Ht; [by eauto|]. exfalso.
    assert (existsb (fun i => bool_decide (timeslot i = None)) (inputs c) = true) as Hx; [|congruence].
    apply existsb_exists. exists i. split; [by apply list_elem_of_In|]. by apply bool_decide_eq_true. }
  destruct (min_loop_set (E := E) (fun ts => ts) None _ Hset) as (n & -> & [|(t0 & Hin0 & ->)]); [by right|done|].
  cbn [rbind unwrap].
  destruct (min_loop_set (E := E) (fun ts => signed_delta_u16 ts t0) None _ Hset) as (m & -> & [|(t & Hin & ->)]);
    [by right|done|].
  cbn [rbind unwrap]. eexists. split; [done|]. rewrite Forall_forall in Hi.
  rewrite (add_delta t t0 (Hi _ Hin t eq_refl) (Hi _ Hin0 t0 eq_refl)). split; [done|]. split; [done|]. right. exists t.
  by rewrite Hcur.
Qed.

Lemma advance_total {E} c :
  slots_fit c -> inputs c <> [] ->
  exists adv c', advance (E := E) c = Ok (adv, c') /\ slots_fit c' /\ advanced_clock c adv c'.
Proof.
  intros Hfit Hne.
  assert (exists adv c', advance (E := E) c = Ok (adv, c') /\ advanced_clock c adv c') as (adv & c' & Hadv & Hc).
  { unfold advance. destruct (current_timeslot c) as [cur|] eqn:Hcur.
    - assert (advanced_clock c false c) as Hsame by (split; [done|]; split; [done|]; by left).
      destruct (min_input_advance c) as [n|] eqn:Hn; [destruct (Z.ltb_spec 0 n)|]; eexists _, _;
        (split; [reflexivity|]); [by apply advance_from|done|done].
    - destruct (advance_first (E := E) c Hfit Hne Hcur) as (o & -> & Ho). by eexists _, _. }
  exists adv, c'. split; [done|]. split; [|done]. destruct Hc as (Hin & _ & Hcur). destruct Hfit as [Hf Hi].
  split; [|by rewrite Hin]. intros t Ht. destruct Hcur as [[Hc _]|(t' & Ht' & Hin' & _)].
  - apply Hf. congruence.
  - rewrite Forall_forall in Hi. apply (Hi _ Hin'). simpl. congruence.
Qed.

Lemma div30_reciprocal {E} p :
  estimated_reciprocal (E := E) p div30 = Ok (f64_div (f64_of_Z (2 ^ 48)) (f64_of_Z 9382)).
Proof. unfold estimated_reciprocal. by rewrite debug_assert_true. Qed.

Lemma window_end_total {E} p last : exists w, window_end (E := E) p div30 last = Ok w.
Proof.
  unfold window_end. rewrite div30_reciprocal. cbn [rbind]. rewrite remainder_eq by (simpl; lia). cbn [rbind]. by eexists.
Qed.

Lemma end_turn_spec {St E} p (ht : St -> Z -> res E St) h rings gs :
  wired p h rings gs -> rings <> [] ->
  exists h' (adv : bool) w,
    (forall st, end_turn p ht h st = if adv then let? st' := ht st w in Ok (h', st') else Ok (h', st))
    /\ wired p h' rings gs /\ queues h' = queues h /\ last_processed_ts h' = last_processed_ts h
    /\ advanced_clock (clock h) adv (clock h') /\ window_end (E := E) p div30 (last_processed_ts h) = Ok w.
Proof.
  intros [Hr Hq Hin [Hd1 Hd2] Hs] Hne.
  destruct (advance_total (E := E) (clock h) Hs) as (adv & c' & Hadv & Hs' & Hc').
  { intros Hn. rewrite Hn in Hin. by destruct rings. }
  destruct (window_end_total (E := E) p (last_processed_ts h)) as [w Hw].
  exists (mkQH (queues h) c' (timeslot_div h) (last_processed_ts h)), adv, w.
  pose proof Hc' as (Hin' & Hd' & _). split_and!; [|split; simpl; by rewrite ?Hin', ?Hd'|done..].
  intros st. unfold end_turn. rewrite Hadv. cbn [rbind]. destruct adv; [|done].
  cbn [timeslot_div last_processed_ts]. by rewrite Hd1, Hw.
Qed.

(** ** The system *)

Section system.
Context {ref : Type} {store : Type -> Type -> Type} {ref_eq : EqDecision ref}
  {ref_countable : Countable ref} {rc : RcHashMap ref store} {rc_laws : RcHashMapLaws ref store}
  {order : HashOrder} {order_laws : HashOrderLaws} {E : Type}
  (e : endian) (export : list Z -> Request -> Response).

Local Abbreviation Agg := (Aggregator (ref := ref) (store := store)).
Local Abbreviation Shared := (Agg * OtlpExporter * list (option Request))%type.

(** The rings, the handler with its position in the loop over the queues, and
    what the callbacks share. *)
Record System := mkSystem {
  s_rings : list sys;
  s_handler : QueueHandler;
  s_parser : Parser Handler;
  s_next : nat;
  s_left : nat;
  s_shared : Shared;
}.

(** The callbacks of [AggregationCore::run], in a release build. *)
Local Abbreviation hm ps := (on_message (E := E) Release e ps).
Local Abbreviation ht := (on_timeslot_end (E := E) Release export).

(** A new core over the rings, before the first turn. *)
Definition start_system (rings : list sys) (core : AggregationCore (ref := ref) (store := store)) : System :=
  mkSystem rings (queue_handler core) (parser core) 0 (length rings) (aggregator core, exporter core, []).

(** Elements are what the encoders of the aggregation messages wrote. *)
Definition encoded (i : nat) (x : list Z) : Prop := exists os, stands_for e (Message (Z.of_nat i) x) os.

(** A step, with what the producers did in it. *)
Inductive sys_step : System -> list (nat * event) -> System -> Prop :=
| sys_produce rings h ps next left sh i s ev s' :
    rings !! i = Some s -> step Release s ev s' -> rs s' = RIdle ->
    (forall x, ev = Wrote x -> encoded i x) ->
    sys_step (mkSystem rings h ps next left sh) [(i, ev)] (mkSystem (<[i := s']> rings) h ps next left sh)
| sys_visit rings h ps next left sh fuel late s h' m' sh' q' :
    rings !! next = Some s -> elem_capacity (rq s) + 2 <= Z.of_nat fuel ->
    visit Release e (hm ps) fuel late h sh next (smem s) = Ok (Some (h', m', sh')) ->
    queues h' !! next = Some q' ->
    sys_step (mkSystem rings h ps next (S left) sh) []
      (mkSystem (put_ring rings next m' q') h' ps ((next + 1) mod length (queues h)) left sh')
| sys_end rings h ps next sh h' sh' :
    end_turn Release ht h sh = Ok (h', sh') ->
    sys_step (mkSystem rings h ps next 0 sh) [] (mkSystem rings h' ps next (length (queues h')) sh').

Inductive sys_reach (S0 : System) : list (nat * event) -> System -> Prop :=
| reach_start : sys_reach S0 [] S0
| reach_step evs S ev S' : sys_reach S0 evs S -> sys_step S ev S' -> sys_reach S0 (evs ++ ev) S'.

(** What producer [i] did, and the elements it committed. *)
Definition history (i : nat) (evs : list (nat * event)) : list event :=
  omap (fun '(j, ev) => if decide (j = i) then Some ev else None) evs.

Definition committed (i : nat) (evs : list (nat * event)) : list (list Z) := com (log_of (history i evs)).

(** Steps of the producer of ring [i]. *)
Inductive produced (i : nat) : sys -> sys -> Prop :=
| produced_none s : produced i s s
| produced_step s s1 ev s2 :
    produced i s s1 -> step Release s1 ev s2 -> rs s2 = RIdle -> (forall x, ev = Wrote x -> encoded i x) ->
    produced i s s2.

(** The messages handled from queue [i]. *)
Definition handled (i : nat) (cs : list callback) : list (list Z) :=
  omap (fun c => match c with Message q x => if q =? Z.of_nat i then Some x else None | _ => None end) cs.

Lemma handled_messages i j xs :
  handled i (Message (Z.of_nat j) <$> xs) = if decide (i = j) then xs else [].
Proof.
  destruct (decide (i = j)) as [->|Hne].
  - induction xs as [|x xs IH]; [done|]. cbn. rewrite Z.eqb_refl. by f_equal.
  - induction xs as [|x xs IH]; [done|]. cbn. by rewrite (proj2 (Z.eqb_neq _ _)) by lia.
Qed.

Lemma ledger_outs_app l os1 os2 :
  snd (ledger_run l (os1 ++ os2)) = snd (ledger_run l os1) ++ snd (ledger_run (fst (ledger_run l os1)) os2).
Proof.
  revert l. induction os1 as [|o os1 IH]; intros l; [done|]. simpl.
  destruct (ledger_step l o) as [l1 out]. specialize (IH l1).
  destruct (ledger_run l1 (os1 ++ os2)), (ledger_run l1 os1). simpl in *. subst. by rewrite app_assoc.
Qed.

(** Messages publish nothing. *)
Lemma op_of_quiet l q m : snd (ledger_run l (op_of q m)) = [].
Proof. by destruct m; cbn [op_of ledger_run ledger_step]; repeat case_match; simplify_eq/=. Qed.

(** The state the callbacks share, after the operations [os]. *)
Definition shared_inv (l0 : Ledger) (os : list op) (sh : Shared) : Prop :=
  let '(a, ex, reqs) := sh in
  inv a (fst (ledger_run l0 os)) /\ buf (publisher ex) = [] /\ Forall2 sent reqs (snd (ledger_run l0 os)).

Definition complete (ps : Parser Handler) : Prop :=
  Forall (fun md => PerfectHashMap.get (map ps) (rpc_id md) = Some (mkPEntry md (handler_of md)))
    all_message_metadata.

Lemma messages_run l0 os ps sh i xs oss :
  complete ps -> shared_inv l0 os sh ->
  Forall2 (fun x os => stands_for e (Message (Z.of_nat i) x) os) xs oss ->
  exists sh', handle_all (hm ps) i sh xs = Ok sh' /\ shared_inv l0 (os ++ concat oss) sh'.
Proof.
  destruct sh as [[a ex] reqs]. intros Hps (Hi & Hb & Hs) Hxs.
  destruct (handled_are_ops (E := E) e export ps i a _ ex reqs xs oss Hps Hxs Hi Hb) as (a' & Ha' & Hi').
  exists (a', ex, reqs). split; [done|]. split; [by rewrite ledger_run_app|]. split; [done|].
  rewrite ledger_outs_app. rewrite <- (app_nil_r reqs). apply Forall2_app; [done|].
  clear -Hxs Hps. induction Hxs as [|x os' xs oss Hx _ IH] in os |- *; simpl; [constructor|].
  rewrite ledger_outs_app. assert (snd (ledger_run (fst (ledger_run l0 os)) os') = []) as ->.
  { inversion Hx as [q ts m dst pad bytes rest|]; subst. apply op_of_quiet. }
  simpl. rewrite <- ledger_run_app. apply IH.
Qed.

Lemma window_runs l0 os sh w :
  shared_inv l0 os sh -> exists sh', ht sh w = Ok sh' /\ shared_inv l0 (os ++ [Output w]) sh'.
Proof.
  destruct sh as [[a ex] reqs]. intros (Hi & Hb & Hs).
  destruct (step_refines (E := E) export a _ ex (Output w) Hi I Hb) as (a' & ex' & out & Hst & Hi' & Hb' & Ho).
  simpl in Hst. unfold on_timeslot_end.
  destruct (output_metrics Release export a w ex) as [[[a1 ex1] req]| |]; simplify_eq/=.
  eexists. split; [reflexivity|].
  split; [|split; [done|]].
  - by rewrite ledger_run_app.
  - rewrite ledger_outs_app. by apply Forall2_app.
Qed.

(** ** The invariant *)

Local Abbreviation kept := (kept (e := e) div30 None).
Local Abbreviation kept_slot := (kept_slot (e := e) div30 None).

(** The window under way: its messages are of the clock's slot and the last of
    them was the last processed; if there is none yet, some queue still has an
    element of that slot. *)
Definition window_state (h : QueueHandler) (gs : list log) (prev : option Z) (open : option (Z * Z)) : Prop :=
  match current_timeslot (clock h) with
  | None => prev = None /\ open = None
  | Some t =>
      match prev with Some t0 => 0 < signed_delta_u16 t t0 | None => True end
      /\ match open with
         | Some (t', ts) => t' = t /\ last_processed_ts h = ts
         | None => exists i g, gs !! i = Some g /\ inputs (clock h) !! i = Some (mkInput (Some t))
                     /\ kept_slot (don g) <> Some t
         end
  end.

(** What was handled, queue by queue and window by window. *)
Record flow_inv (h : QueueHandler) (gs : list log) (cs : list callback) : Prop := {
  flow_kept i g : gs !! i = Some g -> handled i cs = kept (don g);
  flow_queue i g inp : gs !! i = Some g -> inputs (clock h) !! i = Some inp ->
    queue_state (e := e) div30 (current_timeslot (clock h)) (timeslot inp) (kept_slot (don g)) (unread g);
  flow_windows : exists prev open,
    windows (e := e) div30 (E := E) Release cs prev open /\ window_state h gs prev open;
}.

(** The logs of the rings have the producers' events [evs]. *)
Definition tracks (evs : list (nat * event)) (gs : list log) : Prop :=
  forall i g, gs !! i = Some g ->
    com g = committed i evs /\ pend g = pend (log_of (history i evs)).

Definition sys_inv_by (l0 : Ledger) (evs : list (nat * event)) (S : System) : Prop :=
  exists gs cs oss,
    wired Release (s_handler S) (s_rings S) gs
    /\ tracks evs gs
    /\ (forall i g, gs !! i = Some g -> Forall (encoded i) (com g ++ pend g))
    /\ (s_next S < length (s_rings S))%nat
    /\ complete (s_parser S)
    /\ Forall2 (stands_for e) cs oss
    /\ shared_inv l0 (concat oss) (s_shared S)
    /\ flow_inv (s_handler S) gs cs.

Definition sys_inv (l0 : Ledger) (S : System) : Prop := exists evs, sys_inv_by l0 evs S.

Lemma history_app i evs evs' : history i (evs ++ evs') = history i evs ++ history i evs'.
Proof. apply omap_app. Qed.

Lemma tracks_step evs gs i g ev :
  tracks evs gs -> gs !! i = Some g -> tracks (evs ++ [(i, ev)]) (<[i := log_step g ev]> gs).
Proof.
  intros Ht Hg j g' Hj. unfold committed. rewrite history_app. simpl.
  destruct (decide (i = j)) as [<-|Hne].
  - rewrite list_lookup_insert_eq in Hj by (by eapply lookup_lt_Some). injection Hj as <-.
    destruct (Ht i g Hg) as [Hc Hp]. unfold committed in Hc. rewrite log_of_snoc.
    by destruct ev; simpl; rewrite ?Hc, ?Hp.
  - rewrite list_lookup_insert_ne in Hj by done. rewrite app_nil_r. by apply Ht.
Qed.

Lemma tracks_same evs gs i g g' :
  tracks evs gs -> gs !! i = Some g -> com g' = com g -> pend g' = pend g -> tracks evs (<[i := g']> gs).
Proof.
  intros Ht Hg Hc Hp j g1 Hj. destruct (decide (i = j)) as [<-|Hne].
  - rewrite list_lookup_insert_eq in Hj by (by eapply lookup_lt_Some). injection Hj as <-. rewrite Hc, Hp. by apply Ht.
  - rewrite list_lookup_insert_ne in Hj by done. by apply Ht.
Qed.

Lemma unread_app g g' :
  don g `prefix_of` com g -> don g' = don g -> com g `prefix_of` com g' -> exists ys, unread g' = unread g ++ ys.
Proof.
  intros [k Hk] Hd [ys Hys]. exists ys. unfold unread. rewrite Hd, Hys, Hk, <- app_assoc, !drop_app_length. done.
Qed.

(** Elements committed by a producer wait. *)
Lemma flow_produce h gs cs i g g' :
  flow_inv h gs cs -> gs !! i = Some g -> don g `prefix_of` com g -> don g' = don g -> com g `prefix_of` com g' ->
  flow_inv h (<[i := g']> gs) cs.
Proof.
  intros [Hk Hq (prev & open & Hw & Hs)] Hg Hpre Hd Hc.
  destruct (unread_app g g' Hpre Hd Hc) as [ys Hun].
  assert (forall j y, <[i := g']> gs !! j = Some y -> exists y0, gs !! j = Some y0 /\ don y = don y0
    /\ exists zs, unread y = unread y0 ++ zs) as Hlk.
  { intros j y Hj. destruct (decide (i = j)) as [<-|Hne].
    - rewrite list_lookup_insert_eq in Hj by (by eapply lookup_lt_Some). injection Hj as <-. eauto.
    - rewrite list_lookup_insert_ne in Hj by done. exists y. split_and!; [done..|]. exists []. by rewrite app_nil_r. }
  split.
  - intros j y Hj. destruct (Hlk j y Hj) as (y0 & Hy & -> & _). by apply Hk.
  - intros j y inp Hj Hin. destruct (Hlk j y Hj) as (y0 & Hy & -> & zs & ->). apply queue_state_app. by apply (Hq j).
  - exists prev, open. split; [done|]. unfold window_state in *. destruct (current_timeslot (clock h)) as [t|]; [|done].
    destruct Hs as [Hp Ho]. split; [done|]. destruct open as [[t' ts]|]; [done|].
    destruct Ho as (j & y & Hj & Hin & Hne). destruct (decide (i = j)) as [<-|Hij].
    + exists i, g'. rewrite list_lookup_insert_eq by (by eapply lookup_lt_Some). rewrite Hj in Hg. injection Hg as ->.
      by rewrite Hd.
    + exists j, y. by rewrite list_lookup_insert_ne.
Qed.

Lemma handled_app i cs j xs :
  handled i (cs ++ (Message (Z.of_nat j) <$> xs)) = handled i cs ++ if decide (i = j) then xs else [].
Proof. rewrite <- handled_messages. unfold handled. apply omap_app. Qed.

(** A waiting window whose messages are still to come stays so. *)
Lemma pending_stays h k g t inp :
  divider (clock h) = div30 -> current_timeslot (clock h) = Some t ->
  queue_state (e := e) div30 (Some t) (Some t) (kept_slot (don g)) (unread g) -> kept_slot (don g) <> Some t ->
  filter (present (e := e) (clock h)) (take k (unread g)) = [] ->
  inp = Some t \/ (exists x, unread g !! k = Some x /\ future (e := e) (clock h) x
                    /\ inp = Some (slot16 (e := e) (divider (clock h)) x)) ->
  take k (unread g) = [] /\ inp = Some t.
Proof.
  intros Hd Hc [[_ Hx]|(x & xs & Hu & Hl & Hx & _)] Hne Hf Hinp; [done|]. rewrite Hu in *.
  destruct k as [|k].
  - split; [done|]. destruct Hinp as [->|(y & [= <-] & [_ Hfut] & _)]; [done|].
    rewrite Hc, Hd, Hx, delta_self in Hfut. lia.
  - simpl in Hf. rewrite filter_cons_True in Hf by (split; [done|by rewrite Hc, Hd, Hx]). done.
Qed.

Lemma flow_visit h h' gs cs i k g g' :
  flow_inv h gs cs -> gs !! i = Some g -> divider (clock h) = div30 -> visited_clock e h h' i k (unread g) ->
  don g `prefix_of` com g -> com g' = com g ->
  don g' = don g ++ take k (unread g) -> unread g' = drop k (unread g) ->
  flow_inv h' (<[i := g']> gs)
    (cs ++ (Message (Z.of_nat i) <$> filter (present (e := e) (clock h)) (take k (unread g)))).
Proof.
  intros Hflow Hg Hd [(_ & -> & ->)|(Hin & Hall & Hlast & _ & inp & Hclk & Hinp)] Hpre Hcom Hdon Hun.
  { rewrite app_nil_r in *. eapply flow_produce; try done. by rewrite Hcom. }
  destruct Hflow as [Hk Hq (prev & open & Hw & Hs)]. set (c := clock h) in *.
  set (msgs := filter (present (e := e) c) (take k (unread g))) in *.
  destruct (queue_state_batch (e := e) div30 c (kept_slot (don g)) (unread g) k inp Hd (Hq i g _ Hg Hin) Hall)
    as [Hmsgs Hst]; [by rewrite <- Hd|]. fold msgs in Hmsgs.
  assert (current_timeslot (clock h') = current_timeslot c) as Hcur by (by rewrite Hclk).
  assert (<[i := g']> gs !! i = Some g') as Hgi by (apply list_lookup_insert_eq; by eapply lookup_lt_Some).
  assert (inputs (clock h') !! i = Some (mkInput inp)) as Hini.
  { rewrite Hclk. apply list_lookup_insert_eq. by eapply lookup_lt_Some. }
  split.
  - intros j y Hj. rewrite handled_app. destruct (decide (j = i)) as [->|Hne].
    + rewrite Hgi in Hj. injection Hj as <-. rewrite Hdon, kept_app, Hmsgs. by rewrite (Hk i g Hg).
    + rewrite list_lookup_insert_ne in Hj by done. rewrite app_nil_r. by apply Hk.
  - intros j y inp' Hj Hij. rewrite Hcur. destruct (decide (j = i)) as [->|Hne].
    + rewrite Hgi in Hj. injection Hj as <-. rewrite Hini in Hij. injection Hij as <-.
      by rewrite Hdon, kept_slot_app, Hun.
    + rewrite list_lookup_insert_ne in Hj by done. rewrite Hclk in Hij. simpl in Hij.
      rewrite list_lookup_insert_ne in Hij by done. by apply (Hq j).
  - unfold window_state in *. fold c in Hs. rewrite Hcur. destruct (current_timeslot c) as [t|] eqn:Hct.
    2:{ assert (msgs = []) as ->.
        { apply filter_none. intros x _ [_ Hx]. congruence. }
        exists prev, open. by rewrite app_nil_r. }
    destruct Hs as [Hp Ho]. eexists prev, _. split.
    + eapply (windows_messages div30 Release cs prev open _ t msgs Hw); [by destruct open as [[? ?]|]; [apply Ho|]|done|].
      apply Forall_forall. intros x [[_ Hx] _]%list_elem_of_filter. rewrite Hct, Hd in Hx. by injection Hx.
    + split; [done|]. rewrite Hlast. unfold last_stamp. destruct (last msgs) as [x|] eqn:Hl; [done|].
      destruct open as [[t' ts]|]; [done|]. destruct Ho as (j & y & Hj & Hij & Hne).
      destruct (decide (j = i)) as [->|Hji].
      * rewrite Hj in Hg. injection Hg as ->.
        destruct (pending_stays h k g t inp Hd Hct (Hq i g _ Hj Hij) Hne) as [Htk ->]; [by apply last_None|done|].
        exists i, g'. by rewrite Hdon, Htk, app_nil_r.
      * exists j, y. rewrite list_lookup_insert_ne by done. split; [done|]. split; [|done].
        rewrite Hclk. simpl. by rewrite list_lookup_insert_ne.
Qed.

(** The end of a turn: when the clock leaves a slot, its window has messages. *)
Lemma flow_end h h' gs cs adv w :
  flow_inv h gs cs -> length (inputs (clock h)) = length gs -> advanced_clock (clock h) adv (clock h') ->
  last_processed_ts h' = last_processed_ts h -> window_end (E := E) Release div30 (last_processed_ts h) = Ok w ->
  flow_inv h' gs (cs ++ if adv then [TimeslotEnd w] else []).
Proof.
  intros [Hk Hq (prev & open & Hw & Hs)] Hlen (Hin & Hd & Hadv) Hlast Hend.
  assert (forall i, handled i (cs ++ if adv then [TimeslotEnd w] else []) = handled i cs) as Hh.
  { intros i. unfold handled. rewrite omap_app. destruct adv; simpl; by rewrite app_nil_r. }
  destruct Hadv as [[Hc ->]|(t & Ht & Hti & Hset & Hadv)].
  { rewrite app_nil_r. split; [done| |].
    - intros i g inp Hg Hi. rewrite Hc. apply (Hq i); [done|by rewrite <- Hin].
    - exists prev, open. split; [done|]. unfold window_state. by rewrite Hc, Hin, Hlast. }
  (* every queue has reported the slot of its next element *)
  assert (forall i g inp, gs !! i = Some g -> inputs (clock h) !! i = Some inp ->
    exists t', timeslot inp = Some t' /\ pending (e := e) div30 (kept_slot (don g)) (unread g) t') as Hpend.
  { intros i g inp Hg Hi. pose proof (Hq i g inp Hg Hi) as Hst.
    destruct (proj1 (Forall_lookup _ _) Hset i inp Hi) as [t' Ht']. exists t'. split; [done|].
    rewrite Ht' in Hst. destruct Hst as [[Hnow _]|Hp]; [|done]. rewrite Hnow in Hadv.
    destruct Hadv as (_ & _ & Hleft). by destruct (proj1 (Forall_lookup _ _) Hleft i inp Hi). }
  split.
  - intros i g Hg. rewrite Hh. by apply Hk.
  - intros i g inp Hg Hi. rewrite Hin in Hi. destruct (Hpend i g inp Hg Hi) as (t' & -> & Hp). by right.
  - assert (exists i g, gs !! i = Some g /\ inputs (clock h') !! i = Some (mkInput (Some t))
      /\ kept_slot (don g) <> Some t) as Hnext.
    { apply list_elem_of_lookup in Hti as [i Hi]. destruct (lookup_lt_is_Some_2 gs i) as [g Hg].
      { rewrite <- Hlen. by eapply lookup_lt_Some. }
      exists i, g. split; [done|]. split; [by rewrite Hin|]. destruct (Hpend i g _ Hg Hi) as (t' & [= <-] & Hp).
      destruct Hp as (x & xs & _ & _ & _ & Hp). intros Hx. rewrite Hx, delta_self in Hp. lia. }
    unfold window_state in *. rewrite Ht. destruct (current_timeslot (clock h)) as [cur|].
    + destruct Hadv as (-> & Hpos & Hleft). destruct Hs as [Hp Ho].
      destruct open as [[t' ts]|].
      * destruct Ho as [-> <-]. exists (Some cur), None. split; [by eapply windows_end|]. by split.
      * destruct Ho as (i & g & _ & Hi & _). by destruct (proj1 (Forall_lookup _ _) Hleft i _ Hi).
    + destruct Hs as [-> ->]. subst adv. exists None, None. rewrite app_nil_r. by split.
Qed.

(** A step of the producer leaves the reader's side alone. *)
Lemma producer_step s ev s' :
  rs s = RIdle -> rs s' = RIdle -> step Release s ev s' ->
  rq s' = rq s /\ forall g, don (log_step g ev) = don g /\ com g `prefix_of` com (log_step g ev)
    /\ forall x, x ∈ com (log_step g ev) ++ pend (log_step g ev) -> x ∈ com g ++ pend g \/ ev = Wrote x.
Proof.
  intros H1 H2 Hs. destruct Hs; simpl in *; try done; (split; [done|]); intros g; (split; [done|]);
    (split; [simpl; try apply prefix_app_r; done|]); intros y Hy; simpl in Hy; rewrite ?app_nil_r in Hy; try (by left).
  - rewrite app_assoc in Hy. apply elem_of_app in Hy as [Hy|Hy]; [by left|]. right. apply list_elem_of_singleton in Hy. by subst.
  - left. apply elem_of_app. by left.
Qed.

Lemma produce_inv l0 evs rings h ps next left sh i s ev s' :
  sys_inv_by l0 evs (mkSystem rings h ps next left sh) -> rings !! i = Some s -> step Release s ev s' ->
  rs s' = RIdle -> (forall x, ev = Wrote x -> encoded i x) ->
  sys_inv_by l0 (evs ++ [(i, ev)]) (mkSystem (<[i := s']> rings) h ps next left sh).
Proof.
  intros (gs & cs & oss & [Hr Hq Hin Hd Hsl] & Htr & Henc & Hn & Hps & Hcs & Hsh & Hh) Hi Hst Hidle Hw. simpl in *.
  destruct (Forall2_lookup_l _ _ _ _ _ Hr Hi) as (g & Hg & Hok).
  pose proof Hok as (a & b & s0 & t & Ha & Hb & Hboot & Hsteps & Hlog & Hrs).
  destruct (producer_step s ev s' Hrs Hidle Hst) as [Hrq Hlogs]. destruct (Hlogs g) as (Hdon & Hcom & Hels).
  exists (<[i := log_step g ev]> gs), cs, oss. simpl. split_and!; [|by apply tracks_step| | |done|done|done|].
  - split; simpl; [| |by rewrite length_insert|done|done].
    + apply Forall2_insert; [done|]. exists a, b, s0, (t ++ [ev]).
      split_and!; [lia..|done|by eapply steps_snoc|by rewrite log_of_snoc, Hlog|done].
    + rewrite Hq, list_fmap_insert, Hrq. symmetry. apply list_insert_id. by rewrite list_lookup_fmap, Hi.
  - intros j g' Hg'. destruct (decide (i = j)) as [<-|Hne].
    + rewrite list_lookup_insert_eq in Hg' by (by eapply lookup_lt_Some). injection Hg' as <-. apply Forall_forall.
      intros x Hx. destruct (Hels x Hx) as [Hx'|Hx']; [|by apply Hw].
      specialize (Henc i g Hg). rewrite Forall_forall in Henc. by apply Henc.
    + rewrite list_lookup_insert_ne in Hg' by done. by eapply Henc.
  - by rewrite length_insert.
  - eapply flow_produce; [done..|by eapply ring_prefix|done|done].
Qed.

(** The operations of encoded elements. *)
Lemma encoded_ops i xs :
  Forall (encoded i) xs -> exists oss, Forall2 (fun x os => stands_for e (Message (Z.of_nat i) x) os) xs oss.
Proof.
  induction 1 as [|x xs [os Hx] _ [oss IH]]; [by exists []|]. exists (os :: oss). by constructor.
Qed.

Lemma visit_runs l0 evs rings h ps next left sh :
  sys_inv_by l0 evs (mkSystem rings h ps next (S left) sh) ->
  exists s, rings !! next = Some s
    /\ forall fuel late, elem_capacity (rq s) + 2 <= Z.of_nat fuel ->
    exists h' m' sh' q',
      visit Release e (hm ps) fuel late h sh next (smem s) = Ok (Some (h', m', sh'))
      /\ queues h' !! next = Some q'
      /\ sys_inv_by l0 evs (mkSystem (put_ring rings next m' q') h' ps ((next + 1) mod length (queues h)) left sh')
      /\ exists k, held (mkSys m' (wq s) (ws s) q' RIdle) = drop k (held s) /\ visited_clock e h h' next k (held s).
Proof.
  intros (gs & cs & oss & Hwired & Htr & Henc & Hn & Hps & Hcs & Hsh & Hh). simpl in *.
  destruct (lookup_lt_is_Some_2 _ _ Hn) as [s Hs]. exists s. split; [done|].
  destruct (Forall2_lookup_l _ _ _ _ _ (wired_rings _ _ _ _ Hwired) Hs) as (g & Hg & Hok).
  intros fuel late Hfuel. pose proof (unread_bound _ _ _ Hok) as Hub.
  assert (length (unread g) + 2 <= fuel)%nat as Hf by lia.
  destruct (visit_spec Release e (hm ps) fuel late h rings gs next s g Hwired Hs Hg Hf)
    as (k & h' & m' & q' & g' & Hk & Hrun & Hq' & Hwired' & Hcom & Hpend & Hdon & Hclk).
  set (xs := filter (present (e := e) (clock h)) (take k (unread g))) in *.
  assert (Forall (encoded next) xs) as Hxs.
  { apply Forall_forall. intros x Hx. apply list_elem_of_filter in Hx as [_ Hx]. apply elem_of_take in Hx as (j & Hx & _).
    apply list_elem_of_lookup_2 in Hx. specialize (Henc next g Hg). rewrite Forall_forall in Henc. apply Henc.
    apply elem_of_app. left. rewrite <- (take_drop (length (don g)) (com g)). apply elem_of_app. by right. }
  destruct (encoded_ops next xs Hxs) as [oss' Hoss].
  destruct (messages_run l0 (concat oss) ps sh next xs oss' Hps Hsh Hoss) as (sh' & Hrun' & Hsh').
  exists h', m', sh', q'. rewrite Hrun, Hrun'. split_and!; [done|done| |].
  2:{ exists k. rewrite (held_unread Release s g Hok). split; [|done].
      pose proof (wired_rings _ _ _ _ Hwired') as Hr'. rewrite (put_ring_insert _ _ _ s) in Hr' by done.
      erewrite (held_unread Release _ g').
      - unfold unread. rewrite Hdon, Hcom, drop_drop, length_app, length_take. f_equal. lia.
      - eapply (Forall2_lookup_lr _ _ _ next _ _ Hr'); apply list_lookup_insert_eq; by eapply lookup_lt_Some. }
  exists (<[next := g']> gs), (cs ++ (Message (Z.of_nat next) <$> xs)), (oss ++ oss'). simpl.
  split_and!; [done|by apply (tracks_same evs gs next g)|..|done| |by rewrite concat_app|].
  - intros j g'' Hj. destruct (decide (next = j)) as [<-|Hne].
    + rewrite list_lookup_insert_eq in Hj by (by eapply lookup_lt_Some). injection Hj as <-. rewrite Hcom, Hpend. by apply Henc.
    + rewrite list_lookup_insert_ne in Hj by done. by apply Henc.
  - rewrite (wired_queues _ _ _ _ Hwired), length_fmap. unfold put_ring. rewrite length_alter.
    apply Nat.mod_upper_bound. lia.
  - apply Forall2_app; [done|]. by apply Forall2_fmap_l.
  - eapply flow_visit; [done..|apply (wired_div _ _ _ _ Hwired)|done|by eapply ring_prefix|done|done|].
    unfold unread. rewrite Hdon, Hcom, drop_drop, length_app, length_take. f_equal. lia.
Qed.

Lemma end_runs l0 evs rings h ps next sh :
  sys_inv_by l0 evs (mkSystem rings h ps next 0 sh) ->
  exists h' sh', end_turn Release ht h sh = Ok (h', sh')
    /\ sys_inv_by l0 evs (mkSystem rings h' ps next (length (queues h')) sh').
Proof.
  intros (gs & cs & oss & Hwired & Htr & Henc & Hn & Hps & Hcs & Hsh & Hh). simpl in *.
  destruct (end_turn_spec Release ht h rings gs Hwired) as (h' & adv & w & Hrun & Hwired' & Hqs & Hlast & Hadv & Hend).
  { intros ->. simpl in Hn. lia. }
  assert (length (inputs (clock h)) = length gs) as Hlen.
  { rewrite (wired_inputs _ _ _ _ Hwired). by eapply Forall2_length, wired_rings. }
  pose proof (flow_end h h' gs cs adv w Hh Hlen Hadv Hlast Hend) as Hflow. destruct adv.
  - destruct (window_runs l0 (concat oss) sh w Hsh) as (sh' & Hw & Hsh'). exists h', sh'.
    rewrite Hrun, Hw. split; [done|].
    exists gs, (cs ++ [TimeslotEnd w]), (oss ++ [[Output w]]). simpl. split_and!; try done.
    + apply Forall2_app; [done|]. repeat constructor.
    + by rewrite concat_app.
  - exists h', sh. rewrite Hrun. split; [done|]. rewrite app_nil_r in Hflow. by exists gs, cs, oss.
Qed.

Lemma reach_inv l0 evs0 evs S0 S : sys_inv_by l0 evs0 S0 -> sys_reach S0 evs S -> sys_inv_by l0 (evs0 ++ evs) S.
Proof.
  intros H0. induction 1 as [|evs S ev S' _ IH Hs]; [by rewrite app_nil_r|]. rewrite app_assoc.
  destruct Hs as [rings h ps next left sh i s ev s' Hi Hst Hidle Hw
                 |rings h ps next left sh fuel late s h' m' sh' q' Hs Hf Hv Hq
                 |rings h ps next sh h' sh' He].
  - by eapply produce_inv.
  - rewrite app_nil_r. destruct (visit_runs _ _ _ _ _ _ _ _ IH) as (s1 & Hs1 & Hrun). simplify_eq.
    destruct (Hrun fuel late Hf) as (h1 & m1 & sh1 & q1 & Hv1 & Hq1 & Hinv & _).
    rewrite Hv in Hv1. by simplify_eq.
  - rewrite app_nil_r. destruct (end_runs _ _ _ _ _ _ _ IH) as (h1 & sh1 & He1 & Hinv). rewrite He in He1. by simplify_eq.
Qed.

(** ** Turns *)

Definition reaches (S S' : System) : Prop := exists evs, sys_reach S evs S'.

Lemma reaches_refl S : reaches S S.
Proof. exists []. apply reach_start. Qed.

Lemma reaches_step S S1 ev S2 : reaches S S1 -> sys_step S1 ev S2 -> reaches S S2.
Proof. intros [evs H] Hs. exists (evs ++ ev). by eapply reach_step. Qed.

Lemma reaches_trans S0 S1 S2 : reaches S0 S1 -> reaches S1 S2 -> reaches S0 S2.
Proof. intros H [evs H']. induction H' as [|evs S ev S' _ IH Hs]; [done|]. by eapply reaches_step. Qed.

Lemma reaches_inv l0 S0 S : sys_inv l0 S0 -> reaches S0 S -> sys_inv l0 S.
Proof. intros [evs0 H0] [evs Hr]. exists (evs0 ++ evs). by eapply reach_inv. Qed.

Lemma produced_reach rings h ps next left sh i s s' :
  rings !! i = Some s -> produced i s s' ->
  reaches (mkSystem rings h ps next left sh) (mkSystem (<[i := s']> rings) h ps next left sh).
Proof.
  intros Hi. induction 1 as [s|s s1 ev s2 _ IH Hst Hidle Hw].
  - rewrite list_insert_id by done. apply reaches_refl.
  - eapply reaches_step; [by apply IH|]. replace (<[i := s2]> rings) with (<[i := s2]> (<[i := s1]> rings)) by apply list_insert_insert_eq.
    eapply sys_produce; [|done|done|done]. apply list_lookup_insert_eq. by eapply lookup_lt_Some.
Qed.

Lemma produced_queue i s s' : rs s = RIdle -> produced i s s' -> rq s' = rq s.
Proof.
  intros Hs Hp. enough (rq s' = rq s /\ rs s' = RIdle) by tauto.
  induction Hp as [s|s s1 ev s2 _ IH Hst Hidle _]; [done|]. destruct (IH Hs) as [<- Hs1].
  split; [|done]. by apply (producer_step s1 ev s2).
Qed.

(** The queues a turn visits from [next] on. *)
Fixpoint visited (len next n : nat) : list nat :=
  match n with
  | O => []
  | S n => next :: visited len ((next + 1) mod len) n
  end.

Lemma visited_elem len next n i :
  (0 < len)%nat -> i ∈ visited len next n -> i = next \/ exists j, (0 < j < n)%nat /\ i = ((next + j) mod len)%nat.
Proof.
  intros Hl. revert next. induction n as [|n IH]; intros next Hi; [by apply elem_of_nil in Hi|].
  simpl in Hi. apply elem_of_cons in Hi as [->|Hi]; [by left|]. right.
  assert (0 < n)%nat by (destruct n; [by apply elem_of_nil in Hi|lia]).
  apply IH in Hi as [->|(j & Hj & ->)]; [exists 1%nat; split; [lia|done]|].
  exists (S j). split; [lia|]. rewrite Nat.Div0.add_mod_idemp_l. f_equal. lia.
Qed.

Lemma visited_nodup len next n : (next < len)%nat -> (n <= len)%nat -> NoDup (visited len next n).
Proof.
  revert next. induction n as [|n IH]; intros next Hn Hl; [constructor|]. simpl. constructor.
  - intros Hi. assert (0 < n)%nat by (destruct n; [by apply elem_of_nil in Hi|lia]).
    apply visited_elem in Hi; [|lia].
    assert (exists j, (0 < j < len)%nat /\ next = ((next + j) mod len)%nat) as (j & Hj & Heq).
    { destruct Hi as [Hi|(j & Hj & Hi)]; [exists 1%nat|exists (S j)].
      - split; [lia|done].
      - split; [lia|]. rewrite Nat.Div0.add_mod_idemp_l in Hi. rewrite Hi at 1. f_equal. lia. }
    destruct (decide (next + j < len)%nat).
    + rewrite Nat.mod_small in Heq by lia. lia.
    + replace (next + j)%nat with (next + j - len + 1 * len)%nat in Heq by lia.
      rewrite Nat.Div0.mod_add, Nat.mod_small in Heq by lia. lia.
  - apply IH; [|lia]. apply Nat.mod_upper_bound. lia.
Qed.

Lemma visited_length len next n : length (visited len next n) = n.
Proof. revert next. induction n as [|n IH]; intros next; simpl; [done|]. by rewrite IH. Qed.

(** A turn visits every queue. *)
Lemma visited_all len next i : (next < len)%nat -> (i < len)%nat -> i ∈ visited len next len.
Proof.
  intros Hn Hi. pose proof (visited_nodup len next len Hn (le_n _)) as Hnd.
  assert (visited len next len ≡ₚ seq 0 len) as ->; [|by apply elem_of_seq; lia].
  apply submseteq_length_Permutation; [apply NoDup_submseteq; [done|]|by rewrite length_seq, visited_length].
  intros k Hk. apply elem_of_seq. apply visited_elem in Hk as [->|(j & _ & ->)]; [lia| |lia].
  split; [lia|]. apply Nat.mod_upper_bound. lia.
Qed.

(** Ring [i] after its visit in state [s], which published [m]. *)
Definition left_by (world : nat -> sys) (i : nat) (m : mem) (s : sys) : Prop :=
  exists q, s = mkSys m (wq (world i)) (ws (world i)) q RIdle.

(** The producers work on a ring until its visit. *)
Definition awaits (fuel : nat) (world : nat -> sys) (rings : list sys) (i : nat) : Prop :=
  forall s, rings !! i = Some s -> produced i s (world i) /\ elem_capacity (rq s) + 2 <= Z.of_nat fuel.

Lemma inv_idle l0 S i s : sys_inv l0 S -> s_rings S !! i = Some s -> rs s = RIdle.
Proof.
  intros (evs & gs & _ & _ & Hw & _) Hi.
  destruct (Forall2_lookup_l _ _ _ _ _ (wired_rings _ _ _ _ Hw) Hi) as (g & _ & Hok).
  by destruct Hok as (? & ? & ? & ? & _ & _ & _ & _ & _ & ?).
Qed.

Lemma inv_length l0 S : sys_inv l0 S -> length (queues (s_handler S)) = length (s_rings S).
Proof. intros (evs & gs & _ & _ & Hw & _). by rewrite (wired_queues _ _ _ _ Hw), length_fmap. Qed.

(** One visit, the producer of the ring first. *)
Lemma visit_run l0 fuel late world ps rings h next n sh :
  sys_inv l0 (mkSystem rings h ps next (S n) sh) -> awaits fuel world rings next ->
  exists h' m' sh' rings',
    visit Release e (hm ps) fuel late h sh next (smem (world next)) = Ok (Some (h', m', sh'))
    /\ sys_inv l0 (mkSystem rings' h' ps ((next + 1) mod length rings) n sh')
    /\ reaches (mkSystem rings h ps next (S n) sh)
         (mkSystem rings' h' ps ((next + 1) mod length rings) n sh')
    /\ length rings' = length rings
    /\ (exists s', rings' !! next = Some s' /\ left_by world next m' s')
    /\ (forall i, i <> next -> rings' !! i = rings !! i).
Proof.
  intros Hinv Haw. destruct Hinv as [evs Hby] eqn:Hx; clear Hx. destruct (visit_runs _ _ _ _ _ _ _ _ Hby) as (s & Hs & _).
  destruct (Haw s Hs) as [Hp Hcap].
  pose proof (produced_reach rings h ps next (S n) sh next s (world next) Hs Hp) as Hreach.
  pose proof (reaches_inv l0 _ _ Hinv Hreach) as [evs1 Hinv1].
  destruct (visit_runs _ _ _ _ _ _ _ _ Hinv1) as (s1 & Hs1 & Hrun).
  rewrite list_lookup_insert_eq in Hs1 by (by eapply lookup_lt_Some). injection Hs1 as <-.
  assert (rq (world next) = rq s) as Hrq.
  { eapply produced_queue; [|exact Hp]. by apply (inv_idle l0 _ next s Hinv). }
  destruct (Hrun fuel late) as (h' & m' & sh' & q' & Hv & Hq' & Hinv' & _); [by rewrite Hrq|].
  pose proof (inv_length _ _ Hinv) as Hlen. simpl in Hlen. rewrite Hlen in Hinv'.
  set (rings' := put_ring (<[next := world next]> rings) next m' q') in *.
  exists h', m', sh', rings'. split_and!; [exact Hv|by exists evs1| | | |].
  - eapply reaches_step; [exact Hreach|]. rewrite <- Hlen.
    apply (sys_visit (<[next := world next]> rings) h ps next n sh fuel late (world next)); [|by rewrite Hrq|exact Hv|exact Hq'].
    apply list_lookup_insert_eq. by eapply lookup_lt_Some.
  - unfold rings', put_ring. by rewrite length_alter, length_insert.
  - eexists. split; [|by exists q']. unfold rings'. rewrite (put_ring_insert _ _ _ (world next)).
    + apply list_lookup_insert_eq. rewrite length_insert. by eapply lookup_lt_Some.
    + apply list_lookup_insert_eq. by eapply lookup_lt_Some.
  - intros i Hi. unfold rings', put_ring. rewrite list_lookup_alter, decide_False by done.
    by rewrite list_lookup_insert_ne.
Qed.

Lemma visits_run l0 fuel late world ps n rings h next sh pub :
  sys_inv l0 (mkSystem rings h ps next n sh) -> (n <= length rings)%nat ->
  (forall i, i ∈ visited (length rings) next n -> awaits fuel world rings i) ->
  exists rings' h' sh' next' pub',
    visits Release e (hm ps) n fuel late h sh next (fun i => smem (world i)) pub
    = Ok (Some (h', sh', next', pub ++ pub'))
    /\ sys_inv l0 (mkSystem rings' h' ps next' 0 sh')
    /\ reaches (mkSystem rings h ps next n sh) (mkSystem rings' h' ps next' 0 sh')
    /\ length rings' = length rings /\ pub'.*1 = visited (length rings) next n
    /\ (forall i m, (i, m) ∈ pub' -> exists s', rings' !! i = Some s' /\ left_by world i m s')
    /\ (forall i, i ∉ visited (length rings) next n -> rings' !! i = rings !! i).
Proof.
  revert rings h next sh pub. induction n as [|n IH]; intros rings h next sh pub Hinv Hn Haw.
  { exists rings, h, sh, next, []. rewrite app_nil_r. split_and!; try done; [apply reaches_refl|].
    by intros i m []%elem_of_nil. }
  pose proof Hinv as (_ & _ & _ & _ & _ & _ & _ & Hlt & _). simpl in Hlt.
  pose proof (visited_nodup (length rings) next (S n) Hlt Hn) as Hnd. simpl in Hnd.
  apply NoDup_cons in Hnd as [Hnew Hnd].
  destruct (visit_run l0 fuel late world ps rings h next n sh Hinv) as
    (h1 & m1 & sh1 & rings1 & Hv & Hinv1 & Hr1 & Hl1 & Hs1 & Hother); [by apply Haw; left|].
  rewrite <- Hl1 in Hinv1, Hr1.
  destruct (IH rings1 h1 _ sh1 (pub ++ [(next, m1)]) Hinv1) as
    (rings' & h' & sh' & next' & pub' & Hrun & Hinv' & Hr' & Hl' & Hk & Hpub & Hrest); [lia| |].
  { intros i Hi s Hs. rewrite Hl1 in Hi. rewrite Hother in Hs by (intros ->; done). apply Haw; [by right|done]. }
  rewrite Hl1 in *. exists rings', h', sh', next', ((next, m1) :: pub').
  pose proof (inv_length _ _ Hinv) as Hlen. simpl in Hlen. split_and!.
  - cbn [visits]. rewrite Hv. cbn [rbind]. rewrite Hlen, Hrun. by rewrite <- app_assoc.
  - exact Hinv'.
  - eapply reaches_trans; [exact Hr1|exact Hr'].
  - done.
  - csimpl. by rewrite Hk.
  - intros i m Him. apply elem_of_cons in Him as [[= -> ->]|Him]; [|by apply Hpub]. rewrite Hrest by done. done.
  - intros i Hi. apply not_elem_of_cons in Hi as [Hne Hi]. rewrite Hrest by done. by apply Hother.
Qed.

(** What the visits left is what the loop carries to the next turn. *)
Lemma rings_after_eq world rings' qs pub len next :
  (next < len)%nat -> length rings' = len -> qs = rq <$> rings' -> pub.*1 = visited len next len ->
  (forall i m, (i, m) ∈ pub -> exists s', rings' !! i = Some s' /\ left_by world i m s') ->
  rings_after world qs pub = rings'.
Proof.
  intros Hn Hl -> Hk Hpub. apply list_eq. intros i. unfold rings_after.
  rewrite list_lookup_imap, list_lookup_fmap. destruct (rings' !! i) as [s'|] eqn:Hi; [|done]. simpl.
  assert (i ∈ pub.*1) as Hin by (rewrite Hk; apply visited_all; [done|]; apply lookup_lt_Some in Hi; lia).
  apply list_elem_of_fmap in Hin as ([i' m] & -> & Him). simpl in *.
  rewrite (elem_of_list_to_map_1 _ i' m); [|rewrite Hk; by apply visited_nodup|exact Him].
  destruct (Hpub i' m Him) as (s & Hs & q & ->). rewrite Hi in Hs. by injection Hs as ->.
Qed.

Definition of_core (c : AggregationCore) (reqs : list (option Request)) (next : nat) (rings : list sys) : System :=
  mkSystem rings (queue_handler c) (parser c) next (length rings) (aggregator c, exporter c, reqs).

Lemma turn_run l0 late world c reqs next rings :
  sys_inv l0 (of_core c reqs next rings) ->
  (forall i s, rings !! i = Some s -> produced i s (world i)) ->
  exists c' reqs' next' pub,
    core_turn (E := E) Release e export (turn_fuel c) late c reqs next (fun i => smem (world i))
    = Ok (Some (c', reqs', next', pub))
    /\ let rings' := rings_after world (queues (queue_handler c')) pub in
      sys_inv l0 (of_core c' reqs' next' rings')
      /\ reaches (of_core c reqs next rings) (of_core c' reqs' next' rings')
      /\ length rings' = length rings.
Proof.
  intros Hinv Hp. unfold of_core in *.
  pose proof Hinv as (_ & gs & _ & _ & Hw & _ & _ & Hlt & _). simpl in Hw, Hlt.
  pose proof (inv_length _ _ Hinv) as Hlen. simpl in Hlen.
  destruct (visits_run l0 (turn_fuel c) late world (parser c) (length rings) rings (queue_handler c) next
    (aggregator c, exporter c, reqs) [] Hinv (le_n _)) as
    (rings' & h1 & sh1 & next' & pub & Hrun & Hinv1 & Hr1 & Hl1 & Hk & Hpub & _).
  { intros i _ s Hs. split; [by apply Hp|]. unfold turn_fuel.
    assert (Z.to_nat (elem_capacity (rq s)) <= list_max (Z.to_nat ∘ elem_capacity <$> queues (queue_handler c)))%nat.
    { apply (proj1 (Forall_forall _ _) (proj1 (list_max_le _ _) (le_n _))). rewrite (wired_queues _ _ _ _ Hw).
      apply (list_elem_of_lookup_2 _ i). by rewrite !list_lookup_fmap, Hs. }
    lia. }
  destruct Hinv1 as [evs1 Hinv1]. destruct (end_runs _ _ _ _ _ _ _ Hinv1) as (h' & [[a' ex'] reqs'] & He & Hby').
  pose proof (ex_intro _ evs1 Hby' : sys_inv _ _) as Hinv'.
  pose proof Hby' as (gs' & _ & _ & Hw' & _). simpl in Hw'.
  pose proof (inv_length _ _ Hinv') as Hlen'. simpl in Hlen'.
  assert (rings_after world (queues h') pub = rings') as Hra.
  { apply (rings_after_eq world rings' _ pub (length rings) next); [done|done| |done|done].
    apply (wired_queues _ _ _ _ Hw'). }
  exists (mkCore h' (parser c) (shard c) a' ex'), reqs', next', pub. simpl. rewrite Hra. split_and!.
  - unfold core_turn, turn. rewrite Hlen, Hrun. cbn [rbind app]. rewrite He. done.
  - by rewrite <- Hlen'.
  - eapply reaches_step; [exact Hr1|]. rewrite <- Hlen'. by apply sys_end.
  - done.
Qed.

(** The loop returns once the flag is seen, and not before. *)
Lemma loop_run l0 stop late env turns k n c reqs next rings :
  (forall k rings i s, rings !! i = Some s -> produced i s (env k rings i)) ->
  sys_inv l0 (of_core c reqs next rings) -> (n <= turns)%nat -> stop (k + n)%nat = true ->
  exists c' reqs' next' rings',
    run_loop (E := E) Release e export turns k stop late env c reqs next rings = Ok (Some (c', reqs', rings'))
    /\ reaches (of_core c reqs next rings) (of_core c' reqs' next' rings').
Proof.
  intros Henv. revert k n c reqs next rings. induction turns as [|turns IH]; intros k n c reqs next rings Hinv Hn Hst.
  { replace (k + n)%nat with k in Hst by lia. exists c, reqs, next, rings. simpl. rewrite Hst.
    split; [done|apply reaches_refl]. }
  cbn [run_loop]. destruct (stop k) eqn:Hk.
  { exists c, reqs, next, rings. split; [done|apply reaches_refl]. }
  destruct n as [|n]; [rewrite Nat.add_0_r in Hst; congruence|].
  destruct (turn_run l0 (late k) (env k rings) c reqs next rings Hinv (Henv k rings))
    as (c1 & reqs1 & next1 & pub & Hturn & Hinv1 & Hr1 & _).
  rewrite Hturn. cbn [rbind].
  destruct (IH (S k) n c1 reqs1 next1 _ Hinv1) as (c' & reqs' & next' & rings' & Hrun & Hr); [lia| |].
  { rewrite <- Hst. f_equal. lia. }
  exists c', reqs', next', rings'. split; [exact Hrun|]. by eapply reaches_trans.
Qed.

Lemma loop_waits l0 stop late env turns k c reqs next rings :
  (forall k rings i s, rings !! i = Some s -> produced i s (env k rings i)) ->
  sys_inv l0 (of_core c reqs next rings) -> (forall j, (j <= turns)%nat -> stop (k + j)%nat = false) ->
  run_loop (E := E) Release e export turns k stop late env c reqs next rings = Ok None.
Proof.
  intros Henv. revert k c reqs next rings. induction turns as [|turns IH]; intros k c reqs next rings Hinv Hst;
    cbn [run_loop]; (replace (stop k) with false by (rewrite <- (Hst 0%nat ltac:(lia)); f_equal; lia)); [done|].
  destruct (turn_run l0 (late k) (env k rings) c reqs next rings Hinv (Henv k rings))
    as (c1 & reqs1 & next1 & pub & Hturn & Hinv1 & _).
  rewrite Hturn. cbn [rbind]. apply (IH (S k) c1 reqs1 next1 _ Hinv1).
  intros j Hj. rewrite <- (Hst (S j)) by lia. f_equal. lia.
Qed.

(** ** The start *)

Definition booted (s : sys) : Prop := exists a b, 0 <= a <= 31 /\ 0 <= b <= 30 /\ boots a b s.

Lemma core_starts log2 rings sh id_id az_id ep no_ip desc :
  log2_law log2 -> rings <> [] -> Forall booted rings ->
  exists core, core_new (E := E) Release log2 (Ok ∘ rq <$> rings) sh id_id az_id ep no_ip desc = Ok core
    /\ sys_inv_by (ledger_new id_id az_id no_ip) [] (start_system rings core)
    /\ current_timeslot (clock (queue_handler core)) = None.
Proof.
  intros Hlog Hne Hboot. destruct (core_parser_complete (E := E) Release) as (ps & Hps & Hall).
  unfold core_new, new_from_views.
  assert (forall l, expect_queues (E := E) (Ok ∘ rq <$> l) = Ok (rq <$> l)) as Hx.
  { intros l. induction l as [|s l IH]; [done|]. rewrite fmap_cons. cbn [compose expect_queues]. by rewrite IH. }
  rewrite Hx. cbn [rbind]. rewrite (proj1 (new_values Release log2 Hlog)). cbn [rbind].
  unfold VirtualClock.new. change (mkFastDiv 9382 48) with div30. rewrite div30_reciprocal. cbn [rbind].
  rewrite Hps. cbn [rbind]. clear Hps.
  eexists. split; [reflexivity|]. split; [|done].
  exists (replicate (length rings) log_init), [], []. cbn [s_rings s_handler s_parser s_next s_shared start_system
    queue_handler parser aggregator exporter]. split_and!.
  - split; cbn [queues clock timeslot_div inputs divider add_inputs set_inputs].
    + clear -Hboot. induction Hboot as [|s rings (a & b & Ha & Hb & Hs) _ IH]; simpl; constructor; [|done].
      exists a, b, s, []. split_and!; [lia..|done|constructor|done|]. by destruct Hs as (q & _ & ->).
    + done.
    + rewrite app_nil_l. by rewrite length_replicate, length_fmap.
    + done.
    + split; [done|]. by apply Forall_replicate.
  - intros i g Hg. by apply lookup_replicate in Hg as [-> _].
  - intros i g Hg. apply lookup_replicate in Hg as [-> _]. constructor.
  - destruct rings; [done|]. simpl. lia.
  - exact Hall.
  - constructor.
  - split; [apply inv_new|]. split; [|constructor]. by destruct (negb _).
  - split.
    + intros i g Hg. by apply lookup_replicate in Hg as [-> _].
    + intros i g inp Hg Hi. apply lookup_replicate in Hg as [-> _]. simpl in Hi.
      by apply lookup_replicate in Hi as [-> _].
    + exists None, None. split; [constructor|]. done.
Qed.

(** What the reducer did with the elements that the producers of [n] rings
    committed: those consumed from a ring are the first committed to it; of
    them exactly those that [kept] selects were handled, in order; the
    callbacks form windows of one slot each; and the requests are the points
    of the ledger of the handled messages. *)
Definition accounted (l0 : Ledger) (n : nat) (evs : list (nat * event)) (reqs : list (option Request)) : Prop :=
  exists (consumed : nat -> list (list Z)) cs oss,
    (forall i, (i < n)%nat -> consumed i `prefix_of` committed i evs /\ handled i cs = kept (consumed i))
    /\ (exists prev open, windows (e := e) div30 (E := E) Release cs prev open)
    /\ Forall2 (stands_for e) cs oss
    /\ Forall2 sent reqs (snd (ledger_run l0 (concat oss))).

Lemma inv_accounted l0 evs S : sys_inv_by l0 evs S -> accounted l0 (length (s_rings S)) evs (s_shared S).2.
Proof.
  intros (gs & cs & oss & Hw & Htr & _ & _ & _ & Hcs & Hsh & Hh).
  exists (fun i => from_option don [] (gs !! i)), cs, oss.
  split_and!; [| |done|by destruct (s_shared S) as [[a ex] reqs]; apply Hsh].
  2:{ destruct Hh as [_ _ (prev & open & Hwin & _)]. by exists prev, open. }
  intros i Hi. destruct (lookup_lt_is_Some_2 _ _ Hi) as [s Hs].
  destruct (Forall2_lookup_l _ _ _ _ _ (wired_rings _ _ _ _ Hw) Hs) as (g & Hg & Hok). rewrite Hg. simpl.
  rewrite <- (proj1 (Htr i g Hg)). split; [by eapply ring_prefix|by apply (flow_kept _ _ _ Hh)].
Qed.

End system.

(** ** The theorem *)



(** ** Witness *)

Lemma boot64_booted : booted boot64.
Proof. exists 2, 6. split_and!; [lia..|exact boot64_boots]. Qed.

(** A producer starts a batch; then the core visits its ring. *)
Definition loaded64 : sys := match act Release boot64 AWriter with Some (_, s) => s | None => boot64 end.


(** The producers open a batch on each ring; the flag is set after two turns. *)
Definition opening (s : sys) : sys :=
  match act Release s AWriter with
  | Some (Tau, s') => match rs s' with RIdle => s' | _ => s end
  | _ => s
  end.

Definition opened (k : nat) (rings : list sys) (i : nat) : sys :=
  match rings !! i with Some s => opening s | None => boot64 end.

Lemma opened_produced k rings i s : rings !! i = Some s -> produced LittleEndian i s (opened k rings i).
Proof.
  intros Hi. unfold opened, opening. rewrite Hi. destruct (act Release s AWriter) as [[ev s']|] eqn:Ha; [|constructor].
  destruct ev; try constructor. destruct (rs s') eqn:Hrs; try constructor.
  apply (produced_step _ _ s s Tau s'); [constructor|by apply (act_step Release s AWriter)|done|done].
Qed.

