(* ===== verification/Progress.v ===== *)
(** * The core does not stall (crates/reducer/src/queue_handler.rs)

    The handler advances its clock only when every input has reported a later
    slot, and a visit may be cut short by the time limit.  Still, while every
    ring holds elements, two turns of the loop consume at least one of them:
    the first turn reads an element or makes every input report, and then the
    clock moves to the slot of one of the first elements.  So the core goes on
    until the ring of some producer is empty.  The slots are compared with 16
    bits; for the clock to start at the earliest one, the first elements of
    the rings must lie less than [2^15] slots apart. *)

From S2P Require Import Prelude Float64 FastDiv VirtualClock ElementQueue RenderParser QueueHandler.
From S2P Require Import OtlpExport OtlpEncoding RcHashMap Aggregator Sums AggregatorSpec MessageHandler Core Windows System.

Local Open Scope rust_scope.

(** ** Differences of slots *)

Lemma delta_range a b : - 2 ^ 15 <= signed_delta_u16 a b < 2 ^ 15.
Proof. apply (as_signed_range 16); [lia|]. apply wrap_fits. lia. Qed.

Lemma wrap_delta a b : wrap 16 (signed_delta_u16 a b) = wrap 16 (a - b).
Proof. unfold signed_delta_u16, wrapping_sub. rewrite as_signed_mod; [done|lia|]. apply wrap_fits. lia. Qed.

Lemma delta_diff a b c :
  - 2 ^ 15 <= signed_delta_u16 a c - signed_delta_u16 b c < 2 ^ 15 ->
  signed_delta_u16 a b = signed_delta_u16 a c - signed_delta_u16 b c.
Proof.
  intros H. unfold signed_delta_u16 at 1, wrapping_sub.
  replace (wrap 16 (a - b)) with (wrap 16 (signed_delta_u16 a c - signed_delta_u16 b c)); [by apply (as_signed_wrap 16)|].
  pose proof (wrap_delta a c) as H1. pose proof (wrap_delta b c) as H2. unfold wrap in *.
  rewrite Zminus_mod, H1, H2, <- Zminus_mod. f_equal. lia.
Qed.

(** ** Advancing a clock whose inputs lie ahead *)

(** No input has reported a slot before the current one. *)
Definition ahead (c : VirtualClock) : Prop :=
  forall cur t, current_timeslot c = Some cur -> mkInput (Some t) ∈ inputs c -> 0 <= signed_delta_u16 t cur.

Lemma min_loop_lower {E} f acc l n :
  min_loop (E := E) f acc l = Ok (Some n) ->
  (forall a, acc = Some a -> n <= a) /\ (forall t, mkInput (Some t) ∈ l -> n <= f t).
Proof.
  revert acc. induction l as [|[[ts|]] l IH]; intros acc H; simpl in H; [|cbn [rbind unwrap] in H|done].
  { injection H as ->. split; [by intros a [= ->]; lia|]. by intros t []%elem_of_nil. }
  destruct (IH _ H) as [H1 H2]. specialize (H1 _ eq_refl). split.
  - intros a ->. lia.
  - intros t [[= ->]|Ht]%elem_of_cons; [|by apply H2]. destruct acc; lia.
Qed.

Lemma advance_ahead {E} c adv c' :
  slots_fit c -> current_timeslot c <> None -> ahead c -> advance (E := E) c = Ok (adv, c') -> ahead c'.
Proof.
  intros Hfit Hset Hah Hadv. unfold advance in Hadv. destruct (current_timeslot c) as [cur|] eqn:Hcur; [|done].
  destruct (min_input_advance c) as [n|] eqn:Hn; [|by simplify_eq].
  destruct (Z.ltb_spec 0 n) as [Hpos|]; [|by simplify_eq]. injection Hadv as _ <-.
  unfold min_input_advance in Hn. rewrite Hcur in Hn.
  destruct (min_advance_spec cur _ n Hn) as [([ts] & Hin & t0 & Ht0 & Hd) Hall]. simpl in Ht0. subst ts n.
  destruct Hfit as [Hc Hi]. rewrite Forall_forall in Hi, Hall.
  intros cur' t Hcur' Ht. simpl in Hcur', Ht. injection Hcur' as <-.
  rewrite (add_delta t0 cur (Hi _ Hin t0 eq_refl) (Hc cur Hcur)).
  destruct (Hall _ Ht) as (t' & [= <-] & Hle). pose proof (delta_range t cur).
  rewrite (delta_diff t t0 cur) by lia. lia.
Qed.

(** A clock that every input has left moves to the slot of one of them. *)
Lemma advance_moves {E} c cur :
  slots_fit c -> current_timeslot c = Some cur -> ahead c -> inputs c <> [] ->
  Forall (fun i => exists t, timeslot i = Some t /\ t <> cur) (inputs c) ->
  exists c' t, advance (E := E) c = Ok (true, c') /\ inputs c' = inputs c /\ current_timeslot c' = Some t
    /\ mkInput (Some t) ∈ inputs c.
Proof.
  intros Hfit Hcur Hah Hne Hall. unfold advance. rewrite Hcur.
  assert (exists n, min_input_advance c = Some n) as [n Hn].
  { unfold min_input_advance. rewrite Hcur. generalize (@None Z).
    induction Hall as [|[ts] l (t & Ht & _) _ IH]; intros acc; [done|]. simpl in *. subst ts.
    destruct l; [|by apply IH]. simpl. by eexists. }
  rewrite Hn. pose proof Hn as Hn'. unfold min_input_advance in Hn'. rewrite Hcur in Hn'.
  destruct (min_advance_spec cur _ n Hn') as [([ts] & Hin & t & Ht & Hd) _]. simpl in Ht. subst ts.
  destruct Hfit as [Hc Hi]. rewrite Forall_forall in Hi, Hall. destruct (Hall _ Hin) as (t' & [= <-] & Hne').
  assert (0 < n) as Hpos.
  { pose proof (Hah cur t Hcur Hin). destruct (decide (n = 0)) as [Hz|]; [|lia].
    exfalso. apply Hne', (delta_zero t cur (Hi _ Hin t eq_refl) (Hc cur Hcur)). lia. }
  rewrite (proj2 (Z.ltb_lt _ _)) by done. eexists _, t. split; [done|]. split; [done|]. split; [|done]. simpl.
  f_equal. rewrite <- Hd. apply (add_delta t cur (Hi _ Hin t eq_refl) (Hc cur Hcur)).
Qed.

(** The inputs reported slots less than [2^15] after [base]. *)
Definition near (base : Z) (l : list Input) : Prop :=
  forall t, mkInput (Some t) ∈ l -> 0 <= signed_delta_u16 t base.

(** A clock that is set for the first time starts at the earliest slot. *)
Lemma advance_sets {E} c base adv c' :
  slots_fit c -> current_timeslot c = None -> inputs c <> [] -> near base (inputs c) ->
  advance (E := E) c = Ok (adv, c') ->
  ahead c' /\ inputs c' = inputs c
  /\ (Forall (fun i => is_Some (timeslot i)) (inputs c) ->
      exists t, current_timeslot c' = Some t /\ mkInput (Some t) ∈ inputs c).
Proof.
  intros Hfit Hcur Hne Hnear Hadv. unfold advance in Hadv. rewrite Hcur in Hadv.
  unfold earliest_input_timeslot in Hadv. destruct (existsb _ _) eqn:He.
  { injection Hadv as _ <-. split; [by intros ? ? ?|]. split; [done|]. intros Hset. exfalso.
    apply existsb_exists in He as (i & Hi%list_elem_of_In & Hn%bool_decide_eq_true).
    rewrite Forall_forall in Hset. destruct (Hset i Hi) as [? ?]. congruence. }
  assert (Forall (fun i => is_Some (timeslot i)) (inputs c)) as Hset.
  { apply Forall_forall. intros i Hin. destruct (timeslot i) eqn:Ht; [by eauto|]. exfalso.
    assert (existsb (fun i => bool_decide (timeslot i = None)) (inputs c) = true) as Hx; [|congruence].
    apply existsb_exists. exists i. split; [by apply list_elem_of_In|]. by apply bool_decide_eq_true. }
  destruct (min_loop_set (E := E) (fun ts => ts) None _ Hset) as (n & Hn & [|(t0 & Hin0 & ->)]); [by right|done|].
  rewrite Hn in Hadv. cbn [rbind unwrap] in Hadv.
  destruct (min_loop_set (E := E) (fun ts => signed_delta_u16 ts t0) None _ Hset) as (m & Hm & [|(t & Hin & ->)]);
    [by right|done|].
  rewrite Hm in Hadv. cbn [rbind unwrap] in Hadv. destruct (min_loop_lower _ _ _ _ Hm) as [_ Hlow].
  destruct Hfit as [_ Hi]. rewrite Forall_forall in Hi.
  rewrite (add_delta t t0 (Hi _ Hin t eq_refl) (Hi _ Hin0 t0 eq_refl)) in Hadv. injection Hadv as _ <-.
  split; [|split; [done|]]; [|intros _; by exists t].
  intros cur t1 [= <-] Ht1. simpl in Ht1. specialize (Hlow t1 Ht1).
  pose proof (Hnear _ Hin0). pose proof (Hnear _ Hin). pose proof (Hnear _ Ht1).
  pose proof (delta_range t0 base). pose proof (delta_range t base). pose proof (delta_range t1 base).
  rewrite (delta_diff t1 t0 base), (delta_diff t t0 base) in Hlow by lia. rewrite (delta_diff t1 t base) by lia. lia.
Qed.

(** ** The elements that wait *)

Definition total (hs : list (list (list Z))) : nat := sum_list_with length hs.

Lemma total_insert hs i xs k :
  hs !! i = Some xs -> (total (<[i := drop k xs]> hs) + Nat.min k (length xs) = total hs)%nat.
Proof.
  unfold total. revert i. induction hs as [|ys hs IH]; intros [|i] Hi; simpl in *; [done|done| |].
  - injection Hi as ->. rewrite length_drop. lia.
  - specialize (IH i Hi). lia.
Qed.

Lemma total_zero hs xs : total hs = 0%nat -> xs ∈ hs -> xs = [].
Proof.
  unfold total. induction hs as [|ys hs IH]; intros Ht Hx; [by apply elem_of_nil in Hx|]. simpl in Ht.
  apply elem_of_cons in Hx as [->|Hx]; [destruct ys; [done|simpl in Ht; lia]|]. apply IH; [lia|done].
Qed.

Section progress.
Context {ref : Type} {store : Type -> Type -> Type} {ref_eq : EqDecision ref}
  {ref_countable : Countable ref} {rc : RcHashMap ref store} {rc_laws : RcHashMapLaws ref store}
  {order : HashOrder} {order_laws : HashOrderLaws} {E : Type}
  (e : endian) (export : list Z -> Request -> Response).

Local Abbreviation Sys := (System (ref := ref) (store := store)).
Local Abbreviation step := (sys_step (E := E) e export).
Local Abbreviation inv_by := (sys_inv_by (E := E) e).

Definition waiting (S : Sys) : list (list (list Z)) := held <$> s_rings S.

(** The core alone, through the ends of [k] turns. *)
Inductive ran (S : Sys) : nat -> Sys -> Prop :=
| ran_start : ran S 0 S
| ran_step k S1 S2 :
    ran S k S1 -> step S1 [] S2 -> ran S (if decide (s_left S1 = 0%nat) then Datatypes.S k else k) S2.

(** The first element with a timestamp that producer [i] committed. *)
Definition first_stamped (i : nat) (evs : list (nat * event)) : option (list Z) :=
  head (filter (fun x => 8 <= length x)%nat (committed i evs)).

(** The first elements lie less than [2^15] slots apart. *)
Definition starts_near (evs : list (nat * event)) : Prop :=
  exists base, forall i x, first_stamped i evs = Some x ->
    0 <= signed_delta_u16 (slot16 (e := e) div30 x) base.

(** *** One step of the core *)

Lemma visit_step l0 evs rings h ps next left sh S2 :
  inv_by l0 evs (mkSystem rings h ps next (S left) sh) -> step (mkSystem rings h ps next (S left) sh) [] S2 ->
  exists xs k, (held <$> rings) !! next = Some xs /\ inv_by l0 evs S2
    /\ waiting S2 = <[next := drop k xs]> (held <$> rings)
    /\ visited_clock e h (s_handler S2) next k xs
    /\ s_next S2 = ((next + 1) mod length rings)%nat /\ s_left S2 = left.
Proof.
  intros Hinv Hst. destruct (visit_runs (E := E) e export _ _ _ _ _ _ _ _ Hinv) as (s & Hs & Hrun).
  pose proof (inv_length (E := E) e l0 _ (ex_intro _ evs Hinv)) as Hlen. simpl in Hlen.
  inversion Hst as [|? ? ? ? ? ? fuel late s1 h' m' sh' q' Hs1 Hf Hv Hq|]; subst. rewrite Hs in Hs1. injection Hs1 as <-.
  destruct (Hrun fuel late Hf) as (h1 & m1 & sh1 & q1 & Hv1 & Hq1 & Hinv1 & k & Hheld & Hclk).
  rewrite Hv in Hv1. simplify_eq. exists (held s), k.
  split_and!; [by rewrite list_lookup_fmap, Hs|done| |done|simpl; by rewrite Hlen|done].
  unfold waiting. simpl. rewrite (put_ring_insert _ _ _ s) by done. by rewrite list_fmap_insert, Hheld.
Qed.

Lemma end_step l0 evs rings h ps next sh S2 :
  inv_by l0 evs (mkSystem rings h ps next 0 sh) -> step (mkSystem rings h ps next 0 sh) [] S2 ->
  inv_by l0 evs S2 /\ s_rings S2 = rings /\ s_next S2 = next /\ s_left S2 = length rings
  /\ exists adv, advance (E := E) (clock h) = Ok (adv, clock (s_handler S2)).
Proof.
  intros Hinv Hst. destruct (end_runs (E := E) e export _ _ _ _ _ _ _ Hinv) as (h1 & sh1 & He1 & Hinv1).
  inversion Hst as [| |? ? ? ? ? h' sh' He]; subst. rewrite He in He1. simplify_eq.
  pose proof (inv_length (E := E) e l0 _ (ex_intro _ evs Hinv1)) as Hlen. simpl in Hlen.
  split_and!; [done..|]. simpl. unfold end_turn in He.
  destruct (advance (clock h)) as [[adv c']| |]; [|done..]. cbn [rbind] in He. exists adv. f_equal. f_equal.
  destruct adv; [|by injection He as <-]. inv_res. by simplify_eq.
Qed.

(** *** What the invariant says of the clock *)

Lemma inv_clock l0 evs S :
  inv_by l0 evs S ->
  slots_fit (clock (s_handler S)) /\ divider (clock (s_handler S)) = div30
  /\ length (inputs (clock (s_handler S))) = length (s_rings S) /\ s_rings S <> [].
Proof.
  intros (gs & cs & oss & [Hr Hq Hin [_ Hd] Hs] & _ & _ & Hn & _). split_and!; [done..|].
  intros Hz. rewrite Hz in Hn. simpl in Hn. lia.
Qed.

(** An input is at the current slot or at that of the first element. *)
Lemma inv_input l0 evs S i inp xs :
  inv_by l0 evs S -> inputs (clock (s_handler S)) !! i = Some (mkInput inp) -> waiting S !! i = Some xs ->
  inp = current_timeslot (clock (s_handler S))
  \/ exists x xs', xs = x :: xs' /\ inp = Some (slot16 (e := e) div30 x) /\ (8 <= length x)%nat.
Proof.
  intros (gs & cs & oss & Hw & _ & _ & _ & _ & _ & _ & Hflow) Hi Hxs. unfold waiting in Hxs.
  apply list_lookup_fmap_Some in Hxs as (s & -> & Hs).
  destruct (Forall2_lookup_l _ _ _ _ _ (wired_rings _ _ _ _ Hw) Hs) as (g & Hg & Hok).
  rewrite (held_unread Release s g Hok). pose proof (flow_queue _ _ _ _ Hflow i g _ Hg Hi) as Hq. simpl in Hq.
  destruct inp as [t|]; [|by left; symmetry; destruct Hq].
  destruct Hq as [[-> _]|(x & xs' & Hx & Hl & <- & _)]; [by left|]. right. by exists x, xs'.
Qed.

Lemma kept_none xs : kept (e := e) div30 None xs = [] -> filter (fun x => 8 <= length x)%nat xs = [].
Proof.
  induction xs as [|x xs IH]; [done|]. simpl. unfold accepts. rewrite andb_true_r.
  destruct (Nat.leb_spec 8 (length x)); [done|]. rewrite filter_cons_False by lia. apply IH.
Qed.

(** Before the clock is set, an input is at the first slot of its producer. *)
Lemma inv_first l0 evs S i t :
  inv_by l0 evs S -> current_timeslot (clock (s_handler S)) = None ->
  inputs (clock (s_handler S)) !! i = Some (mkInput (Some t)) ->
  exists x, first_stamped i evs = Some x /\ slot16 (e := e) div30 x = t.
Proof.
  intros (gs & cs & oss & Hw & Htr & _ & _ & _ & _ & _ & Hflow) Hcur Hi.
  destruct (lookup_lt_is_Some_2 (s_rings S) i) as [s Hs].
  { rewrite <- (wired_inputs _ _ _ _ Hw). by eapply lookup_lt_Some. }
  destruct (Forall2_lookup_l _ _ _ _ _ (wired_rings _ _ _ _ Hw) Hs) as (g & Hg & Hok).
  pose proof (flow_queue _ _ _ _ Hflow i g _ Hg Hi) as Hq. rewrite Hcur in Hq. simpl in Hq.
  destruct Hq as [[? _]|(x & xs' & Hx & Hl & Ht & _)]; [done|]. exists x. split; [|done].
  destruct (flow_windows _ _ _ _ Hflow) as (prev & open & Hwin & Hst). unfold window_state in Hst.
  rewrite Hcur in Hst. destruct Hst as [-> ->].
  assert (cs = []) as -> by (by inversion Hwin).
  pose proof (flow_kept _ _ _ _ Hflow i g Hg) as Hk. symmetry in Hk. apply kept_none in Hk.
  unfold first_stamped. rewrite <- (proj1 (Htr i g Hg)).
  destruct (ring_prefix Release s g Hok) as [u Hu]. unfold unread in Hx. rewrite Hu, drop_app_length in Hx. subst u.
  by rewrite Hu, filter_app, Hk, filter_cons_True.
Qed.

Lemma inv_near l0 evs S :
  inv_by l0 evs S -> starts_near evs -> current_timeslot (clock (s_handler S)) = None ->
  exists base, near base (inputs (clock (s_handler S))).
Proof.
  intros Hinv [base Hb] Hcur. exists base. intros t Ht. apply list_elem_of_lookup in Ht as [i Hi].
  destruct (inv_first l0 evs S i t Hinv Hcur Hi) as (x & Hx & <-). by apply (Hb i).
Qed.

(** *** The inputs stay ahead *)

Lemma visited_ahead h h' i k xs :
  visited_clock e h h' i k xs -> ahead (clock h) ->
  ahead (clock h') /\ current_timeslot (clock h') = current_timeslot (clock h)
  /\ (forall j, j <> i -> inputs (clock h') !! j = inputs (clock h) !! j).
Proof.
  intros [(_ & _ & ->)|(Hi & _ & _ & _ & inp & Hc & Hinp)] Hah; [done|]. rewrite Hc.
  split_and!; [|done|intros j Hj; by apply list_lookup_insert_ne].
  intros cur t Hcur Ht. simpl in Hcur, Ht. apply list_elem_of_lookup in Ht as [j Hj].
  apply list_lookup_insert_Some in Hj as [(-> & [= ->] & _)|[_ Hj]]; [|apply Hah; [done|by eapply list_elem_of_lookup_2]].
  destruct Hinp as [Hinp|(x & _ & [_ Hf] & [= ->])].
  - rewrite Hcur in Hinp. injection Hinp as ->. by rewrite delta_self.
  - rewrite Hcur in Hf. lia.
Qed.

Lemma core_step l0 evs S S2 :
  inv_by l0 evs S -> starts_near evs -> ahead (clock (s_handler S)) -> step S [] S2 ->
  inv_by l0 evs S2 /\ ahead (clock (s_handler S2)).
Proof.
  intros Hinv Hnear Hah Hst. destruct S as [rings h ps next [|left] sh]; simpl in *.
  - destruct (end_step _ _ _ _ _ _ _ _ Hinv Hst) as (Hinv2 & _ & _ & _ & adv & Hadv). split; [done|].
    destruct (inv_clock _ _ _ Hinv) as (Hfit & _ & Hlen & Hne). simpl in *.
    destruct (current_timeslot (clock h)) eqn:Hcur.
    + apply (advance_ahead (E := E) (clock h) adv); [done|congruence|done|done].
    + destruct (inv_near _ _ _ Hinv Hnear Hcur) as [base Hb].
      apply (advance_sets (E := E) (clock h) base adv _ Hfit Hcur); [|done|done]. intros Hz. rewrite Hz in Hlen. by destruct rings.
  - destruct (visit_step _ _ _ _ _ _ _ _ _ Hinv Hst) as (xs & k & _ & Hinv2 & _ & Hclk & _). split; [done|].
    by apply (visited_ahead h _ next k xs).
Qed.

Lemma committed_mono i evs evs' : committed i evs `prefix_of` committed i (evs ++ evs').
Proof.
  unfold committed. rewrite history_app. unfold log_of. rewrite fold_left_app.
  generalize (fold_left log_step (history i evs) log_init). generalize (history i evs').
  intros t. induction t as [|ev t IH]; intros g; [done|]. simpl. etrans; [|apply IH].
  destruct ev; simpl; try done. by apply prefix_app_r.
Qed.

Lemma starts_near_before evs evs' : starts_near (evs ++ evs') -> starts_near evs.
Proof.
  intros [base Hb]. exists base. intros i x Hx. apply (Hb i). unfold first_stamped in *.
  destruct (committed_mono i evs evs') as [k ->]. rewrite filter_app. by destruct (filter _ (committed i evs)).
Qed.

Lemma reach_ahead l0 S0 evs S :
  inv_by l0 [] S0 -> ahead (clock (s_handler S0)) -> sys_reach (E := E) e export S0 evs S -> starts_near evs ->
  ahead (clock (s_handler S)).
Proof.
  intros H0 Ha0. induction 1 as [|evs S ev S' Hr IH Hs]; intros Hnear; [done|].
  specialize (IH (starts_near_before _ _ Hnear)). pose proof (reach_inv e export l0 [] evs S0 S H0 Hr) as Hinv. simpl in Hinv.
  destruct ev as [|ev evs']; [|by inversion Hs; subst].
  rewrite app_nil_r in Hnear. by apply (core_step l0 evs S S').
Qed.

(** *** Two turns

    [todo] are the queues the turn has still to visit. *)

Definition todo (S : Sys) : list nat := visited (length (s_rings S)) (s_next S) (s_left S).

(** Every queue visited in this turn waits for the clock. *)
Definition all_wait (S : Sys) : Prop :=
  let c := clock (s_handler S) in
  forall i, (i < length (s_rings S))%nat -> i ∉ todo S -> inputs c !! i <> Some (mkInput (current_timeslot c)).

(** A queue still to be visited has an element of the current slot in front. *)
Definition one_ready (S : Sys) : Prop :=
  let c := clock (s_handler S) in
  exists i x xs, i ∈ todo S /\ inputs c !! i = Some (mkInput (current_timeslot c))
    /\ waiting S !! i = Some (x :: xs) /\ current_timeslot c = Some (slot16 (e := e) div30 x).

Lemma visit_total l0 evs S S2 :
  inv_by l0 evs S -> s_left S <> 0%nat -> step S [] S2 ->
  exists xs k, waiting S !! s_next S = Some xs /\ todo S = s_next S :: todo S2
    /\ length (s_rings S2) = length (s_rings S) /\ waiting S2 = <[s_next S := drop k xs]> (waiting S)
    /\ visited_clock e (s_handler S) (s_handler S2) (s_next S) k xs
    /\ (k = 0%nat -> waiting S2 = waiting S)
    /\ (xs <> [] -> k <> 0%nat -> (total (waiting S2) < total (waiting S))%nat)
    /\ (total (waiting S2) <= total (waiting S))%nat.
Proof.
  intros Hinv Hl Hst. destruct S as [rings h ps next [|left] sh]; [done|]. simpl.
  destruct (visit_step _ _ _ _ _ _ _ _ _ Hinv Hst) as (xs & k & Hxs & _ & Hw & Hclk & Hn & Hleft).
  assert (length (s_rings S2) = length rings) as Hlen.
  { pose proof (f_equal length Hw) as Hl'. unfold waiting in Hl'. by rewrite length_insert, !length_fmap in Hl'. }
  exists xs, k. unfold waiting at 1, todo. simpl. rewrite Hn, Hleft, Hlen.
  split_and!; [done|done|done|done|done|..]; rewrite Hw; unfold waiting; simpl.
  - intros ->. by apply list_insert_id.
  - intros Hne Hk. pose proof (total_insert _ _ _ k Hxs). destruct xs; [done|]. simpl in *. lia.
  - pose proof (total_insert _ _ _ k Hxs). lia.
Qed.

(** The first turn: an element is read, or the queues wait. *)
Lemma wait_step l0 evs S S2 :
  inv_by l0 evs S -> s_left S <> 0%nat -> step S [] S2 -> Forall (fun xs => xs <> []) (waiting S) -> all_wait S ->
  (total (waiting S2) < total (waiting S))%nat \/ (waiting S2 = waiting S /\ all_wait S2).
Proof.
  intros Hinv Hl Hst Hne Hwait.
  destruct (visit_total _ _ _ _ Hinv Hl Hst) as (xs & k & Hxs & Htodo & Hlen & _ & Hclk & Hsame & Hless & _).
  assert (xs <> []) as Hxne by (rewrite Forall_lookup in Hne; by eapply Hne).
  destruct (decide (k = 0%nat)) as [->|Hk]; [|left; by apply Hless]. right. split; [by apply Hsame|].
  unfold all_wait in *. rewrite Hlen. intros i Hi Hnt. destruct (decide (i = s_next S)) as [->|Hni].
  - destruct Hclk as [(Hr & _ & ->)|(_ & _ & _ & Hmv & inp & Hc & _)]; [done|].
    destruct (Hmv Hxne ltac:(done) eq_refl) as (x & _ & [_ Hf] & ->). unfold report. simpl.
    rewrite list_lookup_insert_eq by (destruct (inv_clock _ _ _ Hinv) as (_ & _ & -> & _); done).
    intros [= Heq]. rewrite <- Heq, delta_self in Hf. lia.
  - specialize (Hwait i Hi). rewrite Htodo in Hwait. specialize (Hwait ltac:(by apply not_elem_of_cons)).
    destruct Hclk as [(_ & _ & ->)|(_ & _ & _ & _ & inp & -> & _)]; [done|]. simpl. by rewrite list_lookup_insert_ne.
Qed.

(** The end of the first turn. *)
Lemma wait_end l0 evs S S2 :
  inv_by l0 evs S -> starts_near evs -> ahead (clock (s_handler S)) -> s_left S = 0%nat -> step S [] S2 ->
  Forall (fun xs => xs <> []) (waiting S) -> all_wait S ->
  waiting S2 = waiting S /\ one_ready S2.
Proof.
  intros Hinv Hnear Hah Hl Hst Hne Hwait. destruct S as [rings h ps next left sh]. simpl in *. subst left.
  destruct (end_step _ _ _ _ _ _ _ _ Hinv Hst) as (_ & Hr & Hn & Hleft & adv & Hadv).
  destruct (inv_clock _ _ _ Hinv) as (Hfit & _ & Hlen & Hnil). simpl in *.
  assert (inputs (clock h) <> []) as Hin by (intros Hz; rewrite Hz in Hlen; by destruct rings).
  assert (forall i inp, inputs (clock h) !! i = Some (mkInput inp) ->
    exists x xs, waiting (mkSystem rings h ps next 0 sh) !! i = Some (x :: xs)
      /\ inp = Some (slot16 (e := e) div30 x) /\ inp <> current_timeslot (clock h)) as Hall.
  { intros i inp Hi. assert (i < length rings)%nat as Hlt by (rewrite <- Hlen; by eapply lookup_lt_Some).
    assert (inp <> current_timeslot (clock h)) as Hnc.
    { intros ->. by apply (Hwait i Hlt ltac:(by intros []%elem_of_nil)). }
    destruct (lookup_lt_is_Some_2 (waiting (mkSystem rings h ps next 0 sh)) i) as [xs Hxs].
    { unfold waiting. by rewrite length_fmap. }
    destruct (inv_input _ _ _ i inp xs Hinv Hi Hxs) as [|(x & xs' & -> & Hx & _)]; [done|]. by exists x, xs'. }
  assert (exists t, current_timeslot (clock (s_handler S2)) = Some t /\ mkInput (Some t) ∈ inputs (clock h)
    /\ inputs (clock (s_handler S2)) = inputs (clock h)) as (t & Ht & Htin & Hins).
  { destruct (current_timeslot (clock h)) as [cur|] eqn:Hcur.
    - destruct (advance_moves (E := E) (clock h) cur Hfit Hcur Hah Hin) as (c' & t & Hm & Hi & Ht & Htin).
      { apply Forall_lookup. intros i [inp] Hi. destruct (Hall i inp Hi) as (x & _ & _ & -> & Hnc).
        eexists. split; [done|]. congruence. }
      rewrite Hadv in Hm. injection Hm as _ <-. by exists t.
    - destruct (inv_near _ _ _ Hinv Hnear Hcur) as [base Hb].
      destruct (advance_sets (E := E) (clock h) base adv _ Hfit Hcur Hin Hb Hadv) as (_ & Hi & Hset).
      destruct Hset as (t & Ht & Htin); [|by exists t].
      apply Forall_lookup. intros i [inp] Hi'. destruct (Hall i inp Hi') as (x & _ & _ & -> & _). by eexists. }
  assert (waiting S2 = waiting (mkSystem rings h ps next 0 sh)) as Hw by (unfold waiting; by rewrite Hr).
  split; [done|]. apply list_elem_of_lookup in Htin as [i Hi].
  destruct (Hall i _ Hi) as (x & xs & Hxs & [= ->] & _). exists i, x, xs. rewrite Hw, Hins, Ht. split_and!; [|done..].
  unfold todo. rewrite Hr, Hn, Hleft. apply visited_all; [|rewrite <- Hlen; by eapply lookup_lt_Some].
  by destruct Hinv as (_ & _ & _ & _ & _ & _ & Hnx & _).
Qed.

(** The second turn reads an element. *)
Lemma ready_step l0 evs S S2 :
  inv_by l0 evs S -> step S [] S2 -> one_ready S ->
  (total (waiting S2) < total (waiting S))%nat \/ (waiting S2 = waiting S /\ one_ready S2 /\ s_left S <> 0%nat).
Proof.
  intros Hinv Hst (i & x & xs & Hi & Hin & Hxs & Hcur).
  assert (s_left S <> 0%nat) as Hl by (intros Hz; unfold todo in Hi; rewrite Hz in Hi; by apply elem_of_nil in Hi).
  destruct (visit_total _ _ _ _ Hinv Hl Hst) as (ys & k & Hys & Htodo & Hlen & Hw & Hclk & Hsame & Hless & Hle).
  destruct (decide (i = s_next S)) as [->|Hni].
  - left. rewrite Hys in Hxs. injection Hxs as ->. destruct (decide (k = 0%nat)) as [->|Hk]; [|by apply Hless].
    exfalso. destruct (inv_clock _ _ _ Hinv) as (_ & Hd & _).
    destruct Hclk as [(Hr & _)|(_ & _ & _ & Hmv & _)]; [done|].
    destruct (Hmv ltac:(done) ltac:(done) eq_refl) as (y & [= <-] & [_ Hf] & _).
    rewrite Hcur, Hd, delta_self in Hf. lia.
  - destruct (decide (total (waiting S2) < total (waiting S))%nat) as [|Hge]; [by left|]. right.
    assert (waiting S2 = waiting S) as Heq.
    { destruct (decide (k = 0%nat)) as [->|Hk]; [by apply Hsame|]. destruct ys as [|y ys]; [|exfalso; by apply Hge, Hless].
      rewrite Hw, drop_nil. by apply list_insert_id. }
    split_and!; [done| |done]. exists i, x, xs. rewrite Heq.
    rewrite Htodo in Hi. apply elem_of_cons in Hi as [|Hi]; [done|].
    destruct Hclk as [(_ & _ & ->)|(_ & _ & _ & _ & inp & -> & _)]; [done|]. simpl.
    by rewrite list_lookup_insert_ne.
Qed.

(** *** Any number of turns *)

Section fixed.
Context (l0 : Ledger) (evs : list (nat * event)) (Hnear : starts_near evs).

(** A state the core can run from. *)
Definition sound (S : Sys) : Prop := inv_by l0 evs S /\ ahead (clock (s_handler S)).

Definition turn_start (S : Sys) : Prop := s_left S = length (s_rings S).

Lemma ran_sound S k S' : sound S -> ran S k S' -> sound S'.
Proof.
  intros HS. induction 1 as [|k S1 S2 _ [Hi Ha] Hst]; [done|]. by apply (core_step l0 evs S1 S2).
Qed.

(** Nothing is added to the rings. *)
Lemma step_total S S2 : sound S -> step S [] S2 -> (total (waiting S2) <= total (waiting S))%nat.
Proof.
  intros [Hinv _] Hst. destruct (decide (s_left S = 0%nat)) as [Hz|Hz].
  - destruct S as [rings h ps next left sh]. simpl in Hz. subst left.
    destruct (end_step _ _ _ _ _ _ _ _ Hinv Hst) as (_ & Hr & _). unfold waiting. by rewrite Hr.
  - destruct (visit_total _ _ _ _ Hinv Hz Hst) as (? & ? & _ & _ & _ & _ & _ & _ & _ & Hle). done.
Qed.

(** Where the core stands after [k] ends of turns, if every ring held
    elements. *)
Definition stage (S : Sys) (k : nat) (S' : Sys) : Prop :=
  (total (waiting S') < total (waiting S))%nat
  \/ waiting S' = waiting S
     /\ match k with 0 => all_wait S' | 1 => one_ready S' | _ => False end%nat.

Lemma ran_stage S k S' :
  sound S -> turn_start S -> Forall (fun xs => xs <> []) (waiting S) -> ran S k S' -> stage S k S'.
Proof.
  intros HS Hts Hne Hran. induction Hran as [|k S1 S2 Hran IH Hst].
  { right. split; [done|]. intros i Hi Hnt. destruct Hnt. unfold todo. rewrite Hts.
    destruct HS as [(_ & _ & _ & _ & _ & _ & Hn & _) _]. by apply visited_all. }
  pose proof (ran_sound S k S1 HS Hran) as HS1. pose proof (step_total S1 S2 HS1 Hst) as Hle. destruct HS1 as [Hinv Hah].
  destruct IH as [IH|[Hw IH]]; [left; lia|].
  destruct k as [|[|k]]; [| |done].
  - destruct (decide (s_left S1 = 0%nat)) as [Hz|Hz].
    + destruct (wait_end l0 evs S1 S2 Hinv Hnear Hah Hz Hst) as [Hw2 Hr]; [by rewrite Hw|done|].
      right. split; [congruence|done].
    + destruct (wait_step l0 evs S1 S2 Hinv Hz Hst) as [Hlt|[Hw2 Hr]]; [by rewrite Hw|done|left; by rewrite <- Hw|].
      right. split; [congruence|done].
  - destruct (ready_step l0 evs S1 S2 Hinv Hst IH) as [Hlt|(Hw2 & Hr & Hz)]; [left; by rewrite <- Hw|].
    rewrite decide_False by done. right. split; [congruence|done].
Qed.

Lemma two_turns S S' :
  sound S -> turn_start S -> Forall (fun xs => xs <> []) (waiting S) -> ran S 2 S' ->
  (total (waiting S') < total (waiting S))%nat.
Proof. intros HS Hts Hne Hran. by destruct (ran_stage S 2 S' HS Hts Hne Hran) as [|[_ []]]. Qed.

(** A run can be cut at the end of any of its turns. *)
Lemma ran_split S k S' j :
  sound S -> turn_start S -> ran S k S' -> (j <= k)%nat ->
  exists S1, ran S j S1 /\ turn_start S1 /\ ran S1 (k - j) S'.
Proof.
  intros HS Hts. induction 1 as [|k S1 S2 Hran IH Hst]; intros Hj.
  { replace j with 0%nat by lia. exists S. split_and!; [constructor|done|constructor]. }
  destruct (decide (j <= k)%nat) as [Hle|Hgt].
  - destruct (IH Hle) as (S3 & Hr1 & Ht3 & Hr2). exists S3. split_and!; [done..|].
    pose proof (ran_step _ _ _ _ Hr2 Hst) as Hr. destruct (decide (s_left S1 = 0%nat)); [|done].
    by replace (Datatypes.S k - j)%nat with (Datatypes.S (k - j)) by lia.
  - pose proof (ran_step _ _ _ _ Hran Hst) as Hr. destruct (decide (s_left S1 = 0%nat)) as [Hz|]; [|lia].
    replace j with (Datatypes.S k) by lia. exists S2. rewrite Nat.sub_diag. split_and!; [done| |constructor].
    destruct (ran_sound S k S1 HS Hran) as [Hinv _]. destruct S1 as [rings h ps next left sh]. simpl in Hz. subst left.
    destruct (end_step _ _ _ _ _ _ _ _ Hinv Hst) as (_ & Hrs & _ & Hl & _). unfold turn_start. by rewrite Hrs.
Qed.

Lemma ran_trans S k S1 k' S' : ran S k S1 -> ran S1 k' S' -> ran S (k + k') S'.
Proof.
  intros Hr. induction 1 as [|k' S2 S3 _ IH Hst]; [by rewrite Nat.add_0_r|].
  pose proof (ran_step _ _ _ _ IH Hst) as H. destruct (decide _); [|done].
  by replace (k + Datatypes.S k')%nat with (Datatypes.S (k + k')) by lia.
Qed.

(** Some ring runs empty. *)
Lemma ran_empties S S' :
  sound S -> turn_start S -> ran S (2 * total (waiting S)) S' ->
  exists k S1, (k <= 2 * total (waiting S))%nat /\ ran S k S1 /\ [] ∈ waiting S1.
Proof.
  remember (total (waiting S)) as n eqn:Hn. revert S S' Hn.
  induction (lt_wf n) as [n _ IH]; intros S S' Hn HS Hts Hran.
  destruct (decide ([] ∈ waiting S)) as [He|He].
  { exists 0%nat, S. split_and!; [lia|constructor|done]. }
  assert (Forall (fun xs => xs <> []) (waiting S)) as Hne.
  { apply Forall_forall. by intros xs Hxs ->. }
  destruct (ran_split S _ S' 2 HS Hts Hran) as (S1 & Hr1 & Ht1 & Hr2).
  { destruct n; [|lia]. exfalso. destruct (inv_clock _ _ _ (proj1 HS)) as (_ & _ & _ & Hnil).
    destruct (waiting S) as [|xs hs] eqn:Hw.
    - by apply fmap_nil_inv in Hw.
    - apply He. rewrite (total_zero (xs :: hs) xs) at 1 by (done || by left). by left. }
  pose proof (two_turns S S1 HS Hts Hne Hr1) as Hlt.
  destruct (ran_split S1 _ S' (2 * total (waiting S1)) (ran_sound _ _ _ HS Hr1) Ht1 Hr2) as (S2 & Hr3 & _); [lia|].
  destruct (IH (total (waiting S1)) ltac:(lia) S1 S2 eq_refl (ran_sound _ _ _ HS Hr1) Ht1 Hr3) as (k & S3 & Hk & Hr & He3).
  exists (2 + k)%nat, S3. split_and!; [lia|by eapply ran_trans|done].
Qed.

(** The core can always go on. *)
Lemma ran_exists S k : sound S -> exists S', ran S k S' /\ sound S'.
Proof.
  intros HS.
  assert (forall l S, sound S -> s_left S = l -> exists S', ran S 1 S' /\ sound S') as Hone.
  { intros l. induction l as [|l IH]; intros S1 [Hinv Hah] Hl; destruct S1 as [rings h ps next left sh]; simpl in Hl; subst left.
    - destruct (end_runs (E := E) e export _ _ _ _ _ _ _ Hinv) as (h' & sh' & He & _).
      pose proof (sys_end (E := E) e export rings h ps next sh h' sh' He) as Hst.
      eexists. split; [by apply (ran_step _ 0 _ _ (ran_start _) Hst)|]. by apply (core_step l0 evs _ _ Hinv Hnear Hah Hst).
    - destruct (visit_runs (E := E) e export _ _ _ _ _ _ _ _ Hinv) as (s & Hs & Hrun).
      destruct (Hrun (Z.to_nat (elem_capacity (rq s) + 2)) (fun _ => false)) as (h' & m' & sh' & q' & Hv & Hq & _); [lia|].
      pose proof (sys_visit (E := E) e export rings h ps next l sh (Z.to_nat (elem_capacity (rq s) + 2)) _ s h' m' sh' q' Hs
        ltac:(lia) Hv Hq) as Hst.
      destruct (core_step l0 evs _ _ Hinv Hnear Hah Hst) as [Hinv2 Hah2].
      destruct (IH _ (conj Hinv2 Hah2) eq_refl) as (S' & Hr & HS'). exists S'. split; [|done].
      by apply (ran_trans _ 0 _ 1 _ (ran_step _ 0 _ _ (ran_start _) Hst)). }
  induction k as [|k (S1 & Hr & HS1)]; [exists S; split; [constructor|done]|].
  destruct (Hone _ S1 HS1 eq_refl) as (S2 & Hr2 & HS2). exists S2. split; [|done].
  replace (Datatypes.S k) with (k + 1)%nat by lia. by eapply ran_trans.
Qed.

End fixed.
End progress.

(** C4: the core does not stall.  Over fresh rings, in every state the system
    can reach at the start of a turn, the core can run any number of turns by
    itself; and wherever the time limit cuts its batches, before it has run
    twice as many turns as there are elements in the rings, the ring of some
    producer is empty: as long as every ring holds elements, two turns consume
    at least one of them.  The first elements with a timestamp that the
    producers commit must lie less than [2^15] slots (eleven days) apart. *)
Theorem core_never_stalls {ref : Type} {store : Type -> Type -> Type} {ref_eq : EqDecision ref}
    {ref_countable : Countable ref} {rc : RcHashMap ref store} {rc_laws : RcHashMapLaws ref store}
    {order : HashOrder} {order_laws : HashOrderLaws} {E : Type}
    e export log2 rings shard id_id az_id ep no_ip desc :
  log2_law log2 -> rings <> [] -> Forall booted rings ->
  exists core : AggregationCore (ref := ref) (store := store),
    core_new (E := E) Release log2 (Ok ∘ rq <$> rings) shard id_id az_id ep no_ip desc = Ok core
    /\ forall evs S, sys_reach (E := E) e export (start_system rings core) evs S -> starts_near e evs ->
      s_left S = length (s_rings S) ->
      (forall k, exists S', ran (E := E) e export S k S')
      /\ (Forall (fun xs => xs <> []) (waiting S) ->
          forall S', ran (E := E) e export S 2 S' -> (total (waiting S') < total (waiting S))%nat)
      /\ (forall S', ran (E := E) e export S (2 * total (waiting S)) S' ->
          exists k S1, (k <= 2 * total (waiting S))%nat /\ ran (E := E) e export S k S1 /\ [] ∈ waiting S1).
Proof.
  intros Hlog Hne Hboot.
  destruct (core_starts (E := E) e log2 rings shard id_id az_id ep no_ip desc Hlog Hne Hboot)
    as (core & Hcore & H0 & Hcur).
  exists core. split; [exact Hcore|clear Hcore]. intros evs S HS Hnear Hts.
  assert (sound (E := E) e (ledger_new id_id az_id no_ip) evs S) as Hsound.
  { split; [by apply (reach_inv e export _ [] _ _ _ H0)|].
    apply (reach_ahead e export _ _ evs S H0); [|done|done]. intros cur t Hc. simpl in Hc. congruence. }
  split_and!.
  - intros k. destruct (ran_exists e export _ evs Hnear S k Hsound) as (S' & Hr & _). by exists S'.
  - intros Hwait S'. by apply (two_turns e export (ledger_new id_id az_id no_ip) evs).
  - intros S'. by apply (ran_empties e export (ledger_new id_id az_id no_ip) evs).
Qed.

(** ** Witness *)

(** A producer that commits elements while the reader is idle. *)
Fixpoint fill (s : sys) (xs : list action) : option (list event * sys) :=
  match xs with
  | [] => Some ([], s)
  | x :: xs =>
      match act Release s x with
      | Some (ev, s1) =>
          match rs s1, fill s1 xs with
          | RIdle, Some (t, s2) => Some (ev :: t, s2)
          | _, _ => None
          end
      | None => None
      end
  end.

Section filled.
Context {ref : Type} {store : Type -> Type -> Type} {ref_eq : EqDecision ref}
  {ref_countable : Countable ref} {rc : RcHashMap ref store} {order : HashOrder} {E : Type}
  (e : endian) (export : list Z -> Request -> Response).

Lemma fill_reach (S0 : System (ref := ref) (store := store)) evs rings h ps next left sh i s xs t s' :
  fill s xs = Some (t, s') -> rings !! i = Some s -> Forall (fun ev => forall x, ev = Wrote x -> encoded e i x) t ->
  sys_reach (E := E) e export S0 evs (mkSystem rings h ps next left sh) ->
  sys_reach (E := E) e export S0 (evs ++ (pair i <$> t)) (mkSystem (<[i := s']> rings) h ps next left sh).
Proof.
  revert evs rings s t. induction xs as [|x xs IH]; intros evs rings s t Hf Hi Henc Hr; simpl in Hf.
  { injection Hf as <- <-. by rewrite app_nil_r, list_insert_id. }
  destruct (act Release s x) as [[ev s1]|] eqn:Ha; [|done]. destruct (rs s1) eqn:Hrs; [|done..].
  destruct (fill s1 xs) as [[t1 s2]|] eqn:Hf1; [|done]. injection Hf as <- <-.
  apply Forall_cons in Henc as [Hev Henc].
  replace (<[i := s2]> rings) with (<[i := s2]> (<[i := s1]> rings)) by apply list_insert_insert_eq.
  rewrite fmap_cons, cons_middle, app_assoc. apply (IH (evs ++ [(i, ev)]) (<[i := s1]> rings) s1 t1); [done| |done|].
  - apply list_lookup_insert_eq. by eapply lookup_lt_Some.
  - apply (reach_step _ _ _ evs _ [(i, ev)] _ Hr).
    eapply sys_produce; [done|by eapply act_step|done|done].
Qed.

End filled.

(** Two messages of different slots in one ring. *)
Definition filled64 : list event * sys :=
  match fill boot64 two_written with Some r => r | None => ([], boot64) end.

Lemma filled64_encoded : Forall (fun ev => forall x, ev = Wrote x -> encoded LittleEndian 0 x) (fst filled64).
Proof.
  apply Forall_forall. intros ev Hev x ->. pose proof two_messages_stand as Hs.
  assert (x ∈ two_messages) as Hx.
  { revert Hev. vm_compute (fst filled64). intros Hev.
    repeat (apply elem_of_cons in Hev as [Hev|Hev]; [try discriminate Hev; injection Hev as ->; vm_compute; set_solver|]).
    by apply elem_of_nil in Hev. }
  apply list_elem_of_lookup in Hx as [j Hj]. destruct (Forall2_lookup_l _ _ _ _ _ Hs Hj) as (os & _ & Hos). by exists os.
Qed.

Lemma core_never_stalls_witness :
  exists core : AggregationCore (ref := positive) (store := fun K V => gmap positive (K * V)),
    core_new (E := unit) Release log2_int (Ok ∘ rq <$> [boot64]) 0 true true [] false false = Ok core
    /\ let S := mkSystem [snd filled64] (queue_handler core) (parser core) 0 1 (aggregator core, exporter core, []) in
      waiting S = [two_messages]
      /\ (exists S', ran (E := unit) LittleEndian picky S 2 S')
      /\ forall S', ran (E := unit) LittleEndian picky S 2 S' -> (total (waiting S') < 2)%nat.
Proof.
  destruct (core_never_stalls (E := unit) (ref := positive) (store := fun K V => gmap positive (K * V))
    LittleEndian picky log2_int [boot64] 0 true true [] false false log2_int_law ltac:(discriminate)
    ltac:(repeat constructor; exact boot64_booted)) as (core & Hcore & H).
  exists core. split; [exact Hcore|]. intros S.
  assert (waiting S = [two_messages]) as Hw by (vm_compute; reflexivity).
  destruct (H (pair 0%nat <$> fst filled64) S) as (Hrun & Htwo & _).
  - apply (fill_reach LittleEndian picky _ [] [boot64] _ _ _ _ _ 0 boot64 two_written (fst filled64));
      [vm_compute; reflexivity|done|exact filled64_encoded|apply reach_start].
  - exists 0. intros i x Hx. destruct i as [|i]; [|by vm_compute in Hx].
    vm_compute in Hx. injection Hx as <-. by vm_compute.
  - reflexivity.
  - split; [exact Hw|]. split; [apply Hrun|]. intros S' Hr. specialize (Htwo ltac:(rewrite Hw; by repeat constructor) S' Hr).
    by rewrite Hw in Htwo.
Defined.
