(* ===== verification/Ffi.v ===== *)
(** * Entry points (crates/reducer/src/ffi.rs, the [run_with_args] of
      cloud-collector-sys, kernel-collector-sys and k8s-relay-sys)

    The C++ side of the reducer creates an aggregation core from descriptors
    of the rings it shares, runs it and stops it.  In the other direction the
    binaries hand their arguments to a C entry point as C strings.  Pointers
    are addresses; [space] gives the ring at an address, and a C string is
    read from the buffer its pointer points to. *)

From S2P Require Import Prelude Float64 FastDiv VirtualClock ElementQueue RenderParser QueueHandler.
From S2P Require Import OtlpExport OtlpEncoding RcHashMap Aggregator MessageHandler Core System.

Local Open Scope rust_scope.

(** ** The bridge of the reducer (ffi.rs) *)

Record EqView := mkView { data : Z; n_elems : Z; buf_len : Z }.

Section bridge.
Context {ref : Type} {store : Type -> Type -> Type} {ref_eq : EqDecision ref}
  {ref_countable : Countable ref} {rc : RcHashMap ref store} {order : HashOrder}
  {E : Type} (p : profile) (log2 : f64 -> f64) (space : Z -> mem).

Definition from_views (views : list EqView) (sh : Z) (enable_id_id enable_az_id : bool) (endpoint : list Z)
    (disable_node_ip_field enable_metric_descriptions : bool)
  : res E (AggregationCore (ref := ref) (store := store)) :=
  let v := (fun ev => (data ev, n_elems ev, buf_len ev)) <$> views in
  core_new p log2 (queue_of_view space <$> v) sh enable_id_id enable_az_id endpoint
    disable_node_ip_field enable_metric_descriptions.

Definition aggregation_core_new (queues : list EqView) (sh : Z) (enable_id_id enable_az_id : bool)
    (endpoint : list Z) (disable_node_ip_field enable_metric_descriptions : bool)
  : res E (AggregationCore (ref := ref) (store := store)) :=
  from_views queues sh enable_id_id enable_az_id endpoint disable_node_ip_field enable_metric_descriptions.

Definition aggregation_core_run (e : endian) (export : list Z -> Request -> Response) (turns : nat)
    (stop : nat -> bool) (late : nat -> nat -> bool) (env : nat -> list sys -> nat -> sys)
    (core : AggregationCore (ref := ref) (store := store)) (rings : list sys)
  : res E (option (AggregationCore (ref := ref) (store := store) * list (option Request) * list sys)) :=
  core_run p e export turns stop late env core rings.

(** A view the core accepts. *)
Definition valid_view (v : EqView) : Prop :=
  data v <> 0 /\ is_pow2 (n_elems v) /\ is_pow2 (buf_len v).

(** The queue is the one the view describes, at the indices its storage
    holds. *)
Definition describes (v : EqView) (q : ElementQueue) : Prop :=
  elem_capacity q = n_elems v /\ buf_capacity q = buf_len v
  /\ elem_head q = sh_elem_head (shared (space (data v))) /\ buf_head q = sh_buf_head (shared (space (data v)))
  /\ elem_tail q = sh_elem_tail (shared (space (data v))) /\ buf_tail q = sh_buf_tail (shared (space (data v))).

Definition view_typed (v : EqView) : Prop := fits 32 (n_elems v) /\ fits 32 (buf_len v).

Lemma queue_of_valid v :
  view_typed v -> valid_view v ->
  exists q, queue_of_view space (data v, n_elems v, buf_len v) = Ok q /\ describes v q.
Proof.
  intros [Hn Hb] (Hd & H1 & H2). unfold queue_of_view, new_from_contiguous.
  rewrite (proj2 (Z.eqb_neq _ _) Hd), (proj2 (not_pow2_iff _ Hn) H1), (proj2 (not_pow2_iff _ Hb) H2).
  eexists. split; [done|]. unfold describes, elem_capacity, buf_capacity. simpl. split_and!; lia || done.
Qed.

Lemma queue_of_invalid v :
  view_typed v -> ~ valid_view v -> queue_of_view space (data v, n_elems v, buf_len v) = Err InvalidArg.
Proof.
  intros [Hn Hb] Hno. unfold queue_of_view, new_from_contiguous. destruct (Z.eqb_spec (data v) 0); [done|].
  destruct (not_pow2 (n_elems v)) eqn:H1; [done|]. destruct (not_pow2 (buf_len v)) eqn:H2; [done|].
  destruct Hno. split_and!; [done|by apply not_pow2_iff..].
Qed.

#[export] Instance valid_view_dec v : view_typed v -> Decision (valid_view v).
Proof.
  intros [Hn Hb]. unfold valid_view.
  destruct (not_pow2 (n_elems v)) eqn:H1; [right; intros (_ & H & _); apply not_pow2_iff in H; [congruence|done]|].
  destruct (not_pow2 (buf_len v)) eqn:H2; [right; intros (_ & _ & H); apply not_pow2_iff in H; [congruence|done]|].
  destruct (decide (data v = 0)); [right; tauto|left]. split_and!; [done|by apply not_pow2_iff..].
Defined.

(** The queues of the views, or the first that fails. *)
Lemma views_expected views :
  Forall view_typed views ->
  (exists qs, expect_queues (E := E)
      (queue_of_view space <$> ((fun ev => (data ev, n_elems ev, buf_len ev)) <$> views)) = Ok qs
      /\ Forall2 describes views qs /\ Forall valid_view views)
  \/ (expect_queues (E := E)
      (queue_of_view space <$> ((fun ev => (data ev, n_elems ev, buf_len ev)) <$> views)) = Panic
      /\ ~ Forall valid_view views).
Proof.
  induction 1 as [|v views Hv _ IH]; [left; exists []; by split_and!|]. rewrite !fmap_cons. cbv beta.
  destruct (valid_view_dec v Hv) as [Hok|Hno].
  - destruct (queue_of_valid v Hv Hok) as (q & -> & Hq).
    destruct IH as [(qs & Hqs & Hd & Hall)|[Hp Hno]].
    + left. exists (q :: qs). cbn [expect_queues]. rewrite Hqs. split_and!; [done|by constructor|by constructor].
    + right. cbn [expect_queues]. rewrite Hp. split; [done|]. intros H. by inversion H.
  - right. rewrite queue_of_invalid by done. split; [done|]. intros H. by inversion H.
Qed.

Lemma core_new_queues qs queues sh id_id az_id ep no_ip desc :
  log2_law log2 -> expect_queues (E := E) qs = Ok queues ->
  exists core : AggregationCore (ref := ref) (store := store),
    core_new (E := E) p log2 qs sh id_id az_id ep no_ip desc = Ok core
    /\ QueueHandler.queues (queue_handler core) = queues
    /\ length (inputs (clock (queue_handler core))) = length queues.
Proof.
  intros Hlog Hq. destruct (core_parser_complete (E := E) p) as (ps & Hps & _).
  unfold core_new, new_from_views. rewrite Hq. cbn [rbind]. rewrite (proj1 (new_values p log2 Hlog)). cbn [rbind].
  unfold VirtualClock.new. change (mkFastDiv 9382 48) with div30. rewrite div30_reciprocal. cbn [rbind].
  rewrite Hps. cbn [rbind]. eexists. split; [reflexivity|]. split; [done|].
  cbn [queue_handler clock inputs add_inputs set_inputs]. rewrite app_nil_l. apply length_replicate.
Qed.

End bridge.

(** C35: The C++ side gets a core exactly when every descriptor has a pointer
    that is not null and two sizes that are powers of two; otherwise the
    constructor panics.  The core has one queue and one clock input per
    descriptor, in order, with the descriptor's sizes and the indices found
    in the shared header. *)
Theorem aggregation_core_new_spec {ref : Type} {store : Type -> Type -> Type} {ref_eq : EqDecision ref}
    {ref_countable : Countable ref} {rc : RcHashMap ref store} {order : HashOrder} {E : Type}
    p log2 space views sh id_id az_id ep no_ip desc :
  log2_law log2 -> Forall view_typed views ->
  (Forall valid_view views ->
   exists core : AggregationCore (ref := ref) (store := store),
     aggregation_core_new (E := E) p log2 space views sh id_id az_id ep no_ip desc = Ok core
     /\ Forall2 (describes space) views (queues (queue_handler core))
     /\ length (inputs (clock (queue_handler core))) = length views)
  /\ (~ Forall valid_view views ->
      aggregation_core_new (E := E) (ref := ref) (store := store) p log2 space views sh id_id az_id ep no_ip desc
      = Panic).
Proof.
  intros Hlog Ht. unfold aggregation_core_new, from_views.
  destruct (views_expected (E := E) space views Ht) as [(qs & Hqs & Hd & Hall)|[Hp Hno]]; (split; [intros Hv|intros Hv]); try done.
  - destruct (core_new_queues (E := E) p log2 _ qs sh id_id az_id ep no_ip desc Hlog Hqs) as (core & Hc & Hq & Hl).
    exists core. split_and!; [exact Hc|by rewrite Hq|]. rewrite Hl. symmetry. by eapply Forall2_length.
  - unfold core_new, new_from_views. by rewrite Hp.
Qed.

Definition sample_views : list EqView := [mkView 4096 4 64; mkView 8192 4 64].

Lemma aggregation_core_new_spec_witness :
  exists core : AggregationCore (ref := positive) (store := fun K V => gmap positive (K * V)),
    aggregation_core_new (E := unit) Release log2_int (fun _ => smem boot64) sample_views 0 true false [] false false
    = Ok core
    /\ length (inputs (clock (queue_handler core))) = 2%nat.
Proof.
  destruct (aggregation_core_new_spec (E := unit) (ref := positive) (store := fun K V => gmap positive (K * V))
    Release log2_int (fun _ => smem boot64) sample_views 0 true false [] false false log2_int_law) as [H _].
  - repeat first [apply Forall_nil_2 | apply Forall_cons_2]; split; unfold fits; simpl; lia.
  - destruct H as (core & Hc & _ & Hl).
    + repeat first [apply Forall_nil_2 | apply Forall_cons_2]; (split_and!; [simpl; lia|exists 2; simpl; lia|exists 6; simpl; lia]).
    + exists core. split; [exact Hc|exact Hl].
Defined.

(** ** Arguments for a C entry point *)

(** [CString::new]: the bytes and a NUL, unless they contain one. *)
Definition cstring_new (bs : list Z) : option (list Z) :=
  if existsb (Z.eqb 0) bs then None else Some (bs ++ [0]).

(** The loop over the arguments, with [expect]. *)
Fixpoint c_strings {E} (args : list (list Z)) : res E (list (list Z)) :=
  match args with
  | [] => Ok []
  | arg :: args =>
      let? s := unwrap (cstring_new arg) in
      let? rest := c_strings args in
      Ok (s :: rest)
  end.

(** A C entry point: [argc], and what [argv] points to. *)
Abbreviation c_main := (Z -> list (list Z) -> Z).

Definition run_with_args {E} (entry : c_main) (args : list (list Z)) : res E Z :=
  let? strings := c_strings args in
  Ok (entry (as_signed 32 (wrap 32 (Z.of_nat (length strings)))) strings).

Definition cloud_run_with_args {E} (otn_cloud_collector_main : c_main) (args : list (list Z)) : res E Z :=
  run_with_args otn_cloud_collector_main args.

Definition kernel_run_with_args {E} (otn_kernel_collector_main : c_main) (args : list (list Z)) : res E Z :=
  run_with_args otn_kernel_collector_main args.

Definition relay_run_with_args {E} (otn_k8s_relay_main : c_main) (args : list (list Z)) : res E Z :=
  run_with_args otn_k8s_relay_main args.

(** How C reads a string: up to the first NUL. *)
Fixpoint c_str (buf : list Z) : option (list Z) :=
  match buf with
  | [] => None
  | b :: buf => if b =? 0 then Some [] else option_map (cons b) (c_str buf)
  end.

Lemma c_str_cstring bs s : cstring_new bs = Some s -> c_str s = Some bs.
Proof.
  unfold cstring_new. destruct (existsb (Z.eqb 0) bs) eqn:He; [done|]. intros [= <-].
  induction bs as [|b bs IH]; [done|]. cbn [existsb] in He. apply orb_false_iff in He as [Hb He].
  cbn [app c_str]. rewrite Z.eqb_sym, Hb, IH by done. done.
Qed.

Lemma c_strings_spec {E} args :
  (exists ss, c_strings (E := E) args = Ok ss /\ c_str <$> ss = Some <$> args
    /\ Forall (fun a => 0 ∉ a) args)
  \/ (c_strings (E := E) args = Panic /\ Exists (fun a => 0 ∈ a) args).
Proof.
  induction args as [|a args IH]; [left; exists []; by split_and!|]. cbn [c_strings].
  destruct (cstring_new a) as [s|] eqn:Hs; cbn [unwrap rbind].
  - assert (0 ∉ a) as Hn.
    { intros Hin. unfold cstring_new in Hs. assert (existsb (Z.eqb 0) a = true) as Hx; [|by rewrite Hx in Hs].
      apply existsb_exists. exists 0. split; [by apply list_elem_of_In|done]. }
    destruct IH as [(ss & -> & Hss & Hf)|[-> He]]; cbn [rbind]; [left|right; split; [done|by right]].
    exists (s :: ss). split_and!; [done| |by constructor]. csimpl. by rewrite Hss, (c_str_cstring a s Hs).
  - right. split; [done|]. left. unfold cstring_new in Hs. destruct (existsb (Z.eqb 0) a) eqn:He; [|done].
    apply existsb_exists in He as (b & Hb & <-%Z.eqb_eq). by apply list_elem_of_In.
Qed.

(** The arguments of the process reach the C entry point unchanged: when no
    argument contains a NUL byte, it is called once, with their number and
    with strings that C reads as exactly the arguments, and its result is the
    exit code; otherwise the program panics before the call. *)
Theorem arguments_delivered {E} entry args :
  Z.of_nat (length args) < 2 ^ 31 ->
  (Forall (fun a => 0 ∉ a) args ->
   exists argv, run_with_args (E := E) entry args = Ok (entry (Z.of_nat (length args)) argv)
     /\ c_str <$> argv = Some <$> args)
  /\ (Exists (fun a => 0 ∈ a) args -> run_with_args (E := E) entry args = Panic).
Proof.
  intros Hl. unfold run_with_args.
  destruct (c_strings_spec (E := E) args) as [(ss & -> & Hss & Hf)|[-> He]]; cbn [rbind]; (split; intros H).
  - exists ss. split; [|done]. do 2 f_equal. apply (f_equal length) in Hss. rewrite !length_fmap in Hss.
    rewrite Hss, wrap_small by (unfold fits; lia). unfold as_signed. by rewrite (proj2 (Z.ltb_lt _ _)).
  - exfalso. apply Exists_exists in H as (a & Ha & H0). rewrite Forall_forall in Hf. by apply (Hf a).
  - exfalso. apply Exists_exists in He as (a & Ha & H0). rewrite Forall_forall in H. by apply (H a).
  - done.
Qed.

Lemma arguments_delivered_witness :
  exists argv, cloud_run_with_args (E := unit) (fun argc argv => argc + Z.of_nat (length (concat argv)))
    [lit "cloud-collector"; lit "--port=8000"] = Ok (2 + Z.of_nat (length (concat argv)))
    /\ c_str <$> argv = [Some (lit "cloud-collector"); Some (lit "--port=8000")].
Proof.
  destruct (arguments_delivered (E := unit) (fun argc argv => argc + Z.of_nat (length (concat argv)))
    [lit "cloud-collector"; lit "--port=8000"]) as [H _]; [simpl; lia|].
  apply H. repeat first [apply Forall_nil_2 | apply Forall_cons_2]; apply (bool_decide_eq_true_1 _); vm_compute; reflexivity.
Defined.
