(* ===== verification/Pipeline.v ===== *)
(** * From the C++ producers to the published points
      (reducer/aggregation/agg_core.cc, reducer/rpc_queue_matrix.h)

    The matching cores write the queues of a matrix in C++; the aggregation
    core of a shard is built by [AggCore] from descriptors of the storages of
    that shard's queues and runs in Rust.  [ports_to] are the ends of the
    senders, [agg_core_new] the constructor, and [pipe_step] the steps of the
    composed system: an access of a C++ producer to the shared memory of its
    queue, the visit of a queue by the core, or the end of a turn.  Every run
    is simulated by one of [System], over the rings of [ElementQueue].

    Storages are locations of the heap; [addr] gives their addresses and
    [space] the memory at an address.  The writers of [AggCore] to the logging
    core are those of [make_writers] on the other matrix; the Rust core does
    not use them. *)

From S2P Require Import Prelude Float64 FastDiv VirtualClock ElementQueue CElementQueue QueueMatrix.
From S2P Require Import RenderParser QueueHandler OtlpExport OtlpEncoding RcHashMap Aggregator Sums AggregatorSpec.
From S2P Require Import MessageHandler Core Windows System Ffi.

Local Open Scope rust_scope.

(** ** The ends of the senders *)

Record Port := mkPort { port_mem : mem; port_queue : ElementQueue; port_phase : cwphase }.

(** The writer of sender [i] to receiver [j], over the storage of its entry. *)
Definition port_to (p : profile) (heap : list MemStorage) (mx : RpcQueueMatrix) (j i : nat) : res exn Port :=
  let? ws := make_writers p mx i in
  let? pos := index ws j in
  let? ent := index (entries_ mx) pos in
  let? st := index heap (storage ent) in
  Ok (mkPort (ms_mem st) (queue_ (queue_writer ent)) CWIdle).

Definition ports_to (p : profile) (heap : list MemStorage) (mx : RpcQueueMatrix) (j : nat) : res exn (list Port) :=
  push_each (port_to p heap mx j) (seq 0 (num_senders_ mx)).

Section pipeline.
Context {ref : Type} {store : Type -> Type -> Type} {ref_eq : EqDecision ref}
  {ref_countable : Countable ref} {rc : RcHashMap ref store} {rc_laws : RcHashMapLaws ref store}
  {order : HashOrder} {order_laws : HashOrderLaws}.

Local Abbreviation Core := (AggregationCore (ref := ref) (store := store)).
Local Abbreviation Shared := (Aggregator (ref := ref) (store := store) * OtlpExporter * list (option Request))%type.

(** ** The constructor of AggCore *)

Definition view_of (addr : nat -> Z) (reader : nat * ElementQueue) : EqView :=
  let '(loc, q) := reader in
  mkView (addr loc) (wrapping_add 32 (elem_mask q) 1) (wrapping_add 32 (buf_mask q) 1).

Definition agg_core_new (p : profile) (log2 : f64 -> f64) (addr : nat -> Z) (space : Z -> mem)
    (heap : list MemStorage) (matching_to_aggregation_queues : RpcQueueMatrix) (shard_num : nat)
    (id_id_enabled az_id_enabled : bool) (otlp_endpoint : list Z)
    (disable_node_ip_field metric_description_field_enabled : bool) : res exn Core :=
  let? readers := make_readers p heap matching_to_aggregation_queues shard_num in
  let eqs := view_of addr <$> readers in
  aggregation_core_new Release log2 space eqs (wrap 32 (Z.of_nat shard_num)) id_id_enabled az_id_enabled
    otlp_endpoint disable_node_ip_field metric_description_field_enabled.

(** ** The composed system *)

Section steps.
Context (p : profile) (e : endian) (export : list Z -> Request -> Response).

Record Pipe := mkPipe {
  p_ports : list Port;
  p_handler : QueueHandler;
  p_parser : Parser Handler;
  p_next : nat;
  p_left : nat;
  p_shared : Shared;
}.

Definition pipe_start (ports : list Port) (core : Core) : Pipe :=
  mkPipe ports (queue_handler core) (parser core) 0 (length ports) (aggregator core, exporter core, []).

Inductive pipe_step : Pipe -> list (nat * event) -> Pipe -> Prop :=
| pipe_produce ports h ps next left sh i m q w ev m' q' w' :
    ports !! i = Some (mkPort m q w) -> cwstep p m q w ev m' q' w' ->
    (forall x, ev = Wrote x -> encoded e i x) ->
    pipe_step (mkPipe ports h ps next left sh) [(i, ev)] (mkPipe (<[i := mkPort m' q' w']> ports) h ps next left sh)
| pipe_visit ports h ps next left sh fuel late c q h' m' sh' :
    ports !! next = Some c -> queues h !! next = Some q -> elem_capacity q + 2 <= Z.of_nat fuel ->
    visit Release e (on_message (E := exn) Release e ps) fuel late h sh next (port_mem c) = Ok (Some (h', m', sh')) ->
    pipe_step (mkPipe ports h ps next (S left) sh) []
      (mkPipe (<[next := mkPort m' (port_queue c) (port_phase c)]> ports) h' ps ((next + 1) mod length (queues h)) left sh')
| pipe_end ports h ps next sh h' sh' :
    end_turn Release (on_timeslot_end (E := exn) Release export) h sh = Ok (h', sh') ->
    pipe_step (mkPipe ports h ps next 0 sh) [] (mkPipe ports h' ps next (length (queues h')) sh').

Inductive pipe_reach (P0 : Pipe) : list (nat * event) -> Pipe -> Prop :=
| pipe_reach_start : pipe_reach P0 [] P0
| pipe_reach_step evs P ev P' : pipe_reach P0 evs P -> pipe_step P ev P' -> pipe_reach P0 (evs ++ ev) P'.

(** ** Simulation *)

Definition port_sim (c : Port) (s : sys) : Prop :=
  rs s = RIdle /\ port_mem c = smem s /\ sim_writer (port_queue c) (port_phase c) s.

Definition pipe_inv (l0 : Ledger) (evs : list (nat * event)) (P : Pipe) : Prop :=
  exists rings, Forall2 port_sim (p_ports P) rings
    /\ sys_inv_by (E := exn) e l0 evs (mkSystem rings (p_handler P) (p_parser P) (p_next P) (p_left P) (p_shared P)).

(** The steps of a writer, one by one. *)
Lemma wsteps_inv l0 evs rings h ps next left sh i s t s' :
  sys_inv_by (E := exn) e l0 evs (mkSystem rings h ps next left sh) -> rings !! i = Some s -> rs s = RIdle ->
  wsteps Release s t s' -> (forall x, Wrote x ∈ t -> encoded e i x) ->
  sys_inv_by (E := exn) e l0 (evs ++ (pair i <$> t)) (mkSystem (<[i := s']> rings) h ps next left sh).
Proof.
  intros Hinv Hi Hrs. induction 1 as [|t s1 ev s2 _ IH Hst Hrq2 Hrs2]; intros Henc.
  - by rewrite app_nil_r, list_insert_id.
  - rewrite fmap_app, app_assoc. rewrite <- (list_insert_insert_eq rings i s2 s1).
    apply (produce_inv e l0 _ _ _ _ _ _ _ i s1); [|by apply list_lookup_insert_eq; eapply lookup_lt_Some|done|congruence|].
    + apply IH. intros x Hx. apply Henc. apply elem_of_app. by left.
    + intros x ->. apply Henc. apply elem_of_app. right. by left.
Qed.

Lemma history_pair i j t : history j (pair i <$> t) = if decide (i = j) then t else [].
Proof.
  induction t as [|ev t IH]; [by destruct (decide _)|]. rewrite fmap_cons. unfold history in *. csimpl. rewrite IH.
  by destruct (decide (i = j)).
Qed.

(** Events with the same effect on the log. *)
Lemma relabel l0 evs i t ev S :
  (forall g, fold_left log_step t g = log_step g ev) ->
  sys_inv_by (E := exn) e l0 (evs ++ (pair i <$> t)) S -> sys_inv_by (E := exn) e l0 (evs ++ [(i, ev)]) S.
Proof.
  intros Hlog (gs & cs & oss & Hw & Htr & Hrest). exists gs, cs, oss. split; [done|]. split; [|done].
  intros j g Hg. specialize (Htr j g Hg). unfold committed in *.
  assert (log_of (history j (evs ++ [(i, ev)])) = log_of (history j (evs ++ (pair i <$> t)))) as ->; [|done].
  rewrite !history_app. change [(i, ev)] with (pair i <$> [ev]). rewrite !history_pair.
  unfold log_of. rewrite !fold_left_app. destruct (decide (i = j)); [|done]. by rewrite Hlog.
Qed.

Lemma pipe_produce_inv l0 evs ports h ps next left sh i m q w ev m' q' w' :
  pipe_inv l0 evs (mkPipe ports h ps next left sh) ->
  ports !! i = Some (mkPort m q w) -> cwstep p m q w ev m' q' w' ->
  (forall x, ev = Wrote x -> encoded e i x) ->
  pipe_inv l0 (evs ++ [(i, ev)]) (mkPipe (<[i := mkPort m' q' w']> ports) h ps next left sh).
Proof.
  intros (rings & Hsim & Hinv) Hi Hst Henc. simpl in *.
  destruct (Forall2_lookup_l _ _ _ _ _ Hsim Hi) as (s & Hs & Hidle & Hm & Hw). simpl in *.
  pose proof Hinv as (gs & _ & _ & Hwired & _).
  destruct (Forall2_lookup_l _ _ _ _ _ (wired_rings _ _ _ _ Hwired) Hs)
    as (g & _ & a & b & s0 & t0 & Ha & Hb & Hboot & Hsteps & _).
  destruct (inv_reachable a b Ha Hb Release s0 t0 s Hboot Hsteps) as [hd Hat].
  destruct (csim_writer a b Ha Hb p _ hd s m q w ev m' q' w' Hat Hm Hw Hst)
    as (t & s' & Hws & Hm' & Hw' & Hlog & Hwrote).
  exists (<[i := s']> rings). split.
  - apply Forall2_insert; [done|]. apply wsteps_steps in Hws as (_ & _ & Hrs). split_and!; [congruence|done..].
  - apply (relabel l0 evs i t ev _ Hlog), (wsteps_inv l0 evs rings h ps next left sh i s t s' Hinv Hs Hidle Hws).
    intros x Hx. by apply Henc, Hwrote.
Qed.

Lemma pipe_visit_inv l0 evs ports h ps next left sh :
  pipe_inv l0 evs (mkPipe ports h ps next (S left) sh) ->
  exists c q, ports !! next = Some c /\ queues h !! next = Some q
    /\ forall fuel late, elem_capacity q + 2 <= Z.of_nat fuel ->
       exists h' m' sh',
         visit Release e (on_message (E := exn) Release e ps) fuel late h sh next (port_mem c) = Ok (Some (h', m', sh'))
         /\ pipe_inv l0 evs (mkPipe (<[next := mkPort m' (port_queue c) (port_phase c)]> ports) h' ps
              ((next + 1) mod length (queues h)) left sh').
Proof.
  intros (rings & Hsim & Hinv). simpl in *.
  destruct (visit_runs (E := exn) e export l0 evs rings h ps next left sh Hinv) as (s & Hs & Hrun).
  destruct (Forall2_lookup_r _ _ _ _ _ Hsim Hs) as (c & Hc & Hidle & Hm & Hw).
  pose proof Hinv as (gs & _ & _ & Hwired & _). simpl in Hwired.
  exists c, (rq s). split; [done|]. split; [by rewrite (wired_queues _ _ _ _ Hwired), list_lookup_fmap, Hs|].
  intros fuel late Hf. destruct (Hrun fuel late Hf) as (h' & m' & sh' & q' & Hv & _ & Hinv' & _).
  exists h', m', sh'. rewrite Hm. split; [exact Hv|].
  exists (put_ring rings next m' q'). split; [|exact Hinv']. simpl.
  rewrite (put_ring_insert rings next m' s q' Hs). apply Forall2_insert; [done|].
  split_and!; [done..|]. simpl. unfold sim_writer in *. by destruct (port_phase c).
Qed.

Lemma pipe_end_inv l0 evs ports h ps next sh :
  pipe_inv l0 evs (mkPipe ports h ps next 0 sh) ->
  exists h' sh', end_turn Release (on_timeslot_end (E := exn) Release export) h sh = Ok (h', sh')
    /\ pipe_inv l0 evs (mkPipe ports h' ps next (length (queues h')) sh').
Proof.
  intros (rings & Hsim & Hinv). simpl in *.
  destruct (end_runs (E := exn) e export l0 evs rings h ps next sh Hinv) as (h' & sh' & He & Hinv').
  exists h', sh'. split; [exact He|]. by exists rings.
Qed.

Lemma pipe_reach_inv l0 evs0 evs P0 P :
  pipe_inv l0 evs0 P0 -> pipe_reach P0 evs P -> pipe_inv l0 (evs0 ++ evs) P.
Proof.
  intros H0. induction 1 as [|evs P ev P' _ IH Hs]; [by rewrite app_nil_r|]. rewrite app_assoc.
  destruct Hs as [ports h ps next left sh i m q w ev m' q' w' Hi Hst Henc
                 |ports h ps next left sh fuel late c q h' m' sh' Hc Hq Hf Hv
                 |ports h ps next sh h' sh' He].
  - by eapply pipe_produce_inv.
  - rewrite app_nil_r. destruct (pipe_visit_inv _ _ _ _ _ _ _ _ IH) as (c1 & q1 & Hc1 & Hq1 & Hrun). simplify_eq.
    destruct (Hrun fuel late Hf) as (h1 & m1 & sh1 & Hv1 & Hinv). rewrite Hv in Hv1. by simplify_eq.
  - rewrite app_nil_r. destruct (pipe_end_inv _ _ _ _ _ _ _ IH) as (h1 & sh1 & He1 & Hinv).
    rewrite He in He1. by simplify_eq.
Qed.

Lemma pipe_reach_length P0 evs P : pipe_reach P0 evs P -> length (p_ports P) = length (p_ports P0).
Proof.
  induction 1 as [|evs P ev P' _ IH Hs]; [done|]. rewrite <- IH. by destruct Hs; simpl; rewrite ?length_insert.
Qed.

End steps.

(** ** The start *)

Section start.
Context (a b : Z) (Ha : 0 <= a <= 31) (Hb : 0 <= b <= 30) (Hsize : 16 + 2 ^ a * 4 + 2 ^ b < 2 ^ 32).
Context (p : profile) (heap heap' : list MemStorage) (s r j : nat) (mx : RpcQueueMatrix).
Context (Hnew : matrix_new heap s r (2 ^ a) (2 ^ b) = Ok (heap', mx)) (Hj : (j < r)%nat).

(** The memory of every queue, and its two handles. *)
Definition fresh_mem : mem := ms_mem (cpp_storage_new (2 ^ a) (2 ^ b)).

Definition fresh_ring : sys := mkSys fresh_mem (fresh_queue a b) WIdle (fresh_queue a b) RIdle.

Lemma fresh_booted : booted fresh_ring.
Proof.
  exists a, b. split_and!; [lia..|].
  assert (cboots a b (mkCSys fresh_mem (fresh_queue a b) CWIdle (CReader (fresh_queue a b) CRIdle))) as Hc.
  { exists (fresh_queue a b), (CReader (fresh_queue a b) CRIdle).
    split; [by apply fresh_queue_new|]. split; [done|by left]. }
  destruct (cboots_sim a b Ha Hb Hsize _ Hc) as (s0 & Hs0 & Hm & [Hws Hwq] & [Hrs Hrq]).
  destruct s0. simpl in *. by subst.
Qed.

Lemma ports_fresh : ports_to p heap' mx j = Ok (replicate s (mkPort fresh_mem (fresh_queue a b) CWIdle)).
Proof.
  unfold ports_to.
  assert (num_senders_ mx = s) as ->.
  { rewrite (matrix_new_spec a b Ha Hb) in Hnew. by injection Hnew as _ <-. }
  rewrite (push_each_spec _ (fun _ => mkPort fresh_mem (fresh_queue a b) CWIdle)).
  - f_equal. apply list_eq. intros i. rewrite list_lookup_fmap. destruct (decide (i < s)%nat).
    + by rewrite lookup_seq_lt, lookup_replicate_2.
    + rewrite lookup_seq_ge, lookup_ge_None_2; [done|rewrite length_replicate; lia|lia].
  - apply Forall_forall. intros i Hi%elem_of_seq. unfold port_to, index.
    rewrite (make_writers_spec a b Ha Hb p _ _ _ _ _ Hnew i) by lia. cbn [rbind].
    rewrite list_lookup_fmap, lookup_seq_lt by done. cbn [fmap option_fmap option_map unwrap rbind Nat.add].
    destruct (matrix_entry a b Ha Hb _ _ _ _ _ Hnew (cell s i j)) as [-> Hh]; [apply (cell_bound s r i j); lia|].
    cbn [unwrap rbind storage queue_writer queue_]. by rewrite Hh.
Qed.

(** The core attaches to the storages the senders write. *)
Lemma agg_core_new_rings log2 addr space id_id az_id ep no_ip desc :
  (forall l, addr l <> 0) -> (forall l st, heap' !! l = Some st -> space (addr l) = ms_mem st) ->
  agg_core_new p log2 addr space heap' mx j id_id az_id ep no_ip desc
  = core_new (E := exn) Release log2 (Ok ∘ rq <$> replicate s fresh_ring) (wrap 32 (Z.of_nat j)) id_id az_id ep no_ip desc.
Proof.
  intros Hnull Hspace. unfold agg_core_new. rewrite (make_readers_spec a b Ha Hb p _ _ _ _ _ Hnew j Hj). cbn [rbind].
  unfold aggregation_core_new, from_views. f_equal. apply list_eq. intros i. rewrite !list_lookup_fmap.
  destruct (decide (i < s)%nat); [|by rewrite lookup_seq_ge, lookup_ge_None_2 by (rewrite ?length_replicate; lia)].
  rewrite lookup_seq_lt, lookup_replicate_2 by done. cbn [fmap option_fmap option_map Nat.add view_of data n_elems buf_len].
  destruct (matrix_entry a b Ha Hb _ _ _ _ _ Hnew (cell s i j)) as [_ Hh]; [apply (cell_bound s r i j); lia|].
  assert (forall k, 0 <= k <= 31 -> wrapping_add 32 (2 ^ k - 1) 1 = 2 ^ k /\ not_pow2 (2 ^ k) = false) as Hpow.
  { intros k Hk. assert (2 ^ k < 2 ^ 32) by (apply Z.pow_lt_mono_r; lia). split.
    - unfold wrapping_add. replace (2 ^ k - 1 + 1) with (2 ^ k) by lia. apply wrap_small. split; lia.
    - apply not_pow2_iff; [split; lia|exists k; lia]. }
  destruct (Hpow a Ha) as [Ha1 Ha2], (Hpow b ltac:(lia)) as [Hb1 Hb2].
  cbn [fresh_queue elem_mask buf_mask]. rewrite Ha1, Hb1. cbn [queue_of_view]. rewrite (Hspace _ _ Hh).
  rewrite (proj2 (Z.eqb_neq _ _) (Hnull _)). unfold new_from_contiguous. by rewrite Ha2, Hb2.
Qed.

Lemma pipe_starts e log2 addr space id_id az_id ep no_ip desc :
  log2_law log2 -> (0 < s)%nat ->
  (forall l, addr l <> 0) -> (forall l st, heap' !! l = Some st -> space (addr l) = ms_mem st) ->
  exists core ports, agg_core_new p log2 addr space heap' mx j id_id az_id ep no_ip desc = Ok core
    /\ ports_to p heap' mx j = Ok ports /\ length ports = s
    /\ pipe_inv e (ledger_new id_id az_id no_ip) [] (pipe_start ports core).
Proof.
  intros Hlog Hs Hnull Hspace. rewrite (agg_core_new_rings log2 addr space) by done. rewrite ports_fresh.
  destruct (core_starts (E := exn) e log2 (replicate s fresh_ring) (wrap 32 (Z.of_nat j)) id_id az_id ep no_ip desc Hlog)
    as (core & Hcore & H0 & _).
  - destruct s; [lia|done].
  - apply Forall_replicate, fresh_booted.
  - eexists core, _. split; [exact Hcore|]. split; [done|]. rewrite length_replicate. split; [done|].
    exists (replicate s fresh_ring). split.
    + simpl. by apply Forall2_replicate.
    + unfold start_system in H0. unfold pipe_start. simpl. rewrite length_replicate in *. exact H0.
Qed.

End start.
End pipeline.


(** Two senders and one receiver; a producer opens a batch, then the core
    visits its queue. *)
Definition sample_addr (l : nat) : Z := Z.of_nat l + 1.
Definition sample_space (heap : list MemStorage) (d : Z) : mem :=
  match heap !! Z.to_nat (d - 1) with Some st => ms_mem st | None => ms_mem (cpp_storage_new 4 64) end.

Lemma sample_space_ok heap l st : heap !! l = Some st -> sample_space heap (sample_addr l) = ms_mem st.
Proof.
  intros H. unfold sample_space, sample_addr. replace (Z.to_nat (Z.of_nat l + 1 - 1)) with l by lia. by rewrite H.
Qed.

