(* ===== verification/K8sTypes.v ===== *)
(** * Kubernetes metadata (crates/k8s-collector: types.rs, output.rs,
      convert_to_meta.rs)

    The compact records the collector keeps of pods and their owners, the
    events it sends, and the conversion from the API objects.  The API objects
    belong to external crates: records with the fields the source reads. *)

From S2P Require Import Prelude.
From stdpp Require Import sorting.

Local Open Scope Z_scope.

(** ** types.rs *)

Inductive OwnerKind := ReplicaSet | Deployment | Job | CronJob | NoOwner | OtherKind.

#[export] Instance OwnerKind_eq : EqDecision OwnerKind.
Proof. solve_decision. Defined.

Definition is_rs_or_job (k : OwnerKind) : bool :=
  match k with ReplicaSet | Job => true | _ => false end.

Definition owner_kind_from_str (s : bytes) : OwnerKind :=
  if bool_decide (s = lit "ReplicaSet") then ReplicaSet
  else if bool_decide (s = lit "Deployment") then Deployment
  else if bool_decide (s = lit "Job") then Job
  else if bool_decide (s = lit "CronJob") then CronJob
  else if bool_decide (s = lit "NoOwner") then NoOwner
  else OtherKind.

Record OwnerRef := mkOwnerRef { or_kind : OwnerKind; or_uid : bytes; or_name : bytes }.

Record ContainerMeta := mkContainer { c_id : bytes; c_name : bytes; c_image : bytes }.

Record PodMeta := mkPod {
  p_uid : bytes;
  p_ip : bytes;
  p_name : bytes;
  p_namespace : bytes;
  p_owner : option OwnerRef;
  p_host_network : bool;
  p_version : bytes;
  p_containers : list ContainerMeta;
}.

Record OwnerMeta := mkOwner { o_uid : bytes; o_controller : option OwnerRef }.

Definition has_ip (p : PodMeta) : bool := negb (bool_decide (p_ip p = [])).

#[export] Instance OwnerRef_eq : EqDecision OwnerRef.
Proof. solve_decision. Defined.
#[export] Instance ContainerMeta_eq : EqDecision ContainerMeta.
Proof. solve_decision. Defined.
#[export] Instance PodMeta_eq : EqDecision PodMeta.
Proof. solve_decision. Defined.
#[export] Instance OwnerMeta_eq : EqDecision OwnerMeta.
Proof. solve_decision. Defined.

(** ** output.rs *)

Inductive RenderEvent :=
| PodResync (epoch : Z)
| PodNew (uid ip pod_name ns version : bytes) (owner_kind : OwnerKind) (owner_uid owner_name : bytes)
    (is_host_network : bool)
| PodContainer (uid : bytes) (container : ContainerMeta)
| PodDelete (uid : bytes).

#[export] Instance RenderEvent_eq : EqDecision RenderEvent.
Proof. solve_decision. Defined.

Definition from_pod_new (pod : PodMeta) (owner : option OwnerRef) : list RenderEvent :=
  let '(kind, uid, name) :=
    match owner with
    | Some o => (or_kind o, or_uid o, or_name o)
    | None => (NoOwner, [], p_name pod)
    end in
  PodNew (p_uid pod) (p_ip pod) (p_name pod) (p_namespace pod) (p_version pod) kind uid name
    (p_host_network pod)
  :: (PodContainer (p_uid pod) <$> p_containers pod).

(** ** The API objects *)

Record OwnerReference := mkOwnerReference {
  oref_controller : option bool; oref_kind : bytes; oref_uid : bytes; oref_name : bytes }.
Record ObjectMeta := mkObjectMeta {
  m_uid : option bytes; m_name : option bytes; m_generate_name : option bytes;
  m_namespace : option bytes; m_owner_references : option (list OwnerReference) }.
Record ContainerStatus := mkContainerStatus {
  cs_container_id : option bytes; cs_name : bytes; cs_image : bytes }.
Record PodSpec := mkPodSpec { spec_host_network : option bool }.
Record PodStatus := mkPodStatus {
  st_pod_ip : option bytes; st_container_statuses : option (list ContainerStatus) }.
Record Pod := mkApiPod {
  pod_metadata : ObjectMeta; pod_spec : option PodSpec; pod_status : option PodStatus }.

(** ** convert_to_meta.rs *)

Definition unwrap_or {A} (d : A) (o : option A) : A := match o with Some a => a | None => d end.

(** The order of Rust strings: bytes, lexicographically. *)
Fixpoint str_leb (a b : bytes) : bool :=
  match a, b with
  | [], _ => true
  | _ :: _, [] => false
  | x :: a, y :: b => (x <? y) || ((x =? y) && str_leb a b)
  end.
Definition str_le (a b : bytes) : Prop := str_leb a b = true.

#[export] Instance str_le_dec : RelDecision str_le.
Proof. intros a b. unfold str_le. apply _. Defined.

(** [join]. *)
Fixpoint join (sep : bytes) (l : list bytes) : bytes :=
  match l with
  | [] => []
  | [x] => x
  | x :: l => x ++ sep ++ join sep l
  end.

Definition quoted (i : bytes) : bytes := lit "'" ++ i ++ lit "'".

Definition build_version_string (images : list bytes) : bytes :=
  join (lit ",") (merge_sort str_le (quoted <$> filter (fun s => s <> []) images)).

(** The first controller among the owner references. *)
Definition controller_of (refs : option (list OwnerReference)) : option OwnerRef :=
  (fun '(_, o) => mkOwnerRef (owner_kind_from_str (oref_kind o)) (oref_uid o) (oref_name o))
    <$> list_find (fun o => unwrap_or false (oref_controller o) = true) (unwrap_or [] refs).

Definition statuses (pod : Pod) : list ContainerStatus :=
  unwrap_or [] (pod_status pod ≫= st_container_statuses).

Section convert.
(** [ResourceExt::name_any] of the [kube] crate. *)
Variable name_any : ObjectMeta -> bytes.

Definition pod_to_meta (pod : Pod) : PodMeta :=
  mkPod (unwrap_or [] (m_uid (pod_metadata pod)))
    (unwrap_or [] (pod_status pod ≫= st_pod_ip))
    (name_any (pod_metadata pod))
    (unwrap_or (lit "default") (m_namespace (pod_metadata pod)))
    (controller_of (m_owner_references (pod_metadata pod)))
    (unwrap_or false (pod_spec pod ≫= spec_host_network))
    (build_version_string (cs_image <$> statuses pod))
    ((fun cs => mkContainer (unwrap_or [] (cs_container_id cs)) (cs_name cs) (cs_image cs))
       <$> statuses pod).
End convert.

(** [ReplicaSet] and [Job] are read through their metadata. *)
Definition rs_to_owner (rs : ObjectMeta) : OwnerMeta :=
  mkOwner (unwrap_or [] (m_uid rs)) (controller_of (m_owner_references rs)).
Definition job_to_owner (job : ObjectMeta) : OwnerMeta :=
  mkOwner (unwrap_or [] (m_uid job)) (controller_of (m_owner_references job)).

(** ** Properties *)

#[export] Instance str_le_total : Total str_le.
Proof.
  unfold str_le. intros a. induction a as [|x a IH]; intros [|y b]; simpl; auto.
  destruct (Z.ltb_spec x y), (Z.ltb_spec y x); simpl; auto; try lia.
  assert (x = y) as -> by lia. rewrite Z.eqb_refl. simpl. apply IH.
Qed.

#[export] Instance str_le_trans : Transitive str_le.
Proof.
  unfold str_le. intros a. induction a as [|x a IH]; intros [|y b] [|z c]; simpl; auto; try done.
  rewrite !orb_true_iff, !andb_true_iff, !Z.ltb_lt, !Z.eqb_eq.
  intros [?|[-> H1]] [?|[-> H2]]; [left; lia|left; lia|left; lia|right; split; [done|by eapply IH]].
Qed.

#[export] Instance str_le_antisymm : AntiSymm (=) str_le.
Proof.
  unfold str_le. intros a. induction a as [|x a IH]; intros [|y b]; simpl; auto; try done.
  rewrite !orb_true_iff, !andb_true_iff, !Z.ltb_lt, !Z.eqb_eq.
  intros [?|[-> H1]] [?|[? H2]]; try lia. f_equal. by apply IH.
Qed.

(** The version string of a pod depends on the images of its containers
    as a multiset: it does not change when the API reports the containers in
    another order. *)
Theorem version_order_independent images images' :
  images ≡ₚ images' -> build_version_string images = build_version_string images'.
Proof.
  intros H. unfold build_version_string. f_equal.
  apply (Sorted_unique str_le); [apply Sorted_merge_sort, _..|].
  rewrite !merge_sort_Permutation. apply fmap_Permutation. by rewrite H.
Qed.

Lemma version_order_independent_witness :
  build_version_string [lit "b:2"; []; lit "a:1"] = lit "'a:1','b:2'"
  /\ build_version_string [lit "b:2"; []; lit "a:1"] = build_version_string [lit "a:1"; lit "b:2"; []].
Proof.
  split; [by vm_compute|]. apply version_order_independent.
  symmetry. apply (Permutation_cons_append [lit "b:2"; []] (lit "a:1")).
Defined.
