(* ===== verification/Reflector.v ===== *)
(** * Watch events and reflector stores

    The collector watches the Kubernetes API through the external crate
    [kube]: streams of watcher events, and reflector stores fed with them.
    The crate is a parameter of the model: the events it delivers, a class of
    the operations of a store and its writer, and a class of what their
    documentation says.  A store is keyed by object references. *)

From S2P Require Import Prelude.

(** [kube::runtime::watcher::Event]. *)
Inductive Event (T : Type) :=
| Init
| InitApply (t : T)
| InitDone
| Apply (t : T)
| Delete (t : T).
Arguments Init {T}.
Arguments InitApply {T} t.
Arguments InitDone {T}.
Arguments Apply {T} t.
Arguments Delete {T} t.

#[export] Instance Event_eq {T} `{EqDecision T} : EqDecision (Event T).
Proof. solve_decision. Defined.

(** [ObjectRef]: compared by name and namespace. *)
Record ObjectRef := mkObjectRef { ref_name : bytes; ref_namespace : option bytes }.

#[export] Instance ObjectRef_eq : EqDecision ObjectRef.
Proof. solve_decision. Defined.
#[export] Instance ObjectRef_countable : Countable ObjectRef.
Proof.
  apply (inj_countable' (fun r => (ref_name r, ref_namespace r)) (fun x => mkObjectRef (fst x) (snd x))).
  by intros [].
Defined.

(** [ObjectRef::new]. *)
Definition object_ref_new (name : bytes) : ObjectRef := mkObjectRef name None.

(** [Lookup]: the reference under which an object is stored. *)
Class Lookup (T : Type) := to_object_ref : T -> ObjectRef.

(** A store and its writer share one state: the objects readers see and the
    objects of a list in progress. *)
Class Reflector (store : Type -> Type) := {
  store_new : forall {T}, store T;
  apply_watcher_event : forall {T} `{Lookup T}, Event T -> store T -> store T;
  store_get : forall {T}, store T -> ObjectRef -> option T;
  store_state : forall {T}, store T -> list T;
}.

Class ReflectorLaws (store : Type -> Type) `{!Reflector store} := {
  visible : forall {T}, store T -> gmap ObjectRef T;
  buffered : forall {T}, store T -> gmap ObjectRef T;
  visible_new : forall T, visible (store_new (T := T)) = ∅;
  buffered_new : forall T, buffered (store_new (T := T)) = ∅;
  visible_event : forall T `{Lookup T} ev (s : store T),
    visible (apply_watcher_event ev s) =
    match ev with
    | Apply t => <[to_object_ref t := t]> (visible s)
    | Delete t => base.delete (to_object_ref t) (visible s)
    | InitDone => buffered s
    | _ => visible s
    end;
  buffered_event : forall T `{Lookup T} ev (s : store T),
    buffered (apply_watcher_event ev s) =
    match ev with
    | Init | InitDone => ∅
    | InitApply t => <[to_object_ref t := t]> (buffered s)
    | _ => buffered s
    end;
  store_get_spec : forall T (s : store T) r, store_get s r = visible s !! r;
  store_state_spec : forall T (s : store T), store_state s ≡ₚ (map_to_list (visible s)).*2;
}.

(** ** An implementation: the two maps *)

#[export] Instance map_reflector :
  Reflector (fun T => (gmap ObjectRef T * gmap ObjectRef T)%type) := {
  store_new _ := (∅, ∅);
  apply_watcher_event _ _ ev s :=
    match ev with
    | Init => (s.1, ∅)
    | InitApply t => (s.1, <[to_object_ref t := t]> s.2)
    | InitDone => (s.2, ∅)
    | Apply t => (<[to_object_ref t := t]> s.1, s.2)
    | Delete t => (base.delete (to_object_ref t) s.1, s.2)
    end;
  store_get _ s r := s.1 !! r;
  store_state _ s := (map_to_list s.1).*2;
}.

#[export] Instance map_reflector_laws :
  ReflectorLaws (fun T => (gmap ObjectRef T * gmap ObjectRef T)%type).
Proof.
  refine {| visible _ s := s.1; buffered _ s := s.2 |}; intros; simpl; try done; by destruct ev.
Defined.
