(* ===== verification/Tombstone.v ===== *)
(** * Retention of deletes (crates/k8s-collector/src/tombstone_adapter.rs)

    Holds the delete events of a watch back for a while, so that stragglers
    still find the object.  [Instant::now()] is an argument; instants and
    durations are integers. *)

From S2P Require Import Prelude Reflector.
From Stdlib Require Import Sorted.

Local Open Scope Z_scope.

Record TombstoneAdapter (T : Type) := mkTomb { ttl : Z; cap : Z; q : list (Z * T) }.
Arguments mkTomb {T} ttl cap q.
Arguments ttl {T} t.
Arguments cap {T} t.
Arguments q {T} t.

Section tombstone.
Context {T : Type}.

Definition tombstone_new (ttl cap : Z) : TombstoneAdapter T := mkTomb ttl cap [].

(** [Instant::duration_since] saturates. *)
Definition duration_since (now ts : Z) : Z := saturating_sub now ts.

Fixpoint drain_expired (ttl now : Z) (q : list (Z * T)) : list (Event T) * list (Z * T) :=
  match q with
  | (ts, t) :: q' =>
      if ttl <=? duration_since now ts then
        let '(out, rest) := drain_expired ttl now q' in (Delete t :: out, rest)
      else ([], q)
  | [] => ([], [])
  end.

(** [while self.q.len() > self.cap]. *)
Fixpoint evict (cap : Z) (q : list (Z * T)) : list (Event T) * list (Z * T) :=
  match q with
  | (ts, t) :: q' =>
      if cap <? Z.of_nat (length q) then
        let '(out, rest) := evict cap q' in (Delete t :: out, rest)
      else ([], q)
  | [] => ([], [])
  end.

Definition handle (now : Z) (ev : Event T) (a : TombstoneAdapter T)
    : list (Event T) * TombstoneAdapter T :=
  match ev with
  | Init | InitApply _ | Apply _ =>
      let '(out, q') := drain_expired (ttl a) now (q a) in
      (out ++ [ev], mkTomb (ttl a) (cap a) q')
  | Delete t =>
      let '(out, q') := drain_expired (ttl a) now (q a) in
      let '(out', q'') := evict (cap a) (q' ++ [(now, t)]) in
      (out ++ out', mkTomb (ttl a) (cap a) q'')
  | InitDone => ([InitDone], mkTomb (ttl a) (cap a) [])
  end.

(** A run of calls, each with its time. *)
Fixpoint handles (evs : list (Z * Event T)) (a : TombstoneAdapter T)
    : list (Event T) * TombstoneAdapter T :=
  match evs with
  | [] => ([], a)
  | (now, ev) :: evs =>
      let '(out, a) := handle now ev a in
      let '(out', a) := handles evs a in (out ++ out', a)
  end.

(** ** What the adapter promises *)

(** The deletes since the last completed list. *)
Definition outstanding (acc : list T) (ev : Event T) : list T :=
  match ev with
  | Delete t => acc ++ [t]
  | InitDone => []
  | _ => acc
  end.

Definition not_delete (ev : Event T) : Prop := match ev with Delete _ => False | _ => True end.
#[export] Instance not_delete_dec ev : Decision (not_delete ev).
Proof. destruct ev; simpl; apply _. Defined.

(** Retained entries are in order of time, none from the future. *)
Definition ordered (now : Z) (q : list (Z * T)) : Prop :=
  forall i j x y, (i <= j)%nat -> q !! i = Some x -> q !! j = Some y -> x.1 <= y.1 <= now.

Lemma drain_expired_spec ttl now q0 :
  exists k, drain_expired ttl now q0 = (Delete <$> (take k q0).*2, drop k q0)
    /\ (forall x, head (drop k q0) = Some x -> duration_since now x.1 < ttl).
Proof.
  induction q0 as [|[ts t] q0 IH]; simpl; [by exists 0%nat|].
  destruct (Z.leb_spec ttl (duration_since now ts)).
  - destruct IH as (k & -> & Hk). by exists (S k).
  - exists 0%nat. split; [done|]. intros x [= <-]. simpl. lia.
Qed.

Lemma evict_spec cap q0 :
  0 <= cap ->
  exists k, evict cap q0 = (Delete <$> (take k q0).*2, drop k q0)
    /\ Z.of_nat (length (drop k q0)) <= cap.
Proof.
  intros Hc. induction q0 as [|[ts t] q0 IH]; simpl; [by exists 0%nat|].
  destruct (Z.ltb_spec cap (Z.of_nat (S (length q0)))).
  - destruct IH as (k & -> & Hk). by exists (S k).
  - exists 0%nat. split; [done|]. simpl. lia.
Qed.

Lemma outstanding_deletes acc l : fold_left outstanding (Delete <$> l) acc = acc ++ l.
Proof.
  revert acc. induction l as [|t l IH]; intros acc; simpl; [by rewrite app_nil_r|].
  rewrite IH. by rewrite <- app_assoc.
Qed.

Lemma filter_deletes l : filter not_delete (Delete <$> l) = [].
Proof. by induction l. Qed.

Lemma ordered_drop now k q0 : ordered now q0 -> ordered now (drop k q0).
Proof. intros H i j x y Hij. rewrite !lookup_drop. apply H. lia. Qed.

Lemma ordered_mono now now' q0 : now <= now' -> ordered now q0 -> ordered now' q0.
Proof. intros Hn H i j x y ? Hx Hy. destruct (H i j x y); [done..|lia]. Qed.

Lemma ordered_snoc now q0 t : ordered now q0 -> ordered now (q0 ++ [(now, t)]).
Proof.
  intros H i j x y Hij Hx Hy. apply lookup_app_Some in Hx as [Hx|[? Hx]], Hy as [Hy|[? Hy]].
  - by eapply H.
  - apply list_lookup_singleton_Some in Hy as [_ <-]. destruct (H i i x x); [done..|simpl; lia].
  - apply lookup_lt_Some in Hy. lia.
  - apply list_lookup_singleton_Some in Hx as [_ <-], Hy as [_ <-]. simpl. lia.
Qed.

(** An entry is retained only while it is younger than the time to live,
    the entry of the current call apart. *)
Definition young (ttl now : Z) (x : Z * T) : Prop := now - x.1 < ttl \/ x.1 = now.

Lemma drained_young ttl now q0 :
  ordered now q0 -> (forall x, head q0 = Some x -> duration_since now x.1 < ttl) ->
  Forall (young ttl now) q0.
Proof.
  intros Ho Hh. apply Forall_lookup. intros j y Hy. left.
  destruct q0 as [|x q0]; [done|]. specialize (Hh x eq_refl).
  specialize (Ho 0%nat j x y). unfold duration_since, saturating_sub in Hh.
  destruct Ho; [lia|done|done|lia].
Qed.

(** The time of the last call. *)
Definition last_time (now : Z) (evs : list (Z * Event T)) : Z := fold_left (fun _ e => e.1) evs now.

(** One call: what comes out, what stays, and the invariant. *)
Lemma handle_spec now ev a acc out a' :
  0 <= cap a -> ordered now (q a) -> Z.of_nat (length (q a)) <= cap a ->
  handle now ev a = (out, a') ->
  ttl a' = ttl a /\ cap a' = cap a
  /\ filter not_delete out = filter not_delete [ev]
  /\ fold_left outstanding out acc ++ (q a').*2 = outstanding (acc ++ (q a).*2) ev
  /\ Z.of_nat (length (q a')) <= cap a
  /\ ordered now (q a') /\ Forall (young (ttl a) now) (q a').
Proof.
  intros Hc Ho Hl. unfold handle.
  destruct (drain_expired_spec (ttl a) now (q a)) as (k & -> & Hk).
  pose proof (ordered_drop now k _ Ho) as Hod. pose proof (drained_young _ _ _ Hod Hk) as Hy.
  assert (acc ++ (q a).*2 = acc ++ (take k (q a)).*2 ++ (drop k (q a)).*2) as Hq.
  { by rewrite <- fmap_app, take_drop. }
  assert (Z.of_nat (length (drop k (q a))) <= cap a) by (rewrite length_drop; lia).
  destruct ev as [|t| |t|t]; try destruct (evict_spec (cap a) (drop k (q a) ++ [(now, t)]) Hc)
    as (k' & -> & Hk'); intros [= <- <-]; simpl; rewrite ?Hq; split_and!; try done;
    rewrite ?filter_app, ?filter_deletes, ?fold_left_app, ?outstanding_deletes; simpl;
    rewrite <- ?app_assoc, ?app_nil_r; try done.
  - f_equal. f_equal. rewrite <- fmap_app, take_drop, fmap_app. done.
  - by apply ordered_drop, ordered_snoc.
  - apply Forall_drop, Forall_app. split; [done|]. apply Forall_singleton. by right.
Qed.

Lemma handles_spec evs now a acc out a' :
  0 <= cap a -> ordered now (q a) -> Z.of_nat (length (q a)) <= cap a ->
  Forall (young (ttl a) now) (q a) -> Sorted Z.le (now :: evs.*1) ->
  handles evs a = (out, a') ->
  filter not_delete out = filter not_delete evs.*2
  /\ fold_left outstanding out acc ++ (q a').*2 = fold_left outstanding evs.*2 (acc ++ (q a).*2)
  /\ Z.of_nat (length (q a')) <= cap a
  /\ Forall (young (ttl a) (last_time now evs)) (q a').
Proof.
  revert now a acc out a'. induction evs as [|[t ev] evs IH]; simpl; intros now a acc out a' Hc Ho Hl Hy Hs.
  { by intros [= <- <-]. }
  destruct (handle t ev a) as [o1 a1] eqn:Hh. destruct (handles evs a1) as [o2 a2] eqn:Hhs.
  intros [= <- <-]. inversion_clear Hs as [|?? Hs' Hr]. inversion_clear Hr.
  eapply (handle_spec _ _ _ acc) in Hh as (Ht & Hcap & Hf & Hout & Hl1 & Ho1 & Hy1);
    [|done|by eapply ordered_mono|done].
  rewrite <- Hcap, <- Ht in *.
  eapply (IH _ _ (fold_left outstanding o1 acc)) in Hhs as (Hf2 & Hout2 & Hl2 & Hy2); try done.
  rewrite filter_app, fold_left_app, Hf, Hf2, Hout2, Hout. split_and!; [by destruct ev|done..].
Qed.

(** C24: Over any sequence of calls at non-decreasing times, everything but
    the deletes passes through unchanged and in order; the deletes since the
    last completed list come out in order, except those still retained, which
    are at most [cap] and, the last call's apart, younger than the time to
    live. *)
Theorem tombstone_conserves t c now evs out a :
  0 <= c -> Sorted Z.le (now :: evs.*1) ->
  handles evs (tombstone_new t c) = (out, a) ->
  filter not_delete out = filter not_delete evs.*2
  /\ fold_left outstanding out [] ++ (q a).*2 = fold_left outstanding evs.*2 []
  /\ Z.of_nat (length (q a)) <= c
  /\ Forall (young t (last_time now evs)) (q a).
Proof. intros ? Hs Hr. eapply (handles_spec _ now _ []) in Hr; done. Qed.
End tombstone.

(** With room for one delete, the second pushes the first out; the third
    event comes after it expired. *)
Lemma tombstone_conserves_witness :
  handles [(0, Delete 1); (1, Delete 2); (9, Apply 3)] (tombstone_new 5 1)
    = ([Delete 1; Delete 2; Apply 3], mkTomb 5 1 [])
  /\ filter not_delete [Delete 1; Delete 2; Apply 3] = [Apply 3].
Proof.
  split; [by vm_compute|].
  refine (proj1 (tombstone_conserves 5 1 0 [(0, Delete 1); (1, Delete 2); (9, Apply 3)]
    [Delete 1; Delete 2; Apply 3] (mkTomb 5 1 []) _ _ _)); [lia| |by vm_compute].
  change (Sorted Z.le [0; 0; 1; 9]).
  repeat (apply Sorted_cons || apply HdRel_cons || apply Sorted_nil || apply HdRel_nil); lia.
Defined.
