(* ===== verification/Matcher.v ===== *)
(** * Matching pods with owners (crates/k8s-collector/src/matcher.rs)

    The matcher reads three reflector stores and turns watch events into the
    events sent to the reducer.  A pod is announced when it has an address and
    its owner is known; until then it waits under the uid of the owner.  A
    store and its writer share their contents, so the stores are fields of the
    matcher that the collector's writers update. *)

From S2P Require Import Prelude K8sTypes Reflector.

#[export] Instance pod_lookup : Lookup PodMeta := fun p => mkObjectRef (p_uid p) None.
#[export] Instance owner_lookup : Lookup OwnerMeta := fun o => mkObjectRef (o_uid o) None.

Section matcher.
Context {store : Type -> Type} {reflector : Reflector store} {order : HashOrder}.

Record Matcher := mkMatcher {
  epoch : Z;
  rs_owners : store OwnerMeta;
  job_owners : store OwnerMeta;
  waiting_by_owner : gmap bytes (list bytes);
  pods : store PodMeta;
  live_pods : gset bytes;
}.

Definition matcher_new (rs job : store OwnerMeta) (ps : store PodMeta) : Matcher :=
  mkMatcher 0 rs job ∅ ps ∅.

Definition set_waiting (m : Matcher) (w : gmap bytes (list bytes)) : Matcher :=
  mkMatcher (epoch m) (rs_owners m) (job_owners m) w (pods m) (live_pods m).
Definition set_live (m : Matcher) (l : gset bytes) : Matcher :=
  mkMatcher (epoch m) (rs_owners m) (job_owners m) (waiting_by_owner m) (pods m) l.

Definition pod_ref (uid : bytes) : ObjectRef := object_ref_new uid.
Definition owner_ref (uid : bytes) : ObjectRef := object_ref_new uid.

Definition get_owner_meta (m : Matcher) (uid : bytes) : option OwnerMeta :=
  match store_get (rs_owners m) (owner_ref uid) with
  | Some o => Some o
  | None => store_get (job_owners m) (owner_ref uid)
  end.

Definition owner_exists (m : Matcher) (uid : bytes) : bool :=
  bool_decide (is_Some (store_get (rs_owners m) (owner_ref uid)))
  || bool_decide (is_Some (store_get (job_owners m) (owner_ref uid))).

Definition try_emit_pod (m : Matcher) (p : PodMeta) : list RenderEvent * Matcher :=
  if negb (has_ip p) then ([], m)
  else
    match p_owner p with
    | None => (from_pod_new p None, set_live m ({[p_uid p]} ∪ live_pods m))
    | Some owner =>
        if negb (is_rs_or_job (or_kind owner)) then
          (from_pod_new p (Some owner), set_live m ({[p_uid p]} ∪ live_pods m))
        else
          match get_owner_meta m (or_uid owner) with
          | Some om =>
              let escalated :=
                match o_controller om with
                | Some ctrl =>
                    match or_kind ctrl with Deployment | CronJob => ctrl | _ => owner end
                | None => owner
                end in
              (from_pod_new p (Some escalated), set_live m ({[p_uid p]} ∪ live_pods m))
          | None =>
              let w := default [] (waiting_by_owner m !! or_uid owner) in
              let w := if bool_decide (p_uid p ∈ w) then w else w ++ [p_uid p] in
              ([], set_waiting m (<[or_uid owner := w]> (waiting_by_owner m)))
          end
    end.

(** The loop over the waiters of an owner. *)
Fixpoint emit_waiters (m : Matcher) (puids : list bytes) : list RenderEvent * Matcher :=
  match puids with
  | [] => ([], m)
  | puid :: puids =>
      let '(out, m) :=
        match store_get (pods m) (pod_ref puid) with
        | Some p => try_emit_pod m p
        | None => ([], m)
        end in
      let '(out', m) := emit_waiters m puids in
      (out ++ out', m)
  end.

(** [waiting_by_owner.remove(uid)] and the loop over what it held. *)
Definition release (m : Matcher) (uid : bytes) : list RenderEvent * Matcher :=
  match waiting_by_owner m !! uid with
  | Some puids => emit_waiters (set_waiting m (base.delete uid (waiting_by_owner m))) puids
  | None => ([], m)
  end.

(** The loop over the owners with waiters. *)
Fixpoint release_known (m : Matcher) (keys : list bytes) : list RenderEvent * Matcher :=
  match keys with
  | [] => ([], m)
  | uid :: keys =>
      let '(out, m) := if owner_exists m uid then release m uid else ([], m) in
      let '(out', m) := release_known m keys in
      (out ++ out', m)
  end.

Definition handle_owner (m : Matcher) (ev : Event OwnerMeta) : list RenderEvent * Matcher :=
  match ev with
  | Init | InitApply _ | Delete _ => ([], m)
  | Apply o => release m (o_uid o)
  | InitDone => release_known m (hm_iter (waiting_by_owner m)).*1
  end.

(** The loop over the snapshot of the pod store. *)
Fixpoint emit_pods (m : Matcher) (ps : list PodMeta) : list RenderEvent * Matcher :=
  match ps with
  | [] => ([], m)
  | p :: ps =>
      let '(out, m) := try_emit_pod m p in
      let '(out', m) := emit_pods m ps in
      (out ++ out', m)
  end.

Definition start_new_epoch (m : Matcher) : list RenderEvent * Matcher :=
  let m := mkMatcher (wrapping_add 64 (epoch m) 1) (rs_owners m) (job_owners m) ∅ (pods m)
             (live_pods m) in
  let '(out, m') := emit_pods m (store_state (pods m)) in
  (PodResync (epoch m) :: out, m').

Definition handle_pod (m : Matcher) (ev : Event PodMeta) : list RenderEvent * Matcher :=
  match ev with
  | Init | InitApply _ => ([], m)
  | Apply p =>
      if bool_decide (p_uid p ∈ live_pods m) then (PodContainer (p_uid p) <$> p_containers p, m)
      else try_emit_pod m p
  | Delete p =>
      let out := if bool_decide (p_uid p ∈ live_pods m) then [PodDelete (p_uid p)] else [] in
      let m := set_live m (live_pods m ∖ {[p_uid p]}) in
      (out, set_waiting m (filter (fun w => w <> p_uid p) <$> waiting_by_owner m))
  | InitDone => start_new_epoch m
  end.

(** ** Watch events at the collector (collector.rs)

    A writer applies the event to its store, then the matcher handles it. *)
Inductive Input :=
| InRs (ev : Event OwnerMeta)
| InJob (ev : Event OwnerMeta)
| InPod (ev : Event PodMeta)
| Reconnect.

Definition write_rs (m : Matcher) (ev : Event OwnerMeta) : Matcher :=
  mkMatcher (epoch m) (apply_watcher_event ev (rs_owners m)) (job_owners m) (waiting_by_owner m)
    (pods m) (live_pods m).
Definition write_job (m : Matcher) (ev : Event OwnerMeta) : Matcher :=
  mkMatcher (epoch m) (rs_owners m) (apply_watcher_event ev (job_owners m)) (waiting_by_owner m)
    (pods m) (live_pods m).
Definition write_pods (m : Matcher) (ev : Event PodMeta) : Matcher :=
  mkMatcher (epoch m) (rs_owners m) (job_owners m) (waiting_by_owner m)
    (apply_watcher_event ev (pods m)) (live_pods m).

Definition step (m : Matcher) (i : Input) : list RenderEvent * Matcher :=
  match i with
  | InRs ev => handle_owner (write_rs m ev) ev
  | InJob ev => handle_owner (write_job m ev) ev
  | InPod ev => handle_pod (write_pods m ev) ev
  | Reconnect => start_new_epoch m
  end.

Fixpoint steps (m : Matcher) (ins : list Input) : list RenderEvent * Matcher :=
  match ins with
  | [] => ([], m)
  | i :: ins =>
      let '(out, m) := step m i in
      let '(out', m) := steps m ins in
      (out ++ out', m)
  end.
End matcher.
