(* ===== verification/MatcherSpec.v ===== *)
(** * What the matcher promises

    The view a receiver builds from the events, the invariant that ties it to
    the stores, and the theorems over whole runs of watch events. *)

From S2P Require Import Prelude K8sTypes Reflector Matcher.

(** The pods a receiver knows: a resync empties them. *)
Definition see (v : gset bytes) (ev : RenderEvent) : gset bytes :=
  match ev with
  | PodResync _ => ∅
  | PodNew uid _ _ _ _ _ _ _ _ => {[uid]} ∪ v
  | PodContainer _ _ => v
  | PodDelete uid => v ∖ {[uid]}
  end.
Definition view (out : list RenderEvent) : gset bytes := fold_left see out ∅.

(** The pods ever announced. *)
Definition seen (n : gset bytes) (ev : RenderEvent) : gset bytes :=
  match ev with PodNew uid _ _ _ _ _ _ _ _ => {[uid]} ∪ n | _ => n end.

(** Containers and deletes are of pods announced before. *)
Fixpoint in_order (n : gset bytes) (out : list RenderEvent) : Prop :=
  match out with
  | [] => True
  | ev :: out =>
      match ev with PodContainer uid _ | PodDelete uid => uid ∈ n | _ => True end
      /\ in_order (seen n ev) out
  end.

Lemma in_order_app n a b : in_order n (a ++ b) <-> in_order n a /\ in_order (fold_left seen a n) b.
Proof. revert n. induction a as [|x a IH]; intros n; simpl; [tauto|]. rewrite IH. tauto. Qed.

Section spec.
Context {store : Type -> Type} {reflector : Reflector store} {laws : ReflectorLaws store}
  {order : HashOrder} {order_laws : HashOrderLaws}.

Local Abbreviation Matcher := (Matcher (store := store)).
Implicit Types (m : Matcher) (v n : gset bytes) (todo : bytes -> Prop) (p : PodMeta).

(** The owner a pod is reported with, once it is known: its controller, or
    the deployment or cron job that controls it. *)
Definition effective m p : option (option OwnerRef) :=
  match p_owner p with
  | None => Some None
  | Some o =>
      if is_rs_or_job (or_kind o) then
        om ← get_owner_meta m (or_uid o);
        Some (Some match o_controller om with
                   | Some c => if bool_decide (or_kind c = Deployment \/ or_kind c = CronJob) then c else o
                   | None => o
                   end)
      else Some (Some o)
  end.

Definition stored m (uid : bytes) : option PodMeta := visible (pods m) !! pod_ref uid.

(** An announcement is of a stored pod with its effective owner. *)
Definition describes m (ev : RenderEvent) : Prop :=
  match ev with
  | PodNew uid _ _ _ _ _ _ _ _ =>
      exists p o, stored m uid = Some p /\ effective m p = Some o /\ head (from_pod_new p o) = Some ev
  | _ => True
  end.

Definition keyed (s : gmap ObjectRef PodMeta) : Prop :=
  forall r p, s !! r = Some p -> r = to_object_ref p.

Definition waits m p : Prop :=
  exists o, p_owner p = Some o /\ is_rs_or_job (or_kind o) = true
    /\ get_owner_meta m (or_uid o) = None
    /\ exists w, waiting_by_owner m !! or_uid o = Some w /\ p_uid p ∈ w.

Record inv m v n : Prop := {
  inv_live : v ⊆ live_pods m;
  inv_seen : live_pods m ⊆ n;
  inv_stored : forall uid, uid ∈ v -> is_Some (stored m uid);
  inv_keys : keyed (visible (pods m));
  inv_buffer : keyed (buffered (pods m));
}.

(** Every stored pod with an address is in the view, waits for its owner, or
    is still to be handled. *)
Definition covers todo m v : Prop :=
  forall r p, visible (pods m) !! r = Some p -> has_ip p = true ->
  p_uid p ∈ v \/ waits m p \/ todo (p_uid p).

Definition none : bytes -> Prop := fun _ => False.

(** The stores of two states agree. *)
Definition same_stores m m' : Prop :=
  rs_owners m' = rs_owners m /\ job_owners m' = job_owners m /\ pods m' = pods m.

(** A part of an operation: from covering all but [todo] to all but [todo']. *)
Definition good todo todo' m (out : list RenderEvent) m' : Prop :=
  same_stores m m' /\ Forall (describes m) out
  /\ forall v n, inv m v n ->
       inv m' (fold_left see out v) (fold_left seen out n) /\ in_order n out
       /\ (covers todo m v -> covers todo' m' (fold_left see out v)).

Lemma get_owner_same m m' k : same_stores m m' -> get_owner_meta m' k = get_owner_meta m k.
Proof. intros (H1 & H2 & _). unfold get_owner_meta. by rewrite H1, H2. Qed.

Lemma describes_same m m' ev : same_stores m m' -> describes m' ev -> describes m ev.
Proof.
  intros Hs. destruct ev; simpl; [done| |done..]. intros (p & o & Hp & Ho & He).
  exists p, o. unfold stored, effective in *. destruct (Hs) as (_ & _ & Hpods).
  rewrite Hpods in Hp. split; [done|]. split; [|done].
  destruct (p_owner p); [|done]. by rewrite <- (get_owner_same m m').
Qed.

Lemma good_nil todo todo' m : (forall u, todo u -> todo' u) -> good todo todo' m [] m.
Proof.
  intros Ht. split_and!; [done..|]. intros v n Hi. simpl. split_and!; [done..|].
  intros Hc r p Hp Hip. destruct (Hc r p Hp Hip) as [|[|]]; auto.
Qed.

Lemma good_trans t1 t2 t3 m1 m2 m3 o1 o2 :
  good t1 t2 m1 o1 m2 -> good t2 t3 m2 o2 m3 -> good t1 t3 m1 (o1 ++ o2) m3.
Proof.
  intros (Hs1 & Hd1 & H1) (Hs2 & Hd2 & H2). split_and!.
  - destruct Hs1 as (?&?&?), Hs2 as (?&?&?). repeat split; congruence.
  - apply Forall_app. split; [done|]. eapply Forall_impl; [done|]. intros ev. by apply describes_same.
  - intros v n Hi. destruct (H1 v n Hi) as (Hi1 & Ho1 & Hc1). destruct (H2 _ _ Hi1) as (Hi2 & Ho2 & Hc2).
    rewrite !fold_left_app, in_order_app. auto.
Qed.

Lemma container_folds uid cs v n :
  uid ∈ n ->
  fold_left see (PodContainer uid <$> cs) v = v /\ fold_left seen (PodContainer uid <$> cs) n = n
  /\ in_order n (PodContainer uid <$> cs).
Proof. intros Hn. induction cs as [|c cs (IH1 & IH2 & IH3)]; simpl; auto. Qed.

Lemma announce_folds p o v n :
  fold_left see (from_pod_new p o) v = {[p_uid p]} ∪ v
  /\ fold_left seen (from_pod_new p o) n = {[p_uid p]} ∪ n
  /\ in_order n (from_pod_new p o).
Proof.
  destruct (container_folds (p_uid p) (p_containers p) ({[p_uid p]} ∪ v) ({[p_uid p]} ∪ n))
    as (H1 & H2 & H3); [set_solver|].
  unfold from_pod_new. by destruct o.
Qed.

Lemma announce_describes m p o :
  stored m (p_uid p) = Some p -> effective m p = Some o -> Forall (describes m) (from_pod_new p o).
Proof.
  intros Hp Ho. assert (forall cs, Forall (describes m) (PodContainer (p_uid p) <$> cs)) as Hc.
  { intros cs. by apply Forall_fmap, Forall_true. }
  unfold from_pod_new at 1. destruct o as [o|]; constructor; [by eexists _, _|done|by eexists _, _|done].
Qed.

Lemma stored_keyed m r p :
  keyed (visible (pods m)) -> visible (pods m) !! r = Some p -> stored m (p_uid p) = Some p.
Proof. intros Hk Hp. rewrite (Hk _ _ Hp) in Hp. done. Qed.

Lemma good_announce todo m p o :
  stored m (p_uid p) = Some p -> effective m p = Some o ->
  good (fun u => todo u \/ u = p_uid p) todo m (from_pod_new p o)
    (set_live m ({[p_uid p]} ∪ live_pods m)).
Proof.
  intros Hp Ho. split_and!; [done|by apply announce_describes|]. intros v n [Hl Hn Hs ??].
  destruct (announce_folds p o v n) as (-> & -> & Hord). split_and!; [|done|].
  - split; simpl; [by apply union_mono_l..| |done|done].
    intros uid [->%elem_of_singleton|]%elem_of_union; [by exists p|by apply Hs].
  - intros Hc r p' Hp' Hip. destruct (Hc r p' Hp' Hip) as [|[|[|]]]; auto; left; set_solver.
Qed.

(** Adding waiters keeps the others waiting. *)
Lemma waits_mono m m' p :
  same_stores m m' ->
  (forall k w, waiting_by_owner m !! k = Some w ->
    exists w', waiting_by_owner m' !! k = Some w' /\ w ⊆ w') ->
  waits m p -> waits m' p.
Proof.
  intros Hs Hw (o & ? & ? & Hg & w & Hl & Hin). destruct (Hw _ _ Hl) as (w' & ? & Hsub).
  exists o. rewrite (get_owner_same m) by done. split_and!; [done..|]. exists w'. auto.
Qed.

Lemma good_wait todo m p o w1 :
  p_owner p = Some o -> is_rs_or_job (or_kind o) = true -> get_owner_meta m (or_uid o) = None ->
  stored m (p_uid p) = Some p ->
  p_uid p ∈ w1 -> default [] (waiting_by_owner m !! or_uid o) ⊆ w1 ->
  good (fun u => todo u \/ u = p_uid p) todo m []
    (set_waiting m (<[or_uid o := w1]> (waiting_by_owner m))).
Proof.
  intros Hpo Hk Hg Hp Hin Hsub. split_and!; [done..|]. intros v n Hi. simpl.
  split_and!; [by destruct Hi; split|done|]. intros Hc r p' Hp' Hip.
  destruct (Hc r p' Hp' Hip) as [|[Hwt|[|Hu]]]; [auto| |auto|].
  - right; left. eapply waits_mono; [..|exact Hwt]; [done|]. simpl. intros k w Hl.
    destruct (decide (k = or_uid o)) as [->|].
    + rewrite lookup_insert_eq. eexists. split; [done|]. by rewrite Hl in Hsub.
    + rewrite lookup_insert_ne by done. eauto.
  - right; left. pose proof (stored_keyed _ _ _ (inv_keys _ _ _ Hi) Hp') as Hp2.
    rewrite Hu, Hp in Hp2. injection Hp2 as <-. exists o. split_and!; [done..|].
    exists w1. simpl. by rewrite lookup_insert_eq.
Qed.

Lemma good_skip todo m p :
  stored m (p_uid p) = Some p -> has_ip p = false ->
  good (fun u => todo u \/ u = p_uid p) todo m [] m.
Proof.
  intros Hp Hn. split_and!; [done..|]. intros v n Hi. split_and!; [done..|].
  intros Hc r p' Hp' Hip. destruct (Hc r p' Hp' Hip) as [|[|[|Hu]]]; [auto..|].
  pose proof (stored_keyed _ _ _ (inv_keys _ _ _ Hi) Hp') as Hp2. simpl in *. congruence.
Qed.

(** Every branch of [try_emit_pod]. *)
Lemma try_emit_good todo m p out m' :
  stored m (p_uid p) = Some p -> try_emit_pod m p = (out, m') ->
  good (fun u => todo u \/ u = p_uid p) todo m out m'
  /\ (forall k, get_owner_meta m k <> None -> waiting_by_owner m' !! k = waiting_by_owner m !! k).
Proof.
  intros Hp. unfold try_emit_pod. destruct (has_ip p) eqn:Hip; simpl.
  2: { intros [= <- <-]. split; [by apply good_skip|done]. }
  destruct (p_owner p) as [o|] eqn:Ho.
  2: { intros [= <- <-]. split; [|done]. apply good_announce; [done|]. unfold effective. by rewrite Ho. }
  destruct (is_rs_or_job (or_kind o)) eqn:Hk; simpl.
  2: { intros [= <- <-]. split; [|done]. apply good_announce; [done|]. unfold effective. by rewrite Ho, Hk. }
  destruct (get_owner_meta m (or_uid o)) as [om|] eqn:Hg; intros [= <- <-].
  - split; [|done]. apply good_announce; [done|]. unfold effective. rewrite Ho, Hk, Hg. simpl.
    do 2 f_equal. destruct (o_controller om) as [[[] ? ?]|]; reflexivity.
  - split; [apply good_wait; try done; case_bool_decide; set_solver|]. intros k Hkn. simpl. rewrite lookup_insert_ne; [done|]. congruence.
Qed.

Lemma good_weaken t1 t1' t2 m out m' :
  (forall u, t1' u -> t1 u) -> good t1 t2 m out m' -> good t1' t2 m out m'.
Proof.
  intros Ht (Hs & Hd & H). split_and!; [done..|]. intros v n Hi. destruct (H v n Hi) as (? & ? & Hc).
  split_and!; [done..|]. intros Hc'. apply Hc. intros r p Hp Hip.
  destruct (Hc' r p Hp Hip) as [|[|]]; auto.
Qed.

Lemma stored_same m m' uid : same_stores m m' -> stored m' uid = stored m uid.
Proof. intros (_ & _ & H). unfold stored. by rewrite H. Qed.

Lemma keyed_same m m' : same_stores m m' -> keyed (visible (pods m)) -> keyed (visible (pods m')).
Proof. by intros (_ & _ & ->). Qed.

Lemma emit_pods_good todo m ps out m' :
  (forall p, p ∈ ps -> stored m (p_uid p) = Some p) -> emit_pods m ps = (out, m') ->
  good (fun u => todo u \/ exists p, p ∈ ps /\ u = p_uid p) todo m out m'.
Proof.
  revert m out. induction ps as [|p ps IH]; simpl; intros m out Hps.
  { intros [= <- <-]. apply good_nil. intros u [|(p & []%elem_of_nil & _)]. done. }
  destruct (try_emit_pod m p) as [o1 m1] eqn:H1. destruct (emit_pods m1 ps) as [o2 m2] eqn:H2.
  intros [= <- <-].
  eapply (try_emit_good (fun u => todo u \/ exists p, p ∈ ps /\ u = p_uid p)) in H1 as [H1 _];
    [|apply Hps; set_solver].
  eapply good_trans; [|eapply IH; [|done]].
  - eapply good_weaken; [|exact H1]. intros u [|(p' & [->|]%elem_of_cons & ->)]; eauto.
  - intros p' Hp'. rewrite (stored_same m) by apply H1. apply Hps. set_solver.
Qed.

Lemma good_absent todo m uid :
  keyed (visible (pods m)) -> stored m uid = None -> good (fun u => todo u \/ u = uid) todo m [] m.
Proof.
  intros Hk Hn. split_and!; [done..|]. intros v n Hi. split_and!; [done..|].
  intros Hc r p' Hp' Hip. destruct (Hc r p' Hp' Hip) as [|[|[|Hu]]]; [auto..|].
  apply (stored_keyed _ _ _ Hk) in Hp'. congruence.
Qed.

(** The waiters of a known owner are not touched. *)
Definition keeps_waiters (P : bytes -> Prop) m m' : Prop :=
  forall k, P k -> get_owner_meta m k <> None -> waiting_by_owner m' !! k = waiting_by_owner m !! k.

Lemma emit_waiters_good todo m us out m' :
  keyed (visible (pods m)) -> emit_waiters m us = (out, m') ->
  good (fun u => todo u \/ u ∈ us) todo m out m' /\ keeps_waiters (fun _ => True) m m'.
Proof.
  revert m out. induction us as [|puid us IH]; simpl; intros m out Hk.
  { intros [= <- <-]. split; [|done]. apply good_nil. intros u [|[]%elem_of_nil]. done. }
  destruct (match store_get _ _ with Some p => _ | None => _ end) as [o1 m1] eqn:H1.
  destruct (emit_waiters m1 us) as [o2 m2] eqn:H2. intros [= <- <-].
  assert (good (fun u => (todo u \/ u ∈ us) \/ u = puid) (fun u => todo u \/ u ∈ us) m o1 m1
    /\ keeps_waiters (fun _ => True) m m1) as [Hg Hw].
  { rewrite store_get_spec in H1. destruct (visible (pods m) !! pod_ref puid) as [p|] eqn:Hp.
    - pose proof (Hk _ _ Hp) as Hu. injection Hu as ->.
      apply (try_emit_good (fun u => todo u \/ u ∈ us)) in H1 as [? Hw]; [|done].
      split; [done|]. intros k _. apply Hw.
    - injection H1 as <- <-. split; [by apply good_absent|done]. }
  apply IH in H2 as [Hg2 Hw2]; [|by eapply keyed_same; [apply Hg|]]. split.
  - eapply good_trans; [|done]. eapply good_weaken; [|done].
    intros u [|[->|]%elem_of_cons]; auto.
  - intros k _ Hn. rewrite Hw2; [by apply Hw|done|]. by rewrite (get_owner_same m) by apply Hg.
Qed.

Lemma good_forget todo m uid :
  get_owner_meta m uid <> None ->
  good todo todo m [] (set_waiting m (base.delete uid (waiting_by_owner m))).
Proof.
  intros Hn. split_and!; [done..|]. intros v n Hi. split_and!; [by destruct Hi; split|done|].
  intros Hc r p Hp Hip. destruct (Hc r p Hp Hip) as [|[(o & Ho & Hk & Hg & w & Hw)|]]; [auto| |auto].
  right; left. exists o. split_and!; [done..|]. exists w. simpl. rewrite lookup_delete_ne; [done|]. congruence.
Qed.

Definition waiting_on m (k u : bytes) : Prop :=
  exists w, waiting_by_owner m !! k = Some w /\ u ∈ w.

Lemma release_good todo m uid out m' :
  keyed (visible (pods m)) -> get_owner_meta m uid <> None -> release m uid = (out, m') ->
  good (fun u => todo u \/ waiting_on m uid u) todo m out m'
  /\ keeps_waiters (fun k => k <> uid) m m'.
Proof.
  intros Hk Hn. unfold release. destruct (waiting_by_owner m !! uid) as [us|] eqn:Hw.
  2: { intros [= <- <-]. split; [|done]. apply good_nil. intros u [|(w & ? & _)]; [done|congruence]. }
  intros H. apply (emit_waiters_good todo) in H as [Hg Hkw]; [|done]. split.
  - eapply (good_trans _ _ _ _ _ _ []); [by apply good_forget|]. eapply good_weaken; [|exact Hg].
    intros u [|(w & ? & ?)]; [by left|right]. congruence.
  - intros k Hne Hkn. rewrite Hkw by done. simpl. by apply lookup_delete_ne.
Qed.

Lemma owner_exists_known m k : owner_exists m k = true <-> get_owner_meta m k <> None.
Proof.
  unfold owner_exists, get_owner_meta. rewrite orb_true_iff, !bool_decide_eq_true.
  destruct (store_get (rs_owners m) _) as [o|].
  - split; [done|]. intros _. left. by exists o.
  - rewrite <- !not_eq_None_Some. split; [by intros [|]|auto].
Qed.

Lemma release_known_good todo m keys out m' :
  keyed (visible (pods m)) -> release_known m keys = (out, m') ->
  good (fun u => todo u \/ exists k, k ∈ keys /\ get_owner_meta m k <> None /\ waiting_on m k u)
    todo m out m'.
Proof.
  revert m out. induction keys as [|uid keys IH]; simpl; intros m out Hk.
  { intros [= <- <-]. apply good_nil. intros u [|(k & []%elem_of_nil & _)]. done. }
  destruct (if owner_exists m uid then _ else _) as [o1 m1] eqn:H1.
  destruct (release_known m1 keys) as [o2 m2] eqn:H2. intros [= <- <-].
  set (t := fun u => todo u
    \/ exists k, k ∈ keys /\ k <> uid /\ get_owner_meta m k <> None /\ waiting_on m k u).
  assert (good (fun u => t u \/ get_owner_meta m uid <> None /\ waiting_on m uid u) t m o1 m1
    /\ keeps_waiters (fun k => k <> uid) m m1) as [Hg Hw].
  { destruct (owner_exists m uid) eqn:He.
    - apply owner_exists_known in He. apply (release_good t) in H1 as [Hg Hw]; [|done..].
      split; [|done]. eapply good_weaken; [|done]. tauto.
    - injection H1 as <- <-. split; [|done]. apply good_nil. intros u [|[Hn _]]; [done|].
      apply owner_exists_known in Hn. congruence. }
  apply IH in H2; [|by eapply keyed_same; [apply Hg|]].
  eapply (good_trans _ t); [|eapply good_weaken; [|exact H2]].
  - eapply good_weaken; [|done]. intros u [|(k & [->|]%elem_of_cons & ? & ?)]; [by left; left|by right|].
    destruct (decide (k = uid)) as [->|]; [by right|]. left; right. by exists k.
  - intros u [|(k & ? & ? & Hn & w & Hl & ?)]; [by left|right]. exists k.
    split_and!; [done|by rewrite (get_owner_same m) by apply Hg|]. exists w. by rewrite Hw.
Qed.

(** ** Writes to the owner stores *)

(** The owners of [m'] unknown to [m]. *)
Definition news m m' (u : bytes) : Prop :=
  exists k, get_owner_meta m k = None /\ get_owner_meta m' k <> None /\ waiting_on m' k u.

(** States that differ in the owner stores only. *)
Definition same_pods m m' : Prop :=
  pods m' = pods m /\ waiting_by_owner m' = waiting_by_owner m /\ live_pods m' = live_pods m.

Lemma owners_written m m' v n :
  same_pods m m' -> inv m v n -> inv m' v n /\ (covers none m v -> covers (news m m') m' v).
Proof.
  intros (Hp & Hw & Hl) [Hil His Hist Hik Hib]. split.
  - split; rewrite ?Hp, ?Hl; try done. intros uid Hu. unfold stored. rewrite Hp. by apply Hist.
  - intros Hc r p Hr Hip. rewrite Hp in Hr.
    destruct (Hc r p Hr Hip) as [|[(o & Ho & Hk & Hg & w & Hlw & Hin)|[]]]; [by left|right].
    destruct (get_owner_meta m' (or_uid o)) eqn:Hg'; [right|left].
    + exists (or_uid o). split_and!; [done|congruence|]. exists w. by rewrite Hw.
    + exists o. split_and!; [done..|]. exists w. by rewrite Hw.
Qed.

Lemma get_owner_spec m k :
  get_owner_meta m k =
  match visible (rs_owners m) !! owner_ref k with
  | Some o => Some o | None => visible (job_owners m) !! owner_ref k end.
Proof. unfold get_owner_meta. by rewrite !store_get_spec. Qed.

(** What a written event makes known: the applied owner, or the buffered
    ones. *)
Lemma write_news m m' ev u :
  m' = write_rs m ev \/ m' = write_job m ev -> news m m' u ->
  match ev with
  | Apply o => get_owner_meta m' (o_uid o) <> None /\ waiting_on m' (o_uid o) u
  | InitDone => exists k, get_owner_meta m' k <> None /\ waiting_on m' k u
  | _ => False
  end.
Proof.
  intros Hm (k & Hn & Hs & Hw).
  destruct ev as [|t| |t|t]; [exfalso..|by exists k| |exfalso]; revert Hn Hs;
    rewrite !get_owner_spec; destruct Hm as [-> | ->]; simpl; rewrite visible_event;
    try (by intros; congruence).
  all: try (destruct (decide (owner_ref k = to_object_ref t)) as [He|Hne];
    [injection He as ->|rewrite ?lookup_insert_ne, ?lookup_delete_ne by done; by intros; congruence]).
  all: rewrite ?lookup_insert_eq, ?lookup_delete_eq; try done.
  all: repeat case_match; intros; try done; split; try done; rewrite get_owner_spec; simpl;
    rewrite visible_event, lookup_insert_eq; repeat case_match; done.
Qed.

(** An operation on a whole state, from covering to covering when [P]. *)
Definition sound (P : Prop) m (out : list RenderEvent) m' : Prop :=
  Forall (describes m') out
  /\ forall v n, inv m v n ->
       inv m' (fold_left see out v) (fold_left seen out n) /\ in_order n out
       /\ (P -> covers none m v -> covers none m' (fold_left see out v)).

Lemma same_stores_sym m m' : same_stores m m' -> same_stores m' m.
Proof. intros (?&?&?). by repeat split. Qed.

Lemma sound_owner P m m' out m'' :
  same_pods m m' -> (keyed (visible (pods m)) -> good (news m m') none m' out m'') ->
  keyed (visible (pods m)) -> sound P m out m''.
Proof.
  intros Hsp Hg Hk. destruct (Hg Hk) as (Hs & Hd & H). split.
  - eapply Forall_impl; [done|]. intros ev. apply describes_same. by apply same_stores_sym.
  - intros v n Hi. destruct (owners_written m m' v n Hsp Hi) as [Hi' Hc].
    destruct (H v n Hi') as (? & ? & ?). auto.
Qed.

Lemma handle_owner_sound P m m' ev out m'' :
  m' = write_rs m ev \/ m' = write_job m ev -> keyed (visible (pods m)) ->
  handle_owner m' ev = (out, m'') -> sound P m out m''.
Proof.
  intros Hm Hk Hh. assert (same_pods m m') as Hsp by (by destruct Hm as [-> | ->]).
  pose proof (fun u => write_news m m' ev u Hm) as Hnews.
  assert (keyed (visible (pods m'))) as Hk' by (by destruct Hsp as [-> _]).
  eapply sound_owner; [done|intros _|done]. destruct ev as [|t| |t|t]; simpl in Hh.
  1,2,5: injection Hh as <- <-; apply good_nil; exact Hnews.
  - eapply good_weaken; [|eapply (release_known_good none); [done|exact Hh]].
    intros u Hu. right. destruct (Hnews u Hu) as (k & ? & Hw). exists k. split_and!; [|done..].
    destruct Hw as (w & Hl & _). apply list_elem_of_fmap. exists (k, w). split; [done|].
    rewrite hm_iter_perm. by apply elem_of_map_to_list.
  - destruct (get_owner_meta m' (o_uid t)) as [o|] eqn:Hg.
    + apply (release_good none) in Hh as [Hh _]; [|done|by rewrite Hg].
      eapply good_weaken; [|exact Hh]. intros u [_ Hw]%Hnews. by right.
    + exfalso. destruct Hm as [-> | ->]; revert Hg; rewrite get_owner_spec; simpl;
        rewrite visible_event, lookup_insert_eq; by repeat case_match.
Qed.

(** ** Epochs and pod events *)

Lemma elem_of_state m p :
  p ∈ store_state (pods m) <-> exists r, visible (pods m) !! r = Some p.
Proof.
  rewrite store_state_spec, list_elem_of_fmap. split.
  - intros ([r p'] & -> & Hp%elem_of_map_to_list). by exists r.
  - intros [r Hr]. exists (r, p). split; [done|]. by apply elem_of_map_to_list.
Qed.

(** A new epoch covers the pods from nothing. *)
Lemma start_new_epoch_spec m out m' :
  keyed (visible (pods m)) -> keyed (buffered (pods m)) -> start_new_epoch m = (out, m') ->
  Forall (describes m') out
  /\ forall v n, live_pods m ⊆ n ->
       inv m' (fold_left see out v) (fold_left seen out n) /\ in_order n out
       /\ covers none m' (fold_left see out v).
Proof.
  intros Hk Hb. unfold start_new_epoch. set (m1 := mkMatcher _ _ _ _ _ _).
  destruct (emit_pods m1 (store_state (pods m1))) as [o m2] eqn:He. intros [= <- <-].
  apply (emit_pods_good none) in He as (Hs & Hd & H).
  2: { intros p [r Hp]%elem_of_state. by eapply stored_keyed. }
  split.
  - constructor; [done|]. eapply Forall_impl; [done|]. intros ev.
    apply describes_same. by apply same_stores_sym.
  - intros v n Hl. simpl. destruct (H ∅ n) as (? & ? & Hc).
    { split; simpl; [set_solver|done|by intros ? []%elem_of_empty|done|done]. }
    split_and!; [done..|]. apply Hc. intros r p Hp _. right; right; right.
    exists p. split; [|done]. apply elem_of_state. by exists r.
Qed.

(** An update of a live pod keeps the owner of the stored pod, which has an
    address. *)
Definition steady m (i : Input) : Prop :=
  match i with
  | InPod (Apply p) =>
      p_uid p ∈ live_pods m ->
      exists p0, stored m (p_uid p) = Some p0 /\ p_owner p0 = p_owner p /\ has_ip p0 = true
  | _ => True
  end.

Lemma keyed_insert s p : keyed s -> keyed (<[to_object_ref p := p]> s).
Proof. intros Hk r p' [[<- <-]|[? ?]]%lookup_insert_Some; auto. Qed.

(** The written pod is to be handled, unless it is live. *)
Lemma pod_applied m p v n :
  inv m v n ->
  inv (write_pods m (Apply p)) v n
  /\ (covers none m v -> covers (fun u => u = p_uid p) (write_pods m (Apply p)) v)
  /\ (steady m (InPod (Apply p)) -> p_uid p ∈ live_pods m ->
      covers none m v -> covers none (write_pods m (Apply p)) v).
Proof.
  intros [Hl Hn Hs Hk Hb]. unfold covers. simpl. split_and!.
  - split; simpl; rewrite ?visible_event, ?buffered_event; [done..| |by apply keyed_insert|done].
    intros uid Hu. unfold stored. simpl. rewrite visible_event. apply lookup_insert_is_Some'. right. by apply Hs.
  - rewrite visible_event. intros Hc r p' [[_ <-]|[_ Hp']]%lookup_insert_Some Hip; [by right; right|].
    destruct (Hc r p' Hp' Hip) as [|[|[]]]; auto.
  - rewrite visible_event. intros Hst Hlive Hc r p' [[_ <-]|[_ Hp']]%lookup_insert_Some Hip.
    + destruct (Hst Hlive) as (p0 & Hp0 & Ho & Hip0).
      pose proof (Hk _ _ Hp0) as [= Hu].
      destruct (Hc _ _ Hp0 Hip0) as [|[(o & Hpo & ? & ? & w & ? & ?)|[]]]; [left; congruence|right; left].
      exists o. split_and!; [congruence|done..|]. exists w. split; [done|congruence].
    + destruct (Hc r p' Hp' Hip) as [|[|[]]]; auto.
Qed.

Lemma apply_sound m p out m' :
  handle_pod (write_pods m (Apply p)) (Apply p) = (out, m') ->
  sound (steady m (InPod (Apply p))) m out m'.
Proof.
  simpl. case_bool_decide as Hlive.
  - intros [= <- <-]. split; [by apply Forall_fmap, Forall_true|]. intros v n Hi.
    destruct (container_folds (p_uid p) (p_containers p) v n) as (-> & -> & ?).
    { by apply (inv_seen _ _ _ Hi). }
    destruct (pod_applied m p v n Hi) as (? & _ & ?). auto.
  - intros H. apply (try_emit_good none) in H as [(Hs & Hd & H) _].
    2: { unfold stored. simpl. rewrite visible_event. apply lookup_insert_eq. }
    split; [eapply Forall_impl; [done|]; intros ev; apply describes_same; by apply same_stores_sym|].
    intros v n Hi. destruct (pod_applied m p v n Hi) as (Hi' & Hc & _).
    destruct (H v n Hi') as (? & ? & Hc'). split_and!; [done..|]. intros _ Hcov. apply Hc'.
    intros r p' Hp' Hip. destruct (Hc Hcov r p' Hp' Hip) as [|[|]]; auto.
Qed.

Lemma delete_sound P m p out m' :
  handle_pod (write_pods m (Delete p)) (Delete p) = (out, m') -> sound P m out m'.
Proof.
  simpl. intros [= <- <-]. split; [by case_bool_decide; repeat constructor|]. intros v n [Hl Hn Hs Hk Hb].
  set (out := if bool_decide (p_uid p ∈ live_pods m) then [PodDelete (p_uid p)] else []).
  assert (fold_left see out v = v ∖ {[p_uid p]} /\ fold_left seen out n = n /\ in_order n out)
    as (-> & -> & ?).
  { unfold out. case_bool_decide; simpl; split_and!; auto. set_solver. }
  split_and!; [|done|].
  - split; simpl; rewrite ?visible_event, ?buffered_event; [set_solver..| | |done].
    + intros uid [Hu Hne]%elem_of_difference. unfold stored. simpl. rewrite visible_event.
      rewrite lookup_delete_ne by (intros [= He]; set_solver). by apply Hs.
    + intros r p' [_ Hp']%lookup_delete_Some. by apply Hk.
  - intros _. unfold covers. simpl. rewrite visible_event.
    intros Hc r p' [Hne Hp']%lookup_delete_Some Hip.
    assert (p_uid p' <> p_uid p) as Hu.
    { intros He. apply Hne. rewrite (Hk _ _ Hp'). unfold to_object_ref, pod_lookup. congruence. }
    destruct (Hc r p' Hp' Hip) as [|[(o & Ho & ? & Hg & w & Hw & Hin)|[]]]; [left; set_solver|right; left].
    exists o. split_and!; [done..|]. exists (filter (fun w => w <> p_uid p) w). simpl.
    rewrite lookup_fmap, Hw. split; [done|]. by apply list_elem_of_filter.
Qed.

Lemma pod_listed P m ev out m' :
  ev = Init \/ (exists p, ev = InitApply p) ->
  handle_pod (write_pods m ev) ev = (out, m') -> sound P m out m'.
Proof.
  intros Hev Hh. assert (out = [] /\ m' = write_pods m ev) as [-> ->]
    by (destruct Hev as [-> | [p ->]]; by injection Hh).
  assert (visible (pods (write_pods m ev)) = visible (pods m)) as Hv
    by (simpl; rewrite visible_event; by destruct Hev as [-> | [p ->]]).
  split; [done|]. intros v n [Hl Hn Hs Hk Hb]. split_and!; [|done|].
  - split; rewrite ?Hv; try done.
    + intros uid Hu. unfold stored. rewrite Hv. by apply Hs.
    + simpl. rewrite buffered_event. by destruct Hev as [-> | [p ->]]; [|apply keyed_insert].
  - intros _ Hc r p. rewrite Hv. apply Hc.
Qed.

Lemma step_sound m i v n out m' :
  inv m v n -> step m i = (out, m') ->
  Forall (describes m') out
  /\ inv m' (fold_left see out v) (fold_left seen out n) /\ in_order n out
  /\ (steady m i -> covers none m v -> covers none m' (fold_left see out v)).
Proof.
  intros Hi Hs. pose proof (inv_keys _ _ _ Hi) as Hk. pose proof (inv_buffer _ _ _ Hi) as Hb.
  assert (forall m1, keyed (visible (pods m1)) -> keyed (buffered (pods m1)) ->
    live_pods m1 ⊆ n -> start_new_epoch m1 = (out, m') ->
    Forall (describes m') out
    /\ inv m' (fold_left see out v) (fold_left seen out n) /\ in_order n out
    /\ (steady m i -> covers none m v -> covers none m' (fold_left see out v))) as Hepoch.
  { intros m1 H1 H2 Hl H3. destruct (start_new_epoch_spec _ _ _ H1 H2 H3) as [Hd H].
    destruct (H v n Hl) as (? & ? & ?). auto. }
  assert (sound (steady m i) m out m' ->
    Forall (describes m') out
    /\ inv m' (fold_left see out v) (fold_left seen out n) /\ in_order n out
    /\ (steady m i -> covers none m v -> covers none m' (fold_left see out v))) as Hsound.
  { intros [Hd H]. auto. }
  destruct i as [ev|ev|ev|]; simpl in Hs.
  - apply Hsound. eapply handle_owner_sound; [by left|done|done].
  - apply Hsound. eapply handle_owner_sound; [by right|done|done].
  - destruct ev as [|p| |p|p].
    + apply Hsound. eapply pod_listed; [by left|done].
    + apply Hsound. eapply pod_listed; [by right; exists p|done].
    + eapply Hepoch; [..|exact Hs]; simpl.
      * by rewrite visible_event.
      * rewrite buffered_event. intros r p Hp. by rewrite lookup_empty in Hp.
      * apply (inv_seen _ _ _ Hi).
    + by apply Hsound, apply_sound.
    + by eapply Hsound, delete_sound.
  - eapply Hepoch; [done..| |exact Hs]. apply (inv_seen _ _ _ Hi).
Qed.

Fixpoint steady_run m (ins : list Input) : Prop :=
  match ins with
  | [] => True
  | i :: ins => steady m i /\ steady_run (snd (step m i)) ins
  end.

Lemma steps_sound ins m v n out m' :
  inv m v n -> steps m ins = (out, m') ->
  inv m' (fold_left see out v) (fold_left seen out n) /\ in_order n out
  /\ (steady_run m ins -> covers none m v -> covers none m' (fold_left see out v)).
Proof.
  revert m v n out. induction ins as [|i ins IH]; simpl; intros m v n out Hi.
  { by intros [= <- <-]. }
  destruct (step m i) as [o1 m1] eqn:H1. destruct (steps m1 ins) as [o2 m2] eqn:H2.
  intros [= <- <-]. apply (step_sound _ _ v n) in H1 as (_ & Hi1 & Ho1 & Hc1); [|done].
  apply (IH _ _ _ _ Hi1) in H2 as (Hi2 & Ho2 & Hc2).
  rewrite !fold_left_app, in_order_app. split_and!; [done..|]. intros [? ?] ?. auto.
Qed.

Definition start : Matcher := matcher_new store_new store_new store_new.

Lemma matcher_inv_start : inv start ∅ ∅.
Proof.
  split; simpl; try done; unfold keyed; rewrite ?visible_new, ?buffered_new; intros ??;
    by rewrite lookup_empty.
Qed.

Lemma waits_unresolved m p : waits m p -> effective m p = None.
Proof. intros (o & Ho & Hk & Hg & _). unfold effective. by rewrite Ho, Hk, Hg. Qed.

(** What a covered view contains. *)
Lemma covers_view m v uid p :
  keyed (visible (pods m)) -> covers none m v -> stored m uid = Some p -> has_ip p = true ->
  effective m p <> None -> uid ∈ v.
Proof.
  intros Hk Hc Hp Hip He. pose proof (Hk _ _ Hp) as [= ->].
  destruct (Hc _ _ Hp Hip) as [|[?%waits_unresolved|[]]]; done.
Qed.

(** C25: After any run of watch events and reconnections, every pod announced
    by the next event is stored, has a known owner, and is announced with the
    owner's controller when that is a deployment or a cron job, its own fields
    and that owner. *)
Theorem announcements_describe ins i out m out' m' :
  steps start ins = (out, m) -> step m i = (out', m') -> Forall (describes m') out'.
Proof.
  intros H1 H2. apply (steps_sound _ _ _ _ _ _ matcher_inv_start) in H1 as (Hi & _).
  by eapply step_sound.
Qed.
End spec.

(** ** A run *)

Module Sample.
Local Abbreviation mstore := (fun T => (gmap ObjectRef T * gmap ObjectRef T)%type).
Definition rs1 := mkOwner (lit "r1") (Some (mkOwnerRef Deployment (lit "d1") (lit "web"))).
Definition pod1 := mkPod (lit "p1") (lit "10.0.0.1") (lit "web-1") (lit "default")
  (Some (mkOwnerRef ReplicaSet (lit "r1") (lit "web-rs"))) false (lit "'img:1'")
  [mkContainer (lit "c1") (lit "app") (lit "img:1")].
(** The pod once its replica set is gone. *)
Definition orphan := mkPod (lit "p1") (lit "10.0.0.1") (lit "web-1") (lit "default") None false
  (lit "'img:1'") [mkContainer (lit "c1") (lit "app") (lit "img:1")].
Definition m1 := start (store := mstore).
(** The pod waits; its owner is applied. *)
Definition m2 := snd (step m1 (InPod (Apply pod1))).
Definition m3 := snd (step m2 (InRs (Apply rs1))).
End Sample.

(** The pod comes first, then its owner: it is announced under the
    deployment. *)
Lemma announcements_describe_witness :
  steps Sample.m1 [InPod (Apply Sample.pod1)] = ([], Sample.m2)
  /\ Forall (describes Sample.m3)
      [PodNew (lit "p1") (lit "10.0.0.1") (lit "web-1") (lit "default") (lit "'img:1'") Deployment
         (lit "d1") (lit "web") false;
       PodContainer (lit "p1") (mkContainer (lit "c1") (lit "app") (lit "img:1"))].
Proof.
  split; [by vm_cast_no_check (eq_refl ([] : list RenderEvent, Sample.m2))|].
  refine (announcements_describe [InPod (Apply Sample.pod1)] (InRs (Apply Sample.rs1)) [] Sample.m2
    _ Sample.m3 _ _).
  - vm_cast_no_check (eq_refl ([] : list RenderEvent, Sample.m2)).
  - vm_cast_no_check (eq_refl (step Sample.m2 (InRs (Apply Sample.rs1)))).
Defined.

