(* ===== verification/Collector.v ===== *)
(** * The collector pipeline (crates/k8s-collector: collector.rs, config.rs)

    Watch streams pass through tombstone adapters into the stores and the
    matcher.  What [tokio::select!] takes from the three streams is a list of
    items; the time at which an event is handled comes with it.  The connection
    loop is in [Connection]. *)

From S2P Require Import Prelude K8sTypes Reflector Tombstone Matcher MatcherSpec.

Record Config := mkConfig {
  intake_host : bytes; intake_port : Z; delete_ttl : Z; delete_capacity : Z }.

(** Durations in nanoseconds. *)
Definition config_default : Config := mkConfig (lit "127.0.0.1") 8000 (60 * 10 ^ 9) 10000.

(** A watch event converted, an error passed on. *)
Definition map_kube_event {K T W : Type} (ev : res W (Event K)) (f : K -> T) : res W (list (Event T)) :=
  rmap (fun e =>
    match e with
    | Apply obj => [Apply (f obj)]
    | Delete obj => [Delete (f obj)]
    | Init => [Init]
    | InitApply obj => [InitApply (f obj)]
    | InitDone => [InitDone]
    end) ev.

Section collector.
Context {store : Type -> Type} {reflector : Reflector store} {order : HashOrder} {W : Type}.

Record Collector := mkCollector {
  matcher : Matcher (store := store);
  rs_owner_tomb : TombstoneAdapter OwnerMeta;
  job_owner_tomb : TombstoneAdapter OwnerMeta;
  pod_tomb : TombstoneAdapter PodMeta;
}.

Definition with_client (cfg : Config) : Collector :=
  mkCollector (matcher_new store_new store_new store_new)
    (tombstone_new (delete_ttl cfg) (delete_capacity cfg))
    (tombstone_new (delete_ttl cfg) (delete_capacity cfg))
    (tombstone_new (delete_ttl cfg) (delete_capacity cfg)).

(** What a stream yields: its end, an error, or events. *)
Abbreviation yield T := (option (res W (list (Z * Event T)))).
Inductive Item :=
| PodItem (y : yield PodMeta)
| RsItem (y : yield OwnerMeta)
| JobItem (y : yield OwnerMeta).

(** The loops over the events of an item: each is handled by the adapter and
    what that forwards goes to the store and the matcher. *)
Fixpoint feed {T : Type} (input : Event T -> Input) (evs : list (Z * Event T))
    (a : TombstoneAdapter T) (m : Matcher (store := store))
    : list RenderEvent * TombstoneAdapter T * Matcher (store := store) :=
  match evs with
  | [] => ([], a, m)
  | (now, e) :: evs =>
      let '(fwd, a) := handle now e a in
      let '(out, m) := steps m (input <$> fwd) in
      let '(out', a, m) := feed input evs a m in
      (out ++ out', a, m)
  end.

(** One branch of the [select!]: [None] when the stream ended. *)
Definition take_item (c : Collector) (it : Item) : option (list RenderEvent * Collector) :=
  match it with
  | PodItem None | RsItem None | JobItem None => None
  | PodItem (Some (Ok evs)) =>
      let '(out, a, m) := feed InPod evs (pod_tomb c) (matcher c) in
      Some (out, mkCollector m (rs_owner_tomb c) (job_owner_tomb c) a)
  | RsItem (Some (Ok evs)) =>
      let '(out, a, m) := feed InRs evs (rs_owner_tomb c) (matcher c) in
      Some (out, mkCollector m a (job_owner_tomb c) (pod_tomb c))
  | JobItem (Some (Ok evs)) =>
      let '(out, a, m) := feed InJob evs (job_owner_tomb c) (matcher c) in
      Some (out, mkCollector m (rs_owner_tomb c) a (pod_tomb c))
  | _ => Some ([], c)
  end.

(** A call returns a batch, fails, or still waits when the items are used
    up. *)
Inductive Next :=
| Batch (out : list RenderEvent) (c : Collector) (rest : list Item)
| Stopped
| Waiting (c : Collector).

Fixpoint next_messages (c : Collector) (items : list Item) : Next :=
  match items with
  | [] => Waiting c
  | it :: items =>
      match take_item c it with
      | None => Stopped
      | Some ([], c) => next_messages c items
      | Some (out, c) => Batch out c items
      end
  end.

Definition collector_start_new_epoch (c : Collector) : list RenderEvent * Collector :=
  let '(out, m) := start_new_epoch (matcher c) in
  (out, mkCollector m (rs_owner_tomb c) (job_owner_tomb c) (pod_tomb c)).

(** ** What the adapters forward *)

Definition item_inputs (c : Collector) (it : Item) : list Input :=
  match it with
  | PodItem (Some (Ok evs)) => InPod <$> fst (handles evs (pod_tomb c))
  | RsItem (Some (Ok evs)) => InRs <$> fst (handles evs (rs_owner_tomb c))
  | JobItem (Some (Ok evs)) => InJob <$> fst (handles evs (job_owner_tomb c))
  | _ => []
  end.

Fixpoint forwarded (c : Collector) (items : list Item) : list Input :=
  match items with
  | [] => []
  | it :: items =>
      match take_item c it with
      | None => []
      | Some ([], c') => item_inputs c it ++ forwarded c' items
      | Some (_, _) => item_inputs c it
      end
  end.

(** The life of a collector: the inputs its adapters forwarded, all it
    returned, and its state. *)
Inductive lives (cfg : Config) : list Input -> list RenderEvent -> Collector -> Prop :=
| lives_new : lives cfg [] [] (with_client cfg)
| lives_batch ins out c items out' c' rest :
    lives cfg ins out c -> next_messages c items = Batch out' c' rest ->
    lives cfg (ins ++ forwarded c items) (out ++ out') c'
| lives_waiting ins out c items c' :
    lives cfg ins out c -> next_messages c items = Waiting c' ->
    lives cfg (ins ++ forwarded c items) out c'
| lives_epoch ins out c out' c' :
    lives cfg ins out c -> collector_start_new_epoch c = (out', c') ->
    lives cfg (ins ++ [Reconnect]) (out ++ out') c'.

(** ** Properties *)

Lemma steps_app (m : Matcher (store := store)) a b :
  steps m (a ++ b) =
  let '(out, m1) := steps m a in let '(out', m2) := steps m1 b in (out ++ out', m2).
Proof.
  revert m. induction a as [|i a IH]; intros m; simpl; [by destruct (steps m b)|].
  destruct (step m i) as [o1 m1]. rewrite IH. destruct (steps m1 a) as [o2 m2].
  destruct (steps m2 b) as [o3 m3]. by rewrite app_assoc.
Qed.

Lemma feed_steps {T} (input : Event T -> Input) evs a m out a' m' :
  feed input evs a m = (out, a', m') -> steps m (input <$> fst (handles evs a)) = (out, m').
Proof.
  revert a m out. induction evs as [|[now e] evs IH]; simpl; intros a m out.
  { by intros [= <- _ <-]. }
  destruct (handle now e a) as [fwd a1]. destruct (steps m (input <$> fwd)) as [o1 m1] eqn:H1.
  destruct (feed input evs a1 m1) as [[o2 a2] m2] eqn:H2. intros [= <- <- <-].
  apply IH in H2. destruct (handles evs a1) as [fwd2 a2']. simpl in *.
  by rewrite fmap_app, steps_app, H1, H2.
Qed.

Lemma take_item_steps c it out c' :
  take_item c it = Some (out, c') -> steps (matcher c) (item_inputs c it) = (out, matcher c').
Proof.
  destruct it as [[[evs|w|]|]|[[evs|w|]|]|[[evs|w|]|]]; simpl; try (by intros [= <- <-]); try done.
  all: destruct (feed _ _ _ _) as [[o a] m] eqn:Hf; intros [= <- <-]; by apply feed_steps in Hf.
Qed.

Lemma next_messages_steps c items :
  match next_messages c items with
  | Batch out c' _ => out <> [] /\ steps (matcher c) (forwarded c items) = (out, matcher c')
  | Waiting c' => steps (matcher c) (forwarded c items) = ([], matcher c')
  | Stopped => True
  end.
Proof.
  revert c. induction items as [|it items IH]; intros c; simpl; [done|].
  destruct (take_item c it) as [[[|o out] c']|] eqn:Ht; [|by apply take_item_steps in Ht|done].
  apply take_item_steps in Ht. specialize (IH c'). destruct (next_messages c' items) as [out' c''| |c''].
  - rewrite steps_app, Ht. destruct IH as [? ->]. done.
  - done.
  - by rewrite steps_app, Ht, IH.
Qed.

Lemma lives_steps cfg ins out c : lives cfg ins out c -> steps start ins = (out, matcher c).
Proof.
  induction 1 as [|ins out c items out' c' rest _ IH Hn|ins out c items c' _ IH Hn|ins out c out' c' _ IH He].
  - done.
  - pose proof (next_messages_steps c items) as H. rewrite Hn in H. destruct H as [_ H].
    by rewrite steps_app, IH, H.
  - pose proof (next_messages_steps c items) as H. rewrite Hn in H.
    by rewrite steps_app, IH, H, app_nil_r.
  - rewrite steps_app, IH. simpl. unfold collector_start_new_epoch in He.
    destruct (start_new_epoch (matcher c)) as [o m]. injection He as <- <-. by rewrite app_nil_r.
Qed.
End collector.

(** What a life of the collector has told the receiver. *)
Lemma lives_view {store : Type -> Type} {reflector : Reflector store}
    {laws : ReflectorLaws store} {order : HashOrder} {order_laws : HashOrderLaws} {W : Type}
    cfg ins out (c : Collector (store := store)) :
  lives (W := W) cfg ins out c ->
  (forall uid, uid ∈ view out -> is_Some (stored (matcher c) uid))
  /\ in_order ∅ out
  /\ (steady_run start ins ->
      forall uid p, stored (matcher c) uid = Some p -> has_ip p = true ->
      effective (matcher c) p <> None -> uid ∈ view out).
Proof.
  intros H%lives_steps. apply (steps_sound _ _ _ _ _ _ matcher_inv_start) in H as (Hi & Ho & Hc).
  split_and!; [apply (inv_stored _ _ _ Hi)|done|]. intros Hs uid p.
  apply covers_view; [apply (inv_keys _ _ _ Hi)|]. apply Hc; [done|].
  intros r p' Hp'. simpl in Hp'. by rewrite visible_new, lookup_empty in Hp'.
Qed.


(** A pod waits for its replica set, is announced, and again after a
    reconnection. *)
Module Life.
Local Abbreviation mstore := (fun T => (gmap ObjectRef T * gmap ObjectRef T)%type).
Definition c0 : Collector (store := mstore) := with_client config_default.
Definition pod_items : list (Item (W := unit)) := [RsItem (Some (Err tt)); PodItem (Some (Ok [(0, Apply Sample.pod1)]))].
Definition c1 : Collector (store := mstore) :=
  match next_messages c0 pod_items with Waiting c => c | _ => c0 end.
Definition rs_items : list (Item (W := unit)) := [RsItem (Some (Ok [(1, Apply Sample.rs1)]))].
Definition batch : list RenderEvent * Collector (store := mstore) :=
  match next_messages c1 rs_items with Batch out c _ => (out, c) | _ => ([], c0) end.
Definition resynced : list RenderEvent * Collector (store := mstore) :=
  collector_start_new_epoch (snd batch).
Definition ins : list Input := (forwarded c0 pod_items ++ forwarded c1 rs_items) ++ [Reconnect].
End Life.

