(* ===== verification/IpAddr.v ===== *)
(** * Addresses of the standard library (std::net parser)

    [Ipv4Addr::from_str] and [IpAddr::from_str], which the collector uses for
    the addresses of pods and of the reducer. *)

From S2P Require Import Prelude Utf8.

Abbreviation text := (list Z).

(** [char::to_digit]. *)
Definition to_digit (radix b : Z) : option Z :=
  let d := if between 48 57 b then Some (b - 48)
           else if between 97 102 b then Some (b - 87)
           else if between 65 70 b then Some (b - 55)
           else None in
  match d with Some n => if n <? radix then Some n else None | None => None end.

(** The digits of a number: at most [max], with a value of at most [limit]. *)
Fixpoint read_digits (radix limit : Z) (max : nat) (s : text) (n : Z) (count : nat)
    : option (Z * nat * text) :=
  match s with
  | b :: s' =>
      match to_digit radix b with
      | Some d =>
          let n := n * radix + d in
          if (limit <? n) || (max <=? count)%nat then None
          else read_digits radix limit max s' n (S count)
      | None => Some (n, count, s)
      end
  | [] => Some (n, count, s)
  end.

Definition read_number (radix limit : Z) (max : nat) (allow_zero_prefix : bool) (s : text)
    : option (Z * text) :=
  '(n, count, rest) ← read_digits radix limit max s 0 0;
  if (count =? 0)%nat then None
  else if negb allow_zero_prefix && bool_decide (head s = Some 48) && (1 <? count)%nat then None
  else Some (n, rest).

Definition read_given_char (c : Z) (s : text) : option text :=
  match s with b :: s => if b =? c then Some s else None | [] => None end.

(** Four numbers without leading zeros, separated by dots. *)
Definition read_ipv4_addr (s : text) : option (Z * Z * Z * Z * text) :=
  let octet := read_number 10 255 3 false in
  let dot := read_given_char 46 in
  '(a, s) ← octet s; s ← dot s;
  '(b, s) ← octet s; s ← dot s;
  '(c, s) ← octet s; s ← dot s;
  '(d, s) ← octet s;
  Some (a, b, c, d, s).

(** [Ipv4Addr::from_str]. *)
Definition parse_ipv4 (s : text) : option (Z * Z * Z * Z) :=
  if (15 <? length s)%nat then None
  else '(quad, rest) ← read_ipv4_addr s; match rest with [] => Some quad | _ => None end.

(** ** IPv6 *)

(** [read_separator]: a colon before all but the first. *)
Definition read_separator {A} (index : nat) (inner : text -> option (A * text)) (s : text)
    : option (A * text) :=
  if (0 <? index)%nat then s ← read_given_char 58 s; inner s else inner s.

(** [read_groups] on [limit] slots, [i] of which are read: the groups, whether
    they ended with an IPv4 address, and the rest of the input. *)
Fixpoint read_groups (slots i : nat) (limit : nat) (s : text) : list Z * bool * text :=
  match slots with
  | O => ([], false, s)
  | S slots =>
      let ipv4 :=
        if (i <? limit - 1)%nat
        then read_separator i (fun s => '(q, rest) ← read_ipv4_addr s; Some (q, rest)) s else None in
      match ipv4 with
      | Some ((a, b, c, d), rest) => ([a * 256 + b; c * 256 + d], true, rest)
      | None =>
          match read_separator i (read_number 16 65535 4 true) s with
          | Some (g, rest) =>
              let '(gs, v4, rest) := read_groups slots (S i) limit rest in (g :: gs, v4, rest)
          | None => ([], false, s)
          end
      end
  end.

Definition read_ipv6_addr (s : text) : option (list Z * text) :=
  let '(hd, head_ipv4, rest) := read_groups 8 0 8 s in
  if (length hd =? 8)%nat then Some (hd, rest)
  else if head_ipv4 then None
  else
    rest ← read_given_char 58 rest;
    rest ← read_given_char 58 rest;
    let limit := (8 - (length hd + 1))%nat in
    let '(tl, _, rest) := read_groups limit 0 limit rest in
    Some (hd ++ replicate (8 - length hd - length tl) 0 ++ tl, rest).

Inductive IpAddr := V4 (a b c d : Z) | V6 (groups : list Z).

Definition read_ip_addr (s : text) : option (IpAddr * text) :=
  match read_ipv4_addr s with
  | Some (a, b, c, d, rest) => Some (V4 a b c d, rest)
  | None => '(gs, rest) ← read_ipv6_addr s; Some (V6 gs, rest)
  end.

(** [IpAddr::from_str]: all of the input must be read. *)
Definition parse_ip (s : text) : option IpAddr :=
  '(a, rest) ← read_ip_addr s; match rest with [] => Some a | _ => None end.

(** ** Values *)

Lemma to_digit_bounds radix b d : to_digit radix b = Some d -> 0 <= d < radix.
Proof.
  unfold to_digit. destruct (between 48 57 b) eqn:H1; [|destruct (between 97 102 b) eqn:H2;
    [|destruct (between 65 70 b) eqn:H3; [|done]]]; unfold between in *; case_match; intros; simplify_eq; lia.
Qed.

Lemma read_digits_range radix limit max s n c m d rest :
  0 <= n <= limit -> read_digits radix limit max s n c = Some (m, d, rest) -> 0 <= m <= limit.
Proof.
  revert n c. induction s as [|b s IH]; intros n c Hn H; simpl in H; [by simplify_eq|].
  destruct (to_digit radix b) as [k|] eqn:Hb; [|by simplify_eq]. apply to_digit_bounds in Hb.
  destruct (_ || _) eqn:Hc; [done|]. apply orb_false_iff in Hc as [Hc _]. eapply IH; [|exact H]. nia.
Qed.

Lemma read_number_range radix limit max z s n rest :
  0 <= limit -> read_number radix limit max z s = Some (n, rest) -> 0 <= n <= limit.
Proof.
  unfold read_number. intros Hl. destruct (read_digits _ _ _ s 0 0) as [[[m d] r]|] eqn:H; [|done]. simpl.
  destruct (d =? 0)%nat; [done|]. destruct (_ && _); [done|]. intros [= <- <-].
  by eapply read_digits_range in H.
Qed.

Lemma read_ipv4_range s a b c d rest :
  read_ipv4_addr s = Some (a, b, c, d, rest) -> fits 8 a /\ fits 8 b /\ fits 8 c /\ fits 8 d.
Proof.
  unfold read_ipv4_addr. intros H.
  repeat match type of H with
  | (read_number ?r ?l ?m ?z ?s ≫= _) = _ =>
      let Ho := fresh "Ho" in
      destruct (read_number r l m z s) as [[? ?]|] eqn:Ho; [simpl in H; apply read_number_range in Ho; [|done]|done]
  | (read_given_char ?c ?s ≫= _) = _ => destruct (read_given_char c s); [simpl in H|done]
  end.
  simplify_eq. unfold fits. lia.
Qed.

(** Dotted decimal addresses are read as they are written. *)
Definition dec (n : Z) : text :=
  if n <? 10 then [48 + n]
  else if n <? 100 then [48 + n / 10; 48 + n mod 10]
  else [48 + n / 100; 48 + n / 10 mod 10; 48 + n mod 10].

Definition dotted (a b c d : Z) : text := dec a ++ 46 :: dec b ++ 46 :: dec c ++ 46 :: dec d.

Lemma read_dec n :
  fits 8 n ->
  (forall rest, read_number 10 255 3 false (dec n ++ 46 :: rest) = Some (n, 46 :: rest))
  /\ read_number 10 255 3 false (dec n) = Some (n, []) /\ (length (dec n) <= 3)%nat.
Proof.
  intros Hn.
  assert (Forall (fun n => (forall rest, read_number 10 255 3 false (dec n ++ 46 :: rest) = Some (n, 46 :: rest))
    /\ read_number 10 255 3 false (dec n) = Some (n, []) /\ (length (dec n) <= 3)%nat) (seqZ 0 256)) as H.
  { vm_compute seqZ. repeat first [apply Forall_nil_2 | apply Forall_cons_2; [split_and!; [done..|simpl; lia]|]]. }
  rewrite Forall_forall in H. apply H. apply elem_of_seqZ. unfold fits in Hn. lia.
Qed.

Lemma read_dotted a b c d :
  fits 8 a -> fits 8 b -> fits 8 c -> fits 8 d ->
  read_ipv4_addr (dotted a b c d) = Some (a, b, c, d, []) /\ (length (dotted a b c d) <= 15)%nat.
Proof.
  intros (Ha & _ & La)%read_dec (Hb & _ & Lb)%read_dec (Hc & _ & Lc)%read_dec (_ & Hd & Ld)%read_dec.
  split; [|unfold dotted; do 3 (rewrite length_app; simpl length); lia].
  unfold read_ipv4_addr, dotted. rewrite Ha. cbn. rewrite Hb. cbn. rewrite Hc. cbn. by rewrite Hd.
Qed.

(** ** The characters of an address *)

Definition addr_char (b : Z) : bool :=
  between 48 57 b || between 97 102 b || between 65 70 b || (b =? 46) || (b =? 58).

(** What was read consists of address characters. *)
Definition reads_chars (s rest : text) : Prop := exists pre, s = pre ++ rest /\ Forall (fun b => addr_char b = true) pre.

#[export] Instance reads_chars_refl : Reflexive reads_chars.
Proof. intros s. by exists []. Qed.

#[export] Instance reads_chars_trans : Transitive reads_chars.
Proof.
  intros a b c (p1 & -> & H1) (p2 & -> & H2). exists (p1 ++ p2). rewrite <- app_assoc. split; [done|].
  by apply Forall_app.
Qed.

Lemma reads_char b s : addr_char b = true -> reads_chars (b :: s) s.
Proof. intros H. exists [b]. split; [done|]. by constructor. Qed.

Lemma to_digit_char radix b d : to_digit radix b = Some d -> addr_char b = true.
Proof. unfold to_digit, addr_char. repeat case_match; by rewrite ?orb_true_r. Qed.

Lemma read_digits_chars radix limit max s n c m d rest :
  read_digits radix limit max s n c = Some (m, d, rest) -> reads_chars s rest.
Proof.
  revert n c. induction s as [|b s IH]; intros n c H; simpl in H; [by simplify_eq|].
  destruct (to_digit radix b) as [k|] eqn:Hb; [|by simplify_eq]. destruct (_ || _); [done|].
  etrans; [by eapply reads_char, to_digit_char|]. by eapply IH.
Qed.

Lemma read_number_chars radix limit max z s n rest :
  read_number radix limit max z s = Some (n, rest) -> reads_chars s rest.
Proof.
  unfold read_number. destruct (read_digits _ _ _ s 0 0) as [[[m d] r]|] eqn:H; [|done]. simpl.
  destruct (d =? 0)%nat; [done|]. destruct (_ && _); [done|]. intros [= <- <-].
  by eapply read_digits_chars in H.
Qed.

Lemma read_given_chars c s rest : addr_char c = true -> read_given_char c s = Some rest -> reads_chars s rest.
Proof.
  intros Hc. destruct s as [|b s]; [done|]. simpl. destruct (Z.eqb_spec b c); [|done]. intros [= <-].
  subst. by apply reads_char.
Qed.

Lemma read_ipv4_chars s q rest : read_ipv4_addr s = Some (q, rest) -> reads_chars s rest.
Proof.
  unfold read_ipv4_addr. intros H.
  repeat match type of H with
  | (read_number ?r ?l ?m ?z ?s ≫= _) = _ =>
      let Ho := fresh "Ho" in
      destruct (read_number r l m z s) as [[? ?]|] eqn:Ho; [simpl in H; apply read_number_chars in Ho|done]
  | (read_given_char ?c ?s ≫= _) = _ =>
      let Ho := fresh "Ho" in
      destruct (read_given_char c s) eqn:Ho; [simpl in H; apply read_given_chars in Ho; [|done]|done]
  end.
  simplify_eq. repeat (etrans; [eassumption|]). reflexivity.
Qed.

Lemma read_separator_chars {A} i (inner : text -> option (A * text)) s x rest :
  (forall s x rest, inner s = Some (x, rest) -> reads_chars s rest) ->
  read_separator i inner s = Some (x, rest) -> reads_chars s rest.
Proof.
  intros Hi. unfold read_separator. destruct (0 <? i)%nat; [|by apply Hi].
  destruct (read_given_char 58 s) as [s'|] eqn:H; [|done]. simpl. intros Hs.
  apply read_given_chars in H; [|done]. etrans; [exact H|]. by eapply Hi.
Qed.

Lemma read_groups_chars slots i limit s gs v4 rest :
  read_groups slots i limit s = (gs, v4, rest) -> reads_chars s rest.
Proof.
  revert i s gs. induction slots as [|slots IH]; intros i s gs H; simpl in H; [by simplify_eq|].
  destruct (if (i <? limit - 1)%nat then _ else _) as [[[[[a b] c] d] r]|] eqn:Hv4.
  - simplify_eq. destruct (i <? limit - 1)%nat; [|done]. eapply read_separator_chars; [|exact Hv4].
    clear. intros s x rest H. simpl in H. destruct (read_ipv4_addr s) as [[q r]|] eqn:Hq; [|done].
    simpl in H. simplify_eq. by eapply read_ipv4_chars.
  - destruct (read_separator i (read_number 16 65535 4 true) s) as [[g r]|] eqn:Hg; [|by simplify_eq].
    destruct (read_groups slots (S i) limit r) as [[gs' v'] r'] eqn:Hr. simplify_eq.
    apply read_separator_chars in Hg; [|intros *; apply read_number_chars].
    etrans; [done|]. by eapply IH.
Qed.

Lemma read_ipv6_chars s gs rest : read_ipv6_addr s = Some (gs, rest) -> reads_chars s rest.
Proof.
  unfold read_ipv6_addr. destruct (read_groups 8 0 8 s) as [[hd v4] r] eqn:Hh. apply read_groups_chars in Hh.
  destruct (length hd =? 8)%nat; [by intros [= <- <-]|]. destruct v4; [done|].
  destruct (read_given_char 58 r) as [r1|] eqn:H1; [|done]. cbn.
  destruct (read_given_char 58 r1) as [r2|] eqn:H2; [|done]. cbn.
  destruct (read_groups _ 0 _ r2) as [[tl v] r3] eqn:Ht. apply read_groups_chars in Ht. intros [= <- <-].
  apply read_given_chars in H1, H2; [|done..]. by do 3 (etrans; [done|]).
Qed.

Lemma parse_ip_chars s a : parse_ip s = Some a -> Forall (fun b => addr_char b = true) s.
Proof.
  unfold parse_ip, read_ip_addr. intros H.
  assert (reads_chars s []) as (pre & -> & Hp); [|by rewrite app_nil_r].
  destruct (read_ipv4_addr s) as [[[[[? ?] ?] ?] r]|] eqn:H4.
  - cbn in H. destruct r; [|done]. by eapply read_ipv4_chars.
  - destruct (read_ipv6_addr s) as [[gs r]|] eqn:H6; [|done]. cbn in H. destruct r; [|done].
    by eapply read_ipv6_chars.
Qed.
