(* ===== verification/K8sEncode.v ===== *)
(** * The encoder of the k8s collector (crates/k8s-collector/src/encode.rs)

    Events become frames of the ingest messages through the generated encoders
    ([IngestCodec]).  Strings are passed as blobs with a 16 bit length, buffers
    with a 32 bit length.  The padding of the encoders' structs is arbitrary:
    [pad n] are the bytes of a fresh struct of [n] bytes. *)

From S2P Require Import Prelude RenderParser Utf8 Wire Codec Hash IngestCodec Codecs K8sTypes IpAddr.

Local Open Scope rust_scope.

(** ** Events *)

(** [u32::from] puts the first octet in the high byte. *)
Definition ipv4_to_u32 (ip : bytes) : Z :=
  match parse_ipv4 ip with
  | Some (a, b, c, d) => a * 2 ^ 24 + b * 2 ^ 16 + c * 2 ^ 8 + d
  | None => 0
  end.

Definition owner_kind_code (k : OwnerKind) : Z :=
  match k with
  | ReplicaSet => 0
  | Deployment => 1
  | Job => 2
  | CronJob => 3
  | NoOwner => 254
  | OtherKind => 255
  end.

(** The blob's length is the string's, truncated to 16 bits; the encoder sees
    that many bytes. *)
Definition as_blob (s : bytes) : value :=
  VBytes (take (Z.to_nat (wrap 16 (Z.of_nat (length s)))) s).

(** The declarations of the generated encoders the file links against, with
    the definitions their symbols resolve to. *)
Definition externs : list (encoder * signature) :=
  [(encode_pod_new_with_name,
    [("uid", PBlob); ("ip", PU 4); ("owner_name", PBlob); ("pod_name", PBlob); ("owner_kind", PU 1);
     ("owner_uid", PBlob); ("is_host_network", PU 1); ("ns", PBlob); ("version", PBlob)]);
   (encode_pod_container,
    [("uid", PBlob); ("container_id", PBlob); ("container_name", PBlob); ("container_image", PBlob)]);
   (encode_pod_delete, [("uid", PBlob)]);
   (encode_pod_resync, [("resync_count", PU 8)]);
   (IngestCodec.encode_version_info, [("major", PU 4); ("minor", PU 4); ("patch", PU 4)]);
   (IngestCodec.encode_connect, [("collector_type", PU 1); ("hostname", PBlob)]);
   (IngestCodec.encode_heartbeat, [])]%string.

Section encode.
Context (p : profile) (e : endian) (pad : nat -> list Z).

(** A generated encoder on a fresh buffer, whose length is passed as [u32];
    the arguments are passed by position. *)
Definition call (en : encoder) (len : nat) (tstamp : Z) (args : list value) : res unit (list Z) :=
  let buf := replicate len 0 in
  let n := Z.to_nat (wrap 32 (Z.of_nat len)) in
  let? dst := Codec.encode e en (Some (take n buf)) tstamp (arg (zip (params en) args)) (pad (header_size en)) in
  Ok (dst ++ drop n buf).

Definition encode (event : RenderEvent) (tstamp : Z) : res unit (list Z) :=
  match event with
  | PodResync epoch =>
      let len := (8 + 16)%nat in
      call encode_pod_resync len tstamp [VInt epoch]
  | PodDelete uid =>
      let consumed := (4 + length uid)%nat in
      let len := (8 + consumed)%nat in
      call encode_pod_delete len tstamp [as_blob uid]
  | PodContainer uid c =>
      let consumed :=
        (10 + length uid + length (c_id c) + length (c_name c) + length (c_image c))%nat in
      let len := (8 + consumed)%nat in
      call encode_pod_container len tstamp
        [as_blob uid; as_blob (c_id c); as_blob (c_name c); as_blob (c_image c)]
  | PodNew uid ip pod_name ns version owner_kind owner_uid owner_name is_host_network =>
      let consumed :=
        (20 + length uid + length owner_name + length pod_name + length owner_uid + length ns
         + length version)%nat in
      let len := (8 + consumed)%nat in
      call encode_pod_new_with_name len tstamp
        [as_blob uid; VInt (ipv4_to_u32 ip); as_blob owner_name; as_blob pod_name;
         VInt (owner_kind_code owner_kind); as_blob owner_uid;
         VInt (if is_host_network then 1 else 0); as_blob ns; as_blob version]
  end.

Definition encode_version_info (major minor patch tstamp : Z) : res unit (list Z) :=
  let len := (8 + 16)%nat in
  call IngestCodec.encode_version_info len tstamp
    [VInt major; VInt minor; VInt patch].

Definition encode_connect (collector_type : Z) (hostname : bytes) (tstamp : Z) : res unit (list Z) :=
  let? consumed := add_chk p 32 5 (wrap 32 (Z.of_nat (length hostname))) in
  let len := (8 + Z.to_nat consumed)%nat in
  call IngestCodec.encode_connect len tstamp
    [VInt collector_type; as_blob hostname].

Definition encode_heartbeat (tstamp : Z) : res unit (list Z) :=
  let len := (8 + 2)%nat in
  call IngestCodec.encode_heartbeat len tstamp [].

End encode.

(** ** What the receiver reads *)

(** The message of an event, and the fields it must carry. *)
Definition event_message (ev : RenderEvent) : message :=
  match ev with
  | PodResync _ => message_pod_resync
  | PodDelete _ => message_pod_delete
  | PodContainer _ _ => message_pod_container
  | PodNew _ _ _ _ _ _ _ _ _ => message_pod_new_with_name
  end.

Definition event_fields (ev : RenderEvent) : list (string * value) :=
  match ev with
  | PodResync epoch => [("_rpc_id", VInt 390); ("resync_count", VInt epoch)]
  | PodDelete uid => [("_rpc_id", VInt 359); ("uid", VBytes uid)]
  | PodContainer uid c =>
      [("_rpc_id", VInt 494); ("uid", VBytes uid); ("container_id", VBytes (c_id c));
       ("container_name", VBytes (c_name c)); ("container_image", VBytes (c_image c))]
  | PodNew uid ip pod_name ns version owner_kind owner_uid owner_name is_host_network =>
      [("_rpc_id", VInt 515); ("ip", VInt (ipv4_to_u32 ip));
       ("owner_kind", VInt (owner_kind_code owner_kind));
       ("is_host_network", VInt (if is_host_network then 1 else 0)); ("uid", VBytes uid);
       ("owner_name", VBytes owner_name); ("pod_name", VBytes pod_name);
       ("owner_uid", VBytes owner_uid); ("ns", VBytes ns); ("version", VBytes version)]
  end%string.

Definition event_strings (ev : RenderEvent) : list bytes :=
  match ev with
  | PodResync _ => []
  | PodDelete uid => [uid]
  | PodContainer uid c => [uid; c_id c; c_name c; c_image c]
  | PodNew uid _ pod_name ns version _ owner_uid owner_name _ =>
      [uid; owner_name; pod_name; owner_uid; ns; version]
  end.

(** What the types of the source guarantee: strings are UTF-8, the epoch is a
    [u64]. *)
Definition event_typed (ev : RenderEvent) : Prop :=
  Forall (fun s => valid_utf8 s = true) (event_strings ev)
  /\ match ev with PodResync epoch => fits 64 epoch | _ => True end.

Definition event_size (ev : RenderEvent) : Z :=
  Z.of_nat (header_size (m_encoder (event_message ev)) + length (concat (event_strings ev))).

(** A receiver of the ingest messages: it frames the input with the parser and
    decodes each body with the decoder of its identifier. *)
Definition find_message (md : MessageMetadata) : option message :=
  find (fun m => rpc_id (m_metadata m) =? rpc_id md) IngestCodec.messages.

Definition ingest_parser (p : profile) : res PerfectHashMap.CollisionError (Parser MessageMetadata) :=
  add_messages p (new (app_size ingest_app) (hash_fn ingest_app))
    ((fun md => (md, md)) <$> app_metadata ingest_app).

Abbreviation reading := (Z * list (string * value))%type.

Fixpoint receive (p : profile) (e : endian) (ps : Parser MessageMetadata) (fuel : nat)
    (data : list Z) : option (list reading) :=
  match data, fuel with
  | [], _ => Some []
  | _, O => None
  | _, S fuel =>
      match handle p e ps data with
      | Ok r =>
          m ← find_message (h_value r);
          match decode e (m_decoder m) (RenderParser.message r) with
          | Ok fs =>
              rest ← receive p e ps fuel (drop (8 + length (RenderParser.message r)) data);
              Some ((timestamp r, fs) :: rest)
          | _ => None
          end
      | _ => None
      end
  end.

(** [data] is the frame of an ingest message that is read as [r]. *)
Definition carries (e : endian) (data : list Z) (r : reading) : Prop :=
  exists m body, data = frame e r.1 body /\ is_body e (m_metadata m) body
    /\ Z.of_nat (length body) <= 65535 /\ decode e (m_decoder m) body = Ok r.2
    /\ fits 64 r.1 /\ find_message (m_metadata m) = Some m /\ m ∈ IngestCodec.messages.

(** Every ingest message is registered with its metadata. *)
Definition registered (ps : Parser MessageMetadata) : Prop :=
  forall m, m ∈ IngestCodec.messages ->
  PerfectHashMap.get (map ps) (rpc_id (m_metadata m)) = Some (mkPEntry (m_metadata m) (m_metadata m))
  /\ message_ok m = true.

Lemma ingest_registered p : exists ps, ingest_parser p = Ok ps /\ registered ps.
Proof.
  pose proof ingest_in as Hin.
  destruct (registered_parser p ingest_app (fun md => md)) as (ps & Hps & Hall); [by eapply codec_in_apps|].
  exists ps. split; [exact Hps|]. intros m Hm. rewrite Forall_forall in Hall.
  destruct (codec_message _ _ _ Hin Hm) as (_ & Hmd & Hok). split; [by apply Hall|exact Hok].
Qed.

Section receive.
Context (p : profile) (e : endian) (ps : Parser MessageMetadata).
Hypothesis Hps : registered ps.

Lemma receive_frame data r rest fuel :
  carries e data r ->
  receive p e ps (S fuel) (data ++ rest)
  = rs ← receive p e ps fuel rest; Some (r :: rs).
Proof.
  intros (m & body & -> & Hb & Hl & Hd & Hts & Hf & Hm). destruct r as [ts fs]. simpl in *.
  destruct (Hps m Hm) as [Hget Hok].
  assert (length (frame e ts body) = 8 + length body)%nat as Hlen by apply length_frame.
  destruct (frame e ts body ++ rest) eqn:Heq.
  { apply (f_equal length) in Heq. rewrite length_app in Heq. simpl in Heq. lia. }
  rewrite <- Heq. assert (handle p e ps (frame e ts body ++ rest) = Ok (mkHandleOk body (m_metadata m) ts)) as Hh.
  { apply (frame_handled p e ps (m_metadata m)); [exact Hget|by apply message_id|exact Hts|lia|exact Hb]. }
  cbn [receive]. rewrite Heq, <- Heq, Hh. cbn [h_value RenderParser.message timestamp].
  rewrite Hf. cbn [mbind option_bind]. rewrite Hd, drop_app_length' by lia. reflexivity.
Qed.

(** Frames that follow each other are read one by one, whatever their number;
    the length of the input is enough fuel. *)
Lemma receive_frames datas rs :
  Forall2 (carries e) datas rs -> receive p e ps (length (concat datas)) (concat datas) = Some rs.
Proof.
  intros H.
  assert (forall fuel, (length datas <= fuel)%nat -> receive p e ps fuel (concat datas) = Some rs) as Hgen.
  { induction H as [|d r datas rs Hc _ IH]; intros [|fuel] Hf; try done; [simpl in Hf; lia|].
    simpl in Hf. cbn [concat]. rewrite receive_frame with (r := r) by done. by rewrite IH by lia. }
  apply Hgen. clear Hgen. induction H as [|d r datas rs Hc _ IH]; simpl in *; [lia|].
  destruct Hc as (m & body & -> & _). rewrite length_app, length_frame. lia.
Qed.

End receive.

(** ** Calls *)

Section calls.
Context (e : endian) (pad : nat -> list Z).
Hypothesis Hpad : forall n, length (pad n) = n.

Lemma find_message_in md m : find_message md = Some m -> m ∈ IngestCodec.messages.
Proof. intros H. apply find_some in H as [H _]. by apply list_elem_of_In. Qed.

Lemma call_carries m len ts args :
  find_message (m_metadata m) = Some m ->
  let named := arg (zip (params (m_encoder m)) args) in
  args_ok (m_encoder m) named -> fits 64 ts -> len = (8 + encoded_size (m_encoder m) named)%nat ->
  exists data,
    call e pad (m_encoder m) len ts args = Ok data
    /\ carries e data (ts, ("_rpc_id"%string, VInt (rpc_id (m_metadata m)))
                           :: (returned named <$> names_of (m_decoder m))).
Proof.
  intros Hf named Hargs Hts ->. pose proof (find_message_in _ _ Hf) as Hm.
  destruct (codec_message ingest_app IngestCodec.messages m ingest_in Hm) as (_ & _ & Hok).
  pose proof (parts_ok_correct m (ms_parts _ (message_ok_spec m Hok))) as Hrt. pose proof Hargs as (_ & _ & Hsz).
  set (len := (8 + encoded_size (m_encoder m) named)%nat).
  destruct (Hrt e named (replicate len 0) ts (pad (header_size (m_encoder m))))
    as (body & Henc & Hdec & Hbody); [exact Hargs|apply Hpad|apply length_replicate|].
  exists (frame e ts body). split.
  - unfold call. fold named. rewrite wrap_small by (unfold fits, len; lia). rewrite Nat2Z.id.
    rewrite take_ge, drop_ge by (rewrite length_replicate; lia). rewrite Henc. cbn [rbind].
    by rewrite app_nil_r.
  - exists m, body. split_and!; [reflexivity|exact Hbody| |exact Hdec|exact Hts|exact Hf|exact Hm].
    eapply body_small; [exact Hok|exact Hargs|exact Hbody].
Qed.

(** A message whose buffer is too large for the length field is refused. *)
Lemma call_refused id size ps s blobs len ts args :
  65535 + 8 < Z.of_nat len < 2 ^ 32 ->
  call e pad (DynamicEncoder id size ps s blobs) len ts args = Panic.
Proof.
  intros Hl. unfold call. rewrite wrap_small by (unfold fits; lia). rewrite Nat2Z.id.
  rewrite take_ge by (rewrite length_replicate; lia). unfold Codec.encode, encode_dynamic.
  set (strs := bytes_of ∘ _ <$> blobs). destruct (Z.leb_spec (consumed (Z.of_nat size) strs) 65535); [|done].
  rewrite length_replicate, (proj2 (Z.eqb_neq _ _)); [done|]. unfold saturating_add. lia.
Qed.

(** Every declaration is the definition's signature. *)
Lemma externs_agree : Forall (fun x => x.2 = signature_of x.1) externs.
Proof. repeat first [apply Forall_nil_2 | apply Forall_cons_2; [reflexivity|]]. Qed.

End calls.

(** ** Events are carried or refused *)

Lemma as_blob_small s : Z.of_nat (length s) <= 65535 -> as_blob s = VBytes s.
Proof. intros H. unfold as_blob. rewrite wrap_small by (unfold fits; lia). by rewrite Nat2Z.id, firstn_all. Qed.

Lemma ipv4_fits ip : fits 32 (ipv4_to_u32 ip).
Proof.
  unfold ipv4_to_u32, parse_ipv4. destruct (15 <? length ip)%nat; [unfold fits; lia|].
  destruct (read_ipv4_addr ip) as [[[[[a b] c] d] r]|] eqn:H; [|unfold fits; simpl; lia].
  apply read_ipv4_range in H. destruct r; unfold fits in *; simpl; lia.
Qed.

(** The first clause of [args_ok], field by field. *)
Lemma args_typed en (args : string -> value) :
  Forall (fun '(nm, t) => plain (blobs_of en) nm = true -> typed t (args nm)) (struct_of en) ->
  forall nm t, (nm, t) ∈ struct_of en -> plain (blobs_of en) nm = true -> typed t (args nm).
Proof. intros H nm t Hin. rewrite Forall_forall in H. by apply (H (nm, t)). Qed.

Lemma args_strings en (args : string -> value) :
  Forall (fun nm => exists s, args nm = VBytes s /\ valid_utf8 s = true) (blobs_of en) ->
  forall nm, nm ∈ blobs_of en -> exists s, args nm = VBytes s /\ valid_utf8 s = true.
Proof. by rewrite Forall_forall. Qed.

Lemma owner_kind_fits k : fits 8 (owner_kind_code k).
Proof. unfold fits. destruct k; simpl; lia. Qed.

#[local] Hint Resolve ipv4_fits owner_kind_fits : core.

Ltac solve_args :=
  split_and!;
  [ apply args_typed; repeat first [apply Forall_nil_2 | apply Forall_cons_2]; simpl; intros; try done; unfold fits in *; try case_match; try lia; auto
  | apply args_strings; repeat first [apply Forall_nil_2 | apply Forall_cons_2]; simpl; (eexists; split; [reflexivity|auto])
  | unfold encoded_size; simpl; rewrite ?length_app; simpl; try lia ].

Section events.
Context (p : profile) (e : endian) (pad : nat -> list Z).
Hypothesis Hpad : forall n, length (pad n) = n.

Lemma event_carried ev ts :
  event_typed ev -> fits 64 ts -> event_size ev <= 65535 ->
  exists data, encode e pad ev ts = Ok data /\ carries e data (ts, event_fields ev).
Proof.
  intros [Hu Ht] Hts Hsz. unfold event_size in Hsz.
  destruct ev as [epoch|uid ip pn ns ver k ou on h|uid c|uid]; simpl in Hu, Hsz; rewrite ?length_app in Hsz;
    unfold encode; simpl length in Hsz; rewrite ?as_blob_small by lia; decompose_Forall_hyps.
  - apply (call_carries e pad Hpad message_pod_resync); [reflexivity| |exact Hts|reflexivity]. solve_args.
  - apply (call_carries e pad Hpad message_pod_new_with_name); [reflexivity| |exact Hts|].
    + solve_args.
    + unfold encoded_size. simpl. rewrite ?length_app. simpl. lia.
  - apply (call_carries e pad Hpad message_pod_container); [reflexivity| |exact Hts|].
    + solve_args.
    + unfold encoded_size. simpl. rewrite ?length_app. simpl. lia.
  - apply (call_carries e pad Hpad message_pod_delete); [reflexivity| |exact Hts|].
    + solve_args.
    + unfold encoded_size. simpl. rewrite ?length_app. simpl. lia.
Qed.

Lemma event_refused ev ts :
  65535 < event_size ev < 2 ^ 32 - 8 -> encode e pad ev ts = Panic.
Proof.
  unfold event_size. intros Hsz.
  destruct ev as [epoch|uid ip pn ns ver k ou on h|uid c|uid]; simpl in Hsz; rewrite ?length_app in Hsz;
    simpl length in Hsz; unfold encode; [lia|apply call_refused; lia..].
Qed.

Lemma version_carried major minor patch ts :
  fits 32 major -> fits 32 minor -> fits 32 patch -> fits 64 ts ->
  exists data, encode_version_info e pad major minor patch ts = Ok data
    /\ carries e data (ts, [("_rpc_id", VInt 310); ("major", VInt major); ("minor", VInt minor);
                            ("patch", VInt patch)]%string).
Proof.
  intros Ha Hb Hc Hts. apply (call_carries e pad Hpad message_version_info); [reflexivity| |exact Hts|reflexivity].
  solve_args.
Qed.

Lemma connect_carried ty host ts :
  fits 8 ty -> valid_utf8 host = true -> 5 + Z.of_nat (length host) <= 65535 -> fits 64 ts ->
  exists data, encode_connect p e pad ty host ts = Ok data
    /\ carries e data (ts, [("_rpc_id", VInt 548); ("collector_type", VInt ty);
                            ("hostname", VBytes host)]%string).
Proof.
  intros Ht Hu Hl Hts. unfold encode_connect, add_chk. rewrite wrap_small by (unfold fits; lia).
  rewrite (proj2 (Z.ltb_lt _ _)) by lia. cbn [rbind]. rewrite as_blob_small by lia.
  apply (call_carries e pad Hpad message_connect); [reflexivity| |exact Hts|].
  - solve_args.
  - unfold encoded_size. simpl. rewrite ?length_app. simpl. lia.
Qed.

Lemma heartbeat_carried ts :
  fits 64 ts ->
  exists data, encode_heartbeat e pad ts = Ok data /\ carries e data (ts, [("_rpc_id", VInt 392)]%string).
Proof.
  intros Hts. apply (call_carries e pad Hpad message_heartbeat); [reflexivity| |exact Hts|reflexivity]. solve_args.
Qed.

End events.

Lemma ipv4_dotted a b c d :
  fits 8 a -> fits 8 b -> fits 8 c -> fits 8 d ->
  ipv4_to_u32 (dotted a b c d) = a * 2 ^ 24 + b * 2 ^ 16 + c * 2 ^ 8 + d.
Proof.
  intros Ha Hb Hc Hd. destruct (read_dotted a b c d Ha Hb Hc Hd) as [Hr Hl].
  unfold ipv4_to_u32, parse_ipv4. rewrite (proj2 (Nat.ltb_ge _ _)) by lia. by rewrite Hr.
Qed.

(** ** Streams of events *)

(** The bytes of a sequence of events, each with its timestamp. *)
Fixpoint encode_all (e : endian) (pad : nat -> list Z) (evs : list (Z * RenderEvent)) : res unit (list Z) :=
  match evs with
  | [] => Ok []
  | (ts, ev) :: evs =>
      let? data := encode e pad ev ts in
      let? rest := encode_all e pad evs in
      Ok (data ++ rest)
  end.

Definition sendable (x : Z * RenderEvent) : bool := event_size x.2 <=? 65535.

Lemma encode_all_carried e pad evs :
  (forall n, length (pad n) = n) -> Forall (fun x => fits 64 x.1 /\ event_typed x.2) evs ->
  forallb sendable evs = true ->
  exists datas, encode_all e pad evs = Ok (concat datas)
    /\ Forall2 (carries e) datas ((fun x => (x.1, event_fields x.2)) <$> evs).
Proof.
  intros Hpad H Hs. induction H as [|[ts ev] evs [Hts Ht] _ IH]; [by exists []|].
  simpl in *. apply andb_true_iff in Hs as [Hs1 Hs2]. unfold sendable in Hs1. simpl in Hs1.
  destruct (event_carried e pad Hpad ev ts) as (d & -> & Hd); [done..|lia|].
  destruct (IH Hs2) as (ds & -> & Hds). exists (d :: ds). split; [done|]. by constructor.
Qed.

Lemma encode_all_refused e pad evs :
  Forall (fun x => fits 64 x.1 /\ event_typed x.2 /\ event_size x.2 < 2 ^ 32 - 8) evs ->
  (forall n, length (pad n) = n) -> forallb sendable evs = false -> encode_all e pad evs = Panic.
Proof.
  intros H Hpad. induction H as [|[ts ev] evs (Hts & Ht & Hsz) _ IH]; [done|]. simpl in *. intros Hs.
  unfold sendable in Hs at 1. simpl in Hs. destruct (Z.leb_spec (event_size ev) 65535).
  - destruct (event_carried e pad Hpad ev ts) as (d & -> & _); [done..|]. simpl in *. by rewrite IH.
  - by rewrite event_refused.
Qed.

(** C12: A sequence of events is encoded to bytes from which a receiver of the
    ingest messages, framing with the registered parser and decoding with the
    generated decoders, reads exactly these events in order, with their
    timestamps and every field (the address as a number); the encoder aborts
    exactly when some event is larger than 65535 bytes. *)
Theorem events_delivered p e pad evs :
  (forall n, length (pad n) = n) ->
  Forall (fun x => fits 64 x.1 /\ event_typed x.2 /\ event_size x.2 < 2 ^ 32 - 8) evs ->
  exists ps, ingest_parser p = Ok ps
    /\ if forallb sendable evs then
         exists data, encode_all e pad evs = Ok data
           /\ receive p e ps (length data) data = Some ((fun x => (x.1, event_fields x.2)) <$> evs)
       else encode_all e pad evs = Panic.
Proof.
  intros Hpad H. destruct (ingest_registered p) as (ps & Hps & Hr). exists ps. split; [exact Hps|clear Hps].
  destruct (forallb sendable evs) eqn:Hs; [|by apply encode_all_refused].
  destruct (encode_all_carried e pad evs) as (ds & Hd & Hc); [done| |done|].
  { eapply Forall_impl; [exact H|]. by intros ? (? & ? & _). }
  exists (concat ds). split; [exact Hd|]. by apply receive_frames.
Qed.

(** ** Witness *)

Definition sample_events : list (Z * RenderEvent) :=
  [(1000, PodResync 7);
   (1001, PodNew (lit "p1") (lit "10.0.0.1") (lit "web-1") (lit "default") (lit "v1") Deployment
            (lit "d1") (lit "web") false);
   (1002, PodContainer (lit "p1") (mkContainer (lit "c1") (lit "app") (lit "img:1")));
   (1003, PodDelete (lit "p1"))].

Lemma events_delivered_witness :
  exists ps data,
    ingest_parser Debug = Ok ps /\ encode_all LittleEndian (fun n => replicate n 170) sample_events = Ok data
    /\ receive Debug LittleEndian ps (length data) data
       = Some ((fun x => (x.1, event_fields x.2)) <$> sample_events).
Proof.
  destruct (events_delivered Debug LittleEndian (fun n => replicate n 170) sample_events) as (ps & Hps & data & H).
  - intros n. apply length_replicate.
  - repeat first [apply Forall_nil_2 | apply Forall_cons_2];
      (split_and!; [unfold fits; simpl; lia|repeat constructor; unfold fits; simpl; lia|by vm_compute]).
  - exists ps, data. split; [exact Hps|exact H].
Defined.
