(* ===== verification/Writer.v ===== *)
(** * The writer to the reducer (crates/k8s-collector/src/writer.rs)

    The first message of a connection is sent as it is, the others through one
    LZ4 frame over the same socket.  The socket (tokio) and the frame encoder
    (lz4_flex) are the class [Transport]; what the code relies on is
    [TransportLaws]. *)

From S2P Require Import Prelude.

Local Open Scope rust_scope.

(** An operation returns the new state of the object it owns, or an I/O error.
    The failures of [spawn_blocking] are among the errors. *)
Class Transport (sock enc ioerr : Type) := {
  write_all : sock -> list Z -> res ioerr sock;
  sock_flush : sock -> res ioerr sock;
  enc_new : sock -> enc;
  enc_write_all : enc -> list Z -> res ioerr enc;
  enc_flush : enc -> res ioerr enc;
}.

(** The bytes a socket has taken in order; for an encoder, those its socket
    took before the frame and since, and the plain bytes written to it.  After
    a flush the bytes of the frame decompress to all that was written. *)
Class TransportLaws (sock enc ioerr : Type) `{Transport sock enc ioerr} := {
  taken : sock -> list Z;
  before : enc -> list Z;
  since : enc -> list Z;
  plain_of : enc -> list Z;
  decompress : list Z -> option (list Z);
  write_all_total s bs : write_all s bs <> Panic;
  write_all_taken s bs s' : write_all s bs = Ok s' -> taken s' = taken s ++ bs;
  sock_flush_total s : sock_flush s <> Panic;
  sock_flush_taken s s' : sock_flush s = Ok s' -> taken s' = taken s;
  enc_new_empty s : before (enc_new s) = taken s /\ since (enc_new s) = [] /\ plain_of (enc_new s) = [];
  enc_write_total x bs : enc_write_all x bs <> Panic;
  enc_write_plain x bs x' :
    enc_write_all x bs = Ok x' -> before x' = before x /\ plain_of x' = plain_of x ++ bs;
  enc_flush_total x : enc_flush x <> Panic;
  enc_flush_plain x x' :
    enc_flush x = Ok x' ->
    before x' = before x /\ plain_of x' = plain_of x /\ decompress (since x') = Some (plain_of x');
}.

Section writer.
Context {sock enc ioerr : Type} {transport : Transport sock enc ioerr}.

Inductive Sink := Uncompressed (w : sock) | Compressed (encoder : enc).

Record Writer := mkWriter { sink : option Sink }.

Definition writer_new (w : sock) : Writer := mkWriter (Some (Uncompressed w)).

(** [self.sink.take()] comes first: after an error the sink is gone. *)
Definition send (self : Writer) (buf : list Z) : Writer * res ioerr unit :=
  match sink self with
  | None => (self, Panic)
  | Some (Uncompressed w) =>
      match write_all w buf with
      | Ok w => (mkWriter (Some (Compressed (enc_new w))), Ok tt)
      | Err err => (mkWriter None, Err err)
      | Panic => (mkWriter None, Panic)
      end
  | Some (Compressed encoder) =>
      match enc_write_all encoder buf with
      | Ok encoder => (mkWriter (Some (Compressed encoder)), Ok tt)
      | Err err => (mkWriter None, Err err)
      | Panic => (mkWriter None, Panic)
      end
  end.

Definition flush (self : Writer) : Writer * res ioerr unit :=
  match sink self with
  | None => (self, Panic)
  | Some (Uncompressed w) =>
      match sock_flush w with
      | Ok w => (mkWriter (Some (Uncompressed w)), Ok tt)
      | Err err => (mkWriter None, Err err)
      | Panic => (mkWriter None, Panic)
      end
  | Some (Compressed encoder) =>
      match enc_flush encoder with
      | Ok encoder => (mkWriter (Some (Compressed encoder)), Ok tt)
      | Err err => (mkWriter None, Err err)
      | Panic => (mkWriter None, Panic)
      end
  end.

End writer.

Arguments Sink : clear implicits.
Arguments Writer : clear implicits.

(** ** What the reducer has received *)

Section laws.
Context {sock enc ioerr : Type} {transport : Transport sock enc ioerr}
  {laws : TransportLaws sock enc ioerr}.

(** The writer has been given the messages [msgs] on a socket that had taken
    [pre]; with [flushed] the reducer can read all of them. *)
Definition has_sent (pre : list Z) (msgs : list (list Z)) (flushed : bool) (w : Writer sock enc) : Prop :=
  match sink w, msgs with
  | Some (Uncompressed s), [] => taken s = pre
  | Some (Compressed x), m :: ms =>
      before x = pre ++ m /\ plain_of x = concat ms
      /\ (flushed = true -> decompress (since x) = Some (concat ms))
  | _, _ => False
  end.

Lemma has_sent_new s : has_sent (taken s) [] true (writer_new s).
Proof. done. Qed.

Lemma has_sent_weaken pre msgs b w : has_sent pre msgs b w -> has_sent pre msgs false w.
Proof. unfold has_sent. destruct (sink w) as [[]|], msgs; try done. by intros (? & ? & _). Qed.

Lemma writer_send_spec pre msgs b w buf w' r :
  has_sent pre msgs b w -> send w buf = (w', r) ->
  r <> Panic /\ (r = Ok tt -> has_sent pre (msgs ++ [buf]) false w').
Proof.
  unfold has_sent, send. destruct w as [[[s|x]|]]; simpl; [destruct msgs as [|m ms]; [|done]|destruct msgs as [|m ms]; [done|]|done].
  - intros <- H. pose proof (write_all_total s buf). destruct (write_all s buf) as [s'|err|] eqn:Hw; simplify_eq.
    + split; [done|]. intros _. simpl. destruct (enc_new_empty s') as (-> & _ & ->).
      by rewrite (write_all_taken _ _ _ Hw).
    + done.
  - intros (Hb & Hp & _) H. pose proof (enc_write_total x buf).
    destruct (enc_write_all x buf) as [x'|err|] eqn:Hw; simplify_eq; [|done].
    destruct (enc_write_plain _ _ _ Hw) as [Hb' Hp']. split; [done|]. intros _. simpl.
    rewrite Hb', Hp', concat_app, Hp. simpl. by rewrite app_nil_r.
Qed.

Lemma writer_flush_spec pre msgs b w w' r :
  has_sent pre msgs b w -> flush w = (w', r) ->
  r <> Panic /\ (r = Ok tt -> has_sent pre msgs true w').
Proof.
  unfold has_sent, flush. destruct w as [[[s|x]|]]; simpl; [destruct msgs as [|m ms]; [|done]|destruct msgs as [|m ms]; [done|]|done].
  - intros <- H. pose proof (sock_flush_total s). destruct (sock_flush s) as [s'|err|] eqn:Hw; simplify_eq; [|done].
    split; [done|]. intros _. simpl. by rewrite (sock_flush_taken _ _ Hw).
  - intros (Hb & Hp & _) H. pose proof (enc_flush_total x).
    destruct (enc_flush x) as [x'|err|] eqn:Hw; simplify_eq; [|done].
    destruct (enc_flush_plain _ _ Hw) as (Hb' & Hp' & Hd). split; [done|]. intros _. simpl.
    rewrite Hb', <- Hp, <- Hp'. done.
Qed.

(** After an error the writer is spent: any further use panics. *)
Lemma failed_writer w buf w' r err :
  send w buf = (w', r) \/ flush w = (w', r) -> r = Err err ->
  forall buf', snd (send w' buf') = Panic /\ snd (flush w') = Panic.
Proof.
  unfold send, flush. intros [H|H] -> buf'; destruct w as [[[s|x]|]]; simpl in *; repeat case_match; by simplify_eq.
Qed.

End laws.
