(* ===== verification/Connection.v ===== *)
(** * The connection to the reducer (crates/k8s-collector/src/collector.rs:
      run, perform_handshake)

    The collector connects, introduces itself, starts an epoch and forwards
    what the pipeline returns, with a heartbeat and a flush at most 100 ms
    after an event; after any I/O error it drops the connection and starts
    over with a new socket.  Which branch of [tokio::select!] completes is a
    trigger; it carries the items that the pending [next_messages] took from
    the watch streams until then.  [now k] is the result of the [k]-th call of
    [timestamp()].  Logging and the pauses before reconnecting have no effect
    on the state. *)

From S2P Require Import Prelude RenderParser Utf8 Codec IngestCodec K8sTypes Reflector Tombstone Matcher MatcherSpec Collector K8sEncode Writer.

Local Open Scope rust_scope.

Section connection.
Context {store : Type -> Type} {reflector : Reflector store} {order : HashOrder} {W : Type}.
Context {sock enc ioerr : Type} {transport : Transport sock enc ioerr}.
Context (p : profile) (e : endian) (pad : nat -> list Z) (now : nat -> Z).
Context (version : Z * Z * Z) (hostname : bytes).

(** [encode] and [send]; the encoders never return an error. *)
Definition send_encoded (w : Writer sock enc) (data : res unit (list Z)) : Writer sock enc * res ioerr unit :=
  match data with
  | Ok buf => send w buf
  | _ => (w, Panic)
  end.

(** The loops that encode and send events. *)
Fixpoint send_events (w : Writer sock enc) (k : nat) (evs : list RenderEvent)
    : Writer sock enc * nat * res ioerr unit :=
  match evs with
  | [] => (w, k, Ok tt)
  | ev :: evs =>
      match send_encoded w (encode e pad ev (now k)) with
      | (w, Ok _) => send_events w (S k) evs
      | (w, r) => (w, S k, r)
      end
  end.

Definition perform_handshake (w : Writer sock enc) (k : nat) : Writer sock enc * nat * res ioerr unit :=
  let '(major, minor, patch) := version in
  match send_encoded w (encode_version_info e pad major minor patch (now k)) with
  | (w, Ok _) =>
      match flush w with
      | (w, Ok _) =>
          match send_encoded w (encode_connect p e pad 3 hostname (now (S k))) with
          | (w, Ok _) => let '(w, r) := flush w in (w, S (S k), r)
          | (w, r) => (w, S (S k), r)
          end
      | (w, r) => (w, S k, r)
      end
  | (w, r) => (w, S k, r)
  end.

Record Conn := mkConn {
  pipeline : Collector (store := store);
  writer : Writer sock enc;
  flush_deadline : option Z;
  calls : nat;
}.

(** Where the loops of [run] are: connecting, in the inner loop, returned with
    a pipeline error, or panicked. *)
Inductive Run :=
| Connecting (pl : Collector (store := store)) (k : nat)
| Connected (c : Conn)
| Failed
| Crashed.

(** From a connected socket to the inner loop. *)
Definition establish (s : sock) (pl : Collector (store := store)) (k : nat) : Run :=
  match perform_handshake (writer_new s) k with
  | (w, k, Ok _) =>
      let '(evs, pl) := collector_start_new_epoch pl in
      match send_events w k evs with
      | (w, k, Ok _) =>
          match flush w with
          | (w, Ok _) => Connected (mkConn pl w None k)
          | (_, Err _) => Connecting pl k
          | (_, Panic) => Crashed
          end
      | (_, k, Err _) => Connecting pl k
      | (_, _, Panic) => Crashed
      end
  | (_, k, Err _) => Connecting pl k
  | (_, _, Panic) => Crashed
  end.

Inductive Trigger :=
| Messages (items : list (Item (W := W))) (instant : Z)
| Heartbeat (items : list (Item (W := W)))
| Deadline (items : list (Item (W := W))) (instant : Z).

(** 100 ms, in nanoseconds. *)
Definition flush_delay : Z := 100 * 10 ^ 6.

(** A branch of the [select!]; [None] when it cannot complete. *)
Definition on_trigger (c : Conn) (t : Trigger) : option Run :=
  match t with
  | Messages items instant =>
      match next_messages (pipeline c) items with
      | Batch evs pl [] =>
          Some
            match send_events (writer c) (calls c) evs with
            | (w, k, Ok _) =>
                let deadline :=
                  if negb (bool_decide (evs = [])) && bool_decide (flush_deadline c = None)
                  then Some (instant + flush_delay) else flush_deadline c in
                Connected (mkConn pl w deadline k)
            | (_, k, Err _) => Connecting pl k
            | (_, _, Panic) => Crashed
            end
      | Stopped => Some Failed
      | _ => None
      end
  | Heartbeat items =>
      match next_messages (pipeline c) items with
      | Waiting pl =>
          Some
            match send_encoded (writer c) (encode_heartbeat e pad (now (calls c))) with
            | (w, Ok _) =>
                match flush w with
                | (w, Ok _) => Connected (mkConn pl w None (S (calls c)))
                | (_, Err _) => Connecting pl (S (calls c))
                | (_, Panic) => Crashed
                end
            | (_, Err _) => Connecting pl (S (calls c))
            | (_, Panic) => Crashed
            end
      | _ => None
      end
  | Deadline items instant =>
      match flush_deadline c, next_messages (pipeline c) items with
      | Some d, Waiting pl =>
          if d <=? instant then
            Some
              match flush (writer c) with
              | (w, Ok _) => Connected (mkConn pl w None (calls c))
              | (_, Err _) => Connecting pl (calls c)
              | (_, Panic) => Crashed
              end
          else None
      | _, _ => None
      end
  end.

End connection.

(** ** Runs *)

(** Strings are UTF-8 and shorter than 4 GiB together. *)
Definition possible (ev : RenderEvent) : Prop := event_typed ev /\ event_size ev < 2 ^ 32 - 8.

Definition oversized (ev : RenderEvent) : Prop := 65535 < event_size ev.

(** The pods known from the decoded messages of a connection. *)
Definition see_fields (v : gset bytes) (fs : list (string * value)) : gset bytes :=
  let uid := bytes_of (arg fs "uid") in
  match arg fs "_rpc_id" with
  | VInt 390 => ∅
  | VInt 515 => {[uid]} ∪ v
  | VInt 359 => v ∖ {[uid]}
  | _ => v
  end.
Definition wire_view (rs : list reading) : gset bytes := fold_left see_fields rs.*2 ∅.

(** What a connection starts with: the version and the kind of collector. *)
Definition greeting (version : Z * Z * Z) (hostname : bytes) : list (list (string * value)) :=
  let '(major, minor, patch) := version in
  [[("_rpc_id", VInt 310); ("major", VInt major); ("minor", VInt minor); ("patch", VInt patch)];
   [("_rpc_id", VInt 548); ("collector_type", VInt 3); ("hostname", VBytes hostname)]]%string.

Section runs.
Context {store : Type -> Type} {reflector : Reflector store} {order : HashOrder} {W : Type}.
Context {sock enc ioerr : Type} {transport : Transport sock enc ioerr}
  {laws : TransportLaws sock enc ioerr}.
Context (p : profile) (e : endian) (pad : nat -> list Z) (now : nat -> Z).
Context (version : Z * Z * Z) (hostname : bytes) (cfg : Config).

Local Abbreviation establish := (establish p e pad now version hostname).
Local Abbreviation on_trigger := (on_trigger (W := W) e pad now).
Local Abbreviation Run := (Run (store := store) (sock := sock) (enc := enc)).
Local Abbreviation Conn := (Conn (store := store) (sock := sock) (enc := enc)).

(** The events a step sends. *)
Definition epoch_events (pl : Collector (store := store)) : list RenderEvent :=
  fst (collector_start_new_epoch pl).

Definition trigger_events (c : Conn) (t : Trigger (W := W)) : list RenderEvent :=
  match t with
  | Messages items _ => match next_messages (pipeline c) items with Batch evs _ _ => evs | _ => [] end
  | _ => []
  end.

(** A connection is made over a fresh socket; any trigger may come. *)
Inductive run_step : Run -> list RenderEvent -> Run -> Prop :=
| step_establish s pl k :
    taken s = [] -> Forall possible (epoch_events pl) ->
    run_step (Connecting pl k) (epoch_events pl) (establish s pl k)
| step_trigger c t r :
    on_trigger c t = Some r -> Forall possible (trigger_events c t) ->
    run_step (Connected c) (trigger_events c t) r.

Inductive reachable : Run -> Prop :=
| reachable_start : reachable (Connecting (with_client cfg) 0)
| reachable_step r evs r' : reachable r -> run_step r evs r' -> reachable r'.

(** The environment: struct padding of the right size, 64 bit timestamps, a
    version of [u32]s, a host name that fits a message. *)
Record environment : Prop := {
  env_pad n : length (pad n) = n;
  env_now k : fits 64 (now k);
  env_version : fits 32 version.1.1 /\ fits 32 version.1.2 /\ fits 32 version.2;
  env_hostname : valid_utf8 hostname = true /\ 5 + Z.of_nat (length hostname) <= 65535;
}.
Hypothesis env : environment.

(** The messages [msgs] given to the writer are read as [rs]. *)
Definition carried (msgs : list (list Z)) (rs : list reading) (flushed : bool) (w : Writer sock enc) : Prop :=
  has_sent [] msgs flushed w /\ Forall2 (carries e) msgs rs.

Lemma carried_send msgs rs b w data r w' res :
  carried msgs rs b w -> carries e data r -> send_encoded w (Ok data) = (w', res) ->
  res <> Panic /\ (res = Ok tt -> carried (msgs ++ [data]) (rs ++ [r]) false w').
Proof.
  intros [Hs Hc] Hd H. destruct (writer_send_spec _ _ _ _ _ _ _ Hs H) as [Hp Ho]. split; [done|].
  intros Hr. split; [by apply Ho|]. apply Forall2_app; [done|]. by constructor.
Qed.

Lemma carried_flush msgs rs b w w' r :
  carried msgs rs b w -> flush w = (w', r) -> r <> Panic /\ (r = Ok tt -> carried msgs rs true w').
Proof.
  intros [Hs Hc] H. destruct (writer_flush_spec _ _ _ _ _ _ Hs H) as [Hp Ho]. split; [done|].
  intros Hr. split; [by apply Ho|done].
Qed.

Lemma send_events_spec evs msgs rs b w k w' k' r :
  carried msgs rs b w -> Forall possible evs ->
  send_events e pad now w k evs = (w', k', r) ->
  (r = Panic -> Exists oversized evs)
  /\ (r = Ok tt -> exists msgs' rs', carried msgs' (rs ++ rs') false w' /\ rs'.*2 = event_fields <$> evs).
Proof.
  intros Hc H. revert msgs rs b w k Hc. induction H as [|ev evs [Ht Hsz] _ IH]; intros msgs rs b w k Hc Hr; simpl in Hr.
  { simplify_eq. split; [done|]. intros _. exists msgs, []. rewrite app_nil_r. split; [|done].
    destruct Hc as [Hs Hc]. split; [by eapply has_sent_weaken|done]. }
  destruct (Z.le_gt_cases (event_size ev) 65535) as [Hle|Hgt].
  - destruct (event_carried e pad (env_pad env) ev (now k)) as (data & Henc & Hd); [done|apply env|done|].
    rewrite Henc in Hr. destruct (send_encoded w (Ok data)) as [w1 r1] eqn:Hs1.
    destruct (carried_send _ _ _ _ _ _ _ _ Hc Hd Hs1) as [Hp Ho].
    destruct r1 as [[]|err|]; [|by simplify_eq|done].
    destruct (IH _ _ _ _ _ (Ho eq_refl) Hr) as [Hpan Hok]. split.
    + intros Hx. right. by apply Hpan.
    + intros Hx. destruct (Hok Hx) as (msgs' & rs' & Hcar & Hrs). exists msgs', ((now k, event_fields ev) :: rs').
      rewrite cons_middle, app_assoc. split; [done|]. cbn. by f_equal.
  - rewrite (event_refused e pad) in Hr by lia. simpl in Hr. simplify_eq. split; [|done]. intros _. by left.
Qed.

Lemma handshake_spec s k w' k' r :
  taken s = [] -> perform_handshake p e pad now version hostname (writer_new s) k = (w', k', r) ->
  r <> Panic /\ (r = Ok tt -> exists msgs rs, carried msgs rs true w' /\ rs.*2 = greeting version hostname).
Proof.
  intros Hs H. destruct env as [Hpad Hnow (Hv1 & Hv2 & Hv3) [Hu Hl]]. unfold perform_handshake in H.
  destruct version as [[major minor] patch] eqn:Hver. cbn [fst snd] in Hv1, Hv2, Hv3.
  destruct (version_carried e pad Hpad major minor patch (now k)) as (d1 & E1 & C1); [done..|apply Hnow|].
  destruct (connect_carried p e pad Hpad 3 hostname (now (S k))) as (d2 & E2 & C2);
    [unfold fits; lia|done|done|apply Hnow|].
  rewrite E1, E2 in H.
  assert (carried [] [] true (writer_new s)) as H0 by (split; [exact Hs|constructor]).
  destruct (send_encoded (writer_new s) (Ok d1)) as [w1 r1] eqn:S1.
  destruct (carried_send _ _ _ _ _ _ _ _ H0 C1 S1) as [P1 K1]. destruct r1 as [[]|err|]; [|by simplify_eq|done].
  destruct (flush w1) as [w2 r2] eqn:S2.
  destruct (carried_flush _ _ _ _ _ _ (K1 eq_refl) S2) as [P2 K2]. destruct r2 as [[]|err|]; [|by simplify_eq|done].
  destruct (send_encoded w2 (Ok d2)) as [w3 r3] eqn:S3.
  destruct (carried_send _ _ _ _ _ _ _ _ (K2 eq_refl) C2 S3) as [P3 K3]. destruct r3 as [[]|err|]; [|by simplify_eq|done].
  destruct (flush w3) as [w4 r4] eqn:S4. simplify_eq.
  destruct (carried_flush _ _ _ _ _ _ (K3 eq_refl) S4) as [P4 K4]. split; [done|].
  intros Hr. eexists _, _. split; [by apply K4|]. done.
Qed.

(** ** The invariant of a run *)

Definition conn_inv (c : Conn) : Prop :=
  exists ins out msgs rs,
    lives (W := W) cfg ins out (pipeline c)
    /\ carried msgs rs (bool_decide (flush_deadline c = None)) (writer c)
    /\ wire_view rs = view out /\ take 2 rs.*2 = greeting version hostname.

Definition run_inv (r : Run) : Prop :=
  match r with
  | Connecting pl _ => exists ins out, lives (W := W) cfg ins out pl
  | Connected c => conn_inv c
  | Failed | Crashed => True
  end.

Lemma see_event v ev : see_fields v (event_fields ev) = see v ev.
Proof. by destruct ev. Qed.

Lemma wire_view_app rs rs' evs :
  rs'.*2 = event_fields <$> evs -> wire_view (rs ++ rs') = fold_left see evs (wire_view rs).
Proof.
  intros H. unfold wire_view. rewrite fmap_app, fold_left_app, H. generalize (fold_left see_fields rs.*2 ∅).
  clear H. induction evs as [|ev evs IH]; intros v; [done|]. simpl. by rewrite see_event, IH.
Qed.

(** What is seen after the start of an epoch does not depend on the past. *)
Lemma epoch_view pl v v' : fold_left see (epoch_events pl) v = fold_left see (epoch_events pl) v'.
Proof.
  unfold epoch_events, collector_start_new_epoch, start_new_epoch. destruct (emit_pods _ _). done.
Qed.

Lemma greeting_app (rs rs' : list reading) :
  take 2 rs.*2 = greeting version hostname -> take 2 (rs ++ rs').*2 = greeting version hostname.
Proof.
  intros H. rewrite fmap_app, take_app_le; [done|].
  apply (f_equal length) in H. rewrite length_take in H. destruct version as [[] ]. cbn [greeting length] in H. lia.
Qed.

Lemma establish_inv s pl k :
  run_inv (Connecting pl k) -> taken s = [] -> Forall possible (epoch_events pl) ->
  run_inv (establish s pl k) /\ (establish s pl k = Crashed -> Exists oversized (epoch_events pl)).
Proof.
  intros (ins & out & Hl) Hs Hev. unfold Connection.establish.
  destruct (perform_handshake _ _ _ _ _ _ _ _) as [[w1 k1] r1] eqn:H1.
  destruct (handshake_spec _ _ _ _ _ Hs H1) as [P1 K1]. destruct r1 as [[]|err|]; [|by split; [simpl; eauto|]|done].
  destruct (K1 eq_refl) as (msgs & rs & Hc & Hg). unfold epoch_events in Hev.
  destruct (collector_start_new_epoch pl) as [evs pl'] eqn:He. simpl in Hev.
  pose proof (lives_epoch _ _ _ _ _ _ Hl He) as Hl'.
  destruct (send_events e pad now w1 k1 evs) as [[w2 k2] r2] eqn:H2.
  destruct (send_events_spec _ _ _ _ _ _ _ _ _ Hc Hev H2) as [P2 K2].
  assert (epoch_events pl = evs) as Hevs by (unfold epoch_events; by rewrite He). rewrite Hevs.
  destruct r2 as [[]|err|]; [|by split; [simpl; eauto|]|by split; [|intros _; apply P2]].
  destruct (K2 eq_refl) as (msgs' & rs' & Hc' & Hrs). destruct (flush w2) as [w3 r3] eqn:H3.
  destruct (carried_flush _ _ _ _ _ _ Hc' H3) as [P3 K3].
  destruct r3 as [[]|err|]; [|by split; [simpl; eauto|]|done].
  split; [|done]. eexists _, _, msgs', _. split_and!; [exact Hl'|by apply K3| |].
  - rewrite (wire_view_app _ _ evs Hrs). unfold view. rewrite fold_left_app, <- Hevs. apply epoch_view.
  - apply greeting_app. rewrite Hg. by destruct version as [[] ].
Qed.

Lemma trigger_inv c t r :
  conn_inv c -> on_trigger c t = Some r -> Forall possible (trigger_events c t) ->
  run_inv r /\ (r = Crashed -> Exists oversized (trigger_events c t)).
Proof.
  intros (ins & out & msgs & rs & Hl & Hc & Hv & Hg) Ht Hev. destruct t as [items at'|items|items at'];
    cbn [Connection.on_trigger trigger_events] in Ht, Hev |- *.
  - destruct (next_messages (pipeline c) items) as [evs pl [|]| |] eqn:Hn; try done; simplify_eq; [|done].
    pose proof (lives_batch _ _ _ _ _ _ _ _ Hl Hn) as Hl'.
    assert (evs <> []) as Hne by (pose proof (next_messages_steps (pipeline c) items) as X; rewrite Hn in X; by destruct X).
    destruct (send_events e pad now (writer c) (calls c) evs) as [[w2 k2] r2] eqn:H2.
    destruct (send_events_spec _ _ _ _ _ _ _ _ _ Hc Hev H2) as [P2 K2].
    destruct r2 as [[]|err|]; [|by split; [simpl; eauto|]|by split; [|intros _; apply P2]].
    destruct (K2 eq_refl) as (msgs' & rs' & Hc' & Hrs). split; [|done].
    eexists _, _, msgs', _. split_and!; [exact Hl'| | |].
    + simpl. rewrite (bool_decide_false (evs = [])) by done. simpl.
      destruct (flush_deadline c) as [d|]; exact Hc'.
    + rewrite (wire_view_app _ _ evs Hrs), Hv. unfold view. by rewrite fold_left_app.
    + by apply greeting_app.
  - destruct (next_messages (pipeline c) items) as [| |pl] eqn:Hn; try done. simplify_eq.
    pose proof (lives_waiting _ _ _ _ _ _ Hl Hn) as Hl'.
    destruct (heartbeat_carried e pad (env_pad env) (now (calls c)) (env_now env _)) as (d & -> & Hd).
    destruct (send_encoded (writer c) (Ok d)) as [w1 r1] eqn:H1.
    destruct (carried_send _ _ _ _ _ _ _ _ Hc Hd H1) as [P1 K1]. destruct r1 as [[]|err|]; [|by split; [simpl; eauto|]|done].
    destruct (flush w1) as [w2 r2] eqn:H2. destruct (carried_flush _ _ _ _ _ _ (K1 eq_refl) H2) as [P2 K2].
    destruct r2 as [[]|err|]; [|by split; [simpl; eauto|]|done].
    split; [|done]. eexists _, _, _, _. split_and!; [exact Hl'|by apply K2| |].
    + unfold wire_view. by rewrite fmap_app, fold_left_app.
    + by apply greeting_app.
  - destruct (flush_deadline c) as [d|] eqn:Hd; [|done].
    destruct (next_messages (pipeline c) items) as [| |pl] eqn:Hn; try done.
    destruct (d <=? at'); [|done]. simplify_eq. pose proof (lives_waiting _ _ _ _ _ _ Hl Hn) as Hl'.
    destruct (flush (writer c)) as [w2 r2] eqn:H2. destruct (carried_flush _ _ _ _ _ _ Hc H2) as [P2 K2].
    destruct r2 as [[]|err|]; [|by split; [simpl; eauto|]|done].
    split; [|done]. eexists _, _, _, _. split_and!; [exact Hl'|by apply K2|done|done].
Qed.

Lemma reachable_inv r : reachable r -> run_inv r.
Proof.
  induction 1 as [|r evs r' _ IH Hs]; [by exists [], []; constructor|].
  destruct Hs; [by apply establish_inv|by eapply trigger_inv].
Qed.

End runs.



(** ** Witnesses *)

(** A transport that never fails and a frame that stores its content. *)
Module Stored.
Record Frame := mkFrame { f_before : list Z; f_since : list Z; f_pending : list Z }.

#[global] Instance transport : Transport (list Z) Frame unit := {|
  write_all s bs := Ok (s ++ bs);
  sock_flush s := Ok s;
  enc_new s := mkFrame s [] [];
  enc_write_all x bs := Ok (mkFrame (f_before x) (f_since x) (f_pending x ++ bs));
  enc_flush x := Ok (mkFrame (f_before x) (f_since x ++ f_pending x) []);
|}.

#[global] Instance laws : TransportLaws (list Z) Frame unit.
Proof.
  refine {| taken := fun s => s; before := f_before; since := f_since;
            plain_of := fun x => f_since x ++ f_pending x; decompress := Some |}; simpl; try done.
  - by intros s bs s' [= <-].
  - by intros s s' [= <-].
  - intros x bs x' [= <-]. simpl. by rewrite app_assoc.
  - intros x x' [= <-]. simpl. by rewrite app_nil_r.
Defined.

Definition padding (n : nat) : list Z := replicate n 170.
Definition clock (k : nat) : Z := 1700.
Definition version : Z * Z * Z := (0, 11, 0).

Lemma env : environment padding clock version (lit "node").
Proof.
  split; simpl; [intros n; apply length_replicate|intros k; unfold fits, clock; lia|unfold fits; lia|].
  split; [by vm_compute|simpl; lia].
Qed.

Local Abbreviation mstore := (fun T => (gmap ObjectRef T * gmap ObjectRef T)%type).
Local Abbreviation Run := (Run (store := mstore) (sock := list Z) (enc := Frame)).
Local Abbreviation Conn := (Conn (store := mstore) (sock := list Z) (enc := Frame)).

Definition conn_of (r : Run) : Conn :=
  match r with
  | Connected c => c
  | _ => mkConn (with_client config_default) (mkWriter None) None 0
  end.
Definition after (c : Conn) (t : Trigger (W := unit)) : Run :=
  default Failed (on_trigger LittleEndian padding clock c t).

(** A connection, the announcement of a pod, and the flush after it. *)
Definition c0 : Conn :=
  conn_of (establish Release LittleEndian padding clock version (lit "node") [] (with_client config_default) 0).
Definition t1 : Trigger (W := unit) := Messages [PodItem (Some (Ok [(0, Apply Sample.orphan)]))] 5.
Definition c1 : Conn := conn_of (after c0 t1).
Definition t2 : Trigger (W := unit) := Deadline [] (6 + flush_delay).
Definition c2 : Conn := conn_of (after c1 t2).

(** A pod whose name does not fit a message. *)
Definition huge : PodMeta := mkPod (lit "p2") (lit "10.0.0.2") (replicate (Z.to_nat 65536) 97) (lit "default") None false [] [].
Definition t3 : Trigger (W := unit) := Messages [PodItem (Some (Ok [(9, Apply huge)]))] 9.

Local Abbreviation reachable :=
  (reachable (W := unit) (ioerr := unit) Release LittleEndian padding clock version (lit "node") config_default).

Lemma possible_strings ev :
  forallb valid_utf8 (event_strings ev) = true ->
  match ev with PodResync n => bool_decide (fits 64 n) | _ => true end = true ->
  (event_size ev <? 2 ^ 32 - 8) = true -> possible ev.
Proof.
  intros Hu Hn Hs%Z.ltb_lt. split; [|done]. split; [|by destruct ev; try apply bool_decide_eq_true in Hn].
  apply Forall_forall. intros s Hin. apply list_elem_of_In in Hin. by eapply forallb_forall in Hu.
Qed.

Lemma reach2 : reachable (Connected c2).
Proof.
  apply (reachable_step _ _ _ _ _ _ _ (Connected c1) (trigger_events c1 t2)).
  - apply (reachable_step _ _ _ _ _ _ _ (Connected c0) (trigger_events c0 t1)).
    + apply (reachable_step _ _ _ _ _ _ _ (Connecting (with_client config_default) 0)
        (epoch_events (with_client config_default))); [constructor|].
      replace (Connected c0) with
        (establish Release LittleEndian padding clock version (lit "node") [] (with_client config_default) 0 : Run)
        by (vm_cast_no_check (eq_refl (Connected c0))).
      apply step_establish; [done|].
      apply Forall_cons_2; [apply possible_strings; by vm_compute|]. apply Forall_nil_2.
    + apply step_trigger; [vm_cast_no_check (eq_refl (Some (Connected c1)))|].
      replace (trigger_events c0 t1) with (from_pod_new Sample.orphan None)
        by (vm_cast_no_check (eq_refl (from_pod_new Sample.orphan None))).
      repeat first [apply Forall_nil_2|apply Forall_cons_2; [apply possible_strings; by vm_compute|]].
  - apply step_trigger; [vm_cast_no_check (eq_refl (Some (Connected c2)))|apply Forall_nil_2].
Qed.
End Stored.


