(* ===== verification/Startup.v ===== *)
(** * Configuration (crates/reducer/src/lib.rs, crates/reducer-sys/src/lib.rs,
      crates/k8s-collector-bin/src/main.rs, crates/k8s-collector/src/collector.rs)

    How the programs turn command line and environment into their
    configuration.  The parsed command line (clap) is a record of its options;
    the environment maps names to values that are UTF-8 ([env::var] fails on
    others, as on unset ones). *)

From S2P Require Import Prelude Utf8 K8sTypes Collector IpAddr Connection.

Local Open Scope rust_scope.

Abbreviation environ := (bytes -> option bytes).

(** ** Integers ([uN::from_str]) *)

(** The digits, with the overflow checks of [u64]s and smaller types. *)
Fixpoint parse_digits (w : Z) (s : bytes) (n : Z) : option Z :=
  match s with
  | [] => Some n
  | b :: s =>
      if between 48 57 b then
        let n := n * 10 + (b - 48) in
        if n <? 2 ^ w then parse_digits w s n else None
      else None
  end.

(** An optional plus sign and at least one digit. *)
Definition parse_uint (w : Z) (s : bytes) : option Z :=
  match s with
  | [] => None
  | [b] => parse_digits w s 0
  | b :: s' => if b =? 43 then parse_digits w s' 0 else parse_digits w s 0
  end.

(** ** Printing (the [Display] of integers and [bool]) *)

(** The decimal digits, from the last to the first; a [u64] has at most 20. *)
Fixpoint dec_digits (fuel : nat) (n : Z) (acc : bytes) : bytes :=
  match fuel with
  | O => acc
  | S fuel =>
      let acc := (48 + n mod 10) :: acc in
      if n <? 10 then acc else dec_digits fuel (n / 10) acc
  end.

Definition fmt_uint (n : Z) : bytes := dec_digits 20 n [].
Definition fmt_int (n : Z) : bytes := if n <? 0 then 45 :: fmt_uint (- n) else fmt_uint n.
Definition fmt_bool (b : bool) : bytes := if b then lit "true" else lit "false".

(** [println!("key: {}", value)]. *)
Definition line (key : string) (val : bytes) : bytes := lit key ++ lit ": " ++ val.

(** ** The collector (k8s-collector-bin, collector.rs) *)

Module K8s.
Record Cli := mkCli {
  print_config : bool;
  delete_ttl_secs : Z;
  cli_delete_capacity : Z;
  cli_intake_host : option bytes;
  cli_intake_port : option Z;
}.

(** [Option::or]. *)
Definition or_else {A} (a b : option A) : option A := match a with Some _ => a | None => b end.

Definition build_config (env : environ) (cli : Cli) : Config :=
  let ttl_secs :=
    unwrap_or (delete_ttl_secs cli) (env (lit "K8S_COLLECTOR_DELETE_TTL_SECS") ≫= parse_uint 64) in
  let ttl := ttl_secs * 10 ^ 9 in
  let cap :=
    unwrap_or (cli_delete_capacity cli) (env (lit "K8S_COLLECTOR_DELETE_CAPACITY") ≫= parse_uint 64) in
  let cfg := config_default in
  let cfg :=
    match or_else (env (lit "EBPF_NET_INTAKE_HOST")) (cli_intake_host cli) with
    | Some h => mkConfig h (intake_port cfg) (delete_ttl cfg) (delete_capacity cfg)
    | None => cfg
    end in
  let cfg :=
    match or_else (env (lit "EBPF_NET_INTAKE_PORT") ≫= parse_uint 16) (cli_intake_port cli) with
    | Some p => mkConfig (intake_host cfg) p (delete_ttl cfg) (delete_capacity cfg)
    | None => cfg
    end in
  mkConfig (intake_host cfg) (intake_port cfg) ttl cap.

Definition collector_version (env : environ) : Z * Z * Z :=
  let parse name := env name ≫= parse_uint 32 in
  (unwrap_or 0 (parse (lit "EBPF_NET_MAJOR_VERSION")),
   unwrap_or 11 (parse (lit "EBPF_NET_MINOR_VERSION")),
   unwrap_or 0 (parse (lit "EBPF_NET_PATCH_VERSION"))).

(** The address [run] connects to. *)
Definition intake_addr (cfg : Config) : IpAddr * Z :=
  (unwrap_or (V4 127 0 0 1) (parse_ip (intake_host cfg)), intake_port cfg).

Definition print_config_lines (cfg : Config) : list bytes :=
  [line "intake_host" (intake_host cfg); line "intake_port" (fmt_uint (intake_port cfg));
   line "delete_ttl_secs" (fmt_uint (delete_ttl cfg / 10 ^ 9));
   line "delete_capacity" (fmt_uint (delete_capacity cfg))].

(** The errors of the collector (lib.rs). *)
Inductive Error := Stopped | KubeInit (e : bytes) | RuntimeInit (e : bytes).

Definition error_text (e : Error) : bytes :=
  match e with
  | Stopped => lit "collector stopped"
  | KubeInit e => lit "failed to initialize Kubernetes client: " ++ e
  | RuntimeInit e => lit "failed to initialize Tokio runtime: " ++ e
  end.

(** [runtime] and [client] are the results of [Runtime::new] and
    [Client::try_default], with the text of the error; [run] is the loop over
    the connections, which returns only with an error. *)
Definition run_with_config (runtime client : res bytes unit) (run : Config -> Error) (cfg : Config)
  : res Error unit :=
  match runtime with
  | Err e => Err (RuntimeInit e)
  | Panic => Panic
  | Ok _ =>
      match client with
      | Err e => Err (KubeInit e)
      | Panic => Panic
      | Ok _ => Err (run cfg)
      end
  end.

(** What [main] prints on standard output and on standard error, and the exit
    code. *)
Definition main (env : environ) (cli : Cli) (runtime client : res bytes unit) (run : Config -> Error)
  : list bytes * list bytes * Z :=
  let cfg := build_config env cli in
  if print_config cli then (print_config_lines cfg, [], 0)
  else
    match run_with_config runtime client run cfg with
    | Ok _ => ([], [], 0)
    | Err e => ([], [lit "collector error: " ++ error_text e], 1)
    | Panic => ([], [], 101)
    end.

(** [os_name] is what [hostname::get] returns. *)
Definition collector_hostname (env : environ) (os_name : option bytes) : bytes :=
  match env (lit "K8S_COLLECTOR_HOSTNAME") with
  | Some h => h
  | None =>
      match os_name with
      | Some name => from_utf8_lossy name
      | None => lit "k8s-collector"
      end
  end.
End K8s.

(** ** The reducer (reducer/src/lib.rs) *)

Module Reducer.
Inductive TsdbFormat := prometheus | json | otlp_grpc.

Record ReducerConfig := mkReducerConfig {
  telemetry_port : Z;
  num_ingest_shards : Z; num_matching_shards : Z; num_aggregation_shards : Z; partitions_per_shard : Z;
  enable_id_id : bool; enable_az_id : bool; enable_flow_logs : bool;
  enable_otlp_grpc_metrics : bool; otlp_grpc_metrics_address : bytes; otlp_grpc_metrics_port : Z;
  otlp_grpc_batch_size : Z; enable_otlp_grpc_metric_descriptions : bool;
  disable_prometheus_metrics : bool; shard_prometheus_metrics : bool; prom_bind : bytes;
  scrape_size_limit_bytes : Z; internal_prom_bind : bytes; stats_scrape_size_limit_bytes : Z;
  scrape_metrics_tsdb_format : TsdbFormat;
  disable_node_ip_field : bool; enable_autonomous_system_ip : bool;
  geoip_path : bytes;
  enable_aws_enrichment : bool; enable_percentile_latencies : bool;
  disable_metrics : bytes; enable_metrics : bytes;
  index_dump_interval : Z;
  log_whitelist_all : bool; log_whitelist_client_type : bytes;
  log_whitelist_node_resolution_type : bytes; log_whitelist_channel : bytes;
  log_whitelist_ingest : bytes; log_whitelist_matching : bytes;
}.

Record Cli := mkCli {
  no_log_file : bool; log_console : bool;
  trace : bool; debug : bool; info : bool; warning : bool; error : bool; critical : bool;
  print_config : bool;
  port : option Z;
  metrics_tsdb_format : bytes;
  a_enable_aws_enrichment : bool; a_disable_node_ip_field : bool; a_enable_id_id : bool;
  a_enable_az_id : bool; a_enable_flow_logs : bool; a_enable_autonomous_system_ip : bool;
  a_enable_percentile_latencies : bool;
  a_num_ingest_shards : option Z; a_num_matching_shards : option Z;
  a_num_aggregation_shards : option Z; a_partitions_per_shard : option Z;
  a_disable_prometheus_metrics : bool; a_shard_prometheus_metrics : bool;
  a_prom_bind : option bytes; a_scrape_size_limit_bytes : option Z;
  a_enable_otlp_grpc_metrics : bool; a_otlp_grpc_metrics_address : bytes;
  a_otlp_grpc_metrics_port : option Z; a_otlp_grpc_batch_size : option Z;
  a_enable_otlp_grpc_metric_descriptions : bool;
  a_disable_metrics : option bytes; a_enable_metrics : option bytes;
  a_internal_prom_bind : option bytes; a_stats_scrape_size_limit_bytes : option Z;
  a_index_dump_interval : option Z;
  a_log_whitelist_all : bool; a_log_whitelist_client_type : option bytes;
  a_log_whitelist_node_resolution_type : option bytes; a_log_whitelist_channel : option bytes;
  a_log_whitelist_ingest : option bytes; a_log_whitelist_matching : option bytes;
}.

Definition default_config : ReducerConfig := {|
  telemetry_port := 8000;
  num_ingest_shards := 1; num_matching_shards := 1; num_aggregation_shards := 1;
  partitions_per_shard := 1;
  enable_id_id := false; enable_az_id := false; enable_flow_logs := false;
  enable_otlp_grpc_metrics := false; otlp_grpc_metrics_address := lit "localhost";
  otlp_grpc_metrics_port := 4317; otlp_grpc_batch_size := 1000;
  enable_otlp_grpc_metric_descriptions := false;
  disable_prometheus_metrics := false; shard_prometheus_metrics := false;
  prom_bind := lit "127.0.0.1:7010"; scrape_size_limit_bytes := 0;
  internal_prom_bind := lit "0.0.0.0:7001"; stats_scrape_size_limit_bytes := 0;
  scrape_metrics_tsdb_format := prometheus;
  disable_node_ip_field := false; enable_autonomous_system_ip := false;
  geoip_path := [];
  enable_aws_enrichment := false; enable_percentile_latencies := false;
  disable_metrics := []; enable_metrics := [];
  index_dump_interval := 0;
  log_whitelist_all := false; log_whitelist_client_type := [];
  log_whitelist_node_resolution_type := []; log_whitelist_channel := [];
  log_whitelist_ingest := []; log_whitelist_matching := [];
|}.

Definition to_ascii_lowercase (s : bytes) : bytes :=
  (fun b => if between 65 90 b then b + 32 else b) <$> s.

(** The error carries the format that was not recognised. *)
Definition parse_tsdb_format (s : bytes) : res bytes TsdbFormat :=
  let s := to_ascii_lowercase s in
  if bool_decide (s = lit "prometheus") then Ok prometheus
  else if bool_decide (s = lit "json") then Ok json
  else Err s.

(** [if let Some(v) = option { field = v }]. *)
Local Abbreviation set o d := (unwrap_or d o).

Definition build_final_config (env : environ) (cli : Cli) : res bytes ReducerConfig :=
  let cfg := default_config in
  let limit := set (a_scrape_size_limit_bytes cli) (scrape_size_limit_bytes cfg) in
  let? format := parse_tsdb_format (metrics_tsdb_format cli) in
  Ok {|
    telemetry_port := set (port cli) (telemetry_port cfg);
    num_ingest_shards := set (a_num_ingest_shards cli) (num_ingest_shards cfg);
    num_matching_shards := set (a_num_matching_shards cli) (num_matching_shards cfg);
    num_aggregation_shards := set (a_num_aggregation_shards cli) (num_aggregation_shards cfg);
    partitions_per_shard := set (a_partitions_per_shard cli) (partitions_per_shard cfg);
    enable_id_id := enable_id_id cfg || a_enable_id_id cli;
    enable_az_id := enable_az_id cfg || a_enable_az_id cli;
    enable_flow_logs := enable_flow_logs cfg || a_enable_flow_logs cli;
    enable_otlp_grpc_metrics := enable_otlp_grpc_metrics cfg || a_enable_otlp_grpc_metrics cli;
    otlp_grpc_metrics_address := a_otlp_grpc_metrics_address cli;
    otlp_grpc_metrics_port := set (a_otlp_grpc_metrics_port cli) (otlp_grpc_metrics_port cfg);
    otlp_grpc_batch_size := set (a_otlp_grpc_batch_size cli) (otlp_grpc_batch_size cfg);
    enable_otlp_grpc_metric_descriptions :=
      enable_otlp_grpc_metric_descriptions cfg || a_enable_otlp_grpc_metric_descriptions cli;
    disable_prometheus_metrics := disable_prometheus_metrics cfg || a_disable_prometheus_metrics cli;
    shard_prometheus_metrics := shard_prometheus_metrics cfg || a_shard_prometheus_metrics cli;
    prom_bind := set (a_prom_bind cli) (prom_bind cfg);
    scrape_size_limit_bytes := limit;
    internal_prom_bind := set (a_internal_prom_bind cli) (internal_prom_bind cfg);
    stats_scrape_size_limit_bytes :=
      match a_stats_scrape_size_limit_bytes cli with Some v => v | None => limit end;
    scrape_metrics_tsdb_format := format;
    disable_node_ip_field := disable_node_ip_field cfg || a_disable_node_ip_field cli;
    enable_autonomous_system_ip := enable_autonomous_system_ip cfg || a_enable_autonomous_system_ip cli;
    geoip_path :=
      match env (lit "GEOIP_PATH") with
      | Some val => if bool_decide (val = []) then geoip_path cfg else val
      | None => geoip_path cfg
      end;
    enable_aws_enrichment := enable_aws_enrichment cfg || a_enable_aws_enrichment cli;
    enable_percentile_latencies := enable_percentile_latencies cfg || a_enable_percentile_latencies cli;
    disable_metrics := set (a_disable_metrics cli) (disable_metrics cfg);
    enable_metrics := set (a_enable_metrics cli) (enable_metrics cfg);
    index_dump_interval := set (a_index_dump_interval cli) (index_dump_interval cfg);
    log_whitelist_all := log_whitelist_all cfg || a_log_whitelist_all cli;
    log_whitelist_client_type := set (a_log_whitelist_client_type cli) (log_whitelist_client_type cfg);
    log_whitelist_node_resolution_type :=
      set (a_log_whitelist_node_resolution_type cli) (log_whitelist_node_resolution_type cfg);
    log_whitelist_channel := set (a_log_whitelist_channel cli) (log_whitelist_channel cfg);
    log_whitelist_ingest := set (a_log_whitelist_ingest cli) (log_whitelist_ingest cfg);
    log_whitelist_matching := set (a_log_whitelist_matching cli) (log_whitelist_matching cfg);
  |}.

Definition to_string_tsdb (fmt : TsdbFormat) : bytes :=
  match fmt with
  | prometheus => lit "prometheus"
  | json => lit "json"
  | otlp_grpc => lit "otlp_grpc"
  end.

(** A limit of 0 is none. *)
Definition fmt_limit (n : Z) : bytes := if n =? 0 then lit "unlimited" else fmt_uint n.

Definition print_config_lines (cfg : ReducerConfig) : list bytes :=
  [line "telemetry_port" (fmt_uint (telemetry_port cfg));
   line "num_ingest_shards" (fmt_uint (num_ingest_shards cfg));
   line "num_matching_shards" (fmt_uint (num_matching_shards cfg));
   line "num_aggregation_shards" (fmt_uint (num_aggregation_shards cfg));
   line "partitions_per_shard" (fmt_uint (partitions_per_shard cfg));
   line "enable_id_id" (fmt_bool (enable_id_id cfg));
   line "enable_az_id" (fmt_bool (enable_az_id cfg));
   line "enable_flow_logs" (fmt_bool (enable_flow_logs cfg));
   line "enable_otlp_grpc_metrics" (fmt_bool (enable_otlp_grpc_metrics cfg));
   line "otlp_grpc_metrics_address" (otlp_grpc_metrics_address cfg);
   line "otlp_grpc_metrics_port" (fmt_uint (otlp_grpc_metrics_port cfg));
   line "otlp_grpc_batch_size" (fmt_int (otlp_grpc_batch_size cfg));
   line "enable_otlp_grpc_metric_descriptions" (fmt_bool (enable_otlp_grpc_metric_descriptions cfg));
   line "disable_prometheus_metrics" (fmt_bool (disable_prometheus_metrics cfg));
   line "shard_prometheus_metrics" (fmt_bool (shard_prometheus_metrics cfg));
   line "prom_bind" (prom_bind cfg);
   line "internal_prom_bind" (internal_prom_bind cfg);
   line "scrape_size_limit_bytes" (fmt_limit (scrape_size_limit_bytes cfg));
   line "stats_scrape_size_limit_bytes" (fmt_limit (stats_scrape_size_limit_bytes cfg));
   line "scrape_metrics_tsdb_format" (to_string_tsdb (scrape_metrics_tsdb_format cfg));
   line "disable_node_ip_field" (fmt_bool (disable_node_ip_field cfg));
   line "enable_autonomous_system_ip" (fmt_bool (enable_autonomous_system_ip cfg));
   line "geoip_path" (if bool_decide (geoip_path cfg = []) then lit "none" else geoip_path cfg);
   line "enable_aws_enrichment" (fmt_bool (enable_aws_enrichment cfg));
   line "enable_percentile_latencies" (fmt_bool (enable_percentile_latencies cfg));
   line "disable_metrics" (disable_metrics cfg);
   line "enable_metrics" (enable_metrics cfg);
   line "index_dump_interval" (fmt_uint (index_dump_interval cfg))].

(** The level flags, the most verbose first. *)
Definition set_level (cli : Cli) : option Z :=
  if trace cli then Some 0 else if debug cli then Some 1 else if info cli then Some 2
  else if warning cli then Some 3 else if error cli then Some 4 else if critical cli then Some 5
  else None.

(** What the entry point does, in order: calls of the C++ side, and the text
    written. *)
Inductive Action :=
| InitLogging (log_console no_log_file : bool)
| SetLogLevel (code : Z)
| Eprintln (format : bytes)
| PrintConfig (lines : list bytes)
| ReducerMain (cfg : ReducerConfig).

(** [main_code cfg] is what the C++ entry point returns. *)
Definition run_with_env_args (env : environ) (cli : Cli) (main_code : ReducerConfig -> Z) : list Action * Z :=
  let logging :=
    InitLogging (log_console cli) (no_log_file cli)
    :: match set_level cli with Some code => [SetLogLevel code] | None => [] end in
  match build_final_config env cli with
  | Ok cfg =>
      if print_config cli then (logging ++ [PrintConfig (print_config_lines cfg)], 0)
      else (logging ++ [ReducerMain cfg], main_code cfg)
  | Err e => (logging ++ [Eprintln e], 1)
  | Panic => (logging, 101)
  end.
End Reducer.

(** ** Reading integers *)

Definition digits (s : bytes) : Prop := Forall (fun b => between 48 57 b = true) s.

Definition digits_value (s : bytes) : Z := fold_left (fun n b => n * 10 + (b - 48)) s 0.

Lemma fold_digits_ge s n : digits s -> 0 <= n -> n <= fold_left (fun n b => n * 10 + (b - 48)) s n.
Proof.
  intros H. revert n. induction H as [|b s Hb _ IH]; intros n Hn; simpl; [lia|].
  unfold between in Hb. etrans; [|apply IH]; lia.
Qed.

Lemma parse_digits_value w s n :
  digits s -> 0 <= n < 2 ^ w ->
  parse_digits w s n =
  let v := fold_left (fun n b => n * 10 + (b - 48)) s n in if v <? 2 ^ w then Some v else None.
Proof.
  intros H. revert n. induction H as [|b s Hb Hs IH]; intros n Hn; simpl.
  { by rewrite (proj2 (Z.ltb_lt _ _)) by lia. }
  rewrite Hb. unfold between in Hb. destruct (Z.ltb_spec (n * 10 + (b - 48)) (2 ^ w)).
  - rewrite IH by lia. done.
  - pose proof (fold_digits_ge s (n * 10 + (b - 48)) Hs ltac:(lia)).
    by rewrite (proj2 (Z.ltb_ge _ _)) by lia.
Qed.

(** A string of digits is read as its value when that fits, and not at all
    otherwise. *)
Lemma parse_uint_value w s :
  0 < w -> s <> [] -> digits s ->
  parse_uint w s = if digits_value s <? 2 ^ w then Some (digits_value s) else None.
Proof.
  intros Hw Hne Hd. assert (0 < 2 ^ w) by lia. unfold parse_uint.
  destruct s as [|b [|b' s]]; [done|by apply parse_digits_value; [|lia]|].
  assert (between 48 57 b = true) as Hb by (by inversion Hd). unfold between in Hb.
  rewrite (proj2 (Z.eqb_neq b 43)) by lia. by apply parse_digits_value; [|lia].
Qed.

(** ** The collector's settings *)

(** A setting from the environment, the command line, or the default: a value
    of digits counts when it fits. *)
Definition setting (w : Z) (var : option bytes) (otherwise : Z) : Z :=
  match var with
  | Some s => if digits_value s <? 2 ^ w then digits_value s else otherwise
  | None => otherwise
  end.

Definition numeric (var : option bytes) : Prop :=
  match var with Some s => s <> [] /\ digits s | None => True end.

Lemma setting_parsed w var d :
  0 < w -> numeric var -> unwrap_or d (var ≫= parse_uint w) = setting w var d.
Proof.
  intros Hw. destruct var as [s|]; [|done]. intros [Hs Hd]. simpl. rewrite parse_uint_value by done.
  by destruct (_ <? _).
Qed.

(** C37: With numbers in the environment, the collector's settings are those of
    the environment where they fit their type, else those of the command line,
    else the defaults; a host written as an IPv4 address is the one connected
    to, and a host with any character that no address has, such as a DNS name,
    silently becomes the local host. *)
Theorem collector_settings env cli :
  numeric (env (lit "K8S_COLLECTOR_DELETE_TTL_SECS")) ->
  numeric (env (lit "K8S_COLLECTOR_DELETE_CAPACITY")) ->
  numeric (env (lit "EBPF_NET_INTAKE_PORT")) ->
  let cfg := K8s.build_config env cli in
  delete_ttl cfg = setting 64 (env (lit "K8S_COLLECTOR_DELETE_TTL_SECS")) (K8s.delete_ttl_secs cli) * 10 ^ 9
  /\ delete_capacity cfg
     = setting 64 (env (lit "K8S_COLLECTOR_DELETE_CAPACITY")) (K8s.cli_delete_capacity cli)
  /\ intake_port cfg
     = setting 16 (env (lit "EBPF_NET_INTAKE_PORT")) (unwrap_or 8000 (K8s.cli_intake_port cli))
  /\ intake_host cfg
     = unwrap_or (unwrap_or (lit "127.0.0.1") (K8s.cli_intake_host cli)) (env (lit "EBPF_NET_INTAKE_HOST"))
  /\ (forall a b c d, fits 8 a -> fits 8 b -> fits 8 c -> fits 8 d ->
      intake_host cfg = dotted a b c d -> K8s.intake_addr cfg = (V4 a b c d, intake_port cfg))
  /\ (Exists (fun b => addr_char b = false) (intake_host cfg) ->
      K8s.intake_addr cfg = (V4 127 0 0 1, intake_port cfg)).
Proof.
  intros H1 H2 H3 cfg. unfold cfg. split_and!.
  - unfold K8s.build_config. rewrite setting_parsed by done. done.
  - unfold K8s.build_config. rewrite (setting_parsed _ _ (K8s.cli_delete_capacity cli)) by done. done.
  - rewrite <- setting_parsed by done. unfold K8s.build_config, K8s.or_else.
    destruct (env (lit "EBPF_NET_INTAKE_PORT") ≫= _), (env (lit "EBPF_NET_INTAKE_HOST")),
      (K8s.cli_intake_port cli), (K8s.cli_intake_host cli); done.
  - unfold K8s.build_config, K8s.or_else.
    destruct (env (lit "EBPF_NET_INTAKE_PORT") ≫= _), (env (lit "EBPF_NET_INTAKE_HOST")),
      (K8s.cli_intake_port cli), (K8s.cli_intake_host cli); done.
  - intros a b c d Ha Hb Hc Hd Hh. unfold K8s.intake_addr. f_equal. rewrite Hh. unfold parse_ip, read_ip_addr.
    by rewrite (proj1 (read_dotted a b c d Ha Hb Hc Hd)).
  - intros He. unfold K8s.intake_addr. f_equal. destruct (parse_ip _) as [a|] eqn:Hp; [|done].
    apply parse_ip_chars in Hp. apply Exists_exists in He as (b & Hin & Hb). rewrite Forall_forall in Hp.
    by rewrite (Hp b Hin) in Hb.
Qed.

Definition sample_env : environ := fun name =>
  if bool_decide (name = lit "K8S_COLLECTOR_DELETE_TTL_SECS") then Some (lit "300")
  else if bool_decide (name = lit "EBPF_NET_INTAKE_PORT") then Some (lit "70000")
  else if bool_decide (name = lit "EBPF_NET_INTAKE_HOST") then Some (lit "reducer") else None.

Lemma collector_settings_witness :
  let cfg := K8s.build_config sample_env (K8s.mkCli false 60 10000 None (Some 9000)) in
  delete_ttl cfg = 300 * 10 ^ 9 /\ intake_port cfg = 9000 /\ K8s.intake_addr cfg = (V4 127 0 0 1, 9000).
Proof.
  destruct (collector_settings sample_env (K8s.mkCli false 60 10000 None (Some 9000)))
    as (H1 & _ & H3 & _ & _ & H6).
  - split; [done|]. repeat constructor.
  - exact I.
  - split; [done|]. repeat constructor.
  - split; [exact H1|]. split; [exact H3|]. apply H6. apply Exists_exists. exists 114. split; [|reflexivity].
    apply list_elem_of_here.
Defined.

(** ** Printing and reading *)

Lemma dec_digits_value fuel n acc :
  0 <= n < 10 ^ Z.of_nat fuel ->
  fold_left (fun n b => n * 10 + (b - 48)) (dec_digits fuel n acc) 0
  = fold_left (fun n b => n * 10 + (b - 48)) acc n.
Proof.
  revert n acc. induction fuel as [|fuel IH]; intros n acc Hn; [simpl in *; by replace n with 0 by lia|].
  cbn [dec_digits]. pose proof (Z.div_mod n 10 ltac:(lia)). pose proof (Z.mod_pos_bound n 10 ltac:(lia)).
  destruct (Z.ltb_spec n 10).
  - cbn [fold_left]. rewrite Z.mod_small by lia. f_equal. lia.
  - rewrite IH; [cbn [fold_left]; f_equal; lia|]. split; [apply Z.div_pos; lia|].
    apply Z.div_lt_upper_bound; [lia|]. rewrite <- Z.pow_succ_r, <- Nat2Z.inj_succ by lia. lia.
Qed.

Lemma dec_digits_ok fuel n acc : digits acc -> digits (dec_digits fuel n acc).
Proof.
  revert n acc. induction fuel as [|fuel IH]; intros n acc Ha; [done|]. cbn [dec_digits].
  assert (digits ((48 + n mod 10) :: acc)) as Ha'.
  { constructor; [|done]. pose proof (Z.mod_pos_bound n 10 ltac:(lia)). unfold between.
    apply andb_true_iff. split; apply Z.leb_le; lia. }
  destruct (n <? 10); [done|]. by apply IH.
Qed.

Lemma dec_digits_nonempty fuel n acc : dec_digits (S fuel) n acc <> [].
Proof.
  revert n acc. induction fuel as [|fuel IH]; intros n acc; cbn [dec_digits]; destruct (n <? 10); try done.
  apply IH.
Qed.

(** A printed integer is read back. *)
Lemma parse_fmt_uint w n : 0 < w <= 64 -> fits w n -> parse_uint w (fmt_uint n) = Some n.
Proof.
  intros Hw [Hn0 Hn]. assert (n < 10 ^ 20) as Hsmall.
  { assert (2 ^ w <= 2 ^ 64) by (apply Z.pow_le_mono_r; lia). lia. }
  assert (digits_value (fmt_uint n) = n) as Hv by (apply (dec_digits_value 20 n []); simpl; lia).
  assert (fmt_uint n <> []) as Hne.
  { apply (dec_digits_nonempty 19). }
  rewrite parse_uint_value; [|lia|done|apply dec_digits_ok; constructor].
  by rewrite Hv, (proj2 (Z.ltb_lt _ _)) by done.
Qed.

(** The collector reads back what it prints: in an environment that gives
    the four variables the values printed for a configuration, any command
    line leads to that configuration. *)
Theorem printed_settings_restore cfg secs :
  fits 16 (intake_port cfg) -> fits 64 (delete_capacity cfg) ->
  delete_ttl cfg = secs * 10 ^ 9 -> fits 64 secs ->
  exists host port ttl cap,
    K8s.print_config_lines cfg
    = [line "intake_host" host; line "intake_port" port; line "delete_ttl_secs" ttl; line "delete_capacity" cap]
    /\ forall env cli,
      env (lit "EBPF_NET_INTAKE_HOST") = Some host -> env (lit "EBPF_NET_INTAKE_PORT") = Some port ->
      env (lit "K8S_COLLECTOR_DELETE_TTL_SECS") = Some ttl ->
      env (lit "K8S_COLLECTOR_DELETE_CAPACITY") = Some cap ->
      K8s.build_config env cli = cfg.
Proof.
  intros Hp Hc Ht Hs. eexists _, _, _, _. split; [reflexivity|]. intros env cli Eh Ep Et Ec.
  unfold K8s.build_config. rewrite Eh, Ep, Et, Ec. cbn [mbind option_bind].
  rewrite Ht, Z.div_mul by lia. rewrite !parse_fmt_uint by (done || lia). destruct cfg. simpl in *. by subst.
Qed.

Definition printed_env : environ := fun name =>
  if bool_decide (name = lit "K8S_COLLECTOR_DELETE_TTL_SECS") then Some (lit "300")
  else if bool_decide (name = lit "K8S_COLLECTOR_DELETE_CAPACITY") then Some (lit "5000")
  else if bool_decide (name = lit "EBPF_NET_INTAKE_PORT") then Some (lit "9001")
  else if bool_decide (name = lit "EBPF_NET_INTAKE_HOST") then Some (lit "10.0.0.7") else None.

Lemma printed_settings_restore_witness :
  K8s.build_config printed_env (K8s.mkCli true 60 10000 None (Some 9000))
  = mkConfig (lit "10.0.0.7") 9001 (300 * 10 ^ 9) 5000.
Proof.
  destruct (printed_settings_restore (mkConfig (lit "10.0.0.7") 9001 (300 * 10 ^ 9) 5000) 300)
    as (host & port & ttl & cap & Hl & H); [unfold fits; simpl; lia|unfold fits; simpl; lia|reflexivity|unfold fits; lia|].
  vm_compute in Hl. injection Hl as <- <- <- <-. apply H; reflexivity.
Defined.

(** What the connection assumes of the version and the host name holds of the
    ones the collector computes, when the name is short enough. *)
Lemma parse_digits_fits w s n v : 0 <= n < 2 ^ w -> parse_digits w s n = Some v -> fits w v.
Proof.
  revert n. induction s as [|b s IH]; intros n Hn; simpl; [by intros [= <-]|].
  destruct (between 48 57 b) eqn:Hb; [|done]. destruct (Z.ltb_spec (n * 10 + (b - 48)) (2 ^ w)); [|done].
  apply IH. unfold between in Hb. lia.
Qed.

Lemma parsed_fits w var d : 0 < w -> fits w d -> fits w (unwrap_or d (var ≫= parse_uint w)).
Proof.
  intros Hw Hd. destruct var as [s|]; [|done]. simpl. destruct (parse_uint w s) as [v|] eqn:Hp; [|done].
  assert (0 < 2 ^ w) by lia. simpl. unfold parse_uint in Hp. destruct s as [|b [|b' s]]; [done|..|case_match];
    eapply parse_digits_fits in Hp; (done || lia).
Qed.

Lemma collector_environment pad now env os_name :
  (forall n, length (pad n) = n) -> (forall k, fits 64 (now k)) ->
  (forall name v, env name = Some v -> valid_utf8 v = true) ->
  5 + Z.of_nat (length (K8s.collector_hostname env os_name)) <= 65535 ->
  environment pad now (K8s.collector_version env) (K8s.collector_hostname env os_name).
Proof.
  intros Hpad Hnow Henv Hlen. split; [done|done|..].
  - split_and!; simpl; apply parsed_fits; unfold fits; lia.
  - split; [|done]. unfold K8s.collector_hostname.
    destruct (env (lit "K8S_COLLECTOR_HOSTNAME")) as [h|] eqn:Hh; [by eapply Henv|].
    destruct os_name; [apply lossy_is_valid|done].
Qed.

(** ** The reducer's start *)

(** C38: The reducer starts exactly when the format of the scraped metrics is
    [prometheus] or [json] in any case, and the configuration is not only to be
    printed; then logging was set up first, and what was not given on the
    command line has its default, with the limit for internal statistics
    following the limit for scraped metrics.  Any other format ends with code
    1 before the reducer runs. *)
Theorem reducer_starts env cli main_code acts code :
  Reducer.run_with_env_args env cli main_code = (acts, code) ->
  let fmt := Reducer.to_ascii_lowercase (Reducer.metrics_tsdb_format cli) in
  (exists rest, acts = Reducer.InitLogging (Reducer.log_console cli) (Reducer.no_log_file cli) :: rest)
  /\ (fmt <> lit "prometheus" -> fmt <> lit "json" ->
      code = 1 /\ last acts = Some (Reducer.Eprintln fmt)
      /\ Forall (fun a => forall cfg, a <> Reducer.ReducerMain cfg) acts)
  /\ (fmt = lit "prometheus" \/ fmt = lit "json" ->
      exists cfg,
        Reducer.build_final_config env cli = Ok cfg
        /\ last acts = Some (if Reducer.print_config cli then Reducer.PrintConfig (Reducer.print_config_lines cfg) else Reducer.ReducerMain cfg)
        /\ code = (if Reducer.print_config cli then 0 else main_code cfg)
        /\ Reducer.stats_scrape_size_limit_bytes cfg
           = unwrap_or (Reducer.scrape_size_limit_bytes cfg) (Reducer.a_stats_scrape_size_limit_bytes cli)
        /\ (Reducer.scrape_metrics_tsdb_format cfg = Reducer.json <-> fmt = lit "json")).
Proof.
  intros H fmt. unfold Reducer.run_with_env_args in H.
  assert (Reducer.build_final_config env cli = Panic -> False) as Hnp.
  { unfold Reducer.build_final_config, Reducer.parse_tsdb_format. by repeat case_bool_decide. }
  split_and!.
  - destruct (Reducer.build_final_config env cli); [destruct (Reducer.print_config cli)|..]; simplify_eq; eauto.
  - intros Hp Hj. unfold Reducer.build_final_config, Reducer.parse_tsdb_format in H. fold fmt in H.
    rewrite !bool_decide_false in H by done. simpl in H. simplify_eq. split_and!; [done| |].
    + rewrite app_comm_cons. apply last_snoc.
    + constructor; [done|]. apply Forall_app. split; [|by repeat constructor].
      destruct (Reducer.set_level cli); by repeat constructor.
  - intros Hf. destruct (Reducer.build_final_config env cli) as [cfg|err|] eqn:Hb; [|exfalso|done].
    + exists cfg. split; [done|]. unfold Reducer.build_final_config in Hb.
      destruct (Reducer.parse_tsdb_format _) as [f|err|] eqn:Hpf; [|done..]. simpl in Hb.
      split; [|split; [|split]].
      * destruct (Reducer.print_config cli); simplify_eq; apply last_snoc.
      * destruct (Reducer.print_config cli); by simplify_eq.
      * simplify_eq. simpl. by destruct (Reducer.a_stats_scrape_size_limit_bytes cli).
      * simplify_eq. simpl. unfold Reducer.parse_tsdb_format in Hpf. fold fmt in Hpf.
        clearbody fmt. destruct (decide (fmt = lit "prometheus")) as [->|Hn1]; [vm_compute in Hpf; simplify_eq; split; intros Hx; by vm_compute in Hx|].
        rewrite (bool_decide_false (fmt = lit "prometheus")) in Hpf by done.
        case_bool_decide; by simplify_eq.
    + unfold Reducer.build_final_config, Reducer.parse_tsdb_format in Hb. fold fmt in Hb.
      repeat case_bool_decide; simpl in Hb; try done. by destruct Hf.
Qed.

Definition sample_cli : Reducer.Cli := {|
  Reducer.no_log_file := false; Reducer.log_console := true;
  Reducer.trace := false; Reducer.debug := true; Reducer.info := false; Reducer.warning := true;
  Reducer.error := false; Reducer.critical := false;
  Reducer.print_config := false;
  Reducer.port := Some 9000;
  Reducer.metrics_tsdb_format := lit "JSON";
  Reducer.a_enable_aws_enrichment := false; Reducer.a_disable_node_ip_field := false;
  Reducer.a_enable_id_id := true; Reducer.a_enable_az_id := false; Reducer.a_enable_flow_logs := false;
  Reducer.a_enable_autonomous_system_ip := false; Reducer.a_enable_percentile_latencies := false;
  Reducer.a_num_ingest_shards := None; Reducer.a_num_matching_shards := None;
  Reducer.a_num_aggregation_shards := Some 4; Reducer.a_partitions_per_shard := None;
  Reducer.a_disable_prometheus_metrics := false; Reducer.a_shard_prometheus_metrics := false;
  Reducer.a_prom_bind := None; Reducer.a_scrape_size_limit_bytes := Some 1000;
  Reducer.a_enable_otlp_grpc_metrics := true; Reducer.a_otlp_grpc_metrics_address := lit "localhost";
  Reducer.a_otlp_grpc_metrics_port := None; Reducer.a_otlp_grpc_batch_size := None;
  Reducer.a_enable_otlp_grpc_metric_descriptions := false;
  Reducer.a_disable_metrics := None; Reducer.a_enable_metrics := None;
  Reducer.a_internal_prom_bind := None; Reducer.a_stats_scrape_size_limit_bytes := None;
  Reducer.a_index_dump_interval := None;
  Reducer.a_log_whitelist_all := false; Reducer.a_log_whitelist_client_type := None;
  Reducer.a_log_whitelist_node_resolution_type := None; Reducer.a_log_whitelist_channel := None;
  Reducer.a_log_whitelist_ingest := None; Reducer.a_log_whitelist_matching := None;
|}.

Lemma reducer_starts_witness :
  exists cfg,
    Reducer.build_final_config sample_env sample_cli = Ok cfg
    /\ last (Reducer.run_with_env_args sample_env sample_cli Reducer.telemetry_port).1
       = Some (Reducer.ReducerMain cfg)
    /\ Reducer.stats_scrape_size_limit_bytes cfg = Reducer.scrape_size_limit_bytes cfg.
Proof.
  destruct (Reducer.run_with_env_args sample_env sample_cli Reducer.telemetry_port) as [acts code] eqn:H.
  destruct (reducer_starts _ _ _ _ _ H) as (_ & _ & Hc).
  destruct (Hc (or_intror eq_refl)) as (cfg & H1 & H2 & _ & H4 & _).
  exists cfg. split; [exact H1|]. split; [exact H2|exact H4].
Defined.
